(** * The file-system server (fs/fs.c) and user-level fork (user/fork.c)

    A shallow embedding of the block cache, the bitmap allocator, the file
    layer and the path resolver of [fs/fs.c], and of [duppage]/[fork] of
    [user/fork.c] together with the kernel's [sys_mem_map]
    ([lib/syscall_all.c]).

    The server's address space is a finite map from virtual page numbers to
    mapped pages; every C pointer is a 32-bit address and every access goes
    through [load32], [store32], [load8] or [store8], so that aliasing between
    file records, indirect blocks and the bitmap is the aliasing of the C
    program.  A function that can panic or touch an unmapped address returns
    an [outcome]. *)

From Stdlib Require Import ZArith List Lia Bool.
From stdpp Require Import base tactics option list gmap.

Local Open Scope Z_scope.

(** ** Constants of [include/fs.h] *)

(** Modelled from the spec: [BY2PG] comes from [mmu.h], which is not among the
    sources; the spec fixes the block size to the page size, 4096 bytes. *)
Definition BY2PG : Z := 4096.
Definition BY2BLK : Z := BY2PG.
Definition BIT2BLK : Z := BY2BLK * 8.
Definition MAXNAMELEN : Z := 128.
Definition NDIRECT : Z := 10.
Definition NINDIRECT : Z := BY2BLK / 4.
Definition MAXFILESIZE : Z := NINDIRECT * BY2BLK.
Definition BY2FILE : Z := 256.
Definition FILE2BLK : Z := BY2BLK / BY2FILE.
Definition FTYPE_REG : Z := 0.
Definition FTYPE_DIR : Z := 1.

(** Offsets of the fields of [struct File] (all fields are 4-byte aligned). *)
Definition F_NAME : Z := 0.
Definition F_SIZE : Z := MAXNAMELEN.
Definition F_TYPE : Z := MAXNAMELEN + 4.
Definition F_DIRECT : Z := MAXNAMELEN + 8.
Definition F_INDIRECT : Z := MAXNAMELEN + 8 + NDIRECT * 4.
Definition F_DIR : Z := MAXNAMELEN + 8 + NDIRECT * 4 + 4.

(** Offsets of the fields of [struct Super]. *)
Definition S_MAGIC : Z := 0.
Definition S_NBLOCKS : Z := 4.
Definition S_ROOT : Z := 8.

(** ** Machine integers *)

Definition wrap32 (x : Z) : Z := x mod 2 ^ 32.

(** ** Constants of headers that are not among the sources

    [mmu.h], [error.h] and [fs/fs.h] are taken as parameters; the laws are the
    only facts the development uses about them. *)
Class Platform := {
  DISKMAP : Z;
  DISKMAX : Z;
  SECT2BLK : Z;
  UTOP : Z;
  USTACKTOP : Z;
  PTE_V : Z;
  PTE_R : Z;
  PTE_COW : Z;
  PTE_LIBRARY : Z;
  E_BAD_ENV : Z;
  E_INVAL : Z;
  E_NO_MEM : Z;
  E_NO_DISK : Z;
  E_NOT_FOUND : Z;
  E_BAD_PATH : Z;
  E_FILE_EXISTS : Z;
  ENV_FREE : Z;
  ENVX : Z -> Z;
  diskmap_pos : BY2PG <= DISKMAP;
  diskmap_aligned : DISKMAP mod BY2PG = 0;
  diskmax_aligned : DISKMAX mod BY2PG = 0;
  diskmax_pos : 0 <= DISKMAX;
  diskmap_window : DISKMAP + DISKMAX <= UTOP;
  ustacktop_utop : BY2PG <= USTACKTOP <= UTOP;
  utop_32 : UTOP <= 2 ^ 32;
  pte_v_bit : exists k, 0 <= k < 12 /\ PTE_V = 2 ^ k;
  pte_r_bit : exists k, 0 <= k < 12 /\ PTE_R = 2 ^ k;
  pte_cow_bit : exists k, 0 <= k < 12 /\ PTE_COW = 2 ^ k;
  pte_library_bit : exists k, 0 <= k < 12 /\ PTE_LIBRARY = 2 ^ k;
  pte_distinct : NoDup [PTE_V; PTE_R; PTE_COW; PTE_LIBRARY];
  errno_range : Forall (fun e => 0 < e < 2 ^ 31)
      [E_BAD_ENV; E_INVAL; E_NO_MEM; E_NO_DISK; E_NOT_FOUND; E_BAD_PATH;
       E_FILE_EXISTS];
  errno_distinct : NoDup
      [E_BAD_ENV; E_INVAL; E_NO_MEM; E_NO_DISK; E_NOT_FOUND; E_BAD_PATH;
       E_FILE_EXISTS]
}.

(** ** The server's state *)

(** [pages] is the server's address space: virtual page number to the
    permission bits of the mapping and the [BY2PG/4] words of the page.
    [disk] holds the contents of the disk, keyed by the first sector of each
    block; [ide_log] lists the first sectors written by [ide_write], most
    recent first.  [kfree] stands for the kernel's free pages, in the order
    [page_alloc] hands them out. *)
Record state := mkState {
  super : Z;
  bitmap : Z;
  nbitmap : Z;
  pages : gmap Z (Z * list Z);
  disk : gmap Z (list Z);
  ide_log : list Z;
  kfree : list (list Z)
}.

Definition set_pages (f : gmap Z (Z * list Z) -> gmap Z (Z * list Z)) (s : state) : state :=
  mkState (super s) (bitmap s) (nbitmap s) (f (pages s)) (disk s) (ide_log s) (kfree s).

Definition set_kfree (k : list (list Z)) (s : state) : state :=
  mkState (super s) (bitmap s) (nbitmap s) (pages s) (disk s) (ide_log s) k.

Definition set_disk (secno : Z) (ws : list Z) (s : state) : state :=
  mkState (super s) (bitmap s) (nbitmap s) (pages s)
          (<[secno := ws]> (disk s)) (secno :: ide_log s) (kfree s).

(** The result of running a piece of the server: a value and a new state, a
    [user_panic] (or failed [user_assert]), or an access to an unmapped
    address. *)
Inductive outcome (A : Type) : Type :=
| Ret (a : A) (s : state)
| Panic
| Fault.
Arguments Ret {A} a s.
Arguments Panic {A}.
Arguments Fault {A}.

Definition M (A : Type) : Type := state -> outcome A.

Definition ret {A} (a : A) : M A := fun s => Ret a s.
Definition bind {A B} (c : M A) (k : A -> M B) : M B :=
  fun s => match c s with
           | Ret a s' => k a s'
           | Panic => Panic
           | Fault => Fault
           end.
Definition user_panic {A} : M A := fun _ => Panic.
Definition fault {A} : M A := fun _ => Fault.
Definition get {A} (f : state -> A) : M A := fun s => Ret (f s) s.
Definition modify (f : state -> state) : M unit := fun s => Ret tt (f s).

Declare Scope fs_scope.
Delimit Scope fs_scope with fs.
Notation "x ← y ; z" := (bind y (fun x => z))
  (at level 20, y at level 100, z at level 200, only parsing) : fs_scope.
Notation "y ;; z" := (bind y (fun _ => z))
  (at level 100, z at level 200, only parsing, right associativity) : fs_scope.
Local Open Scope fs_scope.

(** ** Memory *)

Definition VPN (va : Z) : Z := va / BY2PG.
Definition word_ix (va : Z) : nat := Z.to_nat ((va mod BY2PG) / 4).
Definition zero_page : list Z := replicate (Z.to_nat (BY2PG / 4)) 0.

(** The word at address [va], when its page is mapped and holds it. *)
Definition peek (s : state) (va : Z) : option Z :=
  match pages s !! VPN va with
  | Some (_, ws) => wrap32 <$> ws !! word_ix va
  | None => None
  end.

(** The state after a word store at [va], when its page is mapped. *)
Definition poke (s : state) (va v : Z) : option state :=
  match pages s !! VPN va with
  | Some (perm, ws) =>
      if decide (word_ix va < length ws)%nat
      then Some (set_pages <[VPN va := (perm, <[word_ix va := wrap32 v]> ws)]> s)
      else None
  | None => None
  end.

Definition load32 (va : Z) : M Z := fun s =>
  match peek s va with
  | Some w => Ret w s
  | None => Fault
  end.

Definition store32 (va v : Z) : M unit := fun s =>
  match poke s va v with
  | Some s' => Ret tt s'
  | None => Fault
  end.

(** Bytes sit in their word in little-endian order. *)
Definition byte_of (w k : Z) : Z := Z.land (Z.shiftr w (8 * k)) 255.
Definition set_byte (w k b : Z) : Z :=
  Z.lor (Z.land w (Z.lnot (Z.shiftl 255 (8 * k)) mod 2 ^ 32))
        (Z.shiftl (Z.land b 255) (8 * k)).

Definition load8 (va : Z) : M Z :=
  w ← load32 (va - va mod 4); ret (byte_of w (va mod 4)).

Definition store8 (va b : Z) : M unit :=
  w ← load32 (va - va mod 4); store32 (va - va mod 4) (set_byte w (va mod 4) b).

Section FS.
Context {P : Platform}.

(** ** Kernel and driver services used by the server *)

(** [sys_mem_alloc] of lib/syscall_all.c for [envid = 0].
    Modelled from the spec: [page_alloc] and [page_insert] (pmap.c) are not
    among the sources; a fresh physical page backs [va], replacing whatever
    was mapped there, and the call fails with [-E_NO_MEM] when the kernel has
    no free page. *)
Definition syscall_mem_alloc (va perm : Z) : M Z :=
  if (Z.land perm PTE_V =? 0) || negb (Z.land perm PTE_COW =? 0) || (UTOP <=? va)
  then ret (- E_INVAL)
  else
    k ← get kfree;
    match k with
    | [] => ret (- E_NO_MEM)
    | pg :: k' =>
        modify (fun s => set_kfree k' (set_pages <[VPN va := (perm, pg)]> s));;
        ret 0
    end.

(** [sys_mem_map] of lib/syscall_all.c for [srcid = dstid = 0].
    Modelled from the spec: [pgdir_walk] and [page_insert] are not among the
    sources; the page mapped at [srcva] becomes mapped at [dstva] with
    permission [perm]. *)
Definition syscall_mem_map (srcva dstva perm : Z) : M Z :=
  if (Z.land perm PTE_V =? 0) || (UTOP <=? srcva) || (UTOP <=? dstva)
  then user_panic
  else
    pg ← get pages;
    match pg !! VPN srcva with
    | None => fault
    | Some (_, ws) =>
        modify (set_pages <[VPN dstva := (perm, ws)]>);; ret 0
    end.

(** [sys_mem_unmap] for [envid = 0]. *)
Definition syscall_mem_unmap (va : Z) : M Z :=
  modify (set_pages (delete (VPN va)));; ret 0.

(** Modelled from the spec: fs/ide.c is not among the sources;
    [ide_read(disk, sector, va, nsectors)] copies a block from the disk to
    the page at [va], [ide_write] copies the page at [va] to the disk. *)
Definition ide_read (diskno secno va nsecs : Z) : M unit := fun s =>
  match pages s !! VPN va with
  | Some (perm, _) =>
      Ret tt (set_pages <[VPN va := (perm, default zero_page (disk s !! secno))]> s)
  | None => Fault
  end.

Definition ide_write (diskno secno va nsecs : Z) : M unit := fun s =>
  match pages s !! VPN va with
  | Some (_, ws) => Ret tt (set_disk secno ws s)
  | None => Fault
  end.

(** ** Block cache *)

Definition s_nblocks : M Z :=
  sup ← get super; load32 (sup + S_NBLOCKS).

Definition diskaddr (blockno : Z) : M Z :=
  sup ← get super;
  bad ← (if sup =? 0 then ret false
         else nb ← s_nblocks; ret (nb <=? blockno));
  if bad : bool then user_panic
  else ret (wrap32 (DISKMAP + blockno * BY2BLK)).

(** The page directory and page table entries of [va] are both valid. *)
Definition mapped (s : state) (va : Z) : bool :=
  match pages s !! VPN va with
  | Some (perm, _) => negb (Z.land perm PTE_V =? 0)
  | None => false
  end.

Definition va_is_mapped (va : Z) : M bool := get (fun s => mapped s va).

Definition block_is_mapped (blockno : Z) : M Z :=
  va ← diskaddr blockno;
  m ← va_is_mapped va;
  if m then ret va else ret 0.

Definition va_is_dirty (va : Z) : M bool := ret false.

Definition block_is_dirty (blockno : Z) : M bool :=
  va ← diskaddr blockno;
  m ← va_is_mapped va;
  if m then va_is_dirty va else ret false.

Definition map_block (blockno : Z) : M Z :=
  m ← block_is_mapped blockno;
  if negb (m =? 0) then ret 0
  else va ← diskaddr blockno; syscall_mem_alloc va (Z.lor PTE_V PTE_R).

Definition bit_mask (blockno : Z) : Z := wrap32 (Z.shiftl 1 (blockno mod 32)).
Definition bitmap_word (blockno : Z) : M Z :=
  bm ← get bitmap; ret (wrap32 (bm + 4 * (blockno / 32))).

Definition block_is_free (blockno : Z) : M Z :=
  sup ← get super;
  out ← (if sup =? 0 then ret true
         else nb ← s_nblocks; ret (nb <=? blockno));
  if out : bool then ret 0
  else
    a ← bitmap_word blockno;
    w ← load32 a;
    if negb (Z.land w (bit_mask blockno) =? 0) then ret 1 else ret 0.

(** [read_block(blockno, &blk, &isnew)]: the result is the return value, the
    address stored in [*blk] and the flag stored in [*isnew]. *)
Definition read_block (blockno : Z) : M (Z * Z * Z) :=
  sup ← get super;
  bad ← (if sup =? 0 then ret false
         else nb ← s_nblocks; ret (nb <=? blockno));
  if bad : bool then user_panic
  else
    bm ← get bitmap;
    fr ← (if bm =? 0 then ret 0 else block_is_free blockno);
    if negb (fr =? 0) then user_panic
    else
      va ← diskaddr blockno;
      m ← block_is_mapped blockno;
      if negb (m =? 0) then ret (0, va, 0)
      else
        syscall_mem_alloc va (Z.lor PTE_V PTE_R);;
        ide_read 1 (wrap32 (blockno * SECT2BLK)) va SECT2BLK;;
        ret (0, va, 1).

Definition write_block (blockno : Z) : M unit :=
  m ← block_is_mapped blockno;
  if m =? 0 then user_panic
  else
    va ← diskaddr blockno;
    ide_write 1 (wrap32 (blockno * SECT2BLK)) va SECT2BLK;;
    syscall_mem_map va va (Z.lor (Z.lor PTE_V PTE_R) PTE_LIBRARY);;
    ret tt.

Definition unmap_block (blockno : Z) : M unit :=
  m ← block_is_mapped blockno;
  if m =? 0 then ret tt
  else
    fr ← block_is_free blockno;
    ok ← (if negb (fr =? 0) then ret true
          else d ← block_is_dirty blockno; ret (negb d));
    if negb ok then user_panic
    else
      va ← diskaddr blockno;
      r ← syscall_mem_unmap va;
      if r <? 0 then user_panic
      else
        m' ← block_is_mapped blockno;
        if negb (m' =? 0) then user_panic else ret tt.

(** ** Bitmap allocator *)

Definition free_block (blockno : Z) : M unit :=
  if blockno =? 0 then user_panic
  else
    a ← bitmap_word blockno;
    w ← load32 a;
    store32 a (Z.lor w (bit_mask blockno)).

(** The body of the [for] loop of [alloc_block_num], for [n] more block
    numbers starting at [blockno]; neither [super->s_nblocks] nor the bitmap
    changes while the loop scans.  [blockno] is an [int]: incrementing it
    past [INT_MAX] is undefined in C and is a [Fault] here, so a block number
    that the loop returns is never negative. *)
Fixpoint alloc_scan (n : nat) (blockno : Z) : M Z :=
  match n with
  | O => ret (- E_NO_DISK)
  | S n' =>
      if 2 ^ 31 <=? blockno then fault
      else
        a ← bitmap_word blockno;
        w ← load32 a;
        if negb (Z.land w (bit_mask blockno) =? 0) then
          store32 a (Z.land w (wrap32 (Z.lnot (bit_mask blockno))));;
          write_block (blockno / BIT2BLK);;
          ret blockno
        else alloc_scan n' (blockno + 1)
  end.

Definition alloc_block_num : M Z :=
  nb ← s_nblocks;
  alloc_scan (Z.to_nat (nb - 3)) 3.

Definition alloc_block : M Z :=
  r ← alloc_block_num;
  if r <? 0 then ret r
  else
    r' ← map_block r;
    if r' <? 0 then free_block r;; ret r'
    else ret r.

(** ** Write-back of the whole cache *)

Fixpoint fs_sync_loop (n : nat) (i : Z) : M unit :=
  match n with
  | O => ret tt
  | S n' =>
      d ← block_is_dirty i;
      (if d then write_block i else ret tt);;
      fs_sync_loop n' (i + 1)
  end.

Definition fs_sync : M unit :=
  nb ← s_nblocks;
  fs_sync_loop (Z.to_nat nb) 0.

(** ** File layer *)

(** Addresses of the fields of the [struct File] at address [f]. *)
Definition f_name (f : Z) : Z := wrap32 (f + F_NAME).
Definition f_size (f : Z) : Z := wrap32 (f + F_SIZE).
Definition f_type (f : Z) : Z := wrap32 (f + F_TYPE).
Definition f_direct (f i : Z) : Z := wrap32 (f + F_DIRECT + 4 * i).
Definition f_indirect (f : Z) : Z := wrap32 (f + F_INDIRECT).
Definition f_dir (f : Z) : Z := wrap32 (f + F_DIR).

(** The number of blocks that [size] bytes occupy, in [u_int] arithmetic. *)
Definition nblocks_of (size : Z) : Z := wrap32 (size + BY2BLK - 1) / BY2BLK.

(** [file_block_walk(f, filebno, &ptr, alloc)]: the result is the return
    value and the value of [ptr] afterwards; [ptr0] is its value before. *)
Definition file_block_walk (f filebno ptr0 alloc : Z) : M (Z * Z) :=
  if filebno <? NDIRECT then ret (0, f_direct f filebno)
  else if filebno <? NINDIRECT then
    let rest : M (Z * Z) :=
      ind ← load32 (f_indirect f);
      rb ← read_block ind;
      let '(r, blk, _) := rb in
      if r <? 0 then ret (r, ptr0)
      else if blk =? 0 then user_panic
      else ret (0, wrap32 (blk + 4 * filebno)) in
    ind ← load32 (f_indirect f);
    if ind =? 0 then
      if alloc =? 0 then ret (- E_NOT_FOUND, ptr0)
      else
        r ← alloc_block;
        if r <? 0 then ret (r, ptr0)
        else store32 (f_indirect f) r;; rest
    else rest
  else ret (- E_INVAL, ptr0).

(** [file_map_block(f, filebno, &diskbno, alloc)]: return value and
    [diskbno] afterwards.  The local [ptr] starts uninitialised; it is read
    only after a successful walk has set it. *)
Definition file_map_block (f filebno diskbno0 alloc : Z) : M (Z * Z) :=
  wk ← file_block_walk f filebno 0 alloc;
  let '(r, ptr) := wk in
  if r <? 0 then ret (r, diskbno0)
  else
    let rest : M (Z * Z) := v ← load32 ptr; ret (0, v) in
    v ← load32 ptr;
    if v =? 0 then
      if alloc =? 0 then ret (- E_NOT_FOUND, diskbno0)
      else
        r' ← alloc_block;
        if r' <? 0 then ret (r', diskbno0)
        else store32 ptr r';; rest
    else rest.

(** [file_clear_block]: [ptr] starts as [NULL] (address 0). *)
Definition file_clear_block (f filebno : Z) : M Z :=
  wk ← file_block_walk f filebno 0 0;
  let '(r, ptr) := wk in
  if (r <? 0) && negb (r =? - E_NOT_FOUND) then ret r
  else
    v ← load32 ptr;
    if negb (v =? 0) then
      v' ← load32 ptr;
      free_block v';;
      store32 ptr 0;;
      ret 0
    else ret 0.

(** [file_get_block(f, filebno, &blk)]: return value and [blk] afterwards. *)
Definition file_get_block (f filebno blk0 : Z) : M (Z * Z) :=
  mp ← file_map_block f filebno 0 1;
  let '(r, diskbno) := mp in
  if r <? 0 then ret (r, blk0)
  else
    rb ← read_block diskbno;
    let '(r', va, _) := rb in
    if r' <? 0 then ret (r', va) else ret (0, va).

Definition file_dirty (f offset : Z) : M Z :=
  gb ← file_get_block f (offset / BY2BLK) 0;
  let '(r, blk) := gb in
  if r <? 0 then ret r
  else c ← load8 blk; store8 blk c;; ret 0.

(** ** Strings

    A C string held in a local buffer or passed as an argument is the list of
    its bytes; the end of the list, or a zero byte, is its terminator.  The
    string library (lib/string.c) is not among the sources.
    Modelled from the spec: [strcmp] compares up to the first difference or
    the terminator, [strcpy] copies up to and including the terminator. *)

Definition cur (p : list Z) : Z := hd 0 p.

(** [strcmp(p, name) == 0] for a string at address [p] in memory. *)
Fixpoint strcmp_mem (p : Z) (name : list Z) : M bool :=
  match name with
  | [] => c ← load8 p; ret (c =? 0)
  | x :: name' =>
      c ← load8 p;
      if x =? 0 then ret (c =? 0)
      else if c =? x then strcmp_mem (wrap32 (p + 1)) name'
      else ret false
  end.

Fixpoint strcpy_mem (dst : Z) (src : list Z) : M unit :=
  match src with
  | [] => store8 dst 0
  | x :: src' =>
      if x =? 0 then store8 dst 0
      else store8 dst x;; strcpy_mem (wrap32 (dst + 1)) src'
  end.

(** ** Directories *)

(** The inner [for] loop of [dir_lookup] over the records [j], [j+1], ... of
    the block at [blk]: the address of the record found, if any. *)
Fixpoint dir_lookup_scan (n : nat) (blk j dir : Z) (name : list Z) : M (option Z) :=
  match n with
  | O => ret None
  | S n' =>
      let fj := wrap32 (blk + j * BY2FILE) in
      e ← strcmp_mem (f_name fj) name;
      if e : bool then store32 (f_dir fj) dir;; ret (Some fj)
      else dir_lookup_scan n' blk (j + 1) dir name
  end.

Fixpoint dir_lookup_loop (n : nat) (i dir : Z) (name : list Z) (file0 : Z) : M (Z * Z) :=
  match n with
  | O => ret (- E_NOT_FOUND, file0)
  | S n' =>
      gb ← file_get_block dir i 0;
      let '(r, blk) := gb in
      if r <? 0 then ret (r, file0)
      else
        hit ← dir_lookup_scan (Z.to_nat FILE2BLK) blk 0 dir name;
        match hit with
        | Some fj => ret (0, fj)
        | None => dir_lookup_loop n' (i + 1) dir name file0
        end
  end.

(** [dir_lookup(dir, name, &file)]: return value and [file] afterwards. *)
Definition dir_lookup (dir : Z) (name : list Z) (file0 : Z) : M (Z * Z) :=
  sz ← load32 (f_size dir);
  dir_lookup_loop (Z.to_nat (nblocks_of sz)) 0 dir name file0.

Fixpoint dir_alloc_scan (n : nat) (blk j : Z) : M (option Z) :=
  match n with
  | O => ret None
  | S n' =>
      let fj := wrap32 (blk + j * BY2FILE) in
      c ← load8 (f_name fj);
      if c =? 0 then ret (Some fj)
      else dir_alloc_scan n' blk (j + 1)
  end.

(** The outer loop of [dir_alloc_file]; [None] when every block was scanned
    without finding a free record. *)
Fixpoint dir_alloc_loop (n : nat) (i dir file0 : Z) : M (option (Z * Z)) :=
  match n with
  | O => ret None
  | S n' =>
      gb ← file_get_block dir i 0;
      let '(r, blk) := gb in
      if r <? 0 then ret (Some (r, file0))
      else
        hit ← dir_alloc_scan (Z.to_nat FILE2BLK) blk 0;
        match hit with
        | Some fj => ret (Some (0, fj))
        | None => dir_alloc_loop n' (i + 1) dir file0
        end
  end.

(** [dir_alloc_file(dir, &file)]: return value and [file] afterwards. *)
Definition dir_alloc_file (dir file0 : Z) : M (Z * Z) :=
  sz ← load32 (f_size dir);
  let nblock := nblocks_of sz in
  res ← dir_alloc_loop (Z.to_nat nblock) 0 dir file0;
  match res with
  | Some out => ret out
  | None =>
      sz' ← load32 (f_size dir);
      store32 (f_size dir) (sz' + BY2BLK);;
      gb ← file_get_block dir nblock 0;
      let '(r, blk) := gb in
      if r <? 0 then ret (r, file0) else ret (0, blk)
  end.

(** ** Path resolver *)

Definition SLASH : Z := 47.

(** [skip_slash]: the rest of the string from its first byte that is not a
    slash. *)
Fixpoint skip_slash (p : list Z) : list Z :=
  match p with
  | c :: p' => if c =? SLASH then skip_slash p' else p
  | [] => []
  end.

(** The scan over one path component: the rest of the string from its first
    slash or terminator. *)
Fixpoint skip_name (p : list Z) : list Z :=
  match p with
  | c :: p' => if negb (c =? SLASH) && negb (c =? 0) then skip_name p' else p
  | [] => []
  end.

(** The [while] loop of [walk_path].  The result is the return value and the
    values of [pdir], [pfile] and the buffer [lastelem] afterwards.  Every
    iteration consumes at least one byte of [path], so [fuel] above the
    length of [path] is never exhausted ([walk_loop_fuel]). *)
Fixpoint walk_loop (fuel : nat) (path : list Z) (dir file : Z) (lastelem : list Z)
    : M (Z * Z * Z * list Z) :=
  match fuel with
  | O => fault
  | S fuel' =>
      if cur path =? 0 then ret (0, dir, file, lastelem)
      else
        let dir := file in
        let p := path in
        let path := skip_name path in
        let len := Z.of_nat (length p) - Z.of_nat (length path) in
        if MAXNAMELEN <=? len then ret (- E_BAD_PATH, 0, 0, lastelem)
        else
          let name := take (Z.to_nat len) p in
          let path := skip_slash path in
          ty ← load32 (f_type dir);
          if negb (ty =? FTYPE_DIR) then ret (- E_NOT_FOUND, 0, 0, lastelem)
          else
            lk ← dir_lookup dir name file;
            let '(r, file') := lk in
            if r <? 0 then
              if (r =? - E_NOT_FOUND) && (cur path =? 0)
              then ret (r, dir, 0, name)
              else ret (r, 0, 0, lastelem)
            else walk_loop fuel' path dir file' lastelem
  end.

(** [walk_path(path, &dir, &file, lastelem)]. *)
Definition walk_path (path : list Z) (lastelem : list Z) : M (Z * Z * Z * list Z) :=
  let path := skip_slash path in
  sup ← get super;
  walk_loop (S (length path)) path 0 (wrap32 (sup + S_ROOT)) lastelem.

(** The loop of [walk_path] reaches a component: standing at [path] with
    [file] in state [s], it comes to stand at [path'] with [file'] in state
    [s'] after rounds that each pass the length check, find [file] to be a
    directory and find the name in it. *)
Inductive walk_reaches : list Z -> Z -> state -> list Z -> Z -> state -> Prop :=
| walk_here (path : list Z) (file : Z) (s : state) :
    walk_reaches path file s path file s
| walk_round (path : list Z) (file : Z) (s s1 s2 : state) (r file1 : Z)
      (path' : list Z) (file' : Z) (s' : state) :
    cur path <> 0 ->
    Z.of_nat (length path) - Z.of_nat (length (skip_name path)) < MAXNAMELEN ->
    load32 (f_type file) s = Ret FTYPE_DIR s1 ->
    dir_lookup file
      (take (Z.to_nat (Z.of_nat (length path) - Z.of_nat (length (skip_name path))))
         path) file s1 = Ret (r, file1) s2 ->
    0 <= r ->
    walk_reaches (skip_slash (skip_name path)) file1 s2 path' file' s' ->
    walk_reaches path file s path' file' s'.

(** [file_open(path, &file)]: return value and [file] afterwards. *)
Definition file_open (path : list Z) (file0 : Z) : M (Z * Z) :=
  wp ← walk_path path [];
  let '(r, _, f, _) := wp in
  if r <? 0 then ret (r, file0) else ret (0, f).

(** [file_create(path, &file)]: return value and [file] afterwards. *)
Definition file_create (path : list Z) (file0 : Z) : M (Z * Z) :=
  wp ← walk_path path [];
  let '(r, dir, f, name) := wp in
  if r =? 0 then ret (- E_FILE_EXISTS, file0)
  else if negb (r =? - E_NOT_FOUND) || (dir =? 0) then ret (r, file0)
  else
    da ← dir_alloc_file dir f;
    let '(r', f') := da in
    if r' <? 0 then ret (r, file0)
    else strcpy_mem (f_name f') name;; ret (0, f').

(** ** Truncation and write-back of a file *)

Fixpoint file_truncate_loop (n : nat) (f bno : Z) : M unit :=
  match n with
  | O => ret tt
  | S n' => file_clear_block f bno;; file_truncate_loop n' f (bno + 1)
  end.

Definition file_truncate (f newsize : Z) : M unit :=
  sz ← load32 (f_size f);
  let old_nblocks := nblocks_of sz in
  let new_nblocks := if newsize =? 0 then 0 else nblocks_of newsize in
  file_truncate_loop (Z.to_nat (old_nblocks - new_nblocks)) f new_nblocks;;
  ind ← load32 (f_indirect f);
  (if negb (ind =? 0) then
     ind' ← load32 (f_indirect f);
     free_block ind';;
     store32 (f_indirect f) 0
   else ret tt);;
  store32 (f_size f) newsize.

(** The loop of [file_flush]; it stops at the first block that
    [file_map_block] does not find. *)
Fixpoint file_flush_loop (n : nat) (f bno diskno : Z) : M unit :=
  match n with
  | O => ret tt
  | S n' =>
      mp ← file_map_block f bno diskno 0;
      let '(r, diskno') := mp in
      if r <? 0 then ret tt
      else
        d ← block_is_dirty diskno';
        (if d : bool then write_block diskno' else ret tt);;
        file_flush_loop n' f (bno + 1) diskno'
  end.

Definition file_flush (f : Z) : M unit :=
  sz ← load32 (f_size f);
  file_flush_loop (Z.to_nat (nblocks_of sz)) f 0 0.

Definition file_set_size (f newsize : Z) : M Z :=
  sz ← load32 (f_size f);
  (if newsize <? sz then file_truncate f newsize else ret tt);;
  store32 (f_size f) newsize;;
  d ← load32 (f_dir f);
  (if negb (d =? 0) then d' ← load32 (f_dir f); file_flush d' else ret tt);;
  ret 0.

Definition file_close (f : Z) : M unit :=
  file_flush f;;
  d ← load32 (f_dir f);
  if negb (d =? 0) then d' ← load32 (f_dir f); file_flush d' else ret tt.

Definition file_remove (path : list Z) : M Z :=
  wp ← walk_path path [];
  let '(r, _, f, _) := wp in
  if r <? 0 then ret r
  else
    file_truncate f 0;;
    store8 (f_name f) 0;;
    file_flush f;;
    d ← load32 (f_dir f);
    (if negb (d =? 0) then d' ← load32 (f_dir f); file_flush d' else ret tt);;
    ret 0.

End FS.

(** * User-level fork (user/fork.c) over the kernel's page tables *)

(** An environment's page directory: page-directory index to page table,
    page-table index to entry.  A missing page table is an invalid directory
    entry; a missing entry of a page table reads as 0. *)
Record Env := mkEnv {
  env_id : Z;
  env_parent_id : Z;
  env_status : Z;
  env_pgdir : gmap Z (gmap Z Z)
}.

(** [envs] is the kernel's table of environments by index, [curenv] the
    index of the running one and [nfree] the number of physical pages on the
    kernel's list of free pages. *)
Record kernel := mkKernel {
  envs : gmap Z Env;
  curenv : Z;
  nfree : Z
}.

Inductive kresult (A : Type) : Type :=
| KRet (a : A) (k : kernel)
| KPanic
| KFault.
Arguments KRet {A} a k.
Arguments KPanic {A}.
Arguments KFault {A}.

Definition K (A : Type) : Type := kernel -> kresult A.
Definition kret {A} (a : A) : K A := fun k => KRet a k.
Definition kbind {A B} (c : K A) (f : A -> K B) : K B :=
  fun k => match c k with
           | KRet a k' => f a k'
           | KPanic => KPanic
           | KFault => KFault
           end.

Declare Scope kernel_scope.
Delimit Scope kernel_scope with kernel.
Notation "x ← y ; z" := (kbind y (fun x => z))
  (at level 20, y at level 100, z at level 200, only parsing) : kernel_scope.
Notation "y ;; z" := (kbind y (fun _ => z))
  (at level 100, z at level 200, only parsing, right associativity) : kernel_scope.

Definition PPN (va : Z) : Z := Z.shiftr va 12.
Definition PDX (pn : Z) : Z := Z.shiftr pn 10.
Definition PTX (pn : Z) : Z := pn mod 1024.
Definition PTE_ADDR (pte : Z) : Z := Z.land pte (Z.lnot 4095).
Definition ROUNDDOWN (a n : Z) : Z := a - a mod n.

(** The entry for page [pn] in a page directory, when its page table is
    there. *)
Definition pte_of (pd : gmap Z (gmap Z Z)) (pn : Z) : option Z :=
  match pd !! PDX pn with
  | Some pt => Some (default 0 (pt !! PTX pn))
  | None => None
  end.

Definition set_pgdir (e : Env) (pd : gmap Z (gmap Z Z)) : Env :=
  mkEnv (env_id e) (env_parent_id e) (env_status e) pd.

Section Fork.
Context {P : Platform}.
Local Open Scope kernel_scope.

(** The page directory [pd] with the physical page at [pa] entered at page
    [pn] with permission [perm]. *)
Definition pgdir_map (pd : gmap Z (gmap Z Z)) (pa pn perm : Z) : gmap Z (gmap Z Z) :=
  <[PDX pn := <[PTX pn := Z.lor pa perm]> (default ∅ (pd !! PDX pn))]> pd.

(** Modelled from the spec: [pgdir_walk] (pmap.c) is not among the sources.
    [pgdir_walk(pgdir, va, 0, &ppte)], without [create], allocates nothing
    and returns 0; it yields the entry of the page, or a null pointer when
    the page table is missing.  [i] is the index of the environment whose
    page directory is walked, [pn] the page. *)
Definition pgdir_walk (i pn : Z) : K (Z * option Z) := fun k =>
  match envs k !! i with
  | Some e => KRet (0, pte_of (env_pgdir e) pn) k
  | None => KFault
  end.

(** Modelled from the spec: [page_insert] (pmap.c) is not among the sources.
    [page_insert(pgdir, pp, va, perm)] enters the physical page at [pa] at
    page [pn] of the environment at index [i] and returns 0.  Its callers in
    lib/syscall_all.c test the result for an error code: when the page
    table for [pn] is missing it has to be created, which takes a page from
    the kernel's free pages, and when none is free the call returns
    [-E_NO_MEM] and changes nothing. *)
Definition page_insert (i pa pn perm : Z) : K Z := fun k =>
  match envs k !! i with
  | Some e =>
      let envs' := <[i := set_pgdir e (pgdir_map (env_pgdir e) pa pn perm)]> (envs k) in
      if bool_decide (is_Some (env_pgdir e !! PDX pn))
      then KRet 0 (mkKernel envs' (curenv k) (nfree k))
      else if 0 <? nfree k
      then KRet 0 (mkKernel envs' (curenv k) (nfree k - 1))
      else KRet (- E_NO_MEM) k
  | None => KFault
  end.

(** [envid2env] of lib/env.c: return value and the index stored in [penv]
    ([None] for a null pointer). *)
Definition envid2env (envid : Z) (checkperm : bool) : K (Z * option Z) := fun k =>
  if envid =? 0 then KRet (0, Some (curenv k)) k
  else
    match envs k !! ENVX envid, envs k !! curenv k with
    | Some e, Some cur =>
        if (env_status e =? ENV_FREE) || negb (env_id e =? envid)
        then KRet (- E_BAD_ENV, None) k
        else if checkperm && negb (ENVX envid =? curenv k)
                && negb (env_parent_id e =? env_id cur)
        then KRet (- E_BAD_ENV, None) k
        else KRet (0, Some (ENVX envid)) k
    | _, _ => KFault
    end.

(** [sys_mem_map] of lib/syscall_all.c.  The two calls of [envid2env] store
    the result of the comparison with 0 in [ret], so a failure returns 1; a
    failure of [pgdir_walk] or of [page_insert] returns their error code.
    The entry that [pgdir_walk] found is read without a test for a null
    pointer. *)
Definition sys_mem_map (srcid srcva dstid dstva perm : Z) : K Z :=
  let round_srcva := ROUNDDOWN srcva BY2PG in
  let round_dstva := ROUNDDOWN dstva BY2PG in
  if (Z.land perm PTE_V =? 0) || (UTOP <=? srcva) || (UTOP <=? dstva)
  then fun _ => KPanic
  else
    se ← envid2env srcid false;
    if fst se <? 0 then kret 1
    else
      de ← envid2env dstid false;
      if fst de <? 0 then kret 1
      else
        match snd se, snd de with
        | Some si, Some di =>
            w ← pgdir_walk si (PPN round_srcva);
            if fst w <? 0 then kret (fst w)
            else
              match snd w with
              | Some pte =>
                  r ← page_insert di (PTE_ADDR pte) (PPN round_dstva) perm;
                  if r <? 0 then kret r else kret r
              | None => fun _ => KFault
              end
        | _, _ => fun _ => KFault
        end.

(** The running environment reads its own page tables through [vpd] and
    [vpt]; reading [vpt] where the page directory is invalid faults. *)
Definition vpd_valid (pdx : Z) : K bool := fun k =>
  match envs k !! curenv k with
  | Some e => KRet (bool_decide (is_Some (env_pgdir e !! pdx))) k
  | None => KFault
  end.

Definition vpt (pn : Z) : K Z := fun k =>
  match envs k !! curenv k with
  | Some e =>
      match pte_of (env_pgdir e) pn with
      | Some pte => KRet pte k
      | None => KFault
      end
  | None => KFault
  end.

Definition duppage (envid pn : Z) : K unit :=
  let addr := wrap32 (pn * BY2PG) in
  pte ← vpt pn;
  let perm := Z.land pte 4095 in
  let perm :=
    if negb (Z.land perm PTE_COW =? 0)
       || (negb (Z.land perm PTE_R =? 0) && (Z.land perm PTE_LIBRARY =? 0))
    then Z.lor perm PTE_COW else perm in
  sys_mem_map 0 addr envid addr perm;;
  sys_mem_map 0 addr 0 addr perm;;
  kret tt.

(** The loop of [fork] that duplicates the address space into [newenvid],
    from page [i] on.  Every iteration advances [i], so fuel above the number
    of pages below the stack is never exhausted. *)
Fixpoint fork_loop (fuel : nat) (i newenvid : Z) : K unit :=
  match fuel with
  | O => fun _ => KFault
  | S fuel' =>
      if i <? PPN (USTACKTOP - BY2PG) then
        v ← vpd_valid (PDX i);
        if negb v then fork_loop fuel' (wrap32 (i + 1024)) newenvid
        else
          pte ← vpt i;
          (if negb (Z.land pte PTE_V =? 0) then duppage newenvid i else kret tt);;
          fork_loop fuel' (wrap32 (i + 1)) newenvid
      else kret tt
  end.

Definition fork_pages (newenvid : Z) : K unit :=
  fork_loop (S (Z.to_nat (PPN (USTACKTOP - BY2PG)))) 0 newenvid.

End Fork.

(** ** A concrete platform and a small file system

    The values of the MOS lab headers for its 32-bit MIPS target, used to run
    the definitions on concrete states. *)

Definition mos : Platform :=
  Build_Platform
    268435456 1073741824 8 2134900736 2134892544
    (2 ^ 9) (2 ^ 10) (2 ^ 0) (2 ^ 2)
    2 3 4 7 9 10 11
    0 (fun envid => Z.land envid 1023)
    ltac:(vm_compute; discriminate) eq_refl eq_refl
    ltac:(vm_compute; discriminate) ltac:(vm_compute; discriminate)
    ltac:(split; vm_compute; discriminate) ltac:(vm_compute; discriminate)
    ltac:(exists 9; split; [lia | reflexivity])
    ltac:(exists 10; split; [lia | reflexivity])
    ltac:(exists 0; split; [lia | reflexivity])
    ltac:(exists 2; split; [lia | reflexivity])
    ltac:(apply (bool_decide_unpack _); vm_compute; exact I)
    ltac:(repeat constructor; vm_compute; reflexivity)
    ltac:(apply (bool_decide_unpack _); vm_compute; exact I).

(** A page that is zero except at the listed word indices. *)
Definition page_of (l : list (nat * Z)) : list Z :=
  fold_right (fun '(i, v) ws => <[i := v]> ws) zero_page l.

(** The words that hold a string, four bytes to a word. *)
Fixpoint pack_bytes (l : list Z) : list Z :=
  match l with
  | [] => []
  | a :: l1 =>
      match l1 with
      | [] => [a]
      | b :: l2 =>
          match l2 with
          | [] => [a + 256 * b]
          | c :: l3 =>
              match l3 with
              | [] => [a + 256 * b + 65536 * c]
              | d :: l4 => (a + 256 * b + 65536 * c + 16777216 * d) :: pack_bytes l4
              end
          end
      end
  end.

(** The words of a [struct File] that starts at word [base] of its page. *)
Definition file_words (base : nat) (name : list Z) (size type : Z)
    (direct : list Z) (indirect : Z) : list (nat * Z) :=
  imap (fun i w => ((base + i)%nat, w)) (pack_bytes name)
  ++ [((base + 32)%nat, size); ((base + 33)%nat, type)]
  ++ imap (fun i b => ((base + 34 + i)%nat, b)) direct
  ++ [((base + 44)%nat, indirect)].

(** The virtual page number of the page that caches block [b]. *)
Definition blk_vpn (b : Z) : Z := 65536 + b.

(** A 64-block file system: boot block, superblock with the given words of
    the root record, one bitmap block in which exactly the blocks listed in
    [free] are free, and the given data pages resident; [kf] is the kernel's
    list of free pages. *)
Definition bitmap_of (free : list Z) : list Z :=
  fold_right (fun b ws =>
      <[Z.to_nat (b / 32) := Z.lor (nth (Z.to_nat (b / 32)) ws 0) (Z.shiftl 1 (b mod 32))]> ws)
    zero_page free.

Definition small_fs (root : list (nat * Z)) (free : list Z)
    (data : list (Z * list Z)) (kf : list (list Z)) : state :=
  mkState (268435456 + 4096) (268435456 + 2 * 4096) 1
    (list_to_map
       ([(blk_vpn 0, (1536, zero_page));
         (blk_vpn 1, (1536, page_of ([(0%nat, 1747476631); (1%nat, 64)] ++ root)));
         (blk_vpn 2, (1536, bitmap_of free))]
        ++ map (fun '(b, ws) => (blk_vpn b, (1536, ws))) data))
    ∅ [] kf.

(** The address of the root record of [small_fs]. *)
Definition small_root : Z := 268435456 + 4096 + 8.

(** Blocks 5 and 7 are free, nothing but the boot block, the superblock and
    the bitmap is resident, and the kernel has no free page left. *)
Definition fs_no_memory : state := small_fs [] [5; 7] [] [].

(** The root directory is one block long, its block 3 is resident and holds
    data that the disk does not hold. *)
Definition fs_resident : state :=
  small_fs (file_words 2 [] 4096 FTYPE_DIR [3] 0) []
    [(3, page_of [(0%nat, 42)])] [].

(** The root directory has one block, block 3: its first record is a file
    named with one byte, 42, and its second record is unused (empty name)
    but still holds the size, type and block numbers of a removed file. *)
Definition fs_dir : state :=
  small_fs (file_words 2 [] 4096 FTYPE_DIR [3] 0) []
    [(3, page_of (file_words 0 [42] 5 FTYPE_REG [] 0
                  ++ file_words 64 [] 777 FTYPE_DIR [9] 8))] [].

(** Block 5 is free but still resident, with a stale entry in word 10, as
    after [file_truncate] freed the indirect block of some file. *)
Definition fs_stale : state :=
  small_fs (file_words 2 [] (11 * 4096) FTYPE_REG [] 0) [5]
    [(5, page_of [(10%nat, 99)])] [].

(** The root spans twelve blocks: the direct slots hold blocks 10 to 19 and
    the resident indirect block 20 holds blocks 21 and 22 in its slots 10
    and 11; every block is in use. *)
Definition fs_big : state :=
  small_fs (file_words 2 [] (12 * 4096) FTYPE_REG
              [10; 11; 12; 13; 14; 15; 16; 17; 18; 19] 20) []
    [(20, page_of [(10%nat, 21); (11%nat, 22)])] [].

(** The root claims eleven blocks but has neither data blocks nor an indirect
    block, as after [file_set_size] grew an empty file. *)
Definition fs_sparse : state :=
  small_fs (file_words 2 [] (11 * 4096) FTYPE_DIR [] 0) [5; 7] [] [].

(** A parent (index 1) with four pages in one page table: a writable page,
    a writable library page, a read-only page and a copy-on-write page; and a
    child (index 2) with no page table yet; the kernel has 1000 free
    pages. *)
Definition fork_parent_pgdir : gmap Z (gmap Z Z) :=
  {[ 1 := list_to_map [(0, 20480 + 1536); (1, 24576 + 1540);
                       (2, 28672 + 512); (3, 32768 + 513)] ]}.

Definition fork_kernel : kernel :=
  mkKernel (list_to_map [(1, mkEnv 1025 0 1 fork_parent_pgdir);
                         (2, mkEnv 2050 1025 2 ∅)]) 1 1000.

(** As [fork_kernel], when the kernel has no free page left. *)
Definition fork_kernel_full : kernel :=
  mkKernel (envs fork_kernel) (curenv fork_kernel) 0.

(** ** Vocabulary of the statements *)

(** The superblock is loaded and announces [nb] blocks. *)
Definition super_loaded (s : state) (nb : Z) : Prop :=
  super s <> 0 /\ peek s (super s + S_NBLOCKS) = Some nb.

(** Bit [b] of the bitmap, when the word that holds it is mapped. *)
Definition bitmap_bit (s : state) (b : Z) : option bool :=
  (fun w => Z.testbit w (b mod 32)) <$> peek s (wrap32 (bitmap s + 4 * (b / 32))).

(** The components of a path: the maximal runs of bytes other than a slash
    that precede the terminator.  [acc] is the current run, reversed. *)
Definition flush (l : list Z) : list (list Z) :=
  match l with [] => [] | _ => [l] end.

Fixpoint components_from (acc p : list Z) : list (list Z) :=
  match p with
  | [] => flush (rev acc)
  | c :: p' =>
      if c =? 0 then flush (rev acc)
      else if c =? SLASH then flush (rev acc) ++ components_from [] p'
      else components_from (c :: acc) p'
  end.

Definition components (p : list Z) : list (list Z) := components_from [] p.


(** The entry of page [pn] in the page tables of the environment at index
    [i]. *)
Definition env_pte (k : kernel) (i pn : Z) : option Z :=
  match envs k !! i with
  | Some e => pte_of (env_pgdir e) pn
  | None => None
  end.

(** The error values that the block layer hands to the path resolver. *)
Definition block_error {P : Platform} (r : Z) : Prop :=
  r = - E_NOT_FOUND \/ r = - E_INVAL \/ r = - E_NO_DISK \/ r = - E_NO_MEM.



(** The address at which block [b] is cached. *)
Definition block_va {P : Platform} (b : Z) : Z := wrap32 (DISKMAP + b * BY2BLK).

(** The address of the bitmap word that holds the bit of block [b]. *)
Definition bitmap_va (s : state) (b : Z) : Z := wrap32 (bitmap s + 4 * (b / 32)).

(** The block count that [read_super] accepts. *)
Definition fs_loaded {P : Platform} (s : state) (nb : Z) : Prop :=
  super_loaded s nb /\ nb <= DISKMAX / BY2BLK.

Definition aligned (va : Z) : Prop := va mod 4 = 0.

(** The byte at address [va], when its word is mapped. *)
Definition peek8 (s : state) (va : Z) : option Z :=
  (fun w => byte_of w (va mod 4)) <$> peek s (va - va mod 4).

(** The string [name] sits at address [p], followed by its terminator. *)
Definition string_at (s : state) (p : Z) (name : list Z) : Prop :=
  (forall i c, name !! i = Some c -> peek8 s (p + Z.of_nat i) = Some c) /\
  peek8 s (p + Z.of_nat (length name)) = Some 0.

(** The layout that [fs_init] sets up: the superblock is cached block 1, the
    bitmap starts at cached block 2 and its blocks are blocks of the disk. *)
Definition fs_ready {P : Platform} (s : state) (nb : Z) : Prop :=
  fs_loaded s nb /\ super s = block_va 1 /\ bitmap s = block_va 2 /\
  2 + (nb + BIT2BLK - 1) / BIT2BLK <= nb.

(** A block past the boot block, the superblock and the bitmap blocks. *)
Definition data_block (nb b : Z) : Prop :=
  2 + (nb + BIT2BLK - 1) / BIT2BLK <= b < nb.

(** [f] is the address of a file record: the root record inside the
    superblock, or a record at offset [off] of the data block [bf]. *)
Definition file_at {P : Platform} (nb f bf off : Z) : Prop :=
  (bf = 1 /\ S_ROOT <= off \/ data_block nb bf /\ 0 <= off) /\
  off mod 4 = 0 /\ off + BY2FILE <= BY2BLK /\ f = block_va bf + off.

(** The address of the slot for block [bno] of the file at [f] whose
    indirect block is [ind]. *)
Definition slot_va {P : Platform} (f ind bno : Z) : Z :=
  if bno <? NDIRECT then f_direct f bno else block_va ind + 4 * bno.

(** The indirect block [ind] of a file stored in block [bf] is a data block
    of its own, in use and resident. *)
Definition indirect_ok {P : Platform} (s : state) (nb bf ind : Z) : Prop :=
  data_block nb ind /\ ind <> bf /\ mapped s (block_va ind) = true /\
  bitmap_bit s ind = Some false.

(** The state [sc] of the loop of [file_truncate] before it clears block
    [c], for a file whose slots from [new] on are being cleared; [s] is the
    state at the call. *)
Definition truncate_inv {P : Platform} (s : state) (nb f bf ind sz new c : Z)
    (sc : state) : Prop :=
  fs_ready sc nb /\
  peek sc (f_size f) = Some sz /\ peek sc (f_indirect f) = Some ind /\
  (ind <> 0 -> indirect_ok sc nb bf ind) /\
  (forall b, 0 <= b < nb -> is_Some (bitmap_bit sc b)) /\
  (forall bno, 0 <= bno < NINDIRECT -> (NDIRECT <= bno -> ind <> 0) ->
     peek sc (slot_va f ind bno)
     = if (new <=? bno) && (bno <? c) then Some 0 else peek s (slot_va f ind bno)) /\
  (forall b, 0 <= b < nb ->
     (bitmap_bit sc b = Some true <->
      bitmap_bit s b = Some true \/
      exists bno, new <= bno < c /\ peek s (slot_va f ind bno) = Some b /\ b <> 0)).

(** [b] is the first block from 3 on whose bitmap bit is set. *)
Definition first_free (s : state) (b : Z) : Prop :=
  3 <= b /\ bitmap_bit s b = Some true /\
  forall b', 3 <= b' < b -> bitmap_bit s b' = Some false.

(** The word at [va] of the page that [syscall_mem_alloc] would map next. *)
Definition fresh_word (s : state) (va : Z) : option Z :=
  wrap32 <$> hd [] (kfree s) !! word_ix va.

(** Two states hold the same words at the same addresses. *)
Definition same_mem (s s' : state) : Prop :=
  forall va, peek s' va = peek s va.



(** ** More states of the small file system *)

Definition with_disk (d : gmap Z (list Z)) (s : state) : state :=
  mkState (super s) (bitmap s) (nbitmap s) (pages s) d (ide_log s) (kfree s).

(** The root directory has one block, block 3, which is in use but not
    resident; the disk holds a 7 in its first word, and the kernel has one
    free page. *)
Definition fs_cold : state :=
  with_disk {[ 24 := page_of [(0%nat, 7)] ]}
    (small_fs (file_words 2 [] 4096 FTYPE_DIR [3] 0) [] [] [zero_page]).

(** As [fs_resident], with one free page left in the kernel. *)
Definition fs_warm : state :=
  small_fs (file_words 2 [] 4096 FTYPE_DIR [3] 0) []
    [(3, page_of [(0%nat, 42)])] [zero_page].

(** ** Vocabulary for the kernel's tables *)

(** What the loop of [fork] may change between the kernels [k] and [k']
    when it duplicates into [newenvid]: nothing but page-table entries of
    the running environment and of the child, and of those only entries for
    pages in [0, bound); an entry that is missing counts as 0. *)
Definition fork_frame {P : Platform} (bound newenvid : Z) (k k' : kernel) : Prop :=
  curenv k' = curenv k /\
  (forall j, j <> curenv k -> j <> ENVX newenvid -> envs k' !! j = envs k !! j) /\
  forall j e, envs k !! j = Some e ->
    exists e', envs k' !! j = Some e' /\
      env_id e' = env_id e /\ env_parent_id e' = env_parent_id e /\
      env_status e' = env_status e /\
      forall pn, pn < 0 \/ bound <= pn ->
        default 0 (pte_of (env_pgdir e') pn) = default 0 (pte_of (env_pgdir e) pn).

(** * Memory helpers and the page-fault handler of user/fork.c

    The functions run in the address space of the calling environment,
    which is a [state] whose [pages] are that environment's pages. *)

Section UserMemory.
Context {P : Platform}.

(** A store of user code goes through only on a page that is valid and
    write-enabled ([PTE_R]). *)
Definition writable (s : state) (va : Z) : bool :=
  match pages s !! VPN va with
  | Some (perm, _) =>
      negb (Z.land perm PTE_V =? 0) && negb (Z.land perm PTE_R =? 0)
  | None => false
  end.

(** Word and byte stores of user code.  On a page that is not write-enabled
    the store raises an exception instead of writing; what the exception
    leads to is decided by kernel code that is not among the sources, and it
    is a [Fault] here. *)
Definition ustore32 (va v : Z) : M unit := fun s =>
  if writable s va then store32 va v s else Fault.

Definition ustore8 (va b : Z) : M unit := fun s =>
  if writable s va then store8 va b s else Fault.

(** The word loop of [user_bcopy]; the result is [src] and [dst] after it.
    Pointers are 32-bit addresses and [dst + 3 < max] compares them as
    such.  Every iteration moves [dst] up by four bytes towards [max], so
    fuel above the number of bytes is never exhausted. *)
Fixpoint bcopy_words (fuel : nat) (src dst max : Z) : M (Z * Z) :=
  match fuel with
  | O => fault
  | S fuel' =>
      if wrap32 (dst + 3) <? max then
        w ← load32 src;
        ustore32 dst w;;
        bcopy_words fuel' (wrap32 (src + 4)) (wrap32 (dst + 4)) max
      else ret (src, dst)
  end.

(** The byte loop of [user_bcopy]. *)
Fixpoint bcopy_bytes (fuel : nat) (src dst max : Z) : M unit :=
  match fuel with
  | O => fault
  | S fuel' =>
      if dst <? max then
        c ← load8 src;
        ustore8 dst c;;
        bcopy_bytes fuel' (wrap32 (src + 1)) (wrap32 (dst + 1)) max
      else ret tt
  end.

(** [user_bcopy(src, dst, len)].  [(int)src % 4 == 0] holds exactly when the
    address is a multiple of 4, also for an address whose cast is
    negative. *)
Definition user_bcopy (src dst len : Z) : M unit :=
  let max := wrap32 (dst + len) in
  sd ← (if (src mod 4 =? 0) && (dst mod 4 =? 0)
        then bcopy_words (S (Z.to_nat len)) src dst max
        else ret (src, dst));
  let '(src', dst') := sd in
  bcopy_bytes (S (Z.to_nat len)) src' dst' max.

(** The loop of [user_bzero], which decrements [m] before the test and
    clears one byte per round; [m] is an [int],
    and decrementing it below [INT_MIN] is undefined in C, a [Fault]
    here. *)
Fixpoint bzero_loop (fuel : nat) (p m : Z) : M unit :=
  match fuel with
  | O => fault
  | S fuel' =>
      if m - 1 <? - 2 ^ 31 then fault
      else if 0 <=? m - 1 then
        ustore8 p 0;; bzero_loop fuel' (wrap32 (p + 1)) (m - 1)
      else ret tt
  end.

(** [user_bzero(v, n)]: the count [n] is a [u_int] that the function
    assigns to the [int] [m]. *)
Definition user_bzero (v n : Z) : M unit :=
  let m := if n <? 2 ^ 31 then n else n - 2 ^ 32 in
  bzero_loop (S (Z.to_nat n)) v m.

(** [pgfault(va)] of user/fork.c, the handler of a write to a copy-on-write
    page.  The entry that it reads through [vpt], masked with [0xfff], is the
    permission of the page mapped at
    [va]; a page that is not mapped reads as a zero entry.  The return
    values of the three system calls are ignored, as in the source. *)
Definition pgfault (va : Z) : M unit :=
  pg ← get pages;
  let perm := Z.land (default 0 (fst <$> pg !! VPN va)) 4095 in
  if Z.land perm PTE_COW =? 0 then user_panic
  else
    let perm := Z.lxor perm PTE_COW in
    syscall_mem_alloc USTACKTOP perm;;
    user_bcopy (Z.land va (Z.lnot 4095)) USTACKTOP BY2PG;;
    syscall_mem_map USTACKTOP va perm;;
    syscall_mem_unmap USTACKTOP;;
    ret tt.

End UserMemory.

(** An address space of a user environment: a page at 0x400000, valid,
    write-enabled and copy-on-write, whose words 0, 1 and 5 hold 7,
    0x01020304 and 9, and a page at 0x401000, valid and write-enabled, that
    holds 0x0a0b0c0d in word 1; the kernel has one free page. *)
Definition user_mem : state :=
  mkState 0 0 0
    {[ 1024 := (1537, page_of [(0%nat, 7); (1%nat, 16909060); (5%nat, 9)]);
       1025 := (1536, page_of [(1%nat, 168496141)]) ]}
    ∅ [] [zero_page].

(** One page at 0x400000 with the words of that page of [user_mem], valid
    and copy-on-write but not write-enabled; the kernel has one free
    page. *)
Definition user_mem_ro : state :=
  mkState 0 0 0
    {[ 1024 := (513, page_of [(0%nat, 7); (1%nat, 16909060); (5%nat, 9)]) ]}
    ∅ [] [zero_page].

(** * More of the kernel and of the user library *)

(** More constants of headers that are not among the sources (include/env.h,
    include/error.h): the other two states of an environment, the number of
    bits of an index into [envs] with the mask that [ENVX] applies, and the
    error code of a full descriptor table. *)
Class PlatformExt {P : Platform} := {
  ENV_RUNNABLE : Z;
  ENV_NOT_RUNNABLE : Z;
  LOG2NENV : Z;
  E_MAX_OPEN : Z;
  env_status_distinct : NoDup [ENV_FREE; ENV_RUNNABLE; ENV_NOT_RUNNABLE];
  log2nenv_range : 0 <= LOG2NENV < 31;
  envx_mask : forall envid, ENVX envid = Z.land envid (2 ^ LOG2NENV - 1);
  e_max_open_range : 0 < E_MAX_OPEN < 2 ^ 31
}.

Definition mos_ext : PlatformExt (P := mos) :=
  Build_PlatformExt mos 1 2 10 8
    ltac:(apply (bool_decide_unpack _); vm_compute; exact I)
    ltac:(lia) (fun _ => eq_refl) ltac:(lia).

Definition set_status (e : Env) (st : Z) : Env :=
  mkEnv (env_id e) (env_parent_id e) st (env_pgdir e).

Section Kernel.
Context {P : Platform} {X : PlatformExt}.
Local Open Scope kernel_scope.

(** ** lib/sched.c *)

(** The loop of [sched_yield], entered with the value that [pos] has after
    an increment.  Only the loop decides when it ends: it runs out of fuel
    when no environment it looks at is runnable.  [pos] is an [int], and an
    increment past [INT_MAX] is undefined in C. *)
Fixpoint sched_loop (fuel : nat) (pos : Z) : K Z :=
  match fuel with
  | O => fun _ => KFault
  | S fuel' =>
      let pos := if pos =? 6 then 0 else pos in
      fun k =>
        match envs k !! pos with
        | Some e =>
            if env_status e =? ENV_RUNNABLE then KRet pos k
            else if 2 ^ 31 - 1 <=? pos then KFault
            else sched_loop fuel' (pos + 1) k
        | None => KFault
        end
  end.

(** [env_run(e)] of lib/env.c for the environment at index [i]: it becomes
    the running environment.  The register state that [env_run] saves and
    restores and the counter [env_runs] are not among the fields of [Env]. *)
Definition env_run (i : Z) : K unit :=
  fun k => KRet tt (mkKernel (envs k) i (nfree k)).

(** [sched_yield()]; [pos] is the static variable of the function, and the
    result is its value afterwards. *)
Definition sched_yield (fuel : nat) (pos : Z) : K Z :=
  if 2 ^ 31 - 1 <=? pos then fun _ => KFault
  else
    pos' ← sched_loop fuel (pos + 1);
    env_run pos';;
    kret pos'.

(** The environment at index [i] exists and is runnable. *)
Definition runnable (k : kernel) (i : Z) : bool :=
  match envs k !! i with
  | Some e => env_status e =? ENV_RUNNABLE
  | None => false
  end.

(** ** lib/syscall_all.c *)

(** [sys_set_env_status(sysno, envid, status)]. *)
Definition sys_set_env_status (envid status : Z) : K Z :=
  if negb (status =? ENV_RUNNABLE) && negb (status =? ENV_NOT_RUNNABLE)
     && negb (status =? ENV_FREE)
  then fun _ => KPanic
  else
    r ← envid2env envid true;
    if fst r <? 0 then fun _ => KPanic
    else
      fun k =>
        match snd r with
        | Some i =>
            match envs k !! i with
            | Some e =>
                KRet 0 (mkKernel (<[i := set_status e ENV_RUNNABLE]> (envs k))
                                 (curenv k) (nfree k))
            | None => KFault
            end
        | None => KFault
        end.

(** ** lib/env.c *)

(** [mkenvid(e)] for the environment at index [idx] of [envs]; [next] is the
    static counter [next_env_id], a 32-bit [u_long].  The result is the id
    and the counter afterwards. *)
Definition mkenvid (next idx : Z) : Z * Z :=
  let next' := wrap32 (next + 1) in
  (Z.lor (wrap32 (Z.shiftl next' (1 + LOG2NENV))) idx, next').

End Kernel.

(** ** Vocabulary for directories *)

(** The address of record [j] of block [b] in the cache. *)
Definition record_va {P : Platform} (b j : Z) : Z := block_va b + j * BY2FILE.

(** The [n] blocks of the directory at [dir], which is stored in block [bf]
    and has the indirect block [ind], are the blocks [blks 0], [blks 1], ...
    of the disk, in use and resident, and record [j] of block [i] holds the
    name [names i j], a string shorter than [MAXNAMELEN]. *)
Definition dir_listing {P : Platform} (s : state) (nb dir bf ind n : Z)
    (blks : Z -> Z) (names : Z -> Z -> list Z) : Prop :=
  forall i, 0 <= i < n ->
    (NDIRECT <= i -> ind <> 0 /\ indirect_ok s nb bf ind) /\
    peek s (slot_va dir ind i) = Some (blks i) /\
    data_block nb (blks i) /\ bitmap_bit s (blks i) = Some false /\
    mapped s (block_va (blks i)) = true /\
    forall j, 0 <= j < FILE2BLK ->
      string_at s (f_name (record_va (blks i) j)) (names i j) /\
      Forall (fun c => c <> 0) (names i j) /\
      (length (names i j) < Z.to_nat MAXNAMELEN)%nat /\
      is_Some (peek s (f_dir (record_va (blks i) j))).

(** ** user/fd.c *)

Definition MAXFD : Z := 32.
Definition FILEBASE : Z := 1610612736.
(** Modelled from the spec: [PDMAP] comes from [mmu.h], which is not among
    the sources; it is the number of bytes that one entry of a page directory
    maps, 1024 pages. *)
Definition PDMAP : Z := 1024 * BY2PG.
Definition FDTABLE : Z := FILEBASE - PDMAP.
Definition INDEX2FD (i : Z) : Z := wrap32 (FDTABLE + i * BY2PG).
Definition INDEX2DATA (i : Z) : Z := wrap32 (FILEBASE + i * PDMAP).

(** [fd2num(fd)], [fd2data(fd)] and [num2fd(fd)]; the last computes in
    [int], which does not overflow for an index below 2^17. *)
Definition fd2num (fd : Z) : Z := wrap32 (fd - FDTABLE) / BY2PG.
Definition fd2data (fd : Z) : Z := INDEX2DATA (fd2num fd).
Definition num2fd (fd : Z) : Z := fd * BY2PG + FDTABLE.

Section Fd.
Context {P : Platform} {X : PlatformExt}.
Local Open Scope fs_scope.

(** The loop of [fd_alloc] from descriptor [fdno] on, with [n] descriptors
    left.  The two tests of the loop body, on the entry of the page
    directory and on the entry of the page table, together are
    [va_is_mapped] of fs/fs.c.  The result is the return value and what was
    stored in [*fd], if anything. *)
Fixpoint fd_alloc_loop (n : nat) (fdno : Z) : M (Z * option Z) :=
  match n with
  | O => ret (- E_MAX_OPEN, None)
  | S n' =>
      let va := INDEX2FD fdno in
      m ← va_is_mapped va;
      if negb m then ret (0, Some va)
      else fd_alloc_loop n' (fdno + 1)
  end.

Definition fd_alloc : M (Z * option Z) := fd_alloc_loop (Z.to_nat MAXFD) 0.

Definition fd_close (fd : Z) : M unit := syscall_mem_unmap fd;; ret tt.

(** [fd_lookup(fdnum, &fd)]; [fdnum] is an [int] and only compared with
    [MAXFD] from above.  The function reads the page table entry without
    looking at the page directory first; a page that is not mapped reads as
    a zero entry. *)
Definition fd_lookup (fdnum : Z) : M (Z * option Z) :=
  if MAXFD <=? fdnum then ret (- E_INVAL, None)
  else
    let va := INDEX2FD fdnum in
    m ← va_is_mapped va;
    if m then ret (0, Some va) else ret (- E_INVAL, None).

(** ** fs/fs.c: the superblock *)

Definition FS_MAGIC : Z := 1747476631.

Definition set_super (v : Z) (s : state) : state :=
  mkState v (bitmap s) (nbitmap s) (pages s) (disk s) (ide_log s) (kfree s).

(** [read_super()]. *)
Definition read_super : M unit :=
  rb ← read_block 1;
  let '(r, blk, _) := rb in
  if r <? 0 then user_panic
  else
    modify (set_super blk);;
    m ← load32 (blk + S_MAGIC);
    if negb (m =? FS_MAGIC) then user_panic
    else
      nb ← load32 (blk + S_NBLOCKS);
      if DISKMAX / BY2BLK <? nb then user_panic else ret tt.

End Fd.

(** Eight environments, of which those at the indices 2 and 7 are runnable;
    the one at index 4 is running. *)
Definition sched_kernel : kernel :=
  mkKernel (list_to_map [(0, mkEnv 0 0 0 ∅); (1, mkEnv 0 0 0 ∅);
                         (2, mkEnv 2050 0 1 ∅); (3, mkEnv 0 0 0 ∅);
                         (4, mkEnv 4100 0 2 ∅); (5, mkEnv 0 0 0 ∅);
                         (6, mkEnv 0 0 0 ∅); (7, mkEnv 6151 0 1 ∅)]) 4 0.

(** The root directory has one block, block 3, whose first two records are
    files named [a] and [b]; the other records are unused. *)
Definition fs_two : state :=
  small_fs (file_words 2 [] 4096 FTYPE_DIR [3] 0) []
    [(3, page_of (file_words 0 [97] 5 FTYPE_REG [] 0
                  ++ file_words 64 [98] 6 FTYPE_REG [] 0))] [].

(** The names of the records of [fs_two]. *)
Definition fs_two_names (i j : Z) : list Z :=
  if j =? 0 then [97] else if j =? 1 then [98] else [].

(** A server that has loaded nothing: the disk holds a superblock that
    announces 64 blocks, and the kernel has one free page. *)
Definition fs_boot : state :=
  mkState 0 0 0 ∅ {[ 8 := page_of [(0%nat, 1747476631); (1%nat, 64)] ]} []
    [zero_page].

(** An address space in which the pages of the descriptors 0 and 1 are
    mapped; the kernel has one free page. *)
Definition fd_mem : state :=
  mkState 0 0 0
    {[ 392192 := (1540, zero_page); 392193 := (1540, zero_page) ]}
    ∅ [] [zero_page].
(** * Properties *)

(** ** Bits and words *)

Lemma bit_mask_spec (b : Z) : bit_mask b = 2 ^ (b mod 32).
Proof.
  unfold bit_mask, wrap32. rewrite Z.shiftl_1_l.
  assert (0 <= b mod 32 < 32) by (apply Z.mod_pos_bound; lia).
  apply Z.mod_small. split; [lia |].
  apply Z.pow_lt_mono_r; lia.
Qed.

Lemma land_bit_mask (w b : Z) :
  negb (Z.land w (bit_mask b) =? 0) = Z.testbit w (b mod 32).
Proof.
  rewrite bit_mask_spec.
  assert (0 <= b mod 32) by (apply Z.mod_pos_bound; lia).
  destruct (Z.testbit w (b mod 32)) eqn:E.
  - apply negb_true_iff, Z.eqb_neq. intros H0.
    assert (Z.testbit (Z.land w (2 ^ (b mod 32))) (b mod 32) = false)
      by (rewrite H0; apply Z.bits_0).
    rewrite Z.land_spec, E, Z.pow2_bits_true in H1 by lia. discriminate.
  - apply negb_false_iff, Z.eqb_eq. apply Z.bits_inj'. intros n Hn.
    rewrite Z.land_spec, Z.bits_0.
    destruct (Z.eq_dec n (b mod 32)) as [->|Hne].
    + rewrite E. reflexivity.
    + rewrite Z.pow2_bits_false by lia. apply andb_false_r.
Qed.

(** ** The bitmap test *)

(** ** The monad *)

Lemma bind_Ret {A B} (c : M A) (k : A -> M B) (s s' : state) (b : B) :
  bind c k s = Ret b s' <-> exists a s1, c s = Ret a s1 /\ k a s1 = Ret b s'.
Proof.
  unfold bind. split.
  - destruct (c s) as [a s1| |]; try discriminate. eauto.
  - intros (a & s1 & -> & H). exact H.
Qed.

Lemma load32_Ret (va w : Z) (s s' : state) :
  load32 va s = Ret w s' <-> peek s va = Some w /\ s' = s.
Proof.
  unfold load32. destruct (peek s va); split; intros H;
    try discriminate; try (destruct H; discriminate).
  - injection H as -> ->. auto.
  - destruct H as [[= ->] ->]. reflexivity.
Qed.

Lemma store32_Ret (va v : Z) (u : unit) (s s' : state) :
  store32 va v s = Ret u s' <-> poke s va v = Some s'.
Proof.
  unfold store32. destruct (poke s va v); split; intros H; try discriminate.
  - injection H as _ ->. reflexivity.
  - injection H as ->. destruct u. reflexivity.
Qed.

(** ** The bitmap test *)

(** With the superblock loaded and [blockno] below the block count,
    [block_is_free] reads the bitmap and answers with the bit of [blockno]. *)
Lemma block_is_free_run (s : state) (nb blockno : Z) (bit : bool) :
  super_loaded s nb -> blockno < nb -> bitmap_bit s blockno = Some bit ->
  block_is_free blockno s = Ret (if bit then 1 else 0) s.
Proof.
  unfold block_is_free, s_nblocks, bitmap_word, super_loaded, bitmap_bit,
    bind, get, ret, load32.
  intros [Hs Hnb] Hlt Hbit.
  apply Z.eqb_neq in Hs. rewrite Hs, Hnb.
  apply Z.leb_gt in Hlt. rewrite Hlt.
  destruct (peek s (wrap32 (bitmap s + 4 * (blockno / 32)))) as [w|];
    [|discriminate].
  rewrite land_bit_mask. injection Hbit as <-.
  destruct (Z.testbit w (blockno mod 32)); reflexivity.
Qed.

(** C10: [block_is_free] answers 0 without touching the bitmap when the
    superblock is not loaded or [blockno] is not below the block count (this
    holds whether or not any bitmap page is mapped), and otherwise answers 1
    exactly when bit [blockno] of the bitmap is set. *)
Theorem block_is_free_guarded (s : state) (blockno : Z) :
  (super s = 0 -> block_is_free blockno s = Ret 0 s) /\
  (forall nb, super_loaded s nb -> nb <= blockno ->
     block_is_free blockno s = Ret 0 s) /\
  (forall nb bit, super_loaded s nb -> blockno < nb ->
     bitmap_bit s blockno = Some bit ->
     block_is_free blockno s = Ret (if bit then 1 else 0) s).
Proof.
  repeat split.
  - unfold block_is_free, bind, get, ret. intros ->. reflexivity.
  - unfold block_is_free, s_nblocks, super_loaded, bind, get, ret, load32.
    intros nb [Hs Hnb] Hle.
    apply Z.eqb_neq in Hs. rewrite Hs, Hnb.
    apply Z.leb_le in Hle. rewrite Hle. reflexivity.
  - intros nb bit. apply block_is_free_run.
Qed.

Section Properties.
Context {P : Platform}.

(** ** Memory *)

Lemma wrap32_idem (x : Z) : wrap32 (wrap32 x) = wrap32 x.
Proof. unfold wrap32. apply Z.mod_mod. lia. Qed.

Lemma wrap32_range (x : Z) : 0 <= wrap32 x < 2 ^ 32.
Proof. unfold wrap32. apply Z.mod_pos_bound. lia. Qed.

Lemma wrap32_small (x : Z) : 0 <= x < 2 ^ 32 -> wrap32 x = x.
Proof. unfold wrap32. apply Z.mod_small. Qed.

Lemma peek_range (s : state) (va w : Z) : peek s va = Some w -> 0 <= w < 2 ^ 32.
Proof.
  unfold peek. destruct (pages s !! VPN va) as [[perm ws]|]; [|discriminate].
  destruct (ws !! word_ix va); [|discriminate].
  intros [= <-]. apply wrap32_range.
Qed.

Lemma poke_fields (s s' : state) (va v : Z) :
  poke s va v = Some s' ->
  super s' = super s /\ bitmap s' = bitmap s /\ nbitmap s' = nbitmap s /\
  disk s' = disk s /\ ide_log s' = ide_log s /\ kfree s' = kfree s.
Proof.
  unfold poke. destruct (pages s !! VPN va) as [[perm ws]|]; [|discriminate].
  case_decide; [|discriminate]. intros [= <-]. simpl. auto 10.
Qed.

Lemma peek_poke_same (s s' : state) (va v : Z) :
  poke s va v = Some s' -> peek s' va = Some (wrap32 v).
Proof.
  unfold poke, peek. destruct (pages s !! VPN va) as [[perm ws]|]; [|discriminate].
  case_decide; [|discriminate]. intros [= <-]. simpl.
  rewrite lookup_insert_eq, list_lookup_insert_eq by assumption.
  simpl. f_equal. apply wrap32_idem.
Qed.

Lemma peek_poke_other (s s' : state) (va v va' : Z) :
  poke s va v = Some s' ->
  VPN va' <> VPN va \/ word_ix va' <> word_ix va ->
  peek s' va' = peek s va'.
Proof.
  unfold poke, peek. destruct (pages s !! VPN va) as [[perm ws]|] eqn:E; [|discriminate].
  case_decide; [|discriminate]. intros [= <-] Hne. simpl.
  destruct (decide (VPN va' = VPN va)) as [Heq|Hp].
  - rewrite Heq, lookup_insert_eq, E.
    destruct Hne as [Hne|Hne]; [contradiction|].
    rewrite list_lookup_insert_ne by congruence. reflexivity.
  - rewrite lookup_insert_ne by congruence. reflexivity.
Qed.

Lemma mapped_poke (s s' : state) (va v va' : Z) :
  poke s va v = Some s' -> mapped s' va' = mapped s va'.
Proof.
  unfold poke, mapped. destruct (pages s !! VPN va) as [[perm ws]|] eqn:E; [|discriminate].
  case_decide; [|discriminate]. intros [= <-]. simpl.
  destruct (decide (VPN va' = VPN va)) as [Heq|Hp].
  - rewrite Heq, lookup_insert_eq, E. reflexivity.
  - rewrite lookup_insert_ne by congruence. reflexivity.
Qed.

Lemma poke_is_Some (s : state) (va v w : Z) :
  peek s va = Some w -> is_Some (poke s va v).
Proof.
  unfold peek, poke. destruct (pages s !! VPN va) as [[perm ws]|]; [|discriminate].
  destruct (ws !! word_ix va) eqn:E; [|discriminate]. intros _.
  apply lookup_lt_Some in E. rewrite decide_True by assumption. eauto.
Qed.

(** ** Inversion of the monadic operations *)

Lemma ret_Ret {A} (a b : A) (s s' : state) :
  ret a s = Ret b s' <-> b = a /\ s' = s.
Proof. unfold ret. split; [intros [= -> ->]; auto | intros [-> ->]; reflexivity]. Qed.

Lemma get_Ret {A} (f : state -> A) (b : A) (s s' : state) :
  get f s = Ret b s' <-> b = f s /\ s' = s.
Proof. unfold get. split; [intros [= <- <-]; auto | intros [-> ->]; reflexivity]. Qed.

Lemma modify_Ret (f : state -> state) (u : unit) (s s' : state) :
  modify f s = Ret u s' <-> s' = f s.
Proof.
  unfold modify. split; [intros [= _ <-]; auto | intros ->; destruct u; reflexivity].
Qed.

Ltac minv :=
  repeat match goal with
  | H : bind _ _ _ = Ret _ _ |- _ =>
      apply bind_Ret in H; destruct H as (? & ? & ? & ?)
  | H : ret _ _ = Ret _ _ |- _ =>
      apply ret_Ret in H; destruct H as [? ?]; subst
  | H : get _ _ = Ret _ _ |- _ =>
      apply get_Ret in H; destruct H as [? ?]; subst
  | H : modify _ _ = Ret _ _ |- _ => apply modify_Ret in H; subst
  | H : load32 _ _ = Ret _ _ |- _ =>
      apply load32_Ret in H; destruct H as [? ?]; subst
  | H : store32 _ _ _ = Ret _ _ |- _ => apply store32_Ret in H
  | H : user_panic _ = Ret _ _ |- _ => discriminate H
  | H : fault _ = Ret _ _ |- _ => discriminate H
  | H : (if ?b then _ else _) _ = Ret _ _ |- _ => destruct b eqn:?
  | H : (let '(_, _) := ?x in _) _ = Ret _ _ |- _ => destruct x
  | H : (match ?x with Some _ => _ | None => _ end) _ = Ret _ _ |- _ =>
      destruct x eqn:?
  | H : (match ?x with [] => _ | _ :: _ => _ end) _ = Ret _ _ |- _ =>
      destruct x eqn:?
  end.

Tactic Notation "mbind" hyp(H) "as" ident(a) ident(s) ident(H1) :=
  apply bind_Ret in H as (a & s & H1 & H).

(** ** Permission bits *)

Lemma land_pow2_lor (k x : Z) : 0 <= k -> Z.land (Z.lor (2 ^ k) x) (2 ^ k) <> 0.
Proof.
  intros Hk E.
  assert (Z.testbit (Z.land (Z.lor (2 ^ k) x) (2 ^ k)) k = false)
    by (rewrite E; apply Z.bits_0).
  rewrite Z.land_spec, Z.lor_spec, Z.pow2_bits_true in H by lia. discriminate.
Qed.

Lemma perm_V_R : (Z.land (Z.lor PTE_V PTE_R) PTE_V =? 0) = false.
Proof.
  destruct pte_v_bit as (k & Hk & ->). apply Z.eqb_neq, land_pow2_lor. lia.
Qed.

Lemma perm_V_R_L :
  (Z.land (Z.lor (Z.lor PTE_V PTE_R) PTE_LIBRARY) PTE_V =? 0) = false.
Proof.
  destruct pte_v_bit as (k & Hk & ->). rewrite <- Z.lor_assoc.
  apply Z.eqb_neq, land_pow2_lor. lia.
Qed.

(** ** Block cache *)

Lemma s_nblocks_Ret (s s' : state) (nb : Z) :
  s_nblocks s = Ret nb s' <-> peek s (super s + S_NBLOCKS) = Some nb /\ s' = s.
Proof.
  unfold s_nblocks. split.
  - intros H. minv. auto.
  - intros [H ->]. apply bind_Ret. exists (super s), s. split; [reflexivity|].
    apply load32_Ret. auto.
Qed.

Lemma diskaddr_Ret (b va : Z) (s s' : state) :
  diskaddr b s = Ret va s' -> s' = s /\ va = block_va b.
Proof.
  unfold diskaddr, block_va. intros H. minv; auto.
  apply s_nblocks_Ret in H. destruct H as [_ ->]. auto.
Qed.

Lemma block_is_mapped_Ret (b m : Z) (s s' : state) :
  block_is_mapped b s = Ret m s' ->
  s' = s /\ m = if mapped s (block_va b) then block_va b else 0.
Proof.
  unfold block_is_mapped, va_is_mapped. intros H. minv.
  - apply diskaddr_Ret in H as [-> ->]. rewrite Heqb0. auto.
  - apply diskaddr_Ret in H as [-> ->]. rewrite Heqb0. auto.
Qed.

Lemma block_is_dirty_Ret (b : Z) (d : bool) (s s' : state) :
  block_is_dirty b s = Ret d s' -> s' = s /\ d = false.
Proof.
  unfold block_is_dirty, va_is_mapped, va_is_dirty. intros H. minv.
  - apply diskaddr_Ret in H as [-> _]. auto.
  - apply diskaddr_Ret in H as [-> _]. auto.
Qed.

Lemma ide_write_Ret (d secno va n : Z) (u : unit) (s s' : state) :
  ide_write d secno va n s = Ret u s' ->
  exists perm ws, pages s !! VPN va = Some (perm, ws) /\ s' = set_disk secno ws s.
Proof.
  unfold ide_write. destruct (pages s !! VPN va) as [[perm ws]|]; [|discriminate].
  intros [= <-]. eauto.
Qed.

(** What [write_block] leaves behind: the same memory and mappings, and one
    more entry in the log of the disk. *)
Lemma write_block_Ret (b : Z) (u : unit) (s s' : state) :
  write_block b s = Ret u s' ->
  mapped s (block_va b) = true /\
  same_mem s s' /\ (forall va, mapped s' va = mapped s va) /\
  super s' = super s /\ bitmap s' = bitmap s /\ kfree s' = kfree s /\
  ide_log s' = wrap32 (b * SECT2BLK) :: ide_log s.
Proof.
  unfold write_block, syscall_mem_map. intros H. minv.
  apply block_is_mapped_Ret in H as [-> ->].
  apply diskaddr_Ret in H0 as [-> ->].
  apply ide_write_Ret in H1 as (perm & ws & Hpg & ->).
  simpl in Heqo. rewrite Hpg in Heqo. injection Heqo as <- <-.
  destruct (mapped s (block_va b)) eqn:Hm; [|discriminate].
  split; [reflexivity|]. split; [|split].
  - intros va. unfold peek. simpl.
    destruct (decide (VPN va = VPN (block_va b))) as [->|Hne].
    + rewrite lookup_insert_eq, Hpg. reflexivity.
    + rewrite lookup_insert_ne by congruence. reflexivity.
  - intros va. unfold mapped. simpl.
    destruct (decide (VPN va = VPN (block_va b))) as [E|Hne].
    + rewrite E, lookup_insert_eq. rewrite perm_V_R_L. simpl.
      unfold mapped in Hm. rewrite Hpg in Hm. rewrite Hpg. symmetry. exact Hm.
    + rewrite lookup_insert_ne by congruence. reflexivity.
  - simpl. auto.
Qed.

(** ** Bitmap allocator *)

Lemma wrap32_testbit (x n : Z) :
  0 <= n -> Z.testbit (wrap32 x) n = (n <? 32) && Z.testbit x n.
Proof.
  intros Hn. unfold wrap32. destruct (n <? 32) eqn:E.
  - apply Z.ltb_lt in E. rewrite Z.mod_pow2_bits_low by lia. reflexivity.
  - apply Z.ltb_ge in E. rewrite Z.mod_pow2_bits_high by lia. reflexivity.
Qed.

(** Clearing a bit that is set and setting it again restores the word. *)
Lemma set_clear_bit (w b : Z) :
  0 <= w < 2 ^ 32 -> Z.testbit w (b mod 32) = true ->
  wrap32 (Z.lor (wrap32 (Z.land w (wrap32 (Z.lnot (bit_mask b))))) (bit_mask b)) = w.
Proof.
  intros Hw Hbit. rewrite bit_mask_spec.
  assert (Hk : 0 <= b mod 32 < 32) by (apply Z.mod_pos_bound; lia).
  rewrite <- (wrap32_small w) at 2 by exact Hw.
  apply Z.bits_inj'. intros n Hn.
  rewrite !wrap32_testbit, Z.lor_spec, wrap32_testbit, Z.land_spec,
    wrap32_testbit, Z.lnot_spec by lia.
  destruct (Z.eq_dec n (b mod 32)) as [->|Hne].
  - rewrite Z.pow2_bits_true, Hbit by lia.
    destruct (b mod 32 <? 32); reflexivity.
  - rewrite Z.pow2_bits_false by lia.
    destruct (n <? 32), (Z.testbit w n); reflexivity.
Qed.

Lemma peek_same_word (s : state) (va va' : Z) :
  VPN va' = VPN va -> word_ix va' = word_ix va -> peek s va' = peek s va.
Proof. unfold peek. intros -> ->. reflexivity. Qed.

(** The outcome of the scan of [alloc_block_num]: either no bit is set among
    the [n] blocks from [b0] and nothing changed, or the first set bit was
    cleared in memory and [write_block] ran on [b / BIT2BLK]. *)
Lemma alloc_scan_Ret (n : nat) (b0 r : Z) (s s' : state) :
  alloc_scan n b0 s = Ret r s' ->
  (r = - E_NO_DISK /\ s' = s /\
   forall b, b0 <= b < b0 + Z.of_nat n -> bitmap_bit s b = Some false) \/
  (exists b w s1,
     b0 <= b < b0 + Z.of_nat n /\ b < 2 ^ 31 /\ r = b /\
     (forall b', b0 <= b' < b -> bitmap_bit s b' = Some false) /\
     peek s (bitmap_va s b) = Some w /\ Z.testbit w (b mod 32) = true /\
     poke s (bitmap_va s b) (Z.land w (wrap32 (Z.lnot (bit_mask b)))) = Some s1 /\
     write_block (b / BIT2BLK) s1 = Ret tt s').
Proof.
  revert b0. induction n as [|n IH]; intros b0 H; simpl in H.
  - left. apply ret_Ret in H as [-> ->]. repeat split. intros b Hb. lia.
  - destruct (2 ^ 31 <=? b0) eqn:Eint; [discriminate|]. apply Z.leb_gt in Eint.
    unfold bitmap_word in H.
    apply bind_Ret in H as (a & sa & Ha & H).
    apply bind_Ret in Ha as (bm & sb & Hbm & Ha).
    apply get_Ret in Hbm as [-> ->]. apply ret_Ret in Ha as [-> ->].
    apply bind_Ret in H as (w & sw & Hw & H).
    apply load32_Ret in Hw as [Hw ->].
    rewrite land_bit_mask in H.
    assert (Hb0 : bitmap_bit s b0 = Some (Z.testbit w (b0 mod 32))).
    { unfold bitmap_bit. rewrite Hw. reflexivity. }
    destruct (Z.testbit w (b0 mod 32)) eqn:Hbit.
    + right.
      apply bind_Ret in H as (u & s1 & Hst & H).
      apply store32_Ret in Hst.
      apply bind_Ret in H as (u' & s2 & Hwr & H).
      apply ret_Ret in H as [-> ->]. destruct u'.
      exists b0, w, s1. repeat split; try assumption; try lia.
    + apply IH in H.
      destruct H as [(-> & -> & Hall)|(b & w' & s1 & Hb & Hint & -> & Hbefore & Hrest)].
      * left. repeat split. intros b Hb.
        destruct (Z.eq_dec b b0) as [->|]; [exact Hb0 | apply Hall; lia].
      * right. exists b, w', s1. repeat split; try lia; try tauto.
        intros b' Hb'.
        destruct (Z.eq_dec b' b0) as [->|]; [exact Hb0 | apply Hbefore; lia].
Qed.

Lemma errno_pos :
  0 < E_INVAL /\ 0 < E_NO_MEM /\ 0 < E_NO_DISK /\ 0 < E_NOT_FOUND /\
  0 < E_BAD_PATH /\ 0 < E_FILE_EXISTS.
Proof.
  pose proof errno_range as F. rewrite !Forall_cons in F. intuition lia.
Qed.

Lemma syscall_mem_alloc_Ret (va perm r : Z) (s s' : state) :
  syscall_mem_alloc va perm s = Ret r s' ->
  ((r = - E_INVAL \/ r = - E_NO_MEM) /\ s' = s) \/
  (r = 0 /\ exists pg k, kfree s = pg :: k /\
     s' = set_kfree k (set_pages <[VPN va := (perm, pg)]> s)).
Proof.
  unfold syscall_mem_alloc. intros H.
  destruct (_ || _).
  { apply ret_Ret in H as [-> ->]. left. auto. }
  mbind H as k s1 Hk. apply get_Ret in Hk as [-> ->].
  destruct (kfree s) as [|pg k].
  { apply ret_Ret in H as [-> ->]. left. auto. }
  mbind H as u s1 Hmod. apply modify_Ret in Hmod as ->.
  apply ret_Ret in H as [-> ->]. right. split; [reflexivity|]. eauto.
Qed.

Lemma map_block_Ret (b r : Z) (s s' : state) :
  map_block b s = Ret r s' ->
  (r = 0 /\ s' = s) \/
  syscall_mem_alloc (block_va b) (Z.lor PTE_V PTE_R) s = Ret r s'.
Proof.
  unfold map_block. intros H.
  mbind H as m s1 Hm. apply block_is_mapped_Ret in Hm as [-> ->].
  destruct (negb _).
  - left. apply ret_Ret in H. exact H.
  - right. mbind H as va s1 Hva. apply diskaddr_Ret in Hva as [-> ->]. exact H.
Qed.

Lemma free_block_Ret (b : Z) (u : unit) (s s' : state) :
  free_block b s = Ret u s' ->
  b <> 0 /\ exists w, peek s (bitmap_va s b) = Some w /\
    poke s (bitmap_va s b) (Z.lor w (bit_mask b)) = Some s'.
Proof.
  unfold free_block, bitmap_word. intros H.
  destruct (b =? 0) eqn:E; [discriminate|]. apply Z.eqb_neq in E.
  split; [exact E|].
  mbind H as a s1 Ha. mbind Ha as bm s2 Hbm.
  apply get_Ret in Hbm as [-> ->]. apply ret_Ret in Ha as [-> ->].
  mbind H as w s1 Hw. apply load32_Ret in Hw as [Hw ->].
  apply store32_Ret in H. eauto.
Qed.

(** C9: when [alloc_block] returns an error, every word of the server's
    memory, and so every bit of the bitmap, is what it was at the call: a bit
    cleared by [alloc_block_num] has been set again by [free_block]. *)
Theorem alloc_block_atomic (s s' : state) (r : Z) :
  alloc_block s = Ret r s' -> r < 0 ->
  same_mem s s' /\ bitmap s' = bitmap s /\
  forall b, bitmap_bit s' b = bitmap_bit s b.
Proof.
  intros H Hneg.
  assert (Hgoal : same_mem s s' /\ bitmap s' = bitmap s).
  2:{ destruct Hgoal as [Hm Hb]. repeat split; try assumption.
      intros b. unfold bitmap_bit. rewrite Hb, Hm. reflexivity. }
  unfold alloc_block, alloc_block_num in H.
  mbind H as r1 s1 Hscan. mbind Hscan as nb s0 Hnb.
  apply s_nblocks_Ret in Hnb as [Hnb ->].
  apply alloc_scan_Ret in Hscan
    as [(-> & -> & _)|(b & w & sm & Hb & Hint & -> & _ & Hw & Hbit & Hpoke & Hwr)].
  { (* the scan itself failed *)
    destruct (_ <? 0) eqn:E.
    - apply ret_Ret in H as [_ ->]. split; [intros va|]; reflexivity.
    - pose proof errno_pos. apply Z.ltb_ge in E. lia. }
  (* a block was found: only a failure of [map_block] is an error *)
  destruct (b <? 0) eqn:Eb; [apply Z.ltb_lt in Eb; lia|].
  mbind H as r' s2 Hmap.
  destruct (r' <? 0) eqn:Er'; [|apply ret_Ret in H as [-> ->]; lia].
  apply Z.ltb_lt in Er'.
  mbind H as u s3 Hfree. apply ret_Ret in H as [-> ->].
  assert (s2 = s1) as ->.
  { apply map_block_Ret in Hmap as [[-> ->]|Ha]; [lia|].
    apply syscall_mem_alloc_Ret in Ha as [[_ ->]|[-> _]]; [reflexivity | lia]. }
  apply free_block_Ret in Hfree as (_ & w1 & Hw1 & Hpoke1).
  apply write_block_Ret in Hwr as (_ & Hmem & _ & _ & Hbm & _).
  pose proof (poke_fields _ _ _ _ Hpoke) as (_ & Hbm1 & _).
  pose proof (poke_fields _ _ _ _ Hpoke1) as (_ & Hbm2 & _).
  assert (Ea : bitmap_va s1 b = bitmap_va s b)
    by (unfold bitmap_va; congruence).
  rewrite Ea in *.
  rewrite Hmem, (peek_poke_same _ _ _ _ Hpoke) in Hw1. injection Hw1 as <-.
  split; [|congruence].
  intros va.
  destruct (decide (VPN va = VPN (bitmap_va s b) /\
                    word_ix va = word_ix (bitmap_va s b))) as [[E1 E2]|Hne].
  - rewrite (peek_same_word s3 _ _ E1 E2), (peek_same_word s _ _ E1 E2).
    rewrite (peek_poke_same _ _ _ _ Hpoke1), Hw. f_equal.
    apply set_clear_bit; [exact (peek_range _ _ _ Hw) | exact Hbit].
  - assert (VPN va <> VPN (bitmap_va s b) \/
            word_ix va <> word_ix (bitmap_va s b))
      by (destruct (decide (VPN va = VPN (bitmap_va s b))); tauto).
    rewrite (peek_poke_other _ _ _ _ _ Hpoke1), Hmem,
      (peek_poke_other _ _ _ _ _ Hpoke) by assumption.
    reflexivity.
Qed.

(** ** Return values of the file layer *)

Lemma alloc_block_value (r : Z) (s s' : state) :
  alloc_block s = Ret r s' -> 0 <= r \/ block_error r.
Proof.
  unfold alloc_block, alloc_block_num, block_error. intros H.
  mbind H as r1 s1 Hscan. mbind Hscan as nb s0 Hnb.
  apply alloc_scan_Ret in Hscan
    as [(-> & -> & _)|(b & w & sm & Hb & Hint & -> & _)].
  - destruct (_ <? 0) eqn:E0; [apply ret_Ret in H as [-> _]; auto|].
    pose proof errno_pos. apply Z.ltb_ge in E0. lia.
  - destruct (b <? 0) eqn:E; [apply Z.ltb_lt in E; lia|].
    mbind H as r' s2 Hmap. destruct (r' <? 0) eqn:E'.
    + mbind H as u s3 Hf. apply ret_Ret in H as [-> _].
      apply map_block_Ret in Hmap as [[-> _]|Ha]; [discriminate|].
      apply syscall_mem_alloc_Ret in Ha as [[[->| ->] _]|[-> _]];
        [auto | auto | discriminate].
    + apply ret_Ret in H as [-> _]. left. lia.
Qed.

Lemma read_block_value (b r va isnew : Z) (s s' : state) :
  read_block b s = Ret (r, va, isnew) s' -> r = 0 /\ va = block_va b.
Proof.
  unfold read_block. intros H.
  mbind H as sup s1 Hsup. mbind H as bad s2 Hbad.
  destruct bad; [discriminate|].
  mbind H as bm s3 Hbm. mbind H as fr s4 Hfr.
  destruct (negb _); [discriminate|].
  mbind H as va' s5 Hva. apply diskaddr_Ret in Hva as [-> ->].
  mbind H as m s5 Hm.
  destruct (negb _).
  - apply ret_Ret in H as [[= -> -> ->] _]. auto.
  - mbind H as x s6 Hx. mbind H as y s7 Hy.
    apply ret_Ret in H as [[= -> -> ->] _]. auto.
Qed.

Lemma file_block_walk_value (f filebno ptr0 alloc r ptr : Z) (s s' : state) :
  file_block_walk f filebno ptr0 alloc s = Ret (r, ptr) s' ->
  r = 0 \/ block_error r.
Proof.
  unfold file_block_walk, block_error. intros H.
  destruct (filebno <? NDIRECT); [apply ret_Ret in H as [[= -> ->] _]; auto|].
  destruct (filebno <? NINDIRECT); [|apply ret_Ret in H as [[= -> ->] _]; auto].
  assert (Hrest : forall s0,
    (ind ← load32 (f_indirect f);
     rb ← read_block ind;
     let '(r, blk, _) := rb in
     if r <? 0 then ret (r, ptr0)
     else if blk =? 0 then user_panic
     else ret (0, wrap32 (blk + 4 * filebno))) s0 = Ret (r, ptr) s' -> r = 0).
  { intros s0 H0. mbind H0 as ind s1 Hind. mbind H0 as rb s2 Hrb.
    destruct rb as [[r0 blk] isnew]. apply read_block_value in Hrb as [-> _].
    simpl in H0. destruct (blk =? 0); [discriminate|].
    apply ret_Ret in H0 as [[= -> ->] _]. reflexivity. }
  mbind H as ind s1 Hind.
  destruct (ind =? 0); [|left; eapply Hrest; exact H].
  destruct (alloc =? 0); [apply ret_Ret in H as [[= -> ->] _]; auto|].
  mbind H as r1 s2 Hal. destruct (r1 <? 0) eqn:E.
  - apply ret_Ret in H as [[= -> ->] _]. apply Z.ltb_lt in E.
    apply alloc_block_value in Hal as [?|?]; [lia | auto].
  - mbind H as u s3 Hst. left. eapply Hrest. exact H.
Qed.

Lemma file_map_block_value (f filebno d0 alloc r d : Z) (s s' : state) :
  file_map_block f filebno d0 alloc s = Ret (r, d) s' ->
  r = 0 \/ block_error r.
Proof.
  unfold file_map_block. intros H.
  mbind H as wk s1 Hwk. destruct wk as [r0 ptr].
  apply file_block_walk_value in Hwk.
  destruct (r0 <? 0) eqn:E.
  { apply ret_Ret in H as [[= -> ->] _]. exact Hwk. }
  mbind H as v s2 Hv.
  assert (Hrest : forall s0,
    (v ← load32 ptr; ret (0, v)) s0 = Ret (r, d) s' -> r = 0).
  { intros s0 H0. mbind H0 as v' s3 Hv'. apply ret_Ret in H0 as [[= -> ->] _].
    reflexivity. }
  destruct (v =? 0); [|left; eapply Hrest; exact H].
  destruct (alloc =? 0); [apply ret_Ret in H as [[= -> ->] _]; right; left; auto|].
  mbind H as r1 s3 Hal. destruct (r1 <? 0) eqn:E1.
  - apply ret_Ret in H as [[= -> ->] _]. apply Z.ltb_lt in E1.
    apply alloc_block_value in Hal as [?|?]; [lia | auto].
  - mbind H as u s4 Hst. left. eapply Hrest. exact H.
Qed.

Lemma file_get_block_value (f filebno blk0 r blk : Z) (s s' : state) :
  file_get_block f filebno blk0 s = Ret (r, blk) s' ->
  r = 0 \/ block_error r.
Proof.
  unfold file_get_block. intros H.
  mbind H as mp s1 Hmp. destruct mp as [r0 d].
  apply file_map_block_value in Hmp.
  destruct (r0 <? 0).
  { apply ret_Ret in H as [[= -> ->] _]. exact Hmp. }
  mbind H as rb s2 Hrb. destruct rb as [[r1 va] isnew].
  apply read_block_value in Hrb as [-> _]. simpl in H.
  apply ret_Ret in H as [[= -> ->] _]. auto.
Qed.

Lemma dir_lookup_value (dir : Z) (name : list Z) (file0 r file : Z) (s s' : state) :
  dir_lookup dir name file0 s = Ret (r, file) s' ->
  r = 0 \/ block_error r.
Proof.
  unfold dir_lookup. intros H. mbind H as sz s1 Hsz. clear Hsz.
  revert H. generalize 0 at 1. revert s1.
  induction (Z.to_nat (nblocks_of sz)) as [|n IH]; intros s1 i H; simpl in H.
  - apply ret_Ret in H as [[= -> ->] _]. right. left. reflexivity.
  - mbind H as gb s2 Hgb. destruct gb as [r0 blk].
    apply file_get_block_value in Hgb.
    destruct (r0 <? 0).
    { apply ret_Ret in H as [[= -> ->] _]. exact Hgb. }
    mbind H as hit s3 Hhit. destruct hit as [fj|].
    + apply ret_Ret in H as [[= -> ->] _]. auto.
    + eapply IH. exact H.
Qed.

(** ** Path resolver *)

Lemma errno_bad_path :
  E_BAD_PATH <> E_NOT_FOUND /\ E_BAD_PATH <> E_INVAL /\
  E_BAD_PATH <> E_NO_DISK /\ E_BAD_PATH <> E_NO_MEM.
Proof.
  pose proof errno_distinct as N.
  rewrite !NoDup_cons, !not_elem_of_cons in N. intuition congruence.
Qed.

Lemma block_error_not_bad_path (r : Z) : block_error r -> r <> - E_BAD_PATH.
Proof.
  pose proof errno_bad_path. unfold block_error. intros [->|[->|[->| ->]]]; lia.
Qed.

Lemma skip_name_length (p : list Z) : (length (skip_name p) <= length p)%nat.
Proof.
  induction p as [|c p IH]; simpl; [lia|].
  destruct (negb (c =? SLASH) && negb (c =? 0)); simpl; lia.
Qed.

Lemma skip_slash_length (p : list Z) : (length (skip_slash p) <= length p)%nat.
Proof.
  induction p as [|c p IH]; simpl; [lia|].
  destruct (c =? SLASH); simpl; lia.
Qed.

Lemma skip_slash_cur (p : list Z) : cur (skip_slash p) <> SLASH.
Proof.
  induction p as [|c p IH]; simpl; [discriminate|].
  destruct (c =? SLASH) eqn:E; [exact IH|]. simpl. apply Z.eqb_neq. exact E.
Qed.

(** One iteration of the walk consumes at least one byte. *)
Lemma walk_step_shorter (p : list Z) :
  cur p <> 0 -> (length (skip_slash (skip_name p)) < length p)%nat.
Proof.
  destruct p as [|c p]; simpl; [congruence|]. intros Hc.
  destruct (c =? SLASH) eqn:E; simpl.
  - rewrite E. pose proof (skip_slash_length p). lia.
  - apply Z.eqb_neq in Hc. rewrite Hc. simpl.
    pose proof (skip_slash_length (skip_name p)).
    pose proof (skip_name_length p). lia.
Qed.

(** The component that the walk cuts off the front of [p], and what is left. *)
Lemma components_skip_name (acc p : list Z) :
  components_from acc p =
  flush (rev acc ++ take (length p - length (skip_name p)) p)
  ++ components (skip_name p).
Proof.
  unfold components. revert acc. induction p as [|c p IH]; intros acc; simpl.
  - rewrite !app_nil_r. reflexivity.
  - destruct (c =? 0) eqn:E0.
    + rewrite andb_false_r. simpl. rewrite E0, Nat.sub_diag. simpl.
      rewrite !app_nil_r. reflexivity.
    + destruct (c =? SLASH) eqn:Es; simpl.
      * rewrite E0, Es, Nat.sub_diag. simpl. rewrite app_nil_r. reflexivity.
      * rewrite IH. pose proof (skip_name_length p).
        replace (S (length p) - length (skip_name p))%nat
          with (S (length p - length (skip_name p))) by lia.
        simpl. rewrite <- app_assoc. reflexivity.
Qed.

Lemma components_skip_slash (p : list Z) :
  components (skip_slash p) = components p.
Proof.
  unfold components. induction p as [|c p IH]; simpl; [reflexivity|].
  destruct (c =? SLASH) eqn:Es; [|simpl; rewrite Es; reflexivity].
  destruct (c =? 0) eqn:E0.
  - apply Z.eqb_eq in E0, Es. subst. discriminate.
  - simpl. exact IH.
Qed.

Lemma components_step (p : list Z) :
  components p =
  flush (take (length p - length (skip_name p)) p)
  ++ components (skip_slash (skip_name p)).
Proof.
  rewrite components_skip_slash. unfold components at 1.
  rewrite components_skip_name. reflexivity.
Qed.

(** The walk never exhausts fuel that exceeds the length of the path. *)
Lemma walk_loop_fuel (fuel fuel' : nat) (path : list Z) (dir file : Z)
    (le : list Z) (s : state) :
  (length path < fuel)%nat -> (length path < fuel')%nat ->
  walk_loop fuel path dir file le s = walk_loop fuel' path dir file le s.
Proof.
  revert fuel' path dir file le s.
  induction fuel as [|fuel IH]; intros fuel' path dir file le s H1 H2; [lia|].
  destruct fuel' as [|fuel']; [lia|]. simpl.
  destruct (cur path =? 0) eqn:Ec; [reflexivity|]. apply Z.eqb_neq in Ec.
  destruct (MAXNAMELEN <=? _); [reflexivity|].
  unfold bind. destruct (load32 (f_type file) s) as [ty s1| |]; try reflexivity.
  destruct (negb (ty =? FTYPE_DIR)); [reflexivity|].
  destruct (dir_lookup _ _ _ s1) as [[r file'] s2| |]; try reflexivity.
  destruct (r <? 0); [reflexivity|].
  pose proof (walk_step_shorter path Ec). apply IH; lia.
Qed.

(** When the loop stands at a component of [MAXNAMELEN] bytes or more, it
    returns [-E_BAD_PATH] before it touches memory. *)
Lemma walk_loop_long (fuel : nat) (path : list Z) (dir file : Z) (le : list Z)
    (s : state) (c : list Z) (rest : list (list Z)) :
  cur path <> SLASH -> components path = c :: rest ->
  MAXNAMELEN <= Z.of_nat (length c) ->
  walk_loop (S fuel) path dir file le s = Ret (- E_BAD_PATH, 0, 0, le) s.
Proof.
  intros Hsl Hc Hlong. simpl.
  destruct (cur path =? 0) eqn:Ec.
  { destruct path as [|x p]; [discriminate|]. simpl in Ec.
    unfold components in Hc. simpl in Hc. rewrite Ec in Hc. discriminate. }
  rewrite components_step in Hc.
  pose proof (skip_name_length path) as Hlen.
  assert (Hne : take (length path - length (skip_name path)) path <> []).
  { destruct path as [|x p]; [discriminate|]. simpl in *.
    apply Z.eqb_neq in Hsl. rewrite Hsl, Ec. simpl.
    pose proof (skip_name_length p).
    replace (S (length p) - length (skip_name p))%nat
      with (S (length p - length (skip_name p))) by lia. discriminate. }
  destruct (take (length path - length (skip_name path)) path) as [|y nm] eqn:Et;
    [congruence|].
  simpl in Hc. injection Hc as <- _.
  assert (Hl : length (y :: nm) = (length path - length (skip_name path))%nat).
  { rewrite <- Et, length_take. lia. }
  replace (Z.of_nat (length path) - Z.of_nat (length (skip_name path)))
    with (Z.of_nat (length (y :: nm))) by lia.
  apply Z.leb_le in Hlong. rewrite Hlong. reflexivity.
Qed.

(** [-E_BAD_PATH] comes out of the loop only when a component is that long. *)
Lemma walk_loop_bad_path (fuel : nat) (path : list Z) (dir file : Z)
    (le le' : list Z) (r d f : Z) (s s' : state) :
  walk_loop fuel path dir file le s = Ret (r, d, f, le') s' ->
  r = - E_BAD_PATH ->
  Exists (fun c => MAXNAMELEN <= Z.of_nat (length c)) (components path).
Proof.
  revert path dir file le s.
  induction fuel as [|fuel IH]; intros path dir file le s H Hr; [discriminate|].
  simpl in H. pose proof errno_pos as Hpos. pose proof errno_bad_path as Hd.
  destruct (cur path =? 0); [apply ret_Ret in H as [[= -> _ _ _] _]; lia|].
  rewrite components_step.
  pose proof (skip_name_length path) as Hlen.
  destruct (MAXNAMELEN <=? _) eqn:El.
  { apply Z.leb_le in El. apply Exists_app. left.
    assert (Hl : length (take (length path - length (skip_name path)) path)
                 = (length path - length (skip_name path))%nat)
      by (rewrite length_take; lia).
    destruct (take (length path - length (skip_name path)) path) as [|y nm];
      simpl in Hl; [unfold MAXNAMELEN in El; lia|].
    simpl. apply Exists_cons. left. simpl. lia. }
  mbind H as ty s1 Hty.
  destruct (negb (ty =? FTYPE_DIR));
    [apply ret_Ret in H as [[= -> _ _ _] _]; lia|].
  mbind H as lk s2 Hlk. destruct lk as [r0 file'].
  apply dir_lookup_value in Hlk.
  destruct (r0 <? 0) eqn:E0.
  - assert (r0 <> - E_BAD_PATH).
    { destruct Hlk as [->|Hlk]; [lia | apply block_error_not_bad_path, Hlk]. }
    destruct (_ && _); apply ret_Ret in H as [[= -> _ _ _] _]; contradiction.
  - apply Exists_app. right. eapply IH; eassumption.
Qed.

(** What the loop has reached is a later part of the same path: the
    components it went through are short, and the rest are the components
    of what is left. *)
Lemma walk_reaches_components (path p' : list Z) (file file' : Z) (s s' : state) :
  walk_reaches path file s p' file' s' ->
  (cur path <> SLASH -> cur p' <> SLASH) /\
  (length p' <= length path)%nat /\
  exists pre, components path = pre ++ components p' /\
    Forall (fun c => Z.of_nat (length c) < MAXNAMELEN) pre.
Proof.
  induction 1 as [path file s|path file s s1 s2 r file1 p' file' s' Hc Hlen Hty Hlk Hr
                    Hreach (Hsl & Hle & pre & Hpre & Hshort)].
  - split; [auto|]. split; [lia|]. exists []. split; [reflexivity | constructor].
  - pose proof (walk_step_shorter path Hc) as Hstep.
    split; [intros _; apply Hsl, skip_slash_cur|]. split; [lia|].
    exists (flush (take (length path - length (skip_name path)) path) ++ pre).
    split; [rewrite components_step, Hpre, app_assoc; reflexivity|].
    apply Forall_app. split; [|exact Hshort].
    pose proof (skip_name_length path) as Hn.
    assert (Hl : length (take (length path - length (skip_name path)) path)
                 = (length path - length (skip_name path))%nat)
      by (rewrite length_take; lia).
    destruct (take (length path - length (skip_name path)) path) as [|y nm];
      simpl; [constructor|].
    apply Forall_cons. split; [simpl in *; lia | constructor].
Qed.

(** The loop does get where [walk_reaches] says. *)
Lemma walk_loop_reaches (fuel : nat) (path p' : list Z) (dir file file' : Z)
    (le : list Z) (s s' : state) :
  walk_reaches path file s p' file' s' -> (length path < fuel)%nat ->
  exists dir',
    walk_loop fuel path dir file le s = walk_loop fuel p' dir' file' le s'.
Proof.
  intros Hreach. revert fuel dir.
  induction Hreach as [path file s|path file s s1 s2 r file1 p' file' s' Hc Hlen Hty
                         Hlk Hr Hreach IH]; intros fuel dir Hfuel.
  - exists dir. reflexivity.
  - destruct fuel as [|fuel]; [lia|].
    pose proof (walk_step_shorter path Hc) as Hstep.
    destruct (walk_reaches_components _ _ _ _ _ _ Hreach) as (_ & Hle & _).
    destruct (IH fuel file ltac:(lia)) as [dir' Hrun].
    exists dir'. rewrite (walk_loop_fuel (S fuel) fuel p') by lia.
    rewrite <- Hrun. cbn [walk_loop].
    apply Z.eqb_neq in Hc. rewrite Hc.
    apply Z.leb_gt in Hlen. rewrite Hlen.
    unfold bind. rewrite Hty, Z.eqb_refl. cbn [negb]. rewrite Hlk.
    apply Z.ltb_ge in Hr. rewrite Hr. reflexivity.
Qed.

(** C6, as amended: [walk_path] returns [-E_BAD_PATH] when it reaches a
    component of [MAXNAMELEN] bytes or more, that is, when the components
    before it are shorter and are found, each in a directory; so it does,
    in every state and before any memory access, when the first component
    is that long.  [walk_path] returns [-E_BAD_PATH] only when some
    component has [MAXNAMELEN] bytes or more; components of up to
    [MAXNAMELEN - 1] bytes pass the length check. *)
Theorem walk_path_bad_path (path le : list Z) (s : state) :
  (forall c rest, components path = c :: rest ->
     MAXNAMELEN <= Z.of_nat (length c) ->
     walk_path path le s = Ret (- E_BAD_PATH, 0, 0, le) s) /\
  (forall p' file' s' c rest,
     walk_reaches (skip_slash path) (wrap32 (super s + S_ROOT)) s p' file' s' ->
     components p' = c :: rest -> MAXNAMELEN <= Z.of_nat (length c) ->
     walk_path path le s = Ret (- E_BAD_PATH, 0, 0, le) s' /\
     exists pre, components path = pre ++ c :: rest /\
       Forall (fun c => Z.of_nat (length c) < MAXNAMELEN) pre) /\
  (forall r d f le' s',
     walk_path path le s = Ret (r, d, f, le') s' -> r = - E_BAD_PATH ->
     Exists (fun c => MAXNAMELEN <= Z.of_nat (length c)) (components path)) /\
  (Forall (fun c => Z.of_nat (length c) < MAXNAMELEN) (components path) ->
   forall r d f le' s',
     walk_path path le s = Ret (r, d, f, le') s' -> r <> - E_BAD_PATH).
Proof.
  assert (Hbad : forall r d f le' s',
     walk_path path le s = Ret (r, d, f, le') s' -> r = - E_BAD_PATH ->
     Exists (fun c => MAXNAMELEN <= Z.of_nat (length c)) (components path)).
  { intros r d f le' s' H Hr. unfold walk_path in H.
    mbind H as sup s1 Hsup. rewrite <- components_skip_slash.
    eapply walk_loop_bad_path; eassumption. }
  split; [|split; [|split; [exact Hbad|]]].
  - intros c rest Hc Hlong. unfold walk_path, bind, get.
    apply walk_loop_long with (c := c) (rest := rest).
    + apply skip_slash_cur.
    + rewrite components_skip_slash. exact Hc.
    + exact Hlong.
  - intros p' file' s' c rest Hreach Hc Hlong.
    destruct (walk_reaches_components _ _ _ _ _ _ Hreach)
      as (Hsl & Hle & pre & Hpre & Hshort).
    split.
    + unfold walk_path, bind, get.
      destruct (walk_loop_reaches (S (length (skip_slash path))) _ _ 0 _ _ le _ _
                  Hreach ltac:(lia)) as [dir' ->].
      apply walk_loop_long with (c := c) (rest := rest);
        [apply Hsl, skip_slash_cur | exact Hc | exact Hlong].
    + exists pre. rewrite <- Hc, <- Hpre, components_skip_slash. auto.
  - intros Hall r d f le' s' H Hr.
    apply (Hbad _ _ _ _ _ H) in Hr.
    apply Exists_exists in Hr as (c & Hin & Hc).
    rewrite Forall_forall in Hall. apply Hall in Hin. lia.
Qed.
(** ** Page tables *)

Lemma pn_split (pn : Z) : pn = 1024 * PDX pn + PTX pn.
Proof.
  unfold PDX, PTX. rewrite Z.shiftr_div_pow2 by lia.
  change (2 ^ 10) with 1024. apply Z.div_mod. lia.
Qed.




(** ** Permission bits of a duplicated page *)

Lemma land_4095_bit (pte k : Z) :
  0 <= k < 12 -> Z.land (Z.land pte 4095) (2 ^ k) = Z.land pte (2 ^ k).
Proof.
  intros Hk. rewrite <- Z.land_assoc. f_equal.
  apply Z.bits_inj'. intros n Hn. rewrite Z.land_spec.
  change 4095 with (Z.ones 12). rewrite Z.testbit_ones_nonneg by lia.
  destruct (Z.eq_dec n k) as [->|Hne].
  - rewrite Z.pow2_bits_true by lia.
    destruct (k <? 12) eqn:E; [reflexivity|apply Z.ltb_ge in E; lia].
  - rewrite Z.pow2_bits_false by lia. apply andb_false_r.
Qed.



(** ** One call of [duppage] *)

Lemma page_addr (pn : Z) :
  0 <= pn -> pn * BY2PG < UTOP ->
  wrap32 (pn * BY2PG) = pn * BY2PG /\
  PPN (ROUNDDOWN (pn * BY2PG) BY2PG) = pn.
Proof.
  intros H0 H1. pose proof utop_32. split.
  - apply wrap32_small. unfold BY2PG in *. lia.
  - unfold ROUNDDOWN, PPN. rewrite Z.mod_mul by (unfold BY2PG; lia).
    rewrite Z.sub_0_r, Z.shiftr_div_pow2 by lia.
    change (2 ^ 12) with BY2PG. apply Z.div_mul. unfold BY2PG. lia.
Qed.



Lemma page_insert_no_mem (k : kernel) (i pa pn perm : Z) (e : Env) :
  envs k !! i = Some e -> env_pgdir e !! PDX pn = None -> nfree k <= 0 ->
  page_insert i pa pn perm k = KRet (- E_NO_MEM) k.
Proof.
  unfold page_insert. intros -> Hpt Hmem. rewrite Hpt.
  rewrite bool_decide_eq_false_2 by (intros [x Hx]; discriminate).
  apply Z.ltb_ge in Hmem. rewrite Hmem. reflexivity.
Qed.

Lemma errno_no_mem_neg : (- E_NO_MEM <? 0) = true.
Proof. pose proof errno_pos as (_ & H & _). apply Z.ltb_lt. lia. Qed.





Ltac lia_div := Z.to_euclidean_division_equations; lia.

(** ** The loop of [fork] *)





Section ForkLoop.
Variables (k : kernel) (newenvid : Z) (pe ce : Env).
Hypothesis Hid : newenvid <> 0.
Hypothesis Hpe : envs k !! curenv k = Some pe.
Hypothesis Hce : envs k !! ENVX newenvid = Some ce.
Hypothesis Hne : ENVX newenvid <> curenv k.
Hypothesis Hst : env_status ce <> ENV_FREE.
Hypothesis Hcid : env_id ce = newenvid.

Lemma fork_bound (pn : Z) :
  0 <= pn < PPN (USTACKTOP - BY2PG) -> pn * BY2PG < UTOP /\ pn + 1024 < 2 ^ 32.
Proof.
  pose proof ustacktop_utop. pose proof utop_32.
  unfold PPN. rewrite Z.shiftr_div_pow2 by lia. change (2 ^ 12) with 4096.
  unfold BY2PG in *. intros Hpn. split; lia_div.
Qed.


End ForkLoop.


(** ** Addresses *)

Lemma word_addr_inj (a a' : Z) :
  aligned a -> aligned a' -> VPN a = VPN a' -> word_ix a = word_ix a' -> a = a'.
Proof.
  unfold aligned, VPN, word_ix, BY2PG. intros Ha Ha' Hv Hw.
  assert ((a mod 4096) / 4 = (a' mod 4096) / 4).
  { apply Z2Nat.inj in Hw; [exact Hw | lia_div | lia_div]. }
  lia_div.
Qed.

Lemma peek_poke_ne (s s' : state) (a v a' : Z) :
  poke s a v = Some s' -> aligned a -> aligned a' -> a' <> a ->
  peek s' a' = peek s a'.
Proof.
  intros Hp Ha Ha' Hne. apply (peek_poke_other _ _ _ _ _ Hp).
  destruct (decide (VPN a' = VPN a)) as [E|E]; [|left; exact E].
  right. intros E'. apply Hne. apply word_addr_inj; assumption.
Qed.

(** A store outside the page of [va'] leaves that page alone. *)
Lemma peek_poke_page (s s' : state) (a v a' : Z) :
  poke s a v = Some s' -> VPN a' <> VPN a -> peek s' a' = peek s a'.
Proof. intros Hp Hne. apply (peek_poke_other _ _ _ _ _ Hp). left. exact Hne. Qed.

Lemma block_va_in_window (b nb : Z) :
  nb <= DISKMAX / BY2BLK -> 0 <= b < nb ->
  block_va b = DISKMAP + b * BY2BLK /\ block_va b < UTOP /\
  block_va b <> 0 /\ aligned (block_va b) /\ VPN (block_va b) = VPN DISKMAP + b.
Proof.
  intros Hnb Hb. pose proof diskmap_pos. pose proof diskmap_aligned.
  pose proof diskmap_window. pose proof utop_32. pose proof diskmax_pos.
  unfold block_va, aligned, VPN, BY2BLK, BY2PG in *.
  assert (b * 4096 < DISKMAX) by lia_div.
  rewrite wrap32_small by lia.
  repeat split; try lia; lia_div.
Qed.

Lemma block_va_page (b : Z) (nb i : Z) :
  nb <= DISKMAX / BY2BLK -> 0 <= b < nb -> 0 <= i < NINDIRECT ->
  wrap32 (block_va b + 4 * i) = block_va b + 4 * i /\
  VPN (block_va b + 4 * i) = VPN (block_va b) /\
  aligned (block_va b + 4 * i) /\ word_ix (block_va b + 4 * i) = Z.to_nat i.
Proof.
  intros Hnb Hb Hi.
  destruct (block_va_in_window b nb Hnb Hb) as (E & Hu & _ & Ha & _).
  pose proof diskmap_pos. pose proof diskmap_aligned.
  pose proof diskmap_window. pose proof utop_32. pose proof diskmax_pos.
  unfold NINDIRECT, aligned, VPN, word_ix, BY2BLK, BY2PG in *.
  change (4096 / 4) with 1024 in Hi.
  assert (b * 4096 + 4096 <= DISKMAX) by lia_div.
  rewrite E. rewrite wrap32_small by lia.
  repeat split; lia_div.
Qed.

(** ** Runs of the block cache *)

Lemma bind_run {A B} (c : M A) (f : A -> M B) (s s1 : state) (a : A) :
  c s = Ret a s1 -> bind c f s = f a s1.
Proof. unfold bind. intros ->. reflexivity. Qed.

Ltac step_with H := (erewrite bind_run; [|exact H]); cbv beta iota.
Ltac step := (erewrite bind_run; [|reflexivity]); cbv beta iota.

Lemma load32_run (s : state) (va w : Z) : peek s va = Some w -> load32 va s = Ret w s.
Proof. unfold load32. intros ->. reflexivity. Qed.

Lemma diskaddr_run (s : state) (nb b : Z) :
  super_loaded s nb -> b < nb -> diskaddr b s = Ret (block_va b) s.
Proof.
  intros [Hs Hnb] Hb. unfold diskaddr, s_nblocks, bind, get, ret.
  apply Z.eqb_neq in Hs. rewrite Hs, (load32_run _ _ _ Hnb).
  apply Z.leb_gt in Hb. rewrite Hb. reflexivity.
Qed.

Lemma block_is_mapped_run (s : state) (nb b : Z) :
  super_loaded s nb -> b < nb ->
  block_is_mapped b s
  = Ret (if mapped s (block_va b) then block_va b else 0) s.
Proof.
  intros Hs Hb. unfold block_is_mapped, bind.
  rewrite (diskaddr_run s nb b Hs Hb). unfold va_is_mapped, get.
  destruct (mapped s (block_va b)); reflexivity.
Qed.

Lemma mapped_pages (s : state) (va : Z) :
  mapped s va = true -> exists perm ws, pages s !! VPN va = Some (perm, ws).
Proof.
  unfold mapped. destruct (pages s !! VPN va) as [[perm ws]|]; [eauto|discriminate].
Qed.

Lemma write_block_run (s : state) (nb b : Z) :
  fs_loaded s nb -> 0 <= b < nb -> mapped s (block_va b) = true ->
  exists s', write_block b s = Ret tt s'.
Proof.
  intros [Hs Hnb] Hb Hm.
  destruct (block_va_in_window b nb Hnb Hb) as (_ & Hu & Hz & _).
  destruct (mapped_pages s _ Hm) as (perm & ws & Hpg).
  unfold write_block, bind.
  rewrite (block_is_mapped_run s nb b Hs) by lia. rewrite Hm.
  apply Z.eqb_neq in Hz. rewrite Hz.
  rewrite (diskaddr_run s nb b Hs) by lia.
  unfold ide_write. rewrite Hpg. unfold syscall_mem_map.
  rewrite perm_V_R_L. apply Z.leb_gt in Hu. rewrite Hu. simpl.
  unfold bind, get. simpl. rewrite Hpg. unfold modify, ret. eauto.
Qed.

(** Reading a block that is resident and in use changes nothing. *)
Lemma read_block_resident (s : state) (nb b : Z) :
  fs_loaded s nb -> 0 <= b < nb ->
  bitmap s = 0 \/ bitmap_bit s b = Some false ->
  mapped s (block_va b) = true ->
  read_block b s = Ret (0, block_va b, 0) s.
Proof.
  intros [Hs Hnb] [Hb0 Hb] Hfree Hm.
  destruct (block_va_in_window b nb Hnb (conj Hb0 Hb)) as (_ & _ & Hz & _).
  unfold read_block. step.
  assert (Hbad : (if super s =? 0 then ret false
                  else nb ← s_nblocks; ret (nb <=? b)) s = Ret false s).
  { destruct Hs as [Hsup Hn]. apply Z.eqb_neq in Hsup. rewrite Hsup.
    step_with (proj2 (s_nblocks_Ret s s nb) (conj Hn eq_refl)).
    apply Z.leb_gt in Hb. rewrite Hb. reflexivity. }
  step_with Hbad. step.
  assert (Hfr : (if bitmap s =? 0 then ret 0 else block_is_free b) s = Ret 0 s).
  { destruct (bitmap s =? 0) eqn:Eb; [reflexivity|].
    destruct Hfree as [E|Hbit]; [apply Z.eqb_neq in Eb; contradiction|].
    apply (block_is_free_run s nb b false Hs Hb Hbit). }
  step_with Hfr. change (negb (0 =? 0)) with false. cbv iota.
  step_with (diskaddr_run s nb b Hs Hb).
  step_with (block_is_mapped_run s nb b Hs Hb). rewrite Hm.
  apply Z.eqb_neq in Hz. rewrite Hz. reflexivity.
Qed.

(** ** Runs of the allocator *)

Ltac fs_arith :=
  unfold data_block, NINDIRECT, NDIRECT, MAXNAMELEN, BY2FILE, BIT2BLK, BY2BLK,
    BY2PG in *;
  lia_div.

Lemma perm_V_R_COW : (Z.land (Z.lor PTE_V PTE_R) PTE_COW =? 0) = true.
Proof.
  apply Z.eqb_eq.
  pose proof pte_distinct as N. rewrite !NoDup_cons, !not_elem_of_cons in N.
  destruct N as ((Hvr & Hvc & _) & (Hrc & _) & _).
  destruct pte_v_bit as (kv & Hkv & Ev). destruct pte_r_bit as (kr & Hkr & Er).
  destruct pte_cow_bit as (kc & Hkc & Ec). rewrite Ev, Er, Ec in *.
  assert (kv <> kc) by (intros ->; apply Hvc; reflexivity).
  assert (kr <> kc) by (intros ->; apply Hrc; reflexivity).
  apply Z.bits_inj'. intros n Hn.
  rewrite Z.land_spec, Z.lor_spec, Z.bits_0.
  destruct (Z.eq_dec n kc) as [->|Hne].
  - rewrite (Z.pow2_bits_false kv), (Z.pow2_bits_false kr) by lia. reflexivity.
  - rewrite (Z.pow2_bits_false kc) by lia. apply andb_false_r.
Qed.

Lemma fs_ready_addrs (s : state) (nb b : Z) :
  fs_ready s nb -> 0 <= b < nb ->
  bitmap_va s b = DISKMAP + 2 * BY2BLK + 4 * (b / 32) /\
  aligned (bitmap_va s b) /\
  VPN (bitmap_va s b) = VPN DISKMAP + 2 + b / BIT2BLK /\
  super s + S_NBLOCKS = DISKMAP + BY2BLK + 4 /\
  aligned (super s + S_NBLOCKS) /\
  VPN (super s + S_NBLOCKS) = VPN DISKMAP + 1 /\
  2 + b / BIT2BLK < 2 + (nb + BIT2BLK - 1) / BIT2BLK.
Proof.
  intros ((Hs & Hnb) & Esup & Ebm & H1) Hb.
  destruct (block_va_in_window 1 nb Hnb) as (E1 & _);
    [unfold BIT2BLK, BY2BLK, BY2PG in *; lia_div|].
  pose proof diskmap_pos. pose proof diskmap_aligned.
  pose proof diskmap_window. pose proof utop_32. pose proof diskmax_pos.
  unfold bitmap_va. rewrite Esup, Ebm, E1.
  unfold block_va, aligned, VPN, S_NBLOCKS, BIT2BLK, BY2BLK, BY2PG in *.
  assert (nb * 4096 <= DISKMAX) by lia_div.
  rewrite (wrap32_small (DISKMAP + 2 * 4096)) by lia_div.
  rewrite wrap32_small by lia_div.
  repeat split; lia_div.
Qed.

Lemma alloc_scan_run (n : nat) (b0 b w : Z) (s : state) :
  b0 <= b < b0 + Z.of_nat n -> b < 2 ^ 31 ->
  (forall b', b0 <= b' < b -> bitmap_bit s b' = Some false) ->
  peek s (bitmap_va s b) = Some w -> Z.testbit w (b mod 32) = true ->
  alloc_scan n b0 s =
  (store32 (bitmap_va s b) (Z.land w (wrap32 (Z.lnot (bit_mask b))));;
   write_block (b / BIT2BLK);; ret b) s.
Proof.
  revert b0. induction n as [|n IH]; intros b0 Hb Hint Hbefore Hw Hbit; [lia|].
  simpl. destruct (2 ^ 31 <=? b0) eqn:E; [apply Z.leb_le in E; lia|].
  step. fold (bitmap_va s b0).
  destruct (Z.eq_dec b0 b) as [->|Hne].
  - step_with (load32_run _ _ _ Hw). rewrite land_bit_mask, Hbit. reflexivity.
  - assert (Hb0 : bitmap_bit s b0 = Some false) by (apply Hbefore; lia).
    unfold bitmap_bit in Hb0. fold (bitmap_va s b0) in Hb0.
    destruct (peek s (bitmap_va s b0)) as [w0|] eqn:Hw0; [|discriminate].
    injection Hb0 as Hb0.
    step_with (load32_run _ _ _ Hw0). rewrite land_bit_mask, Hb0. simpl.
    apply IH; try assumption; try lia. intros b' Hb'. apply Hbefore. lia.
Qed.

Lemma clear_bit_testbit (w b : Z) :
  Z.testbit (wrap32 (Z.land w (wrap32 (Z.lnot (bit_mask b))))) (b mod 32) = false.
Proof.
  assert (Hk : 0 <= b mod 32 < 32) by (apply Z.mod_pos_bound; lia).
  rewrite bit_mask_spec, wrap32_testbit, Z.land_spec, wrap32_testbit,
    Z.lnot_spec, Z.pow2_bits_true by lia.
  destruct (b mod 32 <? 32), (Z.testbit w (b mod 32)); reflexivity.
Qed.

(** [map_block] on a block of the disk succeeds when the block is resident
    or the kernel has a page left. *)
Lemma map_block_run (s : state) (nb b : Z) :
  fs_loaded s nb -> 0 <= b < nb ->
  mapped s (block_va b) = true \/ kfree s <> [] ->
  exists s1, map_block b s = Ret 0 s1 /\
    super s1 = super s /\ bitmap s1 = bitmap s /\
    mapped s1 (block_va b) = true /\
    (forall va, VPN va <> VPN (block_va b) -> peek s1 va = peek s va) /\
    (forall va, VPN va = VPN (block_va b) ->
       peek s1 va = if mapped s (block_va b) then peek s va else fresh_word s va).
Proof.
  intros [Hs Hnb] Hb Hres.
  destruct (block_va_in_window b nb Hnb Hb) as (Eb & Hub & Hzb & Hab & Hvb).
  unfold map_block. step_with (block_is_mapped_run s nb b Hs (proj2 Hb)).
  destruct (mapped s (block_va b)) eqn:Hm.
  - apply Z.eqb_neq in Hzb. rewrite Hzb. simpl.
    exists s. repeat split; auto.
  - destruct Hres as [Hres|Hk]; [discriminate|].
    simpl. step_with (diskaddr_run s nb b Hs (proj2 Hb)).
    unfold syscall_mem_alloc. rewrite perm_V_R, perm_V_R_COW.
    apply Z.leb_gt in Hub. rewrite Hub. simpl.
    step. destruct (kfree s) as [|pg k] eqn:Ek; [congruence|].
    step. eexists. split; [reflexivity|]. simpl.
    split; [reflexivity|]. split; [reflexivity|].
    split; [unfold mapped; simpl; rewrite lookup_insert_eq, perm_V_R; reflexivity|].
    split.
    + intros va Hv. unfold peek. simpl.
      rewrite lookup_insert_ne by congruence. reflexivity.
    + intros va Hv. unfold peek, fresh_word. simpl.
      rewrite Hv, lookup_insert_eq, Ek. reflexivity.
Qed.

(** [alloc_block] on a loaded file system whose first free block is the data
    block [b]: it returns [b] with its bit cleared and its page mapped; the
    words of any other page are untouched, and so are the words of the page
    of [b] if it was resident. *)
Lemma alloc_block_run (s : state) (nb b : Z) :
  fs_ready s nb -> first_free s b -> data_block nb b ->
  mapped s (block_va (b / BIT2BLK)) = true ->
  mapped s (block_va b) = true \/ kfree s <> [] ->
  exists s1, alloc_block s = Ret b s1 /\
    super s1 = super s /\ bitmap s1 = bitmap s /\
    mapped s1 (block_va b) = true /\
    bitmap_bit s1 b = Some false /\
    (forall va, aligned va -> va <> bitmap_va s b ->
       VPN va <> VPN (block_va b) -> peek s1 va = peek s va) /\
    (forall va, VPN va = VPN (block_va b) ->
       peek s1 va = if mapped s (block_va b) then peek s va else fresh_word s va).
Proof.
  intros Hready (Hb3 & Hbit & Hbefore) Hdata Hmw Hres.
  pose proof Hready as ((Hs & Hnb) & Esup & Ebm & Hnb1).
  assert (Hb : 0 <= b < nb) by (unfold data_block in Hdata; lia).
  destruct (fs_ready_addrs s nb b Hready Hb)
    as (EA & HaA & HvA & EN & HaN & HvN & Hbmblk).
  destruct (block_va_in_window b nb Hnb Hb) as (Eb & Hub & Hzb & Hab & Hvb).
  assert (Hint : b < 2 ^ 31).
  { pose proof diskmap_window. pose proof utop_32. pose proof diskmap_pos.
    unfold BY2BLK, BY2PG in *. lia_div. }
  unfold bitmap_bit in Hbit. fold (bitmap_va s b) in Hbit.
  destruct (peek s (bitmap_va s b)) as [w|] eqn:Hw; [|discriminate].
  injection Hbit as Hbit.
  destruct (poke_is_Some s (bitmap_va s b)
              (Z.land w (wrap32 (Z.lnot (bit_mask b)))) w Hw) as [sa Hpoke].
  pose proof (poke_fields _ _ _ _ Hpoke) as (Hsa1 & Hsa2 & _ & _ & _ & Hsa6).
  assert (HNa : peek sa (super s + S_NBLOCKS) = Some nb).
  { rewrite (peek_poke_page _ _ _ _ _ Hpoke); [apply Hs|].
    rewrite HvA, HvN. fs_arith. }
  assert (Hla : fs_loaded sa nb).
  { split; [|exact Hnb]. split; [rewrite Hsa1; apply Hs|].
    rewrite Hsa1. exact HNa. }
  assert (Hbw : 0 <= b / BIT2BLK < nb) by fs_arith.
  destruct (write_block_run sa nb (b / BIT2BLK) Hla Hbw) as [sb Hwr].
  { rewrite (mapped_poke _ _ _ _ _ Hpoke). exact Hmw. }
  pose proof (write_block_Ret _ _ _ _ Hwr) as (_ & Hmem & Hmap & Hsb1 & Hsb2 & Hsb3 & _).
  assert (Hnum : alloc_block_num s = Ret b sb).
  { unfold alloc_block_num.
    step_with (proj2 (s_nblocks_Ret s s nb) (conj (proj2 Hs) eq_refl)).
    rewrite (alloc_scan_run _ 3 b w); try assumption; try lia.
    step_with (proj2 (store32_Ret _ _ tt _ _) Hpoke).
    step_with Hwr. reflexivity. }
  assert (Hlb : super_loaded sb nb).
  { split; [rewrite Hsb1, Hsa1; apply Hs|].
    rewrite Hsb1, Hsa1, Hmem. exact HNa. }
  assert (HAb : peek sb (bitmap_va s b)
                = Some (wrap32 (Z.land w (wrap32 (Z.lnot (bit_mask b)))))).
  { rewrite Hmem. apply (peek_poke_same _ _ _ _ Hpoke). }
  assert (Hother : forall va, aligned va -> va <> bitmap_va s b ->
            peek sb va = peek s va).
  { intros va Ha Hne. rewrite Hmem. apply (peek_poke_ne _ _ _ _ _ Hpoke); assumption. }
  assert (Hpage : forall va, VPN va = VPN (block_va b) -> peek sb va = peek s va).
  { intros va Hv. rewrite Hmem. apply (peek_poke_page _ _ _ _ _ Hpoke).
    rewrite Hv, Hvb, HvA. fs_arith. }
  assert (Hmb : mapped sb (block_va b) = mapped s (block_va b))
    by (rewrite Hmap; apply (mapped_poke _ _ _ _ _ Hpoke)).
  assert (Hkf : kfree sb = kfree s) by congruence.
  destruct (map_block_run sb nb b (conj Hlb Hnb) Hb)
    as (s1 & Hrun & H1 & H2 & H3 & H4 & H5).
  { rewrite Hmb, Hkf. exact Hres. }
  unfold alloc_block. step_with Hnum.
  destruct (b <? 0) eqn:Eneg; [apply Z.ltb_lt in Eneg; lia|].
  step_with Hrun. simpl.
  exists s1. split; [reflexivity|].
  split; [congruence|]. split; [congruence|].
  split; [exact H3|]. split.
  { unfold bitmap_bit. replace (bitmap s1) with (bitmap s) by congruence.
    fold (bitmap_va s b). rewrite H4 by (rewrite Hvb, HvA; fs_arith).
    rewrite HAb. simpl. f_equal. apply clear_bit_testbit. }
  split.
  { intros va Ha Hne Hv. rewrite H4 by exact Hv. apply Hother; assumption. }
  intros va Hv. rewrite (H5 va Hv), Hmb.
  destruct (mapped s (block_va b)); [apply Hpage, Hv|].
  unfold fresh_word. rewrite Hkf. reflexivity.
Qed.

(** ** The block index walk *)

Lemma file_at_field (s : state) (nb f bf off d b : Z) :
  fs_ready s nb -> file_at nb f bf off -> 0 <= d < BY2FILE -> d mod 4 = 0 ->
  0 <= b < nb ->
  wrap32 (f + d) = f + d /\ aligned (f + d) /\
  VPN (f + d) = VPN DISKMAP + bf /\
  f + d <> bitmap_va s b /\ f + d <> super s + S_NBLOCKS.
Proof.
  intros Hready (Hbf & Hoff & Hend & ->) Hd Hd4 Hb.
  pose proof Hready as ((Hs & Hnb) & Esup & Ebm & Hnb1).
  destruct (fs_ready_addrs s nb b Hready Hb)
    as (EA & HaA & HvA & EN & HaN & HvN & Hbmblk).
  assert (Hbf' : 0 <= bf < nb) by (destruct Hbf as [[-> _]|[? _]]; fs_arith).
  destruct (block_va_in_window bf nb Hnb Hbf') as (Eb & Hub & Hzb & Hab & Hvb).
  pose proof diskmap_pos. pose proof diskmap_aligned.
  pose proof diskmap_window. pose proof utop_32. pose proof diskmax_pos.
  rewrite EA, EN, Eb.
  unfold aligned, VPN, BY2FILE, S_ROOT, S_NBLOCKS in *.
  assert (bf * 4096 + 4096 <= DISKMAX) by fs_arith.
  rewrite wrap32_small by fs_arith.
  repeat split; try fs_arith.
Qed.

Lemma f_indirect_offset : 0 <= F_INDIRECT < BY2FILE /\ F_INDIRECT mod 4 = 0.
Proof. unfold F_INDIRECT, BY2FILE, MAXNAMELEN, NDIRECT. split; [lia | reflexivity]. Qed.

(** The allocating path of the walk, as the code has it: with no indirect
    block and [alloc] requested, the walk allocates the first free block
    [b], stores [b] in [f_indirect] and returns the slot [filebno] of block
    [b].  No store of the walk goes to block [b]: its words are the ones
    its resident page held before or, if it was not resident, those of the
    page that the kernel hands out. *)
Lemma file_block_walk_allocates_indirect
    (s : state) (nb f bf off filebno ptr0 alloc b : Z) :
  fs_ready s nb -> file_at nb f bf off ->
  NDIRECT <= filebno < NINDIRECT -> alloc <> 0 ->
  peek s (f_indirect f) = Some 0 ->
  first_free s b -> data_block nb b -> b <> bf ->
  mapped s (block_va (b / BIT2BLK)) = true ->
  mapped s (block_va b) = true \/ kfree s <> [] ->
  exists s',
    file_block_walk f filebno ptr0 alloc s
      = Ret (0, block_va b + 4 * filebno) s' /\
    peek s' (f_indirect f) = Some b /\
    bitmap_bit s' b = Some false /\
    forall i, 0 <= i < NINDIRECT ->
      peek s' (block_va b + 4 * i)
      = if mapped s (block_va b) then peek s (block_va b + 4 * i)
        else fresh_word s (block_va b + 4 * i).
Proof.
  intros Hready Hfile Hbno Halloc Hind Hfree Hdata Hbf Hmw Hres.
  pose proof Hready as ((Hs & Hnb) & Esup & Ebm & Hnb1).
  assert (Hb : 0 <= b < nb) by fs_arith.
  destruct f_indirect_offset as [HF1 HF2].
  destruct (file_at_field s nb f bf off F_INDIRECT b Hready Hfile HF1 HF2 Hb)
    as (EF & HaF & HvF & HFA & HFN).
  fold (f_indirect f) in EF. rewrite <- EF in HaF, HvF, HFA, HFN.
  destruct (fs_ready_addrs s nb b Hready Hb)
    as (EA & HaA & HvA & EN & HaN & HvN & Hbmblk).
  destruct (block_va_in_window b nb Hnb Hb) as (Eb & Hub & Hzb & Hab & Hvb).
  destruct (alloc_block_run s nb b Hready Hfree Hdata Hmw Hres)
    as (s1 & Hrun & Hs1 & Hb1 & Hm1 & Hbit1 & Hother & Hpage).
  assert (HvFb : VPN (f_indirect f) <> VPN (block_va b)) by (rewrite HvF, Hvb; lia).
  assert (HF1' : peek s1 (f_indirect f) = Some 0) by (rewrite Hother; assumption).
  destruct (poke_is_Some s1 (f_indirect f) b 0 HF1') as [s2 Hpoke].
  pose proof (poke_fields _ _ _ _ Hpoke) as (Hs2 & Hb2 & _).
  assert (HvNb : VPN (super s + S_NBLOCKS) <> VPN (block_va b))
    by (rewrite HvN, Hvb; fs_arith).
  assert (HvAb : VPN (bitmap_va s b) <> VPN (block_va b))
    by (rewrite HvA, Hvb; fs_arith).
  assert (HNA : super s + S_NBLOCKS <> bitmap_va s b).
  { intros E. rewrite E in HvN. rewrite HvA in HvN. fs_arith. }
  assert (Hl2 : fs_loaded s2 nb).
  { split; [|exact Hnb]. split; [rewrite Hs2, Hs1; apply Hs|].
    rewrite Hs2, Hs1, (peek_poke_ne _ _ _ _ _ Hpoke), Hother; try assumption.
    - apply Hs.
    - congruence. }
  assert (Hbit2 : bitmap_bit s2 b = Some false).
  { unfold bitmap_bit in *. rewrite Hb2.
    rewrite (peek_poke_ne _ _ _ _ _ Hpoke); try assumption.
    - rewrite Hb1. fold (bitmap_va s b). exact HaA.
    - rewrite Hb1. fold (bitmap_va s b). congruence. }
  assert (Hm2 : mapped s2 (block_va b) = true)
    by (rewrite (mapped_poke _ _ _ _ _ Hpoke); exact Hm1).
  assert (Hwb : wrap32 b = b).
  { apply wrap32_small. pose proof diskmap_window. pose proof utop_32.
    pose proof diskmap_pos. fs_arith. }
  assert (HF2' : peek s2 (f_indirect f) = Some b)
    by (rewrite (peek_poke_same _ _ _ _ Hpoke), Hwb; reflexivity).
  destruct (block_va_page b nb filebno Hnb Hb) as (Ew & _); [fs_arith|].
  exists s2. split; [|split; [exact HF2'|split; [exact Hbit2|]]].
  - unfold file_block_walk.
    destruct (filebno <? NDIRECT) eqn:E1; [apply Z.ltb_lt in E1; lia|].
    destruct (filebno <? NINDIRECT) eqn:E2; [|apply Z.ltb_ge in E2; lia].
    step_with (load32_run _ _ _ Hind). rewrite Z.eqb_refl.
    apply Z.eqb_neq in Halloc. rewrite Halloc.
    step_with Hrun.
    destruct (b <? 0) eqn:E3; [apply Z.ltb_lt in E3; lia|].
    step_with (proj2 (store32_Ret _ _ tt _ _) Hpoke).
    step_with (load32_run _ _ _ HF2').
    step_with (read_block_resident s2 nb b Hl2 Hb (or_intror Hbit2) Hm2).
    simpl. apply Z.eqb_neq in Hzb. rewrite Hzb, Ew. reflexivity.
  - intros i Hi.
    destruct (block_va_page b nb i Hnb Hb Hi) as (_ & Hv & _).
    rewrite (peek_poke_page _ _ _ _ _ Hpoke) by congruence.
    apply Hpage, Hv.
Qed.

(** ** Bytes *)

Lemma testbit_255 (i : Z) : Z.testbit 255 i = (0 <=? i) && (i <? 8).
Proof. change 255 with (Z.ones 8). apply Z.testbit_ones. lia. Qed.

Lemma byte_of_testbit (w k n : Z) :
  0 <= k -> 0 <= n ->
  Z.testbit (byte_of w k) n = (n <? 8) && Z.testbit w (n + 8 * k).
Proof.
  intros Hk Hn. unfold byte_of. rewrite Z.land_spec, Z.shiftr_spec, testbit_255 by lia.
  destruct (0 <=? n) eqn:E; [|apply Z.leb_gt in E; lia].
  destruct (n <? 8); simpl; [apply andb_true_r | apply andb_false_r].
Qed.

Lemma set_byte_testbit (w k b m : Z) :
  0 <= k < 4 -> 0 <= m ->
  Z.testbit (wrap32 (set_byte w k b)) m =
  (m <? 32) && (if (8 * k <=? m) && (m <? 8 * k + 8)
                then Z.testbit b (m - 8 * k) else Z.testbit w m).
Proof.
  intros Hk Hm. rewrite wrap32_testbit by lia.
  destruct (m <? 32) eqn:E32; [|reflexivity]. simpl. apply Z.ltb_lt in E32.
  unfold set_byte.
  rewrite Z.lor_spec, Z.land_spec, Z.mod_pow2_bits_low, Z.lnot_spec,
    !Z.shiftl_spec, Z.land_spec, !testbit_255 by lia.
  destruct (8 * k <=? m) eqn:E1; destruct (m <? 8 * k + 8) eqn:E2; simpl.
  - apply Z.leb_le in E1. apply Z.ltb_lt in E2.
    replace (0 <=? m - 8 * k) with true by (symmetry; apply Z.leb_le; lia).
    replace (m - 8 * k <? 8) with true by (symmetry; apply Z.ltb_lt; lia).
    simpl. rewrite andb_false_r, andb_true_r. reflexivity.
  - apply Z.ltb_ge in E2.
    replace (m - 8 * k <? 8) with false by (symmetry; apply Z.ltb_ge; lia).
    rewrite !andb_false_r. simpl. rewrite andb_true_r, orb_false_r. reflexivity.
  - apply Z.leb_gt in E1.
    replace (0 <=? m - 8 * k) with false by (symmetry; apply Z.leb_gt; lia).
    simpl. rewrite andb_false_r, andb_true_r, orb_false_r. reflexivity.
  - apply Z.leb_gt in E1.
    replace (0 <=? m - 8 * k) with false by (symmetry; apply Z.leb_gt; lia).
    simpl. rewrite andb_false_r, andb_true_r, orb_false_r. reflexivity.
Qed.

Lemma byte_of_set_byte (w k b k' : Z) :
  0 <= k < 4 -> 0 <= k' < 4 ->
  byte_of (wrap32 (set_byte w k b)) k'
  = if k' =? k then Z.land b 255 else byte_of w k'.
Proof.
  intros Hk Hk'. apply Z.bits_inj'. intros n Hn.
  rewrite byte_of_testbit, set_byte_testbit by lia.
  destruct (n <? 8) eqn:E8.
  2:{ simpl. destruct (k' =? k).
      - rewrite Z.land_spec, testbit_255, E8. rewrite !andb_false_r. reflexivity.
      - rewrite byte_of_testbit, E8 by lia. reflexivity. }
  apply Z.ltb_lt in E8. simpl.
  replace (n + 8 * k' <? 32) with true by (symmetry; apply Z.ltb_lt; lia).
  simpl. destruct (k' =? k) eqn:Ek.
  - apply Z.eqb_eq in Ek. subst k'.
    replace (8 * k <=? n + 8 * k) with true by (symmetry; apply Z.leb_le; lia).
    replace (n + 8 * k <? 8 * k + 8) with true by (symmetry; apply Z.ltb_lt; lia).
    simpl. rewrite Z.land_spec, testbit_255.
    replace (n + 8 * k - 8 * k) with n by lia.
    replace (0 <=? n) with true by (symmetry; apply Z.leb_le; lia).
    replace (n <? 8) with true by (symmetry; apply Z.ltb_lt; lia).
    rewrite andb_true_r. reflexivity.
  - apply Z.eqb_neq in Ek.
    replace ((8 * k <=? n + 8 * k') && (n + 8 * k' <? 8 * k + 8)) with false.
    + rewrite byte_of_testbit by lia.
      replace (n <? 8) with true by (symmetry; apply Z.ltb_lt; lia). reflexivity.
    + symmetry. apply andb_false_iff.
      destruct (Z_lt_dec k' k); [left; apply Z.leb_gt | right; apply Z.ltb_ge]; lia.
Qed.

Lemma store8_Ret (va b : Z) (u : unit) (s s' : state) :
  store8 va b s = Ret u s' <->
  exists w, peek s (va - va mod 4) = Some w /\
    poke s (va - va mod 4) (set_byte w (va mod 4) b) = Some s'.
Proof.
  unfold store8. rewrite bind_Ret. split.
  - intros (w & s1 & Hw & Hst). apply load32_Ret in Hw as [Hw ->].
    apply store32_Ret in Hst. eauto.
  - intros (w & Hw & Hp). exists w, s. split.
    + apply load32_Ret. auto.
    + apply store32_Ret. exact Hp.
Qed.

Lemma byte_addr (va : Z) :
  aligned (va - va mod 4) /\ 0 <= va mod 4 < 4.
Proof. unfold aligned. lia_div. Qed.

(** A byte store changes the byte it addresses and no other. *)
Lemma peek8_store8 (va b va' : Z) (u : unit) (s s' : state) :
  store8 va b s = Ret u s' ->
  peek8 s' va' = if decide (va' = va) then Some (Z.land b 255) else peek8 s va'.
Proof.
  intros H. apply store8_Ret in H as (w & Hw & Hp).
  destruct (byte_addr va) as [Ha Hk]. destruct (byte_addr va') as [Ha' Hk'].
  unfold peek8.
  destruct (decide (va' - va' mod 4 = va - va mod 4)) as [E|E].
  - rewrite E, (peek_poke_same _ _ _ _ Hp), Hw. simpl.
    rewrite byte_of_set_byte by assumption.
    destruct (decide (va' = va)) as [->|Hne].
    + rewrite Z.eqb_refl. reflexivity.
    + destruct (va' mod 4 =? va mod 4) eqn:Ek; [|reflexivity].
      apply Z.eqb_eq in Ek. lia.
  - rewrite (peek_poke_ne _ _ _ _ _ Hp) by assumption.
    destruct (decide (va' = va)) as [->|Hne]; [contradiction | reflexivity].
Qed.

Lemma peek_store8 (va b va' : Z) (u : unit) (s s' : state) :
  store8 va b s = Ret u s' -> aligned va' -> va' <> va - va mod 4 ->
  peek s' va' = peek s va'.
Proof.
  intros H Ha Hne. apply store8_Ret in H as (w & Hw & Hp).
  destruct (byte_addr va) as [Ha0 _].
  apply (peek_poke_ne _ _ _ _ _ Hp); assumption.
Qed.

Lemma store8_run (va b : Z) (s : state) :
  is_Some (peek8 s va) -> exists s', store8 va b s = Ret tt s'.
Proof.
  unfold peek8. intros [x Hx].
  destruct (peek s (va - va mod 4)) as [w|] eqn:Hw; [|discriminate].
  destruct (poke_is_Some s (va - va mod 4) (set_byte w (va mod 4) b) w Hw) as [s' Hp].
  exists s'. apply store8_Ret. eauto.
Qed.

(** [strcpy] of a string of non-zero bytes: the string and its terminator
    arrive at [dst]; no byte and no aligned word outside of them changes. *)
Lemma strcpy_mem_run (name : list Z) (dst : Z) (s : state) :
  Forall (fun c => 0 < c < 256) name ->
  0 <= dst -> dst + Z.of_nat (length name) < 2 ^ 32 ->
  (forall a, dst <= a <= dst + Z.of_nat (length name) -> is_Some (peek8 s a)) ->
  exists s', strcpy_mem dst name s = Ret tt s' /\
    string_at s' dst name /\
    (forall a, a < dst \/ dst + Z.of_nat (length name) < a -> peek8 s' a = peek8 s a) /\
    (forall va, aligned va -> va + 3 < dst \/ dst + Z.of_nat (length name) < va ->
       peek s' va = peek s va).
Proof.
  revert dst s. induction name as [|c name IH]; intros dst s Hbytes Hdst Hend Hmap.
  - simpl in *. destruct (store8_run dst 0 s) as [s' Hst]; [apply Hmap; lia|].
    exists s'. split; [exact Hst|]. split; [split|split].
    + intros i x Hx. discriminate.
    + simpl. rewrite Z.add_0_r, (peek8_store8 _ _ _ _ _ _ Hst), decide_True by reflexivity.
      reflexivity.
    + intros a Ha. rewrite (peek8_store8 _ _ _ _ _ _ Hst), decide_False by lia.
      reflexivity.
    + intros va Ha Hva. apply (peek_store8 _ _ _ _ _ _ Hst Ha).
      destruct (byte_addr dst). lia.
  - apply Forall_cons in Hbytes as [Hc Hbytes]. simpl length in *.
    simpl strcpy_mem.
    destruct (c =? 0) eqn:E0; [apply Z.eqb_eq in E0; lia|].
    destruct (store8_run dst c s) as [s1 Hst]; [apply Hmap; lia|].
    assert (Ew : wrap32 (dst + 1) = dst + 1) by (apply wrap32_small; lia).
    destruct (IH (dst + 1) s1) as (s' & Hrun & [Hstr Hnul] & Hframe8 & Hframe);
      try assumption; try lia.
    { intros a Ha. rewrite (peek8_store8 _ _ _ _ _ _ Hst).
      destruct (decide (a = dst)); [eauto | apply Hmap; lia]. }
    exists s'. split; [|split; [split|split]].
    + step_with Hst. rewrite Ew. exact Hrun.
    + intros i x Hx. destruct i as [|i].
      * simpl in Hx. injection Hx as <-.
        rewrite Z.add_0_r, Hframe8 by lia.
        rewrite (peek8_store8 _ _ _ _ _ _ Hst), decide_True by reflexivity.
        f_equal. change 255 with (Z.ones 8). rewrite Z.land_ones by lia.
        apply Z.mod_small. lia.
      * simpl in Hx. replace (dst + Z.of_nat (S i)) with (dst + 1 + Z.of_nat i) by lia.
        apply Hstr, Hx.
    + simpl length. replace (dst + Z.of_nat (S (length name)))
        with (dst + 1 + Z.of_nat (length name)) by lia. exact Hnul.
    + intros a Ha. simpl length in Ha.
      assert (a < dst + 1 \/ dst + 1 + Z.of_nat (length name) < a) by (clear - Ha; lia).
      rewrite Hframe8 by assumption.
      rewrite (peek8_store8 _ _ _ _ _ _ Hst).
      destruct (decide (a = dst)) as [->|Hn]; [exfalso; clear - Ha; lia | reflexivity].
    + intros va Ha Hva. simpl length in Hva.
      rewrite Hframe; [|exact Ha|lia].
      apply (peek_store8 _ _ _ _ _ _ Hst Ha).
      destruct (byte_addr dst). lia.
Qed.

(** ** Creating a file *)

Lemma Forall_skip_name (R : Z -> Prop) (p : list Z) :
  Forall R p -> Forall R (skip_name p).
Proof.
  induction 1 as [|c p Hc Hp IH]; simpl; [constructor|].
  destruct (negb (c =? SLASH) && negb (c =? 0)); [exact IH | constructor; assumption].
Qed.

Lemma Forall_skip_slash (R : Z -> Prop) (p : list Z) :
  Forall R p -> Forall R (skip_slash p).
Proof.
  induction 1 as [|c p Hc Hp IH]; simpl; [constructor|].
  destruct (c =? SLASH); [exact IH | constructor; assumption].
Qed.

Lemma take_skip_name (R : Z -> Prop) (p : list Z) :
  Forall R p ->
  Forall (fun c => c <> 0 /\ R c) (take (length p - length (skip_name p)) p).
Proof.
  induction 1 as [|c p Hc Hp IH]; simpl; [constructor|].
  destruct (c =? SLASH) eqn:Es; simpl.
  - rewrite Nat.sub_diag. constructor.
  - destruct (c =? 0) eqn:E0; simpl.
    + rewrite Nat.sub_diag. constructor.
    + pose proof (skip_name_length p).
      replace (S (length p) - length (skip_name p))%nat
        with (S (length p - length (skip_name p))) by lia.
      simpl. constructor; [|exact IH].
      apply Z.eqb_neq in E0. auto.
Qed.

(** The name that the walk leaves in [lastelem] is the caller's buffer
    untouched, or a component of the path: shorter than [MAXNAMELEN], without
    a zero byte. *)
Lemma walk_loop_lastelem (R : Z -> Prop) (fuel : nat) (path : list Z)
    (dir file : Z) (le le' : list Z) (r d f : Z) (s s' : state) :
  Forall R path ->
  walk_loop fuel path dir file le s = Ret (r, d, f, le') s' ->
  le' = le \/
  (Z.of_nat (length le') < MAXNAMELEN /\ Forall (fun c => c <> 0 /\ R c) le').
Proof.
  revert path dir file le s.
  induction fuel as [|fuel IH]; intros path dir file le s HR H; [discriminate|].
  simpl in H.
  destruct (cur path =? 0); [apply ret_Ret in H as [[= _ _ _ ->] _]; auto|].
  pose proof (skip_name_length path) as Hlen.
  destruct (MAXNAMELEN <=? _) eqn:El;
    [apply ret_Ret in H as [[= _ _ _ ->] _]; auto|].
  apply Z.leb_gt in El.
  mbind H as ty s1 Hty.
  destruct (negb (ty =? FTYPE_DIR));
    [apply ret_Ret in H as [[= _ _ _ ->] _]; auto|].
  mbind H as lk s2 Hlk. destruct lk as [r0 file'].
  destruct (r0 <? 0).
  - destruct (_ && _); apply ret_Ret in H as [[= _ _ _ ->] _]; [|auto].
    right. replace (Z.to_nat _) with (length path - length (skip_name path))%nat by lia.
    split; [rewrite length_take; lia|]. apply take_skip_name, HR.
  - eapply IH; [|exact H]. apply Forall_skip_slash, Forall_skip_name, HR.
Qed.

Lemma walk_path_lastelem (path : list Z) (le' : list Z) (r d f : Z) (s s' : state) :
  Forall (fun c => 0 <= c < 256) path ->
  walk_path path [] s = Ret (r, d, f, le') s' ->
  Z.of_nat (length le') < MAXNAMELEN /\ Forall (fun c => 0 < c < 256) le'.
Proof.
  intros HR H. unfold walk_path in H. mbind H as sup s1 Hsup.
  eapply walk_loop_lastelem in H; [|apply Forall_skip_slash, HR].
  destruct H as [->|[Hl Hf]].
  - split; [unfold MAXNAMELEN; simpl; lia | constructor].
  - split; [exact Hl|]. eapply Forall_impl; [exact Hf|].
    simpl. intros c [? ?]. lia.
Qed.

(** C8: when the walk ends with [-E_NOT_FOUND] and a parent directory, and
    [dir_alloc_file] hands out the record at [f], [file_create] returns 0 and
    [f]; between the state in which the record was handed out and the final
    state only the bytes of the name field differ: the final component and
    its terminator are stored there, and every aligned word outside the name
    field, in particular the size, the type, the direct slots and the
    indirect slot of the record, holds what it held. *)
Theorem file_create_writes_name_only
    (path name : list Z) (file0 dir fw r' f : Z) (s s1 s2 : state) :
  Forall (fun c => 0 <= c < 256) path ->
  walk_path path [] s = Ret (- E_NOT_FOUND, dir, fw, name) s1 -> dir <> 0 ->
  dir_alloc_file dir fw s1 = Ret (r', f) s2 -> 0 <= r' ->
  aligned f -> 0 <= f -> f + BY2FILE <= 2 ^ 32 ->
  (forall a, f <= a < f + MAXNAMELEN -> is_Some (peek8 s2 a)) ->
  exists s3,
    file_create path file0 s = Ret (0, f) s3 /\
    string_at s3 f name /\
    (forall va, aligned va -> va < f \/ f + MAXNAMELEN <= va ->
       peek s3 va = peek s2 va) /\
    peek s3 (f_size f) = peek s2 (f_size f) /\
    peek s3 (f_type f) = peek s2 (f_type f) /\
    (forall i, 0 <= i < NDIRECT -> peek s3 (f_direct f i) = peek s2 (f_direct f i)) /\
    peek s3 (f_indirect f) = peek s2 (f_indirect f).
Proof.
  intros Hpath Hwalk Hdir Halloc Hr' Haf Hf0 Hf32 Hmap.
  destruct (walk_path_lastelem _ _ _ _ _ _ _ Hpath Hwalk) as [Hlen Hbytes].
  assert (Ename : f_name f = f).
  { unfold f_name, F_NAME. rewrite Z.add_0_r. apply wrap32_small.
    unfold BY2FILE in *. lia. }
  destruct (strcpy_mem_run name f s2 Hbytes Hf0) as (s3 & Hcpy & Hstr & _ & Hframe).
  { unfold MAXNAMELEN, BY2FILE in *. lia. }
  { intros a Ha. apply Hmap. lia. }
  assert (Hout : forall va, aligned va -> va < f \/ f + MAXNAMELEN <= va ->
            peek s3 va = peek s2 va).
  { intros va Hva Hv. apply Hframe; [exact Hva|].
    destruct Hv as [Hv|Hv]; [left | right; lia].
    unfold aligned in *. lia_div. }
  assert (Hfield : forall d, MAXNAMELEN <= d < BY2FILE -> d mod 4 = 0 ->
            peek s3 (wrap32 (f + d)) = peek s2 (wrap32 (f + d))).
  { intros d Hd Hd4. rewrite wrap32_small by (unfold BY2FILE, MAXNAMELEN in *; lia).
    apply Hout; [unfold aligned in *; lia_div | lia]. }
  pose proof errno_pos as Hpos.
  exists s3. split; [|split; [exact Hstr|split; [exact Hout|]]].
  - unfold file_create. step_with Hwalk.
    destruct (- E_NOT_FOUND =? 0) eqn:E0; [apply Z.eqb_eq in E0; lia|].
    rewrite Z.eqb_refl.
    apply Z.eqb_neq in Hdir. rewrite Hdir.
    change (negb true || false) with false. cbv iota.
    step_with Halloc.
    destruct (r' <? 0) eqn:Er; [apply Z.ltb_lt in Er; lia|].
    rewrite Ename. step_with Hcpy. reflexivity.
  - unfold f_size, f_type, f_direct, f_indirect.
    unfold F_SIZE, F_TYPE, F_DIRECT, F_INDIRECT.
    repeat split.
    + apply Hfield; [fs_arith | reflexivity].
    + apply Hfield; [fs_arith | reflexivity].
    + intros i Hi. replace (f + (MAXNAMELEN + 8) + 4 * i)
        with (f + (MAXNAMELEN + 8 + 4 * i)) by lia.
      apply Hfield; [fs_arith | unfold MAXNAMELEN; lia_div].
    + apply Hfield; [fs_arith | reflexivity].
Qed.

(** ** Write-back never happens *)

Lemma fs_sync_loop_unchanged (n : nat) (i : Z) (u : unit) (s s' : state) :
  fs_sync_loop n i s = Ret u s' -> s' = s.
Proof.
  revert i s. induction n as [|n IH]; intros i s H; simpl in H.
  - apply ret_Ret in H as [_ ->]. reflexivity.
  - mbind H as d s1 Hd. apply block_is_dirty_Ret in Hd as [-> ->].
    mbind H as x s2 Hx. apply ret_Ret in Hx as [_ ->].
    eapply IH. exact H.
Qed.

(** Whatever is resident, [fs_sync] returns in the state it was called in:
    [block_is_dirty] is false for every block, so [write_block] never runs. *)
Lemma fs_sync_unchanged (u : unit) (s s' : state) :
  fs_sync s = Ret u s' -> s' = s.
Proof.
  unfold fs_sync. intros H. mbind H as nb s1 Hnb.
  apply s_nblocks_Ret in Hnb as [_ ->].
  eapply fs_sync_loop_unchanged. exact H.
Qed.

(** ** Clearing a block *)

(** Without an indirect block the walk for an indirect slot reports
    [-E_NOT_FOUND] and leaves the slot pointer null; [file_clear_block]
    reads through it.  Address 0 is never mapped in an environment. *)
Lemma file_clear_block_no_indirect (s : state) (f filebno : Z) :
  NDIRECT <= filebno < NINDIRECT ->
  peek s (f_indirect f) = Some 0 -> peek s 0 = None ->
  file_clear_block f filebno s = Fault.
Proof.
  intros Hbno Hind Hnull. unfold file_clear_block, file_block_walk.
  destruct (filebno <? NDIRECT) eqn:E1; [apply Z.ltb_lt in E1; lia|].
  destruct (filebno <? NINDIRECT) eqn:E2; [|apply Z.ltb_ge in E2; lia].
  unfold bind at 1. unfold bind at 1. rewrite (load32_run _ _ _ Hind). simpl.
  pose proof errno_pos.
  destruct (- E_NOT_FOUND <? 0) eqn:E3; [|apply Z.ltb_ge in E3; lia].
  rewrite Z.eqb_refl. simpl. unfold bind, load32. rewrite Hnull. reflexivity.
Qed.

(** A direct slot: an empty slot is left alone, a slot that holds the block
    [v] is zeroed and the bit of [v] is set in the bitmap. *)
Lemma file_clear_block_direct (s : state) (nb f bf off filebno v : Z) :
  fs_ready s nb -> file_at nb f bf off -> 0 <= filebno < NDIRECT ->
  peek s (f_direct f filebno) = Some v ->
  (v = 0 -> file_clear_block f filebno s = Ret 0 s) /\
  (v <> 0 -> v < nb -> is_Some (bitmap_bit s v) ->
   exists s', file_clear_block f filebno s = Ret 0 s' /\
     peek s' (f_direct f filebno) = Some 0 /\
     bitmap_bit s' v = Some true /\
     (forall va, aligned va -> va <> f_direct f filebno -> va <> bitmap_va s v ->
        peek s' va = peek s va)).
Proof.
  intros Hready Hfile Hbno Hv.
  assert (Hwalk : file_block_walk f filebno 0 0 s = Ret (0, f_direct f filebno) s).
  { unfold file_block_walk.
    destruct (filebno <? NDIRECT) eqn:E; [reflexivity|apply Z.ltb_ge in E; lia]. }
  split.
  - intros ->. unfold file_clear_block. step_with Hwalk. simpl.
    step_with (load32_run _ _ _ Hv). reflexivity.
  - intros Hv0 Hvnb [bit Hbit].
    pose proof (peek_range _ _ _ Hv) as Hvr.
    assert (Hvb : 0 <= v < nb) by lia.
    assert (Hd : 0 <= F_DIRECT + 4 * filebno < BY2FILE /\
                 (F_DIRECT + 4 * filebno) mod 4 = 0).
    { unfold F_DIRECT, BY2FILE, MAXNAMELEN, NDIRECT in *. split; lia_div. }
    destruct (file_at_field s nb f bf off _ v Hready Hfile (proj1 Hd) (proj2 Hd) Hvb)
      as (EF & HaF & HvF & HFA & HFN).
    unfold f_direct in *. rewrite <- Z.add_assoc in *. rewrite EF in *.
    unfold bitmap_bit in Hbit. fold (bitmap_va s v) in Hbit.
    destruct (peek s (bitmap_va s v)) as [w|] eqn:Hw; [|discriminate].
    destruct (poke_is_Some s (bitmap_va s v) (Z.lor w (bit_mask v)) w Hw)
      as [s1 Hp1].
    pose proof (poke_fields _ _ _ _ Hp1) as (_ & Hbm1 & _).
    destruct (fs_ready_addrs s nb v Hready Hvb) as (_ & HaA & _).
    assert (Hv1 : peek s1 (f + (F_DIRECT + 4 * filebno)) = Some v)
      by (rewrite (peek_poke_ne _ _ _ _ _ Hp1); assumption).
    destruct (poke_is_Some s1 _ 0 v Hv1) as [s2 Hp2].
    pose proof (poke_fields _ _ _ _ Hp2) as (_ & Hbm2 & _).
    exists s2. split; [|split; [|split]].
    + unfold file_clear_block. step_with Hwalk. simpl.
      step_with (load32_run _ _ _ Hv). apply Z.eqb_neq in Hv0. rewrite Hv0. simpl.
      step_with (load32_run _ _ _ Hv).
      assert (Hfree : free_block v s = Ret tt s1).
      { unfold free_block. rewrite Hv0. step. fold (bitmap_va s v).
        step_with (load32_run _ _ _ Hw). apply store32_Ret. exact Hp1. }
      step_with Hfree.
      step_with (proj2 (store32_Ret _ _ tt _ _) Hp2). reflexivity.
    + rewrite (peek_poke_same _ _ _ _ Hp2). reflexivity.
    + unfold bitmap_bit. rewrite Hbm2, Hbm1. fold (bitmap_va s v).
      rewrite (peek_poke_ne _ _ _ _ _ Hp2) by (try assumption; congruence).
      rewrite (peek_poke_same _ _ _ _ Hp1). simpl. f_equal.
      assert (Hk : 0 <= v mod 32 < 32) by (apply Z.mod_pos_bound; lia).
      rewrite wrap32_testbit, Z.lor_spec, bit_mask_spec, Z.pow2_bits_true by lia.
      destruct (v mod 32 <? 32) eqn:E; [|apply Z.ltb_ge in E; lia].
      rewrite orb_true_r. reflexivity.
    + intros va Ha Hne1 Hne2.
      rewrite (peek_poke_ne _ _ _ _ _ Hp2), (peek_poke_ne _ _ _ _ _ Hp1);
        try assumption; reflexivity.
Qed.

(** ** Truncation *)

(** Setting the bit of [v] in its bitmap word sets that bit and no other. *)
Lemma bitmap_bit_set (s s1 : state) (nb v w b : Z) :
  fs_ready s nb -> 0 <= v < nb -> 0 <= b < nb ->
  peek s (bitmap_va s v) = Some w ->
  poke s (bitmap_va s v) (Z.lor w (bit_mask v)) = Some s1 ->
  bitmap_bit s1 b = (fun x => x || (b =? v)) <$> bitmap_bit s b.
Proof.
  intros Hready Hv Hb Hw Hp.
  pose proof (poke_fields _ _ _ _ Hp) as (_ & Hbm & _).
  destruct (fs_ready_addrs s nb v Hready Hv) as (EAv & HaAv & _).
  destruct (fs_ready_addrs s nb b Hready Hb) as (EAb & HaAb & _).
  unfold bitmap_bit. rewrite Hbm. fold (bitmap_va s b).
  assert (Hkb : 0 <= b mod 32 < 32) by (apply Z.mod_pos_bound; lia).
  assert (Hkv : 0 <= v mod 32 < 32) by (apply Z.mod_pos_bound; lia).
  destruct (Z.eq_dec (b / 32) (v / 32)) as [E|E].
  - assert (Ea : bitmap_va s b = bitmap_va s v) by (rewrite EAb, EAv, E; reflexivity).
    rewrite Ea, (peek_poke_same _ _ _ _ Hp), Hw. simpl. f_equal.
    rewrite wrap32_testbit, Z.lor_spec, bit_mask_spec by lia.
    destruct (b mod 32 <? 32) eqn:E32; [|apply Z.ltb_ge in E32; lia]. simpl.
    f_equal. destruct (Z.eq_dec (b mod 32) (v mod 32)) as [Em|Em].
    + rewrite Em, Z.pow2_bits_true by lia. symmetry. apply Z.eqb_eq. lia_div.
    + rewrite Z.pow2_bits_false by lia. symmetry. apply Z.eqb_neq.
      intros ->. contradiction.
  - rewrite (peek_poke_ne _ _ _ _ _ Hp); try assumption.
    2:{ rewrite EAb, EAv. lia. }
    destruct (peek s (bitmap_va s b)) as [wb|]; [|reflexivity]. simpl. f_equal.
    replace (b =? v) with false; [rewrite orb_false_r; reflexivity|].
    symmetry. apply Z.eqb_neq. intros ->. contradiction.
Qed.

(** A store outside the bitmap blocks leaves every bit alone. *)
Lemma bitmap_bit_poke (s s1 : state) (nb a x b : Z) :
  fs_ready s nb -> 0 <= b < nb -> aligned a ->
  (forall b', 0 <= b' < nb -> a <> bitmap_va s b') ->
  poke s a x = Some s1 ->
  bitmap_bit s1 b = bitmap_bit s b.
Proof.
  intros Hready Hb Ha Hne Hp.
  pose proof (poke_fields _ _ _ _ Hp) as (_ & Hbm & _).
  destruct (fs_ready_addrs s nb b Hready Hb) as (_ & HaAb & _).
  unfold bitmap_bit. rewrite Hbm. fold (bitmap_va s b).
  rewrite (peek_poke_ne _ _ _ _ _ Hp); try assumption; [reflexivity|].
  intros E. apply (Hne b Hb). congruence.
Qed.

Lemma slot_addr (s : state) (nb f bf off ind bno b : Z) :
  fs_ready s nb -> file_at nb f bf off -> 0 <= bno < NINDIRECT ->
  (NDIRECT <= bno -> data_block nb ind /\ ind <> bf) -> 0 <= b < nb ->
  aligned (slot_va f ind bno) /\
  slot_va f ind bno <> bitmap_va s b /\
  slot_va f ind bno <> super s + S_NBLOCKS /\
  slot_va f ind bno <> f_size f /\ slot_va f ind bno <> f_indirect f /\
  (forall bno', 0 <= bno' < NINDIRECT -> bno' <> bno ->
     (NDIRECT <= bno' -> data_block nb ind /\ ind <> bf) ->
     slot_va f ind bno' <> slot_va f ind bno).
Proof.
  intros Hready Hfile Hbno Hind Hb.
  pose proof Hready as ((Hs & Hnb) & Esup & Ebm & Hnb1).
  destruct (fs_ready_addrs s nb b Hready Hb)
    as (EA & HaA & HvA & EN & HaN & HvN & Hbmblk).
  assert (Hfield : forall d, 0 <= d < BY2FILE -> d mod 4 = 0 ->
            wrap32 (f + d) = f + d /\ aligned (f + d) /\
            VPN (f + d) = VPN DISKMAP + bf /\
            f + d <> bitmap_va s b /\ f + d <> super s + S_NBLOCKS).
  { intros d Hd Hd4. apply (file_at_field s nb f bf off d b); assumption. }
  assert (Hbf : bf = 1 \/ data_block nb bf)
    by (destruct Hfile as ([[? _]|[? _]] & _); auto).
  assert (Esz : f_size f = f + F_SIZE).
  { apply (Hfield F_SIZE); [unfold F_SIZE; fs_arith | reflexivity]. }
  assert (Ein : f_indirect f = f + F_INDIRECT).
  { apply (Hfield F_INDIRECT); [unfold F_INDIRECT; fs_arith | reflexivity]. }
  assert (Edir : forall i, 0 <= i < NDIRECT ->
            f_direct f i = f + (F_DIRECT + 4 * i) /\ aligned (f + (F_DIRECT + 4 * i)) /\
            VPN (f + (F_DIRECT + 4 * i)) = VPN DISKMAP + bf /\
            f + (F_DIRECT + 4 * i) <> bitmap_va s b /\
            f + (F_DIRECT + 4 * i) <> super s + S_NBLOCKS).
  { intros i Hi. unfold f_direct. rewrite <- Z.add_assoc.
    destruct (Hfield (F_DIRECT + 4 * i)) as (E & ?);
      [unfold F_DIRECT; fs_arith | unfold F_DIRECT, MAXNAMELEN; lia_div |].
    rewrite E. auto. }
  assert (Eind : forall i, 0 <= i < NINDIRECT -> data_block nb ind -> ind <> bf ->
            aligned (block_va ind + 4 * i) /\
            VPN (block_va ind + 4 * i) = VPN DISKMAP + ind).
  { intros i Hi Hd Hne.
    assert (Hi0 : 0 <= ind < nb) by fs_arith.
    destruct (block_va_page ind nb i Hnb Hi0 Hi) as (_ & Hv & Ha & _).
    destruct (block_va_in_window ind nb Hnb Hi0) as (_ & _ & _ & _ & Hvi).
    split; [exact Ha | congruence]. }
  unfold slot_va. rewrite Esz, Ein.
  destruct (bno <? NDIRECT) eqn:Ed.
  - apply Z.ltb_lt in Ed.
    destruct (Edir bno) as (E & Ha & Hv & HnA & HnN); [lia|]. rewrite E.
    split; [exact Ha|]. split; [exact HnA|]. split; [exact HnN|].
    split; [unfold F_DIRECT, F_SIZE, NDIRECT in *; lia|].
    split; [unfold F_DIRECT, F_INDIRECT, NDIRECT in *; lia|].
    intros bno' Hbno' Hne Hind'.
    destruct (bno' <? NDIRECT) eqn:Ed'.
    + apply Z.ltb_lt in Ed'. destruct (Edir bno') as (E' & _); [lia|].
      rewrite E'. lia.
    + apply Z.ltb_ge in Ed'. destruct (Hind' Ed') as [Hdi Hib].
      destruct (Eind bno' Hbno' Hdi Hib) as [_ Hv'].
      intros Eq. rewrite Eq, Hv in Hv'. lia.
  - apply Z.ltb_ge in Ed. destruct (Hind Ed) as [Hdi Hib].
    destruct (Eind bno Hbno Hdi Hib) as [Ha Hv].
    split; [exact Ha|].
    split; [intros Eq; rewrite Eq, HvA in Hv; fs_arith|].
    split; [intros Eq; rewrite Eq, HvN in Hv; fs_arith|].
    destruct (Hfield F_SIZE) as (_ & _ & Hvs & _);
      [unfold F_SIZE; fs_arith | reflexivity |].
    destruct (Hfield F_INDIRECT) as (_ & _ & Hvi & _);
      [unfold F_INDIRECT; fs_arith | reflexivity |].
    split; [intros Eq; rewrite Eq, Hvs in Hv; lia|].
    split; [intros Eq; rewrite Eq, Hvi in Hv; lia|].
    intros bno' Hbno' Hne Hind'.
    destruct (bno' <? NDIRECT) eqn:Ed'.
    + apply Z.ltb_lt in Ed'. destruct (Edir bno') as (E' & _ & Hv' & _); [lia|].
      rewrite E'. intros Eq. rewrite Eq, Hv in Hv'. lia.
    + lia.
Qed.

Lemma file_block_walk_slot (s : state) (nb f bf off ind bno : Z) :
  fs_ready s nb -> file_at nb f bf off -> 0 <= bno < NINDIRECT ->
  peek s (f_indirect f) = Some ind ->
  (NDIRECT <= bno -> ind <> 0 /\ indirect_ok s nb bf ind) ->
  file_block_walk f bno 0 0 s = Ret (0, slot_va f ind bno) s.
Proof.
  intros Hready Hfile Hbno Hind Hok. unfold file_block_walk, slot_va.
  destruct (bno <? NDIRECT) eqn:Ed; [reflexivity|]. apply Z.ltb_ge in Ed.
  destruct (bno <? NINDIRECT) eqn:Ei; [|apply Z.ltb_ge in Ei; lia].
  destruct (Hok Ed) as (Hi0 & Hdata & Hne & Hm & Hbit).
  pose proof Hready as ((Hs & Hnb) & _).
  assert (Hib : 0 <= ind < nb) by fs_arith.
  destruct (block_va_in_window ind nb Hnb Hib) as (_ & _ & Hz & _).
  destruct (block_va_page ind nb bno Hnb Hib Hbno) as (Ew & _).
  step_with (load32_run _ _ _ Hind).
  apply Z.eqb_neq in Hi0. rewrite Hi0.
  step_with (load32_run _ _ _ Hind).
  step_with (read_block_resident s nb ind (conj Hs Hnb) Hib (or_intror Hbit) Hm).
  simpl. apply Z.eqb_neq in Hz. rewrite Hz, Ew. reflexivity.
Qed.

(** The two stores of [file_clear_block] on a slot at [a] that holds [v]. *)
Lemma file_clear_block_run (s : state) (f bno a v w : Z) :
  file_block_walk f bno 0 0 s = Ret (0, a) s ->
  peek s a = Some v -> v <> 0 ->
  peek s (bitmap_va s v) = Some w ->
  aligned a -> aligned (bitmap_va s v) -> a <> bitmap_va s v ->
  exists s1 s',
    poke s (bitmap_va s v) (Z.lor w (bit_mask v)) = Some s1 /\
    poke s1 a 0 = Some s' /\
    file_clear_block f bno s = Ret 0 s'.
Proof.
  intros Hwalk Hv Hv0 Hw Ha HaA Hne.
  destruct (poke_is_Some s (bitmap_va s v) (Z.lor w (bit_mask v)) w Hw) as [s1 Hp1].
  assert (Hv1 : peek s1 a = Some v)
    by (rewrite (peek_poke_ne _ _ _ _ _ Hp1); assumption).
  destruct (poke_is_Some s1 a 0 v Hv1) as [s' Hp2].
  exists s1, s'. split; [exact Hp1|]. split; [exact Hp2|].
  unfold file_clear_block. step_with Hwalk. simpl.
  step_with (load32_run _ _ _ Hv). apply Z.eqb_neq in Hv0. rewrite Hv0. simpl.
  step_with (load32_run _ _ _ Hv).
  assert (Hfree : free_block v s = Ret tt s1).
  { unfold free_block. rewrite Hv0. step. fold (bitmap_va s v).
    step_with (load32_run _ _ _ Hw). apply store32_Ret. exact Hp1. }
  step_with Hfree.
  step_with (proj2 (store32_Ret _ _ tt _ _) Hp2). reflexivity.
Qed.

Lemma file_clear_block_empty (s : state) (f bno a : Z) :
  file_block_walk f bno 0 0 s = Ret (0, a) s -> peek s a = Some 0 ->
  file_clear_block f bno s = Ret 0 s.
Proof.
  intros Hwalk Hv. unfold file_clear_block. step_with Hwalk. simpl.
  step_with (load32_run _ _ _ Hv). reflexivity.
Qed.

(** What the two stores of [file_clear_block] do to a loaded file system,
    when the slot at [a] lies outside the superblock word and the bitmap. *)
Lemma clear_stores (s s1 s' : state) (nb a v w : Z) :
  fs_ready s nb -> 0 <= v < nb ->
  peek s (bitmap_va s v) = Some w ->
  poke s (bitmap_va s v) (Z.lor w (bit_mask v)) = Some s1 ->
  poke s1 a 0 = Some s' ->
  aligned a -> a <> super s + S_NBLOCKS ->
  (forall b, 0 <= b < nb -> a <> bitmap_va s b) ->
  fs_ready s' nb /\
  (forall va, mapped s' va = mapped s va) /\
  peek s' a = Some 0 /\
  (forall va, aligned va -> va <> a -> va <> bitmap_va s v -> peek s' va = peek s va) /\
  (forall b, 0 <= b < nb ->
     bitmap_bit s' b = (fun x => x || (b =? v)) <$> bitmap_bit s b).
Proof.
  intros Hready Hv Hw Hp1 Hp2 Ha HaN HaA.
  pose proof Hready as (((Hs0 & HN) & Hnb) & Esup & Ebm & Hnb1).
  pose proof (poke_fields _ _ _ _ Hp1) as (Hsup1 & Hbm1 & _).
  pose proof (poke_fields _ _ _ _ Hp2) as (Hsup2 & Hbm2 & _).
  destruct (fs_ready_addrs s nb v Hready Hv) as (EA & HaAv & HvA & EN & HaNa & HvN & _).
  assert (HNA : super s + S_NBLOCKS <> bitmap_va s v).
  { intros E. rewrite E, HvA in HvN. fs_arith. }
  assert (Hframe : forall va, aligned va -> va <> a -> va <> bitmap_va s v ->
            peek s' va = peek s va).
  { intros va Hva Hne1 Hne2.
    rewrite (peek_poke_ne _ _ _ _ _ Hp2), (peek_poke_ne _ _ _ _ _ Hp1);
      try assumption; reflexivity. }
  assert (Hr1 : fs_ready s1 nb).
  { split; [split; [split|exact Hnb]|].
    - rewrite Hsup1. exact Hs0.
    - rewrite Hsup1, (peek_poke_ne _ _ _ _ _ Hp1); assumption.
    - rewrite Hsup1, Hbm1. auto. }
  split; [|split; [|split; [|split]]].
  - split; [split; [split|exact Hnb]|].
    + rewrite Hsup2, Hsup1. exact Hs0.
    + rewrite Hsup2, Hsup1, Hframe; try assumption. congruence.
    + rewrite Hsup2, Hsup1, Hbm2, Hbm1. auto.
  - intros va. rewrite (mapped_poke _ _ _ _ _ Hp2), (mapped_poke _ _ _ _ _ Hp1).
    reflexivity.
  - rewrite (peek_poke_same _ _ _ _ Hp2). reflexivity.
  - exact Hframe.
  - intros b Hb.
    assert (HaA1 : forall b', 0 <= b' < nb -> a <> bitmap_va s1 b').
    { intros b' Hb'. unfold bitmap_va. rewrite Hbm1. apply (HaA b' Hb'). }
    rewrite (bitmap_bit_poke s1 s' nb a 0 b Hr1 Hb Ha HaA1 Hp2).
    apply (bitmap_bit_set s s1 nb v w b); assumption.
Qed.

Section Truncate.
Variables (s : state) (nb f bf off sz ind new old : Z).
Hypothesis Hfile : file_at nb f bf off.
Hypothesis Hneed : NDIRECT < old -> ind <> 0.
Hypothesis Hold : old <= NINDIRECT.
Hypothesis Hnew : 0 <= new.
Hypothesis Hslots : forall bno, new <= bno < old ->
  exists v, peek s (slot_va f ind bno) = Some v /\ (v <> 0 -> v < nb /\ v <> ind).

Lemma truncate_step (c : Z) (sc : state) :
  truncate_inv s nb f bf ind sz new c sc -> new <= c < old ->
  exists r sc', file_clear_block f c sc = Ret r sc' /\
    truncate_inv s nb f bf ind sz new (c + 1) sc'.
Proof.
  intros (Hready & Hsz & Hind & Hok & Hbits & Hsl & Hfreed) Hc.
  assert (Hcr : 0 <= c < NINDIRECT) by lia.
  assert (Hci : NDIRECT <= c -> ind <> 0) by (intros ?; apply Hneed; lia).
  assert (Hci' : NDIRECT <= c -> ind <> 0 /\ indirect_ok sc nb bf ind)
    by (intros ?; split; [|apply Hok]; apply Hci; assumption).
  assert (Hdi : forall bno, (NDIRECT <= bno -> ind <> 0) ->
            NDIRECT <= bno -> data_block nb ind /\ ind <> bf).
  { intros bno H1 H2. destruct (Hok (H1 H2)) as (? & ? & _). auto. }
  destruct (Hslots c Hc) as (v & Hv & Hvok).
  assert (Hvc : peek sc (slot_va f ind c) = Some v).
  { rewrite Hsl by assumption.
    replace (c <? c) with false by (symmetry; apply Z.ltb_irrefl).
    rewrite andb_false_r. exact Hv. }
  pose proof (file_block_walk_slot sc nb f bf off ind c Hready Hfile Hcr Hind Hci')
    as Hwalk.
  assert (Hcond : forall bno, bno <> c ->
            (new <=? bno) && (bno <? c + 1) = (new <=? bno) && (bno <? c)).
  { intros bno Hne. f_equal.
    destruct (bno <? c) eqn:E1; [apply Z.ltb_lt in E1; apply Z.ltb_lt; lia|].
    apply Z.ltb_ge in E1. apply Z.ltb_ge. lia. }
  assert (Hcondc : (new <=? c) && (c <? c + 1) = true).
  { apply andb_true_iff. split; [apply Z.leb_le | apply Z.ltb_lt]; lia. }
  destruct (Z.eq_dec v 0) as [->|Hv0].
  - (* an empty slot *)
    exists 0, sc. split; [apply (file_clear_block_empty sc f c _ Hwalk Hvc)|].
    split; [exact Hready|]. split; [exact Hsz|]. split; [exact Hind|].
    split; [exact Hok|]. split; [exact Hbits|]. split.
    + intros bno Hb Hi. destruct (Z.eq_dec bno c) as [->|Hne].
      * rewrite Hcondc. exact Hvc.
      * rewrite Hcond by exact Hne. apply Hsl; assumption.
    + intros b Hb. rewrite (Hfreed b Hb). split.
      * intros [H|(bno & Hr & Hval & Hb0)]; [left; exact H|].
        right. exists bno. split; [lia | auto].
      * intros [H|(bno & Hr & Hval & Hb0)]; [left; exact H|].
        destruct (Z.eq_dec bno c) as [->|Hne]; [congruence|].
        right. exists bno. split; [lia | auto].
  - (* a slot that holds block [v] *)
    destruct (Hvok Hv0) as [Hvnb Hvind].
    pose proof (peek_range _ _ _ Hv) as Hvr.
    assert (Hvb : 0 <= v < nb) by lia.
    destruct (Hbits v Hvb) as [bit Hbit].
    unfold bitmap_bit in Hbit. fold (bitmap_va sc v) in Hbit.
    destruct (peek sc (bitmap_va sc v)) as [w|] eqn:Hw; [|discriminate].
    destruct (slot_addr sc nb f bf off ind c v Hready Hfile Hcr (Hdi c Hci) Hvb)
      as (Ha & HaA & HaN & Hasz & Hain & Hinj).
    destruct (fs_ready_addrs sc nb v Hready Hvb) as (_ & HaAv & _).
    destruct (file_clear_block_run sc f c _ v w Hwalk Hvc Hv0 Hw Ha HaAv HaA)
      as (s1 & sc' & Hp1 & Hp2 & Hrun).
    destruct (clear_stores sc s1 sc' nb _ v w Hready Hvb Hw Hp1 Hp2 Ha HaN)
      as (Hready' & Hmap' & Hzero & Hframe & Hbits').
    { intros b Hb.
      apply (slot_addr sc nb f bf off ind c b Hready Hfile Hcr (Hdi c Hci) Hb). }
    assert (Hfs : forall d, 0 <= d < BY2FILE -> d mod 4 = 0 ->
              peek sc' (wrap32 (f + d)) = peek sc (wrap32 (f + d)) \/
              wrap32 (f + d) = slot_va f ind c).
    { intros d Hd Hd4.
      destruct (file_at_field sc nb f bf off d v Hready Hfile Hd Hd4 Hvb)
        as (E & Hal & _ & HnA & _).
      destruct (Z.eq_dec (wrap32 (f + d)) (slot_va f ind c)) as [Eq|Hne];
        [right; exact Eq|left].
      apply Hframe; rewrite ?E; try assumption. rewrite <- E. exact Hne. }
    exists 0, sc'. split; [exact Hrun|].
    split; [exact Hready'|]. split; [|split; [|split; [|split; [|split]]]].
    + destruct (Hfs F_SIZE) as [E|E]; [unfold F_SIZE; fs_arith | reflexivity | |].
      * unfold f_size. rewrite E. exact Hsz.
      * exfalso. apply Hasz. symmetry. exact E.
    + destruct (Hfs F_INDIRECT) as [E|E]; [unfold F_INDIRECT; fs_arith | reflexivity | |].
      * unfold f_indirect. rewrite E. exact Hind.
      * exfalso. apply Hain. symmetry. exact E.
    + intros Hi. destruct (Hok Hi) as (Hd & Hne & Hm & Hib).
      split; [exact Hd|]. split; [exact Hne|]. split; [rewrite Hmap'; exact Hm|].
      rewrite Hbits' by fs_arith. rewrite Hib. simpl.
      replace (ind =? v) with false; [reflexivity|].
      symmetry. apply Z.eqb_neq. congruence.
    + intros b Hb. rewrite Hbits' by exact Hb.
      destruct (Hbits b Hb) as [x Hx]. rewrite Hx. simpl. eauto.
    + intros bno Hb Hi. destruct (Z.eq_dec bno c) as [->|Hne].
      * rewrite Hcondc. exact Hzero.
      * rewrite Hcond by exact Hne. rewrite <- Hsl by assumption.
        destruct (slot_addr sc nb f bf off ind bno v Hready Hfile Hb (Hdi bno Hi) Hvb)
          as (Ha' & HaA' & _).
        apply Hframe; try assumption.
        apply Hinj; try assumption. exact (Hdi bno Hi).
    + intros b Hb. rewrite Hbits' by exact Hb.
      destruct (Hbits b Hb) as [x Hx]. rewrite Hx. simpl.
      pose proof (Hfreed b Hb) as Hf. rewrite Hx in Hf.
      destruct (Z.eq_dec b v) as [->|Hbv].
      * rewrite Z.eqb_refl, orb_true_r. split; [intros _|reflexivity].
        right. exists c. split; [lia | auto].
      * replace (b =? v) with false by (symmetry; apply Z.eqb_neq; exact Hbv).
        rewrite orb_false_r. rewrite Hf. split.
        -- intros [H|(bno & Hr & Hval & Hb0)]; [left; exact H|].
           right. exists bno. split; [lia | auto].
        -- intros [H|(bno & Hr & Hval & Hb0)]; [left; exact H|].
           destruct (Z.eq_dec bno c) as [->|Hne]; [congruence|].
           right. exists bno. split; [lia | auto].
Qed.

Lemma truncate_loop (n : nat) (c : Z) (sc : state) :
  truncate_inv s nb f bf ind sz new c sc -> new <= c -> c + Z.of_nat n = old ->
  exists sl, file_truncate_loop n f c sc = Ret tt sl /\
    truncate_inv s nb f bf ind sz new old sl.
Proof.
  revert c sc. induction n as [|n IH]; intros c sc Hinv Hc Hn.
  - exists sc. split; [reflexivity|]. replace old with c by lia. exact Hinv.
  - destruct (truncate_step c sc Hinv) as (r & sc' & Hrun & Hinv'); [lia|].
    destruct (IH (c + 1) sc' Hinv') as (sl & Hloop & Hl); [lia | lia |].
    exists sl. split; [|exact Hl]. simpl. step_with Hrun. exact Hloop.
Qed.

End Truncate.


Lemma nblocks_of_small (size : Z) :
  0 <= size <= MAXFILESIZE ->
  nblocks_of size = (size + BY2BLK - 1) / BY2BLK /\
  0 <= nblocks_of size <= NINDIRECT /\
  (if size =? 0 then 0 else nblocks_of size) = nblocks_of size.
Proof.
  intros Hs. unfold nblocks_of.
  rewrite wrap32_small by (unfold MAXFILESIZE in Hs; fs_arith).
  split; [reflexivity|]. split; [unfold MAXFILESIZE in Hs; fs_arith|].
  destruct (size =? 0) eqn:E; [|reflexivity].
  apply Z.eqb_eq in E. subst size. reflexivity.
Qed.

Lemma nblocks_of_mono (a b : Z) :
  0 <= a <= b -> b <= MAXFILESIZE -> nblocks_of a <= nblocks_of b.
Proof.
  intros Ha Hb.
  destruct (nblocks_of_small a) as (-> & _); [lia|].
  destruct (nblocks_of_small b) as (-> & _); [lia|].
  apply Z.div_le_mono; fs_arith.
Qed.

(** [file_truncate] on a file whose indirect block exists whenever its size
    needs one: it returns, the slots from the new block count up to the old
    one are zero and the blocks they held are free, the indirect block (if
    any) is free and its pointer zero, the size is [newsize]; every other
    slot and every other bit is as before. *)
Lemma file_truncate_loaded (s : state) (nb f bf off sz ind newsize : Z) :
  fs_ready s nb -> file_at nb f bf off ->
  peek s (f_size f) = Some sz -> peek s (f_indirect f) = Some ind ->
  sz <= MAXFILESIZE -> 0 <= newsize <= sz ->
  (NDIRECT < nblocks_of sz -> ind <> 0) ->
  (ind <> 0 -> indirect_ok s nb bf ind) ->
  (forall b, 0 <= b < nb -> is_Some (bitmap_bit s b)) ->
  (forall bno, nblocks_of newsize <= bno < nblocks_of sz ->
     exists v, peek s (slot_va f ind bno) = Some v /\
               (v <> 0 -> v < nb /\ v <> ind)) ->
  exists s',
    file_truncate f newsize s = Ret tt s' /\
    peek s' (f_size f) = Some newsize /\
    peek s' (f_indirect f) = Some 0 /\
    (forall bno, 0 <= bno < NINDIRECT -> (NDIRECT <= bno -> ind <> 0) ->
       peek s' (slot_va f ind bno)
       = if (nblocks_of newsize <=? bno) && (bno <? nblocks_of sz)
         then Some 0 else peek s (slot_va f ind bno)) /\
    (forall b, 0 <= b < nb ->
       (bitmap_bit s' b = Some true <->
        bitmap_bit s b = Some true \/ (ind <> 0 /\ b = ind) \/
        exists bno, nblocks_of newsize <= bno < nblocks_of sz /\
                    peek s (slot_va f ind bno) = Some b /\ b <> 0)).
Proof.
  intros Hready Hfile Hsz Hind Hmax Hnew Hneed Hok Hbits Hslots.
  destruct (nblocks_of_small sz) as (_ & Hold & _); [pose proof (peek_range _ _ _ Hsz); lia|].
  destruct (nblocks_of_small newsize) as (_ & Hnw & Enew); [lia|].
  pose proof (nblocks_of_mono newsize sz Hnew Hmax) as Hmono.
  set (new := nblocks_of newsize) in *. set (old := nblocks_of sz) in *.
  assert (Hinv0 : truncate_inv s nb f bf ind sz new new s).
  { split; [exact Hready|]. split; [exact Hsz|]. split; [exact Hind|].
    split; [exact Hok|]. split; [exact Hbits|]. split.
    - intros bno _ _.
      destruct ((new <=? bno) && (bno <? new)) eqn:E; [|reflexivity].
      apply andb_true_iff in E as [E1 E2].
      apply Z.leb_le in E1. apply Z.ltb_lt in E2. lia.
    - intros b _. split; [auto|]. intros [H|(bno & Hr & _)]; [exact H | lia]. }
  destruct (truncate_loop s nb f bf off sz ind new old Hfile Hneed (proj2 Hold)
              (proj1 Hnw) Hslots (Z.to_nat (old - new)) new s Hinv0)
    as (sl & Hloop & Hinv); [lia | lia |].
  destruct Hinv as (Hrl & Hszl & Hindl & Hokl & Hbitsl & Hsll & Hfreedl).
  assert (Hfld : forall x d, fs_ready x nb -> 0 <= d < BY2FILE -> d mod 4 = 0 ->
            wrap32 (f + d) = f + d /\ aligned (f + d) /\
            (forall b, 0 <= b < nb -> f + d <> bitmap_va x b) /\
            f + d <> super x + S_NBLOCKS).
  { intros x d Hx Hd Hd4.
    assert (H0 : 0 <= 0 < nb) by (destruct Hx as (_ & _ & _ & ?); fs_arith).
    destruct (file_at_field x nb f bf off d 0 Hx Hfile Hd Hd4 H0)
      as (E & Hal & _ & _ & HnN).
    split; [exact E|]. split; [exact Hal|]. split; [|exact HnN].
    intros b Hb. apply (file_at_field x nb f bf off d b Hx Hfile Hd Hd4 Hb). }
  assert (HdS : 0 <= F_SIZE < BY2FILE /\ F_SIZE mod 4 = 0)
    by (unfold F_SIZE; split; [fs_arith | reflexivity]).
  pose proof f_indirect_offset as HdI.
  assert (Hsi : f_size f <> f_indirect f).
  { unfold f_size, f_indirect.
    destruct (Hfld s F_SIZE Hready (proj1 HdS) (proj2 HdS)) as (-> & _).
    destruct (Hfld s F_INDIRECT Hready (proj1 HdI) (proj2 HdI)) as (-> & _).
    unfold F_SIZE, F_INDIRECT. fs_arith. }
  assert (Hdi : forall bno, (NDIRECT <= bno -> ind <> 0) ->
            NDIRECT <= bno -> data_block nb ind /\ ind <> bf).
  { intros bno H1 H2. destruct (Hok (H1 H2)) as (? & ? & _). auto. }
  (* the state after the indirect block is released *)
  assert (Hmid : exists s2,
    (if negb (ind =? 0) then
       ind' ← load32 (f_indirect f); free_block ind';; store32 (f_indirect f) 0
     else ret tt)%fs sl = Ret tt s2 /\
    fs_ready s2 nb /\ peek s2 (f_size f) = Some sz /\
    peek s2 (f_indirect f) = Some 0 /\
    (forall va, aligned va -> va <> f_indirect f ->
       (forall b, 0 <= b < nb -> va <> bitmap_va sl b) -> peek s2 va = peek sl va) /\
    (forall b, 0 <= b < nb ->
       bitmap_bit s2 b
       = (fun x => x || (negb (ind =? 0) && (b =? ind))) <$> bitmap_bit sl b)).
  { destruct (Z.eq_dec ind 0) as [E0|Hi].
    - subst ind. simpl. exists sl. split; [reflexivity|].
      split; [exact Hrl|]. split; [exact Hszl|]. split; [exact Hindl|].
      split; [reflexivity|]. intros b Hb.
      destruct (Hbitsl b Hb) as [x ->]. simpl. rewrite orb_false_r. reflexivity.
    - apply Z.eqb_neq in Hi as Hi'. rewrite Hi'. simpl. apply Z.eqb_neq in Hi'.
      destruct (Hokl Hi) as (Hd & Hne & Hm & Hib).
      assert (Hvb : 0 <= ind < nb) by (unfold data_block in Hd; fs_arith).
      unfold bitmap_bit in Hib. fold (bitmap_va sl ind) in Hib.
      destruct (peek sl (bitmap_va sl ind)) as [w|] eqn:Hw; [|discriminate].
      destruct (Hfld sl F_INDIRECT Hrl (proj1 HdI) (proj2 HdI))
        as (E & Hal & HnA & HnN).
      fold (f_indirect f) in E. rewrite <- E in Hal, HnA, HnN.
      destruct (poke_is_Some sl (bitmap_va sl ind) (Z.lor w (bit_mask ind)) w Hw)
        as [s1 Hp1].
      assert (Hi1 : peek s1 (f_indirect f) = Some ind).
      { rewrite (peek_poke_ne _ _ _ _ _ Hp1); try assumption.
        - apply (fs_ready_addrs sl nb ind Hrl Hvb).
        - apply HnA. exact Hvb. }
      destruct (poke_is_Some s1 (f_indirect f) 0 ind Hi1) as [s2 Hp2].
      destruct (clear_stores sl s1 s2 nb _ ind w Hrl Hvb Hw Hp1 Hp2 Hal HnN HnA)
        as (Hr2 & Hmap2 & Hzero & Hframe & Hbits2).
      exists s2. split.
      { step_with (load32_run _ _ _ Hindl).
        assert (Hfree : free_block ind sl = Ret tt s1).
        { unfold free_block. apply Z.eqb_neq in Hi'. rewrite Hi'. step.
          fold (bitmap_va sl ind).
          step_with (load32_run _ _ _ Hw). apply store32_Ret. exact Hp1. }
        step_with Hfree. apply store32_Ret. exact Hp2. }
      split; [exact Hr2|]. split.
      { rewrite Hframe; [exact Hszl| | exact Hsi |].
        - unfold f_size.
          destruct (Hfld sl F_SIZE Hrl (proj1 HdS) (proj2 HdS)) as (-> & ? & _).
          assumption.
        - unfold f_size.
          destruct (Hfld sl F_SIZE Hrl (proj1 HdS) (proj2 HdS)) as (-> & _ & H & _).
          apply H. exact Hvb. }
      split; [exact Hzero|]. split.
      { intros va Hva Hne1 Hne2. apply Hframe; auto. }
      intros b Hb. rewrite Hbits2 by exact Hb.
      replace (negb (ind =? 0)) with true
        by (symmetry; apply negb_true_iff, Z.eqb_neq; exact Hi').
      reflexivity. }
  destruct Hmid as (s2 & Hrun2 & Hr2 & Hsz2 & Hind2 & Hframe2 & Hbits2).
  destruct (poke_is_Some s2 (f_size f) newsize sz Hsz2) as [s' Hp].
  destruct (Hfld s2 F_SIZE Hr2 (proj1 HdS) (proj2 HdS)) as (ES & HalS & HnAS & HnNS).
  fold (f_size f) in ES. rewrite <- ES in HalS, HnAS, HnNS.
  exists s'. split; [|split; [|split; [|split]]].
  - unfold file_truncate. step_with (load32_run _ _ _ Hsz).
    cbv zeta. fold new old. rewrite Enew.
    step_with Hloop. step_with (load32_run _ _ _ Hindl). step_with Hrun2.
    apply store32_Ret. exact Hp.
  - rewrite (peek_poke_same _ _ _ _ Hp). f_equal. apply wrap32_small.
    pose proof (peek_range _ _ _ Hsz). lia.
  - rewrite (peek_poke_ne _ _ _ _ _ Hp); try assumption.
    + unfold f_indirect.
      destruct (Hfld s F_INDIRECT Hready (proj1 HdI) (proj2 HdI)) as (-> & ? & _).
      assumption.
    + congruence.
  - intros bno Hb Hi.
    assert (H0 : 0 <= 0 < nb) by (destruct Hready as (_ & _ & _ & ?); fs_arith).
    destruct (slot_addr s2 nb f bf off ind bno 0 Hr2 Hfile Hb (Hdi bno Hi) H0)
      as (Ha & _ & _ & Hasz & Hain & _).
    rewrite (peek_poke_ne _ _ _ _ _ Hp); try assumption.
    rewrite Hframe2; try assumption.
    + apply Hsll; assumption.
    + intros b Hb'.
      apply (slot_addr sl nb f bf off ind bno b Hrl Hfile Hb (Hdi bno Hi) Hb').
  - intros b Hb.
    rewrite (bitmap_bit_poke s2 s' nb (f_size f) newsize b Hr2 Hb HalS HnAS Hp).
    rewrite Hbits2 by exact Hb.
    destruct (Hbitsl b Hb) as [x Hx]. rewrite Hx. simpl.
    pose proof (Hfreedl b Hb) as Hf. rewrite Hx in Hf.
    destruct (Z.eq_dec ind 0) as [E0|Hi].
    + subst ind. simpl. rewrite orb_false_r. rewrite Hf.
      split; [intros [H|H]; auto | intros [H|[[H _]|H]]; auto; contradiction].
    + replace (negb (ind =? 0)) with true
        by (symmetry; apply negb_true_iff, Z.eqb_neq; exact Hi).
      simpl. destruct (Z.eq_dec b ind) as [->|Hbi].
      * rewrite Z.eqb_refl, orb_true_r. split; [auto|reflexivity].
      * replace (b =? ind) with false by (symmetry; apply Z.eqb_neq; exact Hbi).
        rewrite orb_false_r, Hf.
        split; [intros [H|H]; auto | intros [H|[[_ H]|H]]; auto; contradiction].
Qed.

(** * Further properties of the server

    ** Truncation, for a file whose blocks are all there *)

(** [file_truncate] on a file whose indirect block exists whenever its size
    needs one: it returns, the slots from the new block count up to the old
    one are zero and the blocks they held are free, the indirect block (if
    any) is free and its pointer zero, the size is [newsize]; every other
    slot and every other bit is as before. *)
Theorem file_truncate_spec (s : state) (nb f bf off sz ind newsize : Z) :
  fs_ready s nb -> file_at nb f bf off ->
  peek s (f_size f) = Some sz -> peek s (f_indirect f) = Some ind ->
  sz <= MAXFILESIZE -> 0 <= newsize <= sz ->
  (NDIRECT < nblocks_of sz -> ind <> 0) ->
  (ind <> 0 -> indirect_ok s nb bf ind) ->
  (forall b, 0 <= b < nb -> is_Some (bitmap_bit s b)) ->
  (forall bno, nblocks_of newsize <= bno < nblocks_of sz ->
     exists v, peek s (slot_va f ind bno) = Some v /\
               (v <> 0 -> v < nb /\ v <> ind)) ->
  exists s',
    file_truncate f newsize s = Ret tt s' /\
    peek s' (f_size f) = Some newsize /\
    peek s' (f_indirect f) = Some 0 /\
    (forall bno, 0 <= bno < NINDIRECT -> (NDIRECT <= bno -> ind <> 0) ->
       peek s' (slot_va f ind bno)
       = if (nblocks_of newsize <=? bno) && (bno <? nblocks_of sz)
         then Some 0 else peek s (slot_va f ind bno)) /\
    (forall b, 0 <= b < nb ->
       (bitmap_bit s' b = Some true <->
        bitmap_bit s b = Some true \/ (ind <> 0 /\ b = ind) \/
        exists bno, nblocks_of newsize <= bno < nblocks_of sz /\
                    peek s (slot_va f ind bno) = Some b /\ b <> 0)).
Proof. exact (file_truncate_loaded s nb f bf off sz ind newsize). Qed.

(** ** The block cache *)

(** [diskaddr] on a loaded file system: a block below the block count sits at
    [DISKMAP + b * BY2BLK], a page-aligned address whose block ends inside the
    window of [DISKMAX] bytes and whose page no other block shares; a block
    number from the block count on is a panic. *)
Theorem diskaddr_layout (s : state) (nb b : Z) :
  fs_loaded s nb -> 0 <= b ->
  (b < nb ->
     diskaddr b s = Ret (DISKMAP + b * BY2BLK) s /\
     (DISKMAP + b * BY2BLK) mod BY2PG = 0 /\
     DISKMAP + b * BY2BLK + BY2BLK <= DISKMAP + DISKMAX /\
     forall b', 0 <= b' < nb -> b' <> b ->
       VPN (DISKMAP + b' * BY2BLK) <> VPN (DISKMAP + b * BY2BLK)) /\
  (nb <= b -> diskaddr b s = Panic).
Proof.
  intros [Hs Hnb] Hb0. split.
  - intros Hb.
    destruct (block_va_in_window b nb Hnb (conj Hb0 Hb)) as (E & _ & _ & Ha & Hv).
    split; [rewrite <- E; apply (diskaddr_run s nb b Hs Hb)|].
    pose proof diskmap_aligned.
    split; [unfold BY2BLK, BY2PG in *; lia_div|].
    split; [unfold BY2BLK, BY2PG in *; lia_div|].
    intros b' Hb' Hne.
    destruct (block_va_in_window b' nb Hnb Hb') as (E' & _ & _ & _ & Hv').
    rewrite <- E, <- E', Hv, Hv'. lia.
  - intros Hb. destruct Hs as [Hsup Hn].
    unfold diskaddr. step. apply Z.eqb_neq in Hsup. rewrite Hsup.
    unfold bind at 1.
    rewrite (bind_run _ _ s s nb (proj2 (s_nblocks_Ret s s nb) (conj Hn eq_refl))).
    unfold ret. apply Z.leb_le in Hb. rewrite Hb. reflexivity.
Qed.

(** A store outside the word of the block count keeps the file system
    loaded. *)
Lemma fs_ready_poke (s s' : state) (nb a v : Z) :
  fs_ready s nb -> poke s a v = Some s' -> aligned a ->
  a <> super s + S_NBLOCKS -> fs_ready s' nb.
Proof.
  intros Hready Hp Ha Hne.
  pose proof Hready as (((Hs0 & HN) & Hnb) & Esup & Ebm & Hnb1).
  pose proof (poke_fields _ _ _ _ Hp) as (Hsup & Hbm & _).
  assert (H0 : 0 <= 0 < nb) by fs_arith.
  destruct (fs_ready_addrs s nb 0 Hready H0) as (_ & _ & _ & _ & HaN & _).
  split; [split; [split|exact Hnb]|].
  - rewrite Hsup. exact Hs0.
  - rewrite Hsup, (peek_poke_ne _ _ _ _ _ Hp); try assumption. congruence.
  - rewrite Hsup, Hbm. auto.
Qed.

(** Clearing the bit of [v] in its bitmap word clears that bit and no
    other. *)
Lemma bitmap_bit_clear (s s1 : state) (nb v w b : Z) :
  fs_ready s nb -> 0 <= v < nb -> 0 <= b < nb ->
  peek s (bitmap_va s v) = Some w ->
  poke s (bitmap_va s v) (Z.land w (wrap32 (Z.lnot (bit_mask v)))) = Some s1 ->
  bitmap_bit s1 b = (fun x => x && negb (b =? v)) <$> bitmap_bit s b.
Proof.
  intros Hready Hv Hb Hw Hp.
  pose proof (poke_fields _ _ _ _ Hp) as (_ & Hbm & _).
  destruct (fs_ready_addrs s nb v Hready Hv) as (EAv & HaAv & _).
  destruct (fs_ready_addrs s nb b Hready Hb) as (EAb & HaAb & _).
  unfold bitmap_bit. rewrite Hbm. fold (bitmap_va s b).
  assert (Hkb : 0 <= b mod 32 < 32) by (apply Z.mod_pos_bound; lia).
  assert (Hkv : 0 <= v mod 32 < 32) by (apply Z.mod_pos_bound; lia).
  destruct (Z.eq_dec (b / 32) (v / 32)) as [E|E].
  - assert (Ea : bitmap_va s b = bitmap_va s v) by (rewrite EAb, EAv, E; reflexivity).
    rewrite Ea, (peek_poke_same _ _ _ _ Hp), Hw. simpl. f_equal.
    rewrite wrap32_testbit, Z.land_spec, wrap32_testbit, Z.lnot_spec,
      bit_mask_spec by lia.
    destruct (b mod 32 <? 32) eqn:E32; [|apply Z.ltb_ge in E32; lia]. simpl.
    f_equal. destruct (Z.eq_dec (b mod 32) (v mod 32)) as [Em|Em].
    + rewrite Em, Z.pow2_bits_true by lia. simpl. symmetry.
      apply negb_false_iff, Z.eqb_eq. lia_div.
    + rewrite Z.pow2_bits_false by lia. simpl. symmetry.
      apply negb_true_iff, Z.eqb_neq. intros ->. contradiction.
  - rewrite (peek_poke_ne _ _ _ _ _ Hp); try assumption.
    2:{ rewrite EAb, EAv. lia. }
    destruct (peek s (bitmap_va s b)) as [wb|]; [|reflexivity]. simpl. f_equal.
    replace (b =? v) with false; [rewrite andb_true_r; reflexivity|].
    symmetry. apply Z.eqb_neq. intros ->. contradiction.
Qed.

(** [free_block] on a loaded file system marks the block free, so that
    [block_is_free] answers 1 for it, and changes neither another bit nor
    any word outside the bitmap word of the block; block 0 cannot be
    freed. *)
Theorem free_block_marks_free (s : state) (nb b : Z) :
  fs_ready s nb -> 0 < b < nb -> is_Some (bitmap_bit s b) ->
  free_block 0 s = Panic /\
  exists s', free_block b s = Ret tt s' /\
    block_is_free b s' = Ret 1 s' /\
    (forall b', 0 <= b' < nb -> b' <> b -> bitmap_bit s' b' = bitmap_bit s b') /\
    (forall va, aligned va -> va <> bitmap_va s b -> peek s' va = peek s va).
Proof.
  intros Hready Hb [bit Hbit]. split; [reflexivity|].
  assert (Hb' : 0 <= b < nb) by lia.
  unfold bitmap_bit in Hbit. fold (bitmap_va s b) in Hbit.
  destruct (peek s (bitmap_va s b)) as [w|] eqn:Hw; [|discriminate].
  destruct (poke_is_Some s (bitmap_va s b) (Z.lor w (bit_mask b)) w Hw) as [s' Hp].
  destruct (fs_ready_addrs s nb b Hready Hb') as (EA & HaA & HvA & EN & HaN & HvN & _).
  assert (Hne : bitmap_va s b <> super s + S_NBLOCKS).
  { intros E. rewrite E, HvN in HvA. fs_arith. }
  pose proof (fs_ready_poke s s' nb _ _ Hready Hp HaA Hne) as Hready'.
  assert (Hset : forall b', 0 <= b' < nb ->
            bitmap_bit s' b' = (fun x => x || (b' =? b)) <$> bitmap_bit s b')
    by (intros b' Hb1; apply (bitmap_bit_set s s' nb b w b'); assumption).
  exists s'. split; [|split; [|split]].
  - unfold free_block. destruct (b =? 0) eqn:E; [apply Z.eqb_eq in E; lia|].
    step. fold (bitmap_va s b). step_with (load32_run _ _ _ Hw).
    apply store32_Ret. exact Hp.
  - apply (block_is_free_run s' nb b true); [apply Hready' | lia |].
    rewrite (Hset b Hb'). unfold bitmap_bit. fold (bitmap_va s b). rewrite Hw.
    simpl. rewrite Z.eqb_refl, orb_true_r. reflexivity.
  - intros b' Hb1 Hne'. rewrite (Hset b' Hb1).
    destruct (bitmap_bit s b') as [x|]; [|reflexivity]. simpl.
    replace (b' =? b) with false by (symmetry; apply Z.eqb_neq; exact Hne').
    rewrite orb_false_r. reflexivity.
  - intros va Ha Hva. apply (peek_poke_ne _ _ _ _ _ Hp); assumption.
Qed.

(** What a successful [map_block] leaves: the block is resident, and the
    state is the old one or the old one with a fresh page at the block. *)
Lemma map_block_Ret_ok (b r : Z) (s s' : state) :
  map_block b s = Ret r s' -> 0 <= r ->
  r = 0 /\ mapped s' (block_va b) = true /\
  (s' = s \/
   exists pg k, kfree s = pg :: k /\
     s' = set_kfree k (set_pages <[VPN (block_va b) := (Z.lor PTE_V PTE_R, pg)]> s)).
Proof.
  unfold map_block. intros H Hr.
  mbind H as m s1 Hm. apply block_is_mapped_Ret in Hm as [-> ->].
  assert (Halloc : forall s0,
            syscall_mem_alloc (block_va b) (Z.lor PTE_V PTE_R) s = Ret r s0 ->
            r = 0 /\ mapped s0 (block_va b) = true /\
            exists pg k, kfree s = pg :: k /\
              s0 = set_kfree k
                     (set_pages <[VPN (block_va b) := (Z.lor PTE_V PTE_R, pg)]> s)).
  { intros s0 Ha. pose proof errno_pos.
    apply syscall_mem_alloc_Ret in Ha as [[[->| ->] _]|[-> (pg & k & Hk & ->)]];
      [lia | lia |].
    split; [reflexivity|]. split; [|eauto].
    unfold mapped. simpl. rewrite lookup_insert_eq, perm_V_R. reflexivity. }
  destruct (negb _) eqn:E.
  - apply ret_Ret in H as [-> ->]. split; [reflexivity|].
    destruct (mapped s (block_va b)); [auto | discriminate].
  - mbind H as va s1 Hva. apply diskaddr_Ret in Hva as [-> ->].
    destruct (Halloc _ H) as (-> & Hm & Hex). auto.
Qed.

(** [alloc_block] on a loaded file system whose bitmap blocks are marked in
    use: a block number it returns is that of the first block from 3 on whose
    bit was set; the bit is now clear, no other bit has changed, and the
    block is resident. *)
Theorem alloc_block_sound (s s' : state) (nb r : Z) :
  fs_ready s nb ->
  (forall i, 2 <= i < 2 + (nb + BIT2BLK - 1) / BIT2BLK -> bitmap_bit s i = Some false) ->
  alloc_block s = Ret r s' -> 0 <= r ->
  3 <= r < nb /\ bitmap_bit s r = Some true /\
  (forall b', 3 <= b' < r -> bitmap_bit s b' = Some false) /\
  bitmap_bit s' r = Some false /\
  (forall b', 0 <= b' < nb -> b' <> r -> bitmap_bit s' b' = bitmap_bit s b') /\
  mapped s' (block_va r) = true.
Proof.
  intros Hready Hbm H Hr.
  pose proof Hready as ((Hs & Hnb) & Esup & Ebm & Hnb1).
  unfold alloc_block, alloc_block_num in H.
  mbind H as r1 s1 Hscan. mbind Hscan as nb' s0 Hn.
  apply s_nblocks_Ret in Hn as [Hn ->].
  assert (nb' = nb) as -> by (destruct Hs as [_ Hs]; congruence).
  apply alloc_scan_Ret in Hscan
    as [(-> & -> & _)|(b & w & sm & Hb & Hint & -> & Hbefore & Hw & Hbit & Hpoke & Hwr)].
  { pose proof errno_pos.
    destruct (_ <? 0) eqn:E; [|apply Z.ltb_ge in E; lia].
    apply ret_Ret in H as [-> _]. lia. }
  destruct (b <? 0) eqn:Eb; [apply Z.ltb_lt in Eb; lia|].
  mbind H as r' s2 Hmap.
  destruct (r' <? 0) eqn:Er'.
  { apply Z.ltb_lt in Er'. mbind H as u s3 Hf. apply ret_Ret in H as [-> _]. lia. }
  apply ret_Ret in H as [-> ->]. apply Z.ltb_ge in Er'.
  assert (Hbr : 3 <= b < nb) by lia.
  assert (Hb0 : 0 <= b < nb) by lia.
  assert (Hbs : bitmap_bit s b = Some true).
  { unfold bitmap_bit. fold (bitmap_va s b). rewrite Hw. simpl. congruence. }
  assert (Hdata : data_block nb b).
  { split; [|lia].
    destruct (Z_lt_le_dec b (2 + (nb + BIT2BLK - 1) / BIT2BLK)) as [Hlt|]; [|assumption].
    rewrite Hbm in Hbs by lia. discriminate. }
  destruct (fs_ready_addrs s nb b Hready Hb0) as (EA & HaA & HvA & EN & HaN & HvN & _).
  destruct (block_va_in_window b nb Hnb Hb0) as (_ & _ & _ & _ & Hvb).
  apply write_block_Ret in Hwr as (_ & Hmem & _ & _ & Hbm1 & _).
  pose proof (poke_fields _ _ _ _ Hpoke) as (_ & Hbmm & _).
  apply map_block_Ret_ok in Hmap as (_ & Hmapped & Hst); [|exact Er'].
  assert (Hbms : bitmap s2 = bitmap s).
  { destruct Hst as [->|(pg & k & _ & ->)]; simpl; congruence. }
  assert (Hpeek : forall b', 0 <= b' < nb ->
            peek s2 (bitmap_va s b') = peek sm (bitmap_va s b')).
  { intros b' Hb'. rewrite <- Hmem.
    destruct Hst as [->|(pg & k & _ & ->)]; [reflexivity|].
    destruct (fs_ready_addrs s nb b' Hready Hb') as (_ & _ & Hv' & _ & _ & _ & Hlt).
    unfold peek. simpl. rewrite lookup_insert_ne; [reflexivity|].
    rewrite Hv', Hvb. unfold data_block in Hdata. lia. }
  assert (Hbits : forall b', 0 <= b' < nb ->
            bitmap_bit s2 b' = (fun x => x && negb (b' =? b)) <$> bitmap_bit s b').
  { intros b' Hb'.
    rewrite <- (bitmap_bit_clear s sm nb b w b' Hready Hb0 Hb' Hw Hpoke).
    unfold bitmap_bit. rewrite Hbms, Hbmm. fold (bitmap_va s b').
    rewrite Hpeek by exact Hb'. reflexivity. }
  split; [exact Hbr|]. split; [exact Hbs|].
  split; [intros b' Hb'; apply Hbefore; lia|].
  split; [rewrite (Hbits b Hb0), Hbs; simpl; rewrite Z.eqb_refl; reflexivity|].
  split; [|exact Hmapped].
  intros b' Hb' Hne. rewrite (Hbits b' Hb').
  destruct (bitmap_bit s b') as [x|]; [|reflexivity]. simpl.
  replace (b' =? b) with false by (symmetry; apply Z.eqb_neq; exact Hne).
  rewrite andb_true_r. reflexivity.
Qed.

(** The state after [write_block] on a resident block: the disk holds the
    words of the page under the first sector of the block, and the page is
    mapped again over itself with the library bit. *)
Lemma write_block_exact (s : state) (nb b perm : Z) (ws : list Z) :
  fs_loaded s nb -> 0 <= b < nb ->
  pages s !! VPN (block_va b) = Some (perm, ws) -> Z.land perm PTE_V <> 0 ->
  write_block b s = Ret tt
    (set_pages <[VPN (block_va b) := (Z.lor (Z.lor PTE_V PTE_R) PTE_LIBRARY, ws)]>
       (set_disk (wrap32 (b * SECT2BLK)) ws s)).
Proof.
  intros [Hs Hnb] Hb Hpg Hv.
  destruct (block_va_in_window b nb Hnb Hb) as (_ & Hu & Hz & _).
  assert (Hm : mapped s (block_va b) = true).
  { unfold mapped. rewrite Hpg. apply negb_true_iff, Z.eqb_neq. exact Hv. }
  unfold write_block, bind.
  rewrite (block_is_mapped_run s nb b Hs) by lia. rewrite Hm.
  apply Z.eqb_neq in Hz. rewrite Hz.
  rewrite (diskaddr_run s nb b Hs) by lia.
  unfold ide_write. rewrite Hpg. unfold syscall_mem_map.
  rewrite perm_V_R_L. apply Z.leb_gt in Hu. rewrite Hu. simpl.
  unfold bind, get. simpl. rewrite Hpg. reflexivity.
Qed.

(** [write_block] copies a resident block to the disk and changes no word of
    memory.  It maps the page of the block again over itself, so that the
    page keeps its words and ends with the permission
    [PTE_V | PTE_R | PTE_LIBRARY] whatever its permission was; no other page
    changes, and every address stays mapped or unmapped as it was.  On a
    block that is not resident it panics. *)
Theorem write_block_stores_page (s : state) (nb b : Z) :
  fs_loaded s nb -> 0 <= b < nb ->
  (mapped s (block_va b) = false -> write_block b s = Panic) /\
  (forall perm ws,
     pages s !! VPN (block_va b) = Some (perm, ws) -> Z.land perm PTE_V <> 0 ->
     exists s', write_block b s = Ret tt s' /\
       disk s' !! wrap32 (b * SECT2BLK) = Some ws /\
       (forall sec, sec <> wrap32 (b * SECT2BLK) -> disk s' !! sec = disk s !! sec) /\
       same_mem s s' /\ (forall va, mapped s' va = mapped s va) /\
       pages s' !! VPN (block_va b)
       = Some (Z.lor (Z.lor PTE_V PTE_R) PTE_LIBRARY, ws) /\
       (forall vp, vp <> VPN (block_va b) -> pages s' !! vp = pages s !! vp)).
Proof.
  intros Hl Hb. split.
  - intros Hm. destruct Hl as [Hs Hnb].
    unfold write_block, bind.
    rewrite (block_is_mapped_run s nb b Hs) by lia. rewrite Hm. reflexivity.
  - intros perm ws Hpg Hv.
    pose proof (write_block_exact s nb b perm ws Hl Hb Hpg Hv) as Hrun.
    eexists. split; [exact Hrun|].
    pose proof (write_block_Ret _ _ _ _ Hrun) as (_ & Hmem & Hmap & _).
    split; [simpl; apply lookup_insert_eq|].
    split; [intros sec Hne; simpl; apply lookup_insert_ne; congruence|].
    split; [assumption|]. split; [assumption|].
    split; [simpl; apply lookup_insert_eq|].
    intros vp Hne. simpl. apply lookup_insert_ne. congruence.
Qed.

(** Words and mappings outside a page that is replaced or removed. *)
Lemma peek_set_pages_ne (s : state) (g : gmap Z (Z * list Z) -> gmap Z (Z * list Z))
    (v va : Z) :
  (forall m, g m !! VPN va = m !! VPN va) ->
  peek (set_pages g s) va = peek s va /\ mapped (set_pages g s) va = mapped s va.
Proof. intros Hg. unfold peek, mapped. simpl. rewrite Hg. auto. Qed.

Lemma block_is_dirty_run (s : state) (nb b : Z) :
  super_loaded s nb -> b < nb -> block_is_dirty b s = Ret false s.
Proof.
  intros Hs Hb. unfold block_is_dirty.
  step_with (diskaddr_run s nb b Hs Hb). unfold va_is_mapped. step.
  destruct (mapped s (block_va b)); reflexivity.
Qed.

(** The state after [unmap_block] on a resident block other than the
    superblock. *)
Lemma unmap_block_exact (s : state) (nb b : Z) :
  fs_ready s nb -> 0 <= b < nb -> b <> 1 ->
  is_Some (bitmap_bit s b) -> mapped s (block_va b) = true ->
  unmap_block b s = Ret tt (set_pages (delete (VPN (block_va b))) s).
Proof.
  intros Hready Hb Hb1 [bit Hbit] Hm.
  pose proof Hready as ((Hs & Hnb) & Esup & Ebm & Hnb1).
  destruct (block_va_in_window b nb Hnb Hb) as (_ & _ & Hz & _ & Hvb).
  destruct (fs_ready_addrs s nb b Hready Hb) as (_ & _ & _ & _ & _ & HvN & _).
  set (s1 := set_pages (delete (VPN (block_va b))) s).
  assert (Hs1 : super_loaded s1 nb).
  { destruct Hs as [Hsup Hn]. split; [exact Hsup|].
    unfold s1, peek. simpl. rewrite lookup_delete_ne; [exact Hn|].
    rewrite HvN, Hvb. lia. }
  assert (Hm1 : mapped s1 (block_va b) = false).
  { unfold s1, mapped. simpl. rewrite lookup_delete_eq. reflexivity. }
  unfold unmap_block.
  step_with (block_is_mapped_run s nb b Hs (proj2 Hb)). rewrite Hm.
  apply Z.eqb_neq in Hz. rewrite Hz.
  step_with (block_is_free_run s nb b bit Hs (proj2 Hb) Hbit).
  assert (Hok : (if negb ((if bit then 1 else 0) =? 0) then ret true
                 else d ← block_is_dirty b; ret (negb d)) s = Ret true s).
  { destruct bit; [reflexivity|]. simpl.
    step_with (block_is_dirty_run s nb b Hs (proj2 Hb)). reflexivity. }
  step_with Hok. simpl.
  step_with (diskaddr_run s nb b Hs (proj2 Hb)).
  unfold syscall_mem_unmap. step. fold s1.
  change (0 <? 0) with false. cbv iota.
  step_with (block_is_mapped_run s1 nb b Hs1 (proj2 Hb)). rewrite Hm1.
  reflexivity.
Qed.

(** [unmap_block] drops a resident block from the cache without writing it
    back, and leaves every other page alone; a block that is not resident is
    left as it is.  The assertion on the dirty bit never fails, because
    [block_is_dirty] is never true. *)
Theorem unmap_block_drops_page (s : state) (nb b : Z) :
  fs_ready s nb -> 0 <= b < nb -> b <> 1 -> is_Some (bitmap_bit s b) ->
  (mapped s (block_va b) = false -> unmap_block b s = Ret tt s) /\
  (mapped s (block_va b) = true ->
   exists s', unmap_block b s = Ret tt s' /\
     mapped s' (block_va b) = false /\
     (forall va, VPN va <> VPN (block_va b) ->
        peek s' va = peek s va /\ mapped s' va = mapped s va) /\
     disk s' = disk s /\ ide_log s' = ide_log s).
Proof.
  intros Hready Hb Hb1 Hbit. split.
  - intros Hm. destruct Hready as ((Hs & _) & _).
    unfold unmap_block.
    step_with (block_is_mapped_run s nb b Hs (proj2 Hb)). rewrite Hm. reflexivity.
  - intros Hm. eexists.
    split; [apply (unmap_block_exact s nb b Hready Hb Hb1 Hbit Hm)|].
    split; [unfold mapped; simpl; rewrite lookup_delete_eq; reflexivity|].
    split; [|split; reflexivity].
    intros va Hva. apply (peek_set_pages_ne s _ 0).
    intros m. apply lookup_delete_ne. congruence.
Qed.

(** The state after [read_block] on a block that is in use and not resident,
    when the kernel has a page left. *)
Lemma read_block_load_exact (s : state) (nb b : Z) (pg : list Z) (k : list (list Z)) :
  fs_loaded s nb -> 0 <= b < nb ->
  bitmap s = 0 \/ bitmap_bit s b = Some false ->
  mapped s (block_va b) = false -> kfree s = pg :: k ->
  read_block b s = Ret (0, block_va b, 1)
    (set_pages <[VPN (block_va b) :=
                   (Z.lor PTE_V PTE_R,
                    default zero_page (disk s !! wrap32 (b * SECT2BLK)))]>
       (set_kfree k (set_pages <[VPN (block_va b) := (Z.lor PTE_V PTE_R, pg)]> s))).
Proof.
  intros [Hs Hnb] [Hb0 Hb] Hfree Hm Hk.
  destruct (block_va_in_window b nb Hnb (conj Hb0 Hb)) as (_ & Hu & Hz & _).
  unfold read_block. step.
  assert (Hbad : (if super s =? 0 then ret false
                  else nb ← s_nblocks; ret (nb <=? b)) s = Ret false s).
  { destruct Hs as [Hsup Hn]. apply Z.eqb_neq in Hsup. rewrite Hsup.
    step_with (proj2 (s_nblocks_Ret s s nb) (conj Hn eq_refl)).
    apply Z.leb_gt in Hb. rewrite Hb. reflexivity. }
  step_with Hbad. step.
  assert (Hfr : (if bitmap s =? 0 then ret 0 else block_is_free b) s = Ret 0 s).
  { destruct (bitmap s =? 0) eqn:Eb; [reflexivity|].
    destruct Hfree as [E|Hbit]; [apply Z.eqb_neq in Eb; contradiction|].
    apply (block_is_free_run s nb b false Hs Hb Hbit). }
  step_with Hfr. change (negb (0 =? 0)) with false. cbv iota.
  step_with (diskaddr_run s nb b Hs Hb).
  step_with (block_is_mapped_run s nb b Hs Hb). rewrite Hm.
  change (negb (0 =? 0)) with false. cbv iota.
  unfold syscall_mem_alloc. rewrite perm_V_R, perm_V_R_COW.
  apply Z.leb_gt in Hu. rewrite Hu. simpl.
  unfold bind, get, modify, ret, ide_read. rewrite Hk. simpl.
  rewrite lookup_insert_eq. reflexivity.
Qed.

(** [read_block] refuses a block number from the block count on and, once
    the bitmap is loaded, a free block; on a block that is resident and in
    use it answers with its address, [isnew] = 0 and the state unchanged. *)
Theorem read_block_guards (s : state) (nb b : Z) :
  fs_loaded s nb -> 0 <= b ->
  (nb <= b -> read_block b s = Panic) /\
  (b < nb -> bitmap s <> 0 -> bitmap_bit s b = Some true ->
   read_block b s = Panic) /\
  (b < nb -> bitmap s = 0 \/ bitmap_bit s b = Some false ->
   mapped s (block_va b) = true ->
   read_block b s = Ret (0, DISKMAP + b * BY2BLK, 0) s).
Proof.
  intros Hl Hb0. pose proof Hl as [Hs Hnb].
  assert (Hbad' : (if super s =? 0 then ret false
                  else nb ← s_nblocks; ret (nb <=? b)) s = Ret (nb <=? b) s).
  { destruct Hs as [Hsup Hn]. apply Z.eqb_neq in Hsup. rewrite Hsup.
    rewrite (bind_run _ _ s s nb (proj2 (s_nblocks_Ret s s nb) (conj Hn eq_refl))).
    reflexivity. }
  split; [|split].
  - intros Hb. unfold read_block. step. step_with Hbad'.
    apply Z.leb_le in Hb. rewrite Hb. reflexivity.
  - intros Hb Hbm Hbit. unfold read_block. step. step_with Hbad'.
    apply Z.leb_gt in Hb. rewrite Hb. step.
    apply Z.eqb_neq in Hbm. rewrite Hbm. apply Z.leb_gt in Hb.
    step_with (block_is_free_run s nb b true Hs Hb Hbit). reflexivity.
  - intros Hb Hfree Hm.
    destruct (block_va_in_window b nb Hnb (conj Hb0 Hb)) as (E & _).
    rewrite <- E. apply (read_block_resident s nb b Hl (conj Hb0 Hb) Hfree Hm).
Qed.

(** [read_block] on a block that is in use and not resident, when the kernel
    has a page left: the block is resident afterwards, [isnew] is 1, its page
    holds what the disk holds under the first sector of the block, and no
    other page and no sector has changed. *)
Theorem read_block_loads (s : state) (nb b : Z) (pg : list Z) (k : list (list Z)) :
  fs_loaded s nb -> 0 <= b < nb ->
  bitmap s = 0 \/ bitmap_bit s b = Some false ->
  mapped s (block_va b) = false -> kfree s = pg :: k ->
  exists s', read_block b s = Ret (0, DISKMAP + b * BY2BLK, 1) s' /\
    mapped s' (block_va b) = true /\
    (forall va, VPN va = VPN (block_va b) ->
       peek s' va
       = wrap32 <$> default zero_page (disk s !! wrap32 (b * SECT2BLK)) !! word_ix va) /\
    (forall va, VPN va <> VPN (block_va b) ->
       peek s' va = peek s va /\ mapped s' va = mapped s va) /\
    kfree s' = k /\ disk s' = disk s /\ ide_log s' = ide_log s.
Proof.
  intros Hl Hb Hfree Hm Hk.
  destruct (block_va_in_window b nb (proj2 Hl) Hb) as (E & _).
  rewrite <- E. eexists.
  split; [apply (read_block_load_exact s nb b pg k Hl Hb Hfree Hm Hk)|].
  split; [unfold mapped; simpl; rewrite lookup_insert_eq, perm_V_R; reflexivity|].
  split; [intros va Hva; unfold peek; simpl; rewrite Hva, lookup_insert_eq;
          reflexivity|].
  split; [|simpl; auto].
  intros va Hva. unfold peek, mapped. simpl.
  rewrite !lookup_insert_ne by congruence. auto.
Qed.

(** Writing a resident block out, dropping it from the cache and reading it
    again brings back the words it held: [write_block] and [read_block] use
    the same sectors and the same address for a block. *)
Theorem write_unmap_read_round_trip (s : state) (nb b perm : Z) (ws pg : list Z)
    (k : list (list Z)) :
  fs_ready s nb -> data_block nb b -> bitmap_bit s b = Some false ->
  pages s !! VPN (block_va b) = Some (perm, ws) -> Z.land perm PTE_V <> 0 ->
  kfree s = pg :: k ->
  exists s',
    (write_block b;; unmap_block b;; read_block b)%fs s
      = Ret (0, block_va b, 1) s' /\
    pages s' !! VPN (block_va b) = Some (Z.lor PTE_V PTE_R, ws) /\
    disk s' !! wrap32 (b * SECT2BLK) = Some ws /\
    (forall va, VPN va <> VPN (block_va b) -> peek s' va = peek s va).
Proof.
  intros Hready Hdata Hbit Hpg Hv Hk.
  pose proof Hready as ((Hs & Hnb) & Esup & Ebm & Hnb1).
  assert (Hb : 0 <= b < nb) by fs_arith.
  assert (Hb1 : b <> 1) by fs_arith.
  destruct (block_va_in_window b nb Hnb Hb) as (_ & _ & _ & _ & Hvb).
  destruct (fs_ready_addrs s nb b Hready Hb) as (_ & _ & HvA & _ & _ & HvN & Hlt).
  pose proof (write_block_exact s nb b perm ws (conj Hs Hnb) Hb Hpg Hv) as Hw.
  set (s1 := set_pages <[VPN (block_va b) :=
              (Z.lor (Z.lor PTE_V PTE_R) PTE_LIBRARY, ws)]>
              (set_disk (wrap32 (b * SECT2BLK)) ws s)) in *.
  assert (Hother : forall va, VPN va <> VPN (block_va b) -> peek s1 va = peek s va).
  { intros va Hva. unfold s1, peek. simpl. rewrite lookup_insert_ne by congruence.
    reflexivity. }
  assert (Hr1 : fs_ready s1 nb).
  { split; [split; [split|exact Hnb]|exact (conj Esup (conj Ebm Hnb1))].
    - apply Hs.
    - change (super s1) with (super s). rewrite Hother; [apply Hs|].
      rewrite HvN, Hvb. fs_arith. }
  assert (Hbit1 : bitmap_bit s1 b = Some false).
  { unfold bitmap_bit. change (bitmap s1) with (bitmap s). fold (bitmap_va s b).
    rewrite Hother; [exact Hbit|]. rewrite HvA, Hvb. fs_arith. }
  assert (Hm1 : mapped s1 (block_va b) = true).
  { unfold s1, mapped. simpl. rewrite lookup_insert_eq, perm_V_R_L. reflexivity. }
  pose proof (unmap_block_exact s1 nb b Hr1 Hb Hb1 (ex_intro _ _ Hbit1) Hm1) as Hu.
  set (s2 := set_pages (delete (VPN (block_va b))) s1) in *.
  assert (Hother2 : forall va, VPN va <> VPN (block_va b) -> peek s2 va = peek s va).
  { intros va Hva. rewrite <- Hother by exact Hva. unfold s2, peek. simpl.
    rewrite lookup_delete_ne by congruence. reflexivity. }
  assert (Hl2 : fs_loaded s2 nb).
  { split; [split|exact Hnb]; [apply Hs|].
    change (super s2) with (super s). rewrite Hother2; [apply Hs|].
    rewrite HvN, Hvb. fs_arith. }
  assert (Hbit2 : bitmap_bit s2 b = Some false).
  { unfold bitmap_bit. change (bitmap s2) with (bitmap s). fold (bitmap_va s b).
    rewrite Hother2; [exact Hbit|]. rewrite HvA, Hvb. fs_arith. }
  assert (Hm2 : mapped s2 (block_va b) = false).
  { unfold s2, mapped. simpl. rewrite lookup_delete_eq. reflexivity. }
  pose proof (read_block_load_exact s2 nb b pg k Hl2 Hb (or_intror Hbit2) Hm2 Hk) as Hr.
  eexists. split.
  { step_with Hw. step_with Hu. exact Hr. }
  split; [|split].
  - simpl. rewrite lookup_insert_eq, lookup_insert_eq. reflexivity.
  - simpl. rewrite lookup_insert_eq. reflexivity.
  - intros va Hva. rewrite <- Hother2 by exact Hva. unfold peek. simpl.
    rewrite !lookup_insert_ne by congruence. reflexivity.
Qed.

(** ** The block index of a file *)

Lemma errno_invalid : E_INVAL <> E_NOT_FOUND.
Proof.
  pose proof errno_distinct as N.
  rewrite !NoDup_cons, !not_elem_of_cons in N. intuition congruence.
Qed.

(** A file has [NINDIRECT] slots and no more: from block [NINDIRECT] on, the
    walk, the mapping, the fetch and the clearing of a block all answer
    [-E_INVAL] and change nothing, and so does [file_dirty] from offset
    [MAXFILESIZE] on. *)
Theorem file_layer_rejects_large_filebno
    (s : state) (f filebno ptr0 d0 blk0 alloc offset : Z) :
  NINDIRECT <= filebno -> MAXFILESIZE <= offset ->
  file_block_walk f filebno ptr0 alloc s = Ret (- E_INVAL, ptr0) s /\
  file_map_block f filebno d0 alloc s = Ret (- E_INVAL, d0) s /\
  file_get_block f filebno blk0 s = Ret (- E_INVAL, blk0) s /\
  file_clear_block f filebno s = Ret (- E_INVAL) s /\
  file_dirty f offset s = Ret (- E_INVAL) s.
Proof.
  intros Hbno Hoff. pose proof errno_pos as (Hinv & _). pose proof errno_invalid.
  assert (Hneg : (- E_INVAL <? 0) = true) by (apply Z.ltb_lt; lia).
  assert (Hwalk : forall bno p0 a, NINDIRECT <= bno ->
            file_block_walk f bno p0 a s = Ret (- E_INVAL, p0) s).
  { intros bno p0 a Hb. unfold file_block_walk.
    destruct (bno <? NDIRECT) eqn:E1; [apply Z.ltb_lt in E1; fs_arith|].
    destruct (bno <? NINDIRECT) eqn:E2; [apply Z.ltb_lt in E2; lia|].
    reflexivity. }
  assert (Hmap : forall bno d a, NINDIRECT <= bno ->
            file_map_block f bno d a s = Ret (- E_INVAL, d) s).
  { intros bno d a Hb. unfold file_map_block.
    step_with (Hwalk bno 0 a Hb). rewrite Hneg. reflexivity. }
  assert (Hget : forall bno b0, NINDIRECT <= bno ->
            file_get_block f bno b0 s = Ret (- E_INVAL, b0) s).
  { intros bno b0 Hb. unfold file_get_block.
    step_with (Hmap bno 0 1 Hb). rewrite Hneg. reflexivity. }
  split; [apply Hwalk, Hbno|]. split; [apply Hmap, Hbno|].
  split; [apply Hget, Hbno|]. split.
  - unfold file_clear_block. step_with (Hwalk filebno 0 0 Hbno). rewrite Hneg.
    replace (- E_INVAL =? - E_NOT_FOUND) with false; [reflexivity|].
    symmetry. apply Z.eqb_neq. lia.
  - unfold file_dirty. rewrite (bind_run _ _ s s (- E_INVAL, 0)).
    + cbv beta iota. rewrite Hneg. reflexivity.
    + apply Hget. unfold MAXFILESIZE in Hoff. fs_arith.
Qed.

(** The walk to a slot that exists, whatever [alloc] asks for. *)
Lemma file_block_walk_slot_any (s : state) (nb f bf off ind bno ptr0 alloc : Z) :
  fs_ready s nb -> file_at nb f bf off -> 0 <= bno < NINDIRECT ->
  peek s (f_indirect f) = Some ind ->
  (NDIRECT <= bno -> ind <> 0 /\ indirect_ok s nb bf ind) ->
  file_block_walk f bno ptr0 alloc s = Ret (0, slot_va f ind bno) s.
Proof.
  intros Hready Hfile Hbno Hind Hok. unfold file_block_walk, slot_va.
  destruct (bno <? NDIRECT) eqn:Ed; [reflexivity|]. apply Z.ltb_ge in Ed.
  destruct (bno <? NINDIRECT) eqn:Ei; [|apply Z.ltb_ge in Ei; lia].
  destruct (Hok Ed) as (Hi0 & Hdata & Hne & Hm & Hbit).
  pose proof Hready as ((Hs & Hnb) & _).
  assert (Hib : 0 <= ind < nb) by fs_arith.
  destruct (block_va_in_window ind nb Hnb Hib) as (_ & _ & Hz & _).
  destruct (block_va_page ind nb bno Hnb Hib Hbno) as (Ew & _).
  step_with (load32_run _ _ _ Hind).
  apply Z.eqb_neq in Hi0. rewrite Hi0.
  step_with (load32_run _ _ _ Hind).
  step_with (read_block_resident s nb ind (conj Hs Hnb) Hib (or_intror Hbit) Hm).
  simpl. apply Z.eqb_neq in Hz. rewrite Hz, Ew. reflexivity.
Qed.

Lemma file_map_block_lookup_run (s : state) (nb f bf off ind bno d0 blk0 : Z) :
  fs_ready s nb -> file_at nb f bf off -> 0 <= bno < NINDIRECT ->
  peek s (f_indirect f) = Some ind ->
  (NDIRECT <= bno -> ind = 0 ->
   file_map_block f bno d0 0 s = Ret (- E_NOT_FOUND, d0) s) /\
  (forall v,
     (NDIRECT <= bno -> ind <> 0 /\ indirect_ok s nb bf ind) ->
     peek s (slot_va f ind bno) = Some v ->
     file_map_block f bno d0 0 s
       = Ret (if v =? 0 then (- E_NOT_FOUND, d0) else (0, v)) s /\
     (v <> 0 -> v < nb -> bitmap_bit s v = Some false ->
      mapped s (block_va v) = true ->
      file_get_block f bno blk0 s = Ret (0, DISKMAP + v * BY2BLK) s)).
Proof.
  intros Hready Hfile Hbno Hind. pose proof errno_pos as (_ & _ & _ & Hnf & _).
  assert (Hneg : (- E_NOT_FOUND <? 0) = true) by (apply Z.ltb_lt; lia).
  split.
  - intros Hb ->. unfold file_map_block, file_block_walk.
    destruct (bno <? NDIRECT) eqn:E1; [apply Z.ltb_lt in E1; lia|].
    destruct (bno <? NINDIRECT) eqn:E2; [|apply Z.ltb_ge in E2; lia].
    unfold bind at 1. unfold bind at 1. rewrite (load32_run _ _ _ Hind). simpl.
    unfold ret at 1. rewrite Hneg. reflexivity.
  - intros v Hok Hv.
    pose proof (file_block_walk_slot_any s nb f bf off ind bno 0) as Hwalk.
    assert (Hmap : forall d a, a = 0 \/ v <> 0 ->
              file_map_block f bno d a s
              = Ret (if v =? 0 then (- E_NOT_FOUND, d) else (0, v)) s).
    { intros d a Ha. unfold file_map_block.
      step_with (Hwalk a Hready Hfile Hbno Hind Hok).
      change (0 <? 0) with false. cbv iota.
      step_with (load32_run _ _ _ Hv).
      destruct (v =? 0) eqn:Ev.
      - destruct Ha as [->|Hv0]; [reflexivity|].
        apply Z.eqb_eq in Ev. contradiction.
      - step_with (load32_run _ _ _ Hv). reflexivity. }
    split; [apply Hmap; auto|].
    intros Hv0 Hvnb Hbit Hm.
    pose proof Hready as (Hl & _).
    pose proof (peek_range _ _ _ Hv) as Hvr.
    assert (Hvb : 0 <= v < nb) by lia.
    destruct (block_va_in_window v nb (proj2 Hl) Hvb) as (E & _).
    unfold file_get_block. step_with (Hmap 0 1 (or_intror Hv0)).
    apply Z.eqb_neq in Hv0. rewrite Hv0.
    change (0 <? 0) with false. cbv iota.
    step_with (read_block_resident s nb v Hl Hvb (or_intror Hbit) Hm).
    rewrite E. reflexivity.
Qed.

(** Looking a block of a file up without allocating.  A slot beyond the
    direct ones of a file without indirect block, or a slot that holds 0, is
    [-E_NOT_FOUND] with [*diskbno] untouched; a slot that holds a block
    number yields it; nothing changes.  [file_get_block] on such a slot,
    when the block is in use and resident, is the address of the block in
    the cache. *)
Theorem file_map_block_lookup (s : state) (nb f bf off ind bno d0 blk0 : Z) :
  fs_ready s nb -> file_at nb f bf off -> 0 <= bno < NINDIRECT ->
  peek s (f_indirect f) = Some ind ->
  (NDIRECT <= bno -> ind = 0 ->
   file_map_block f bno d0 0 s = Ret (- E_NOT_FOUND, d0) s) /\
  (forall v,
     (NDIRECT <= bno -> ind <> 0 /\ indirect_ok s nb bf ind) ->
     peek s (slot_va f ind bno) = Some v ->
     file_map_block f bno d0 0 s
       = Ret (if v =? 0 then (- E_NOT_FOUND, d0) else (0, v)) s /\
     (v <> 0 -> v < nb -> bitmap_bit s v = Some false ->
      mapped s (block_va v) = true ->
      file_get_block f bno blk0 s = Ret (0, DISKMAP + v * BY2BLK) s)).
Proof. exact (file_map_block_lookup_run s nb f bf off ind bno d0 blk0). Qed.

(** The page of a slot: that of the file record for a direct slot, that of
    the indirect block otherwise. *)
Lemma slot_vpn (s : state) (nb f bf off ind bno : Z) :
  fs_ready s nb -> file_at nb f bf off -> 0 <= bno < NINDIRECT ->
  (NDIRECT <= bno -> data_block nb ind) ->
  VPN (slot_va f ind bno) = VPN DISKMAP + (if bno <? NDIRECT then bf else ind).
Proof.
  intros Hready Hfile Hbno Hind. pose proof Hready as ((Hs & Hnb) & _).
  assert (H0 : 0 <= 0 < nb) by (destruct Hready as (_ & _ & _ & ?); fs_arith).
  unfold slot_va. destruct (bno <? NDIRECT) eqn:Ed.
  - apply Z.ltb_lt in Ed. unfold f_direct. rewrite <- Z.add_assoc.
    destruct (file_at_field s nb f bf off (F_DIRECT + 4 * bno) 0 Hready Hfile)
      as (E & _ & Hv & _); [unfold F_DIRECT; fs_arith
                           | unfold F_DIRECT, MAXNAMELEN; lia_div | exact H0 |].
    rewrite E. exact Hv.
  - apply Z.ltb_ge in Ed. specialize (Hind Ed).
    assert (Hi0 : 0 <= ind < nb) by fs_arith.
    destruct (block_va_page ind nb bno Hnb Hi0 Hbno) as (_ & Hv & _).
    destruct (block_va_in_window ind nb Hnb Hi0) as (_ & _ & _ & _ & Hvi).
    congruence.
Qed.

(** Fetching a block that a file does not have yet: [file_get_block] takes
    the first free block [b], records it in the slot and answers with the
    address of [b] in the cache.  The block is not read from the disk: its
    page holds what it held if it was resident, and otherwise what the page
    handed out by the kernel holds.  No other slot of the file changes. *)
Theorem file_get_block_allocates (s : state) (nb f bf off ind bno blk0 b : Z) :
  fs_ready s nb -> file_at nb f bf off -> 0 <= bno < NINDIRECT ->
  peek s (f_indirect f) = Some ind ->
  (NDIRECT <= bno -> ind <> 0 /\ indirect_ok s nb bf ind) ->
  peek s (slot_va f ind bno) = Some 0 ->
  first_free s b -> data_block nb b -> bitmap_bit s bf = Some false ->
  mapped s (block_va (b / BIT2BLK)) = true ->
  mapped s (block_va b) = true \/ kfree s <> [] ->
  exists s',
    file_get_block f bno blk0 s = Ret (0, block_va b) s' /\
    peek s' (slot_va f ind bno) = Some b /\
    bitmap_bit s' b = Some false /\ mapped s' (block_va b) = true /\
    (forall i, 0 <= i < NINDIRECT ->
       peek s' (block_va b + 4 * i)
       = if mapped s (block_va b) then peek s (block_va b + 4 * i)
         else fresh_word s (block_va b + 4 * i)) /\
    (forall bno', 0 <= bno' < NINDIRECT -> bno' <> bno ->
       (NDIRECT <= bno' -> ind <> 0 /\ indirect_ok s nb bf ind) ->
       peek s' (slot_va f ind bno') = peek s (slot_va f ind bno')).
Proof.
  intros Hready Hfile Hbno Hind Hok Hslot Hfree Hdata Hbfbit Hmw Hres.
  pose proof Hready as ((Hs & Hnb) & Esup & Ebm & Hnb1).
  assert (Hb : 0 <= b < nb) by fs_arith.
  pose proof Hfree as (_ & Hbtrue & _).
  assert (Hbbf : b <> bf) by (intros ->; congruence).
  assert (Hdi : forall bno', NDIRECT <= bno' ->
            (NDIRECT <= bno' -> ind <> 0 /\ indirect_ok s nb bf ind) ->
            data_block nb ind /\ ind <> bf /\ ind <> b).
  { intros bno' H1 H2. destruct (H2 H1) as (_ & Hd & Hne & _ & Hib).
    split; [exact Hd|]. split; [exact Hne|]. intros ->. congruence. }
  assert (Hslots : forall bno', 0 <= bno' < NINDIRECT ->
            (NDIRECT <= bno' -> ind <> 0 /\ indirect_ok s nb bf ind) ->
            aligned (slot_va f ind bno') /\
            slot_va f ind bno' <> bitmap_va s b /\
            slot_va f ind bno' <> super s + S_NBLOCKS /\
            VPN (slot_va f ind bno') <> VPN (block_va b)).
  { intros bno' Hb' Hok'.
    destruct (slot_addr s nb f bf off ind bno' b Hready Hfile Hb') as (Ha & HnA & HnN & _);
      [intros H1; destruct (Hdi bno' H1 Hok') as (? & ? & _); auto | exact Hb |].
    split; [exact Ha|]. split; [exact HnA|]. split; [exact HnN|].
    rewrite (slot_vpn s nb f bf off ind bno' Hready Hfile Hb');
      [|intros H1; apply (Hdi bno' H1 Hok')].
    destruct (block_va_in_window b nb Hnb Hb) as (_ & _ & _ & _ & ->).
    destruct (bno' <? NDIRECT) eqn:Ed; [lia|].
    apply Z.ltb_ge in Ed. destruct (Hdi bno' Ed Hok') as (_ & _ & ?). lia. }
  destruct (Hslots bno Hbno Hok) as (Ha & HnA & HnN & Hvp).
  destruct (fs_ready_addrs s nb b Hready Hb)
    as (EA & HaA & HvA & EN & HaN & HvN & Hbmblk).
  destruct (block_va_in_window b nb Hnb Hb) as (Eb & Hub & Hzb & Hab & Hvb).
  destruct (alloc_block_run s nb b Hready Hfree Hdata Hmw Hres)
    as (s1 & Hrun & Hs1 & Hb1 & Hm1 & Hbit1 & Hother & Hpage).
  assert (Hslot1 : peek s1 (slot_va f ind bno) = Some 0)
    by (rewrite Hother; assumption).
  destruct (poke_is_Some s1 (slot_va f ind bno) b 0 Hslot1) as [s2 Hpoke].
  pose proof (poke_fields _ _ _ _ Hpoke) as (Hs2 & Hb2 & _).
  assert (HvNb : VPN (super s + S_NBLOCKS) <> VPN (block_va b))
    by (rewrite HvN, Hvb; fs_arith).
  assert (HNA : super s + S_NBLOCKS <> bitmap_va s b).
  { intros E. rewrite E in HvN. rewrite HvA in HvN. fs_arith. }
  assert (Hl2 : fs_loaded s2 nb).
  { split; [|exact Hnb]. split; [rewrite Hs2, Hs1; apply Hs|].
    rewrite Hs2, Hs1, (peek_poke_ne _ _ _ _ _ Hpoke), Hother; try assumption.
    - apply Hs.
    - congruence. }
  assert (Hbit2 : bitmap_bit s2 b = Some false).
  { unfold bitmap_bit in *. rewrite Hb2.
    rewrite (peek_poke_ne _ _ _ _ _ Hpoke); try assumption.
    - rewrite Hb1. fold (bitmap_va s b). exact HaA.
    - rewrite Hb1. fold (bitmap_va s b). congruence. }
  assert (Hm2 : mapped s2 (block_va b) = true)
    by (rewrite (mapped_poke _ _ _ _ _ Hpoke); exact Hm1).
  assert (Hwb : wrap32 b = b).
  { apply wrap32_small. pose proof diskmap_window. pose proof utop_32.
    pose proof diskmap_pos. fs_arith. }
  assert (Hslot2 : peek s2 (slot_va f ind bno) = Some b)
    by (rewrite (peek_poke_same _ _ _ _ Hpoke), Hwb; reflexivity).
  exists s2. split; [|split; [exact Hslot2|split; [exact Hbit2|split; [exact Hm2|]]]].
  - unfold file_get_block, file_map_block.
    rewrite (bind_run _ _ s s2 (0, b)).
    + cbv beta iota. change (0 <? 0) with false. cbv iota.
      step_with (read_block_resident s2 nb b Hl2 Hb (or_intror Hbit2) Hm2).
      reflexivity.
    + step_with (file_block_walk_slot_any s nb f bf off ind bno 0 1
                   Hready Hfile Hbno Hind Hok).
      change (0 <? 0) with false. cbv iota.
      step_with (load32_run _ _ _ Hslot). rewrite Z.eqb_refl.
      change (1 =? 0) with false. cbv iota.
      step_with Hrun.
      destruct (b <? 0) eqn:E3; [apply Z.ltb_lt in E3; lia|].
      step_with (proj2 (store32_Ret _ _ tt _ _) Hpoke).
      step_with (load32_run _ _ _ Hslot2). reflexivity.
  - split.
    + intros i Hi.
      destruct (block_va_page b nb i Hnb Hb Hi) as (_ & Hv & _).
      rewrite (peek_poke_page _ _ _ _ _ Hpoke) by congruence.
      apply Hpage, Hv.
    + intros bno' Hb' Hne Hok'.
      destruct (Hslots bno' Hb' Hok') as (Ha' & HnA' & _ & Hvp').
      rewrite (peek_poke_ne _ _ _ _ _ Hpoke); try assumption.
      * apply Hother; assumption.
      * destruct (slot_addr s nb f bf off ind bno b Hready Hfile Hbno)
          as (_ & _ & _ & _ & _ & Hinj);
          [intros H1; destruct (Hdi bno H1 Hok) as (? & ? & _); auto | exact Hb |].
        apply Hinj; try assumption.
        intros H1. destruct (Hdi bno' H1 Hok') as (? & ? & _). auto.
Qed.

(** ** Nothing but [write_block] writes to the disk *)

Lemma block_is_free_Ret (b r : Z) (s s' : state) :
  block_is_free b s = Ret r s' -> s' = s.
Proof.
  unfold block_is_free, bitmap_word. intros H.
  mbind H as sup s1 Hsup. apply get_Ret in Hsup as [-> ->].
  mbind H as out s1 Hout.
  assert (s1 = s) as ->.
  { destruct (super s =? 0); [apply ret_Ret in Hout as [_ ->]; reflexivity|].
    mbind Hout as n s2 Hn. apply s_nblocks_Ret in Hn as [_ ->].
    apply ret_Ret in Hout as [_ ->]. reflexivity. }
  destruct out; [apply ret_Ret in H as [_ ->]; reflexivity|].
  mbind H as a s1 Ha. mbind Ha as bm s2 Hbm. apply get_Ret in Hbm as [-> ->].
  apply ret_Ret in Ha as [-> ->].
  mbind H as w s1 Hw. apply load32_Ret in Hw as [_ ->].
  destruct (negb _); apply ret_Ret in H as [_ ->]; reflexivity.
Qed.

Lemma read_block_disk (b : Z) (x : Z * Z * Z) (s s' : state) :
  read_block b s = Ret x s' -> disk s' = disk s /\ ide_log s' = ide_log s.
Proof.
  unfold read_block. intros H.
  mbind H as sup s1 Hsup. apply get_Ret in Hsup as [-> ->].
  mbind H as bad s1 Hbad.
  assert (s1 = s) as ->.
  { destruct (super s =? 0); [apply ret_Ret in Hbad as [_ ->]; reflexivity|].
    mbind Hbad as n s2 Hn. apply s_nblocks_Ret in Hn as [_ ->].
    apply ret_Ret in Hbad as [_ ->]. reflexivity. }
  destruct bad; [discriminate|].
  mbind H as bm s1 Hbm. apply get_Ret in Hbm as [-> ->].
  mbind H as fr s1 Hfr.
  assert (s1 = s) as ->.
  { destruct (bitmap s =? 0); [apply ret_Ret in Hfr as [_ ->]; reflexivity|].
    apply block_is_free_Ret in Hfr. exact Hfr. }
  destruct (negb _); [discriminate|].
  mbind H as va s1 Hva. apply diskaddr_Ret in Hva as [-> ->].
  mbind H as m s1 Hm. apply block_is_mapped_Ret in Hm as [-> ->].
  destruct (negb _); [apply ret_Ret in H as [_ ->]; auto|].
  mbind H as r1 s1 Ha. mbind H as u s2 Hrd. apply ret_Ret in H as [_ ->].
  assert (disk s1 = disk s /\ ide_log s1 = ide_log s) as [E1 E2].
  { apply syscall_mem_alloc_Ret in Ha as [[_ ->]|[_ (pg & k & _ & ->)]]; auto. }
  unfold ide_read in Hrd.
  destruct (pages s1 !! VPN (block_va b)) as [[perm ws]|]; [|discriminate].
  injection Hrd as Hrd. subst s2. simpl. auto.
Qed.

Lemma file_map_block_noalloc_disk (f bno d0 : Z) (x : Z * Z) (s s' : state) :
  file_map_block f bno d0 0 s = Ret x s' ->
  disk s' = disk s /\ ide_log s' = ide_log s.
Proof.
  unfold file_map_block. intros H.
  mbind H as wk s1 Hwk. destruct wk as [r ptr].
  assert (disk s1 = disk s /\ ide_log s1 = ide_log s) as [E1 E2].
  { unfold file_block_walk in Hwk.
    destruct (bno <? NDIRECT); [apply ret_Ret in Hwk as [_ ->]; auto|].
    destruct (bno <? NINDIRECT); [|apply ret_Ret in Hwk as [_ ->]; auto].
    mbind Hwk as ind s2 Hind. apply load32_Ret in Hind as [_ ->].
    destruct (ind =? 0).
    { change (0 =? 0) with true in Hwk. cbv iota in Hwk.
      apply ret_Ret in Hwk as [_ ->]. auto. }
    mbind Hwk as ind' s2 Hind'. apply load32_Ret in Hind' as [_ ->].
    mbind Hwk as rb s2 Hrb. apply read_block_disk in Hrb as [E1 E2].
    destruct rb as [[r0 blk] isnew].
    destruct (r0 <? 0); [apply ret_Ret in Hwk as [_ ->]; auto|].
    destruct (blk =? 0); [discriminate|].
    apply ret_Ret in Hwk as [_ ->]. auto. }
  destruct (r <? 0); [apply ret_Ret in H as [_ ->]; auto|].
  mbind H as v s2 Hv. apply load32_Ret in Hv as [_ ->].
  destruct (v =? 0).
  { change (0 =? 0) with true in H. cbv iota in H.
    apply ret_Ret in H as [_ ->]. auto. }
  mbind H as v' s2 Hv'. apply load32_Ret in Hv' as [_ ->].
  apply ret_Ret in H as [_ ->]. auto.
Qed.

Lemma file_flush_loop_disk (n : nat) (f bno d : Z) (u : unit) (s s' : state) :
  file_flush_loop n f bno d s = Ret u s' ->
  disk s' = disk s /\ ide_log s' = ide_log s.
Proof.
  revert s bno d. induction n as [|n IH]; intros s bno d H; simpl in H.
  - apply ret_Ret in H as [_ ->]. auto.
  - mbind H as mp s1 Hmp. apply file_map_block_noalloc_disk in Hmp as [E1 E2].
    destruct mp as [r d'].
    destruct (r <? 0); [apply ret_Ret in H as [_ ->]; auto|].
    mbind H as dirty s2 Hd. apply block_is_dirty_Ret in Hd as [-> ->].
    mbind H as x s2 Hx. apply ret_Ret in Hx as [_ ->].
    apply IH in H as [E3 E4]. split; congruence.
Qed.

Lemma file_flush_disk (f : Z) (u : unit) (s s' : state) :
  file_flush f s = Ret u s' -> disk s' = disk s /\ ide_log s' = ide_log s.
Proof.
  unfold file_flush. intros H. mbind H as sz s1 Hsz.
  apply load32_Ret in Hsz as [_ ->].
  apply file_flush_loop_disk in H. exact H.
Qed.

(** [file_flush] and [file_close] never write to the disk: when they return,
    every sector holds what it held and [ide_write] has not run.  The only
    guard of [write_block] in [file_flush] is [block_is_dirty], which is
    never true. *)
Theorem file_close_writes_nothing (f : Z) (u : unit) (s s' : state) :
  (file_flush f s = Ret u s' -> disk s' = disk s /\ ide_log s' = ide_log s) /\
  (file_close f s = Ret u s' -> disk s' = disk s /\ ide_log s' = ide_log s).
Proof.
  split; [apply file_flush_disk|].
  unfold file_close. intros H.
  mbind H as x s1 Hfl. apply file_flush_disk in Hfl as [E1 E2].
  mbind H as d s2 Hd. apply load32_Ret in Hd as [_ ->].
  destruct (negb _).
  - mbind H as d' s2 Hd'. apply load32_Ret in Hd' as [_ ->].
    apply file_flush_disk in H as [E3 E4]. split; congruence.
  - apply ret_Ret in H as [_ ->]. auto.
Qed.

(** ** Growing a file *)

(** [file_set_size] with a size that is not below the current one, on a file
    that has no directory recorded: the size field is set and nothing else
    changes; no block is allocated, whatever the new size, which may exceed
    [MAXFILESIZE]. *)
Theorem file_set_size_grows (s : state) (f sz newsize : Z) :
  0 <= f -> f mod 4 = 0 -> f + BY2FILE <= 2 ^ 32 ->
  peek s (f_size f) = Some sz -> sz <= newsize < 2 ^ 32 ->
  peek s (f_dir f) = Some 0 ->
  exists s', file_set_size f newsize s = Ret 0 s' /\
    peek s' (f_size f) = Some newsize /\
    (forall va, aligned va -> va <> f_size f -> peek s' va = peek s va) /\
    (forall va, mapped s' va = mapped s va) /\
    disk s' = disk s /\ kfree s' = kfree s.
Proof.
  intros Hf0 Hf4 Hfend Hsz Hnew Hdir.
  assert (Es : f_size f = f + F_SIZE)
    by (unfold f_size, F_SIZE in *; apply wrap32_small; fs_arith).
  assert (Ed : f_dir f = f + F_DIR)
    by (unfold f_dir, F_DIR in *; apply wrap32_small; fs_arith).
  assert (Has : aligned (f_size f))
    by (rewrite Es; unfold aligned, F_SIZE; fs_arith).
  assert (Had : aligned (f_dir f))
    by (rewrite Ed; unfold aligned, F_DIR; fs_arith).
  assert (Hne : f_dir f <> f_size f)
    by (rewrite Es, Ed; unfold F_SIZE, F_DIR; fs_arith).
  destruct (poke_is_Some s (f_size f) newsize sz Hsz) as [s' Hp].
  pose proof (poke_fields _ _ _ _ Hp) as (_ & _ & _ & Hd & _ & Hk).
  assert (Hdir' : peek s' (f_dir f) = Some 0)
    by (rewrite (peek_poke_ne _ _ _ _ _ Hp); assumption).
  exists s'. split; [|split; [|split; [|split; [|split]]]]; try assumption.
  - unfold file_set_size. step_with (load32_run _ _ _ Hsz).
    destruct (newsize <? sz) eqn:E; [apply Z.ltb_lt in E; lia|].
    step. step_with (proj2 (store32_Ret _ _ tt _ _) Hp).
    step_with (load32_run _ _ _ Hdir'). reflexivity.
  - rewrite (peek_poke_same _ _ _ _ Hp). f_equal. apply wrap32_small.
    pose proof (peek_range _ _ _ Hsz). lia.
  - intros va Ha Hva. apply (peek_poke_ne _ _ _ _ _ Hp); assumption.
  - intros va. apply (mapped_poke _ _ _ _ _ Hp).
Qed.

(** ** The path of the root *)

(** A path that holds nothing but slashes names the root directory:
    [walk_path] answers 0 with the root record as the file and no parent
    directory, [file_open] opens the root and [file_create] answers
    [-E_FILE_EXISTS]; nothing changes. *)
Theorem root_path_resolves (s : state) (path lastelem : list Z) (file0 : Z) :
  cur (skip_slash path) = 0 ->
  walk_path path lastelem s
    = Ret (0, 0, wrap32 (super s + S_ROOT), lastelem) s /\
  file_open path file0 s = Ret (0, wrap32 (super s + S_ROOT)) s /\
  file_create path file0 s = Ret (- E_FILE_EXISTS, file0) s.
Proof.
  intros Hcur.
  assert (Hwalk : forall le,
            walk_path path le s = Ret (0, 0, wrap32 (super s + S_ROOT), le) s).
  { intros le. unfold walk_path. step. simpl. rewrite Hcur. reflexivity. }
  split; [apply Hwalk|]. split.
  - unfold file_open. step_with (Hwalk []). reflexivity.
  - unfold file_create. step_with (Hwalk []). reflexivity.
Qed.

(** ** The kernel's [sys_mem_map] and what [fork] leaves alone *)

Lemma envid2env_Ret (envid : Z) (checkperm : bool) (r : Z) (pe : option Z)
    (k k' : kernel) :
  envid2env envid checkperm k = KRet (r, pe) k' ->
  k' = k /\
  (r = 0 /\ pe = Some (if envid =? 0 then curenv k else ENVX envid) \/
   r = - E_BAD_ENV /\ pe = None /\ envid <> 0).
Proof.
  unfold envid2env. intros H.
  destruct (envid =? 0) eqn:E0; [injection H as <- <- <-; auto|].
  apply Z.eqb_neq in E0.
  destruct (envs k !! ENVX envid) as [e|]; [|discriminate].
  destruct (envs k !! curenv k) as [cur|]; [|discriminate].
  destruct (_ || _); [injection H as <- <- <-; auto|].
  destruct (_ && _); injection H as <- <- <-; auto.
Qed.

Lemma errno_bad_env_pos : 0 < E_BAD_ENV.
Proof. pose proof errno_range as F. rewrite !Forall_cons in F. intuition lia. Qed.

Lemma page_insert_Ret (i pa pn perm r : Z) (k k' : kernel) :
  page_insert i pa pn perm k = KRet r k' ->
  exists e, envs k !! i = Some e /\
    ((r = - E_NO_MEM /\ k' = k /\ env_pgdir e !! PDX pn = None /\ nfree k <= 0) \/
     (r = 0 /\ (is_Some (env_pgdir e !! PDX pn) \/ 0 < nfree k) /\
      k' = mkKernel (<[i := set_pgdir e (pgdir_map (env_pgdir e) pa pn perm)]> (envs k))
             (curenv k)
             (if bool_decide (is_Some (env_pgdir e !! PDX pn))
              then nfree k else nfree k - 1))).
Proof.
  unfold page_insert. intros H.
  destruct (envs k !! i) as [e|]; [|discriminate]. exists e. split; [reflexivity|].
  destruct (bool_decide (is_Some (env_pgdir e !! PDX pn))) eqn:E.
  - apply bool_decide_eq_true in E. injection H as <- <-. right. auto.
  - apply bool_decide_eq_false in E.
    destruct (0 <? nfree k) eqn:Ef.
    + apply Z.ltb_lt in Ef. injection H as <- <-. right. auto.
    + apply Z.ltb_ge in Ef. injection H as <- <-. left.
      repeat split; try assumption.
      destruct (env_pgdir e !! PDX pn) eqn:Ept; [|reflexivity].
      exfalso. apply E. eauto.
Qed.

(** The outcome of [sys_mem_map]: with a bad environment id it returns 1,
    and without a free page for a page table that the destination lacks it
    returns [-E_NO_MEM]; in both cases the kernel is unchanged.  Otherwise
    the destination environment, and no other, gets the physical page of the
    source entry at the destination page. *)
Lemma sys_mem_map_Ret (srcid srcva dstid dstva perm r : Z) (k k' : kernel) :
  sys_mem_map srcid srcva dstid dstva perm k = KRet r k' ->
  (r = 1 /\ k' = k) \/
  exists srcenv dstenv pte,
    let si := if srcid =? 0 then curenv k else ENVX srcid in
    let di := if dstid =? 0 then curenv k else ENVX dstid in
    let pn := PPN (ROUNDDOWN dstva BY2PG) in
    envs k !! si = Some srcenv /\ envs k !! di = Some dstenv /\
    pte_of (env_pgdir srcenv) (PPN (ROUNDDOWN srcva BY2PG)) = Some pte /\
    ((r = - E_NO_MEM /\ k' = k /\ env_pgdir dstenv !! PDX pn = None /\
      nfree k <= 0) \/
     (r = 0 /\ (is_Some (env_pgdir dstenv !! PDX pn) \/ 0 < nfree k) /\
      k' = mkKernel
             (<[di := set_pgdir dstenv
                        (pgdir_map (env_pgdir dstenv) (PTE_ADDR pte) pn perm)]>
                (envs k))
             (curenv k)
             (if bool_decide (is_Some (env_pgdir dstenv !! PDX pn))
              then nfree k else nfree k - 1))).
Proof.
  unfold sys_mem_map. intros H. pose proof errno_bad_env_pos.
  destruct (_ || _); [discriminate|].
  unfold kbind at 1 in H.
  destruct (envid2env srcid false k) as [[r1 p1] k1| |] eqn:E1; try discriminate.
  apply envid2env_Ret in E1 as [-> [[-> ->]|(-> & -> & _)]].
  2:{ cbn [fst] in H. destruct (- E_BAD_ENV <? 0) eqn:E; [|apply Z.ltb_ge in E; lia].
      injection H as <- <-. auto. }
  cbn [fst snd] in H. change (0 <? 0) with false in H. cbv iota in H.
  unfold kbind at 1 in H.
  destruct (envid2env dstid false k) as [[r2 p2] k2| |] eqn:E2; try discriminate.
  apply envid2env_Ret in E2 as [-> [[-> ->]|(-> & -> & _)]].
  2:{ cbn [fst] in H. destruct (- E_BAD_ENV <? 0) eqn:E; [|apply Z.ltb_ge in E; lia].
      injection H as <- <-. auto. }
  cbn [fst snd] in H. change (0 <? 0) with false in H. cbv iota in H.
  unfold kbind at 1 in H. unfold pgdir_walk in H.
  destruct (envs k !! (if srcid =? 0 then _ else _)) as [srcenv|] eqn:Es;
    [|discriminate].
  cbn [fst snd] in H. change (0 <? 0) with false in H. cbv iota in H.
  destruct (pte_of _ _) as [pte|] eqn:Ep; [|discriminate].
  unfold kbind in H.
  destruct (page_insert _ _ _ _ k) as [r0 k0| |] eqn:Ei; try discriminate.
  assert (Hr : r0 = r /\ k0 = k').
  { destruct (r0 <? 0); injection H as <- <-; auto. }
  destruct Hr as [-> ->].
  apply page_insert_Ret in Ei as (dstenv & Hd & Hcase).
  right. exists srcenv, dstenv, pte. cbv zeta. auto.
Qed.


Lemma pte_of_insert_default (pd : gmap Z (gmap Z Z)) (pa pn perm pn' : Z) :
  pn' <> pn ->
  default 0 (pte_of (pgdir_map pd pa pn perm) pn') = default 0 (pte_of pd pn').
Proof.
  unfold pte_of, pgdir_map. intros Hne.
  destruct (decide (PDX pn' = PDX pn)) as [E|E].
  - rewrite E, lookup_insert_eq.
    assert (Hptx : PTX pn' <> PTX pn).
    { intros E'. apply Hne. rewrite (pn_split pn), (pn_split pn'). congruence. }
    destruct (pd !! PDX pn) as [pt|]; simpl.
    + rewrite lookup_insert_ne by congruence. reflexivity.
    + rewrite lookup_insert_ne by congruence. reflexivity.
  - rewrite lookup_insert_ne by congruence. reflexivity.
Qed.

Lemma fork_frame_refl (bound newenvid : Z) (k : kernel) :
  fork_frame bound newenvid k k.
Proof.
  split; [reflexivity|]. split; [reflexivity|].
  intros j e He. exists e. auto.
Qed.

Lemma fork_frame_trans (bound newenvid : Z) (k1 k2 k3 : kernel) :
  fork_frame bound newenvid k1 k2 -> fork_frame bound newenvid k2 k3 ->
  fork_frame bound newenvid k1 k3.
Proof.
  intros (Hc1 & Ho1 & He1) (Hc2 & Ho2 & He2).
  split; [congruence|]. split.
  - intros j H1 H2. rewrite Ho2 by congruence. apply Ho1; assumption.
  - intros j e He. destruct (He1 j e He) as (e2 & He2' & A1 & A2 & A3 & A4).
    destruct (He2 j e2 He2') as (e3 & He3 & B1 & B2 & B3 & B4).
    exists e3. split; [exact He3|]. repeat split; try congruence.
    intros pn Hpn. rewrite B4, A4 by exact Hpn. reflexivity.
Qed.

(** One [sys_mem_map] issued by [duppage] for a page below [bound]. *)
Lemma sys_mem_map_frame (bound newenvid dstid srcva dstva perm r : Z) (k k' : kernel) :
  dstid = 0 \/ dstid = newenvid ->
  0 <= PPN (ROUNDDOWN dstva BY2PG) < bound ->
  sys_mem_map 0 srcva dstid dstva perm k = KRet r k' ->
  fork_frame bound newenvid k k'.
Proof.
  intros Hdst Hpn H.
  apply sys_mem_map_Ret in H
    as [[-> ->]|(srcenv & dstenv & pte & Hs & Hd & Hp & Hcase)];
    [apply fork_frame_refl|].
  destruct Hcase as [(_ & -> & _)|(-> & _ & ->)]; [apply fork_frame_refl|].
  cbv zeta in *. set (di := if dstid =? 0 then curenv k else ENVX dstid) in *.
  assert (Hdi : di = curenv k \/ di = ENVX newenvid).
  { unfold di. destruct Hdst as [->| ->]; [left; reflexivity|].
    destruct (newenvid =? 0); auto. }
  split; [reflexivity|]. split.
  - intros j H1 H2. simpl. apply lookup_insert_ne. destruct Hdi; congruence.
  - intros j e He. simpl. destruct (decide (j = di)) as [->|Hne].
    + rewrite lookup_insert_eq. eexists. split; [reflexivity|].
      assert (e = dstenv) as -> by congruence. simpl.
      repeat split. intros pn Hb. apply pte_of_insert_default. lia.
    + rewrite lookup_insert_ne by congruence. exists e. auto.
Qed.

Lemma duppage_frame (newenvid pn : Z) (u : unit) (k k' : kernel) :
  0 <= pn < PPN (USTACKTOP - BY2PG) ->
  duppage newenvid pn k = KRet u k' ->
  fork_frame (PPN (USTACKTOP - BY2PG)) newenvid k k'.
Proof.
  intros Hpn H. destruct (fork_bound pn Hpn) as [Hutop _].
  destruct (page_addr pn (proj1 Hpn) Hutop) as [Ew Er].
  unfold duppage, kbind in H. rewrite Ew in H.
  destruct (vpt pn k) as [pte k0| |] eqn:Ev; try discriminate.
  assert (k0 = k) as ->.
  { unfold vpt in Ev. destruct (envs k !! curenv k); [|discriminate].
    destruct (pte_of _ _); [|discriminate]. injection Ev as _ <-. reflexivity. }
  destruct (sys_mem_map 0 _ newenvid _ _ k) as [r1 k1| |] eqn:E1; try discriminate.
  destruct (sys_mem_map 0 _ 0 _ _ k1) as [r2 k2| |] eqn:E2; try discriminate.
  injection H as _ <-.
  apply (fork_frame_trans _ _ k k1 k2).
  - eapply sys_mem_map_frame; [right; reflexivity | | exact E1]. rewrite Er. exact Hpn.
  - eapply sys_mem_map_frame; [left; reflexivity | | exact E2]. rewrite Er. exact Hpn.
Qed.

Lemma fork_loop_frame (fuel : nat) (i newenvid : Z) (u : unit) (k k' : kernel) :
  0 <= i -> fork_loop fuel i newenvid k = KRet u k' ->
  fork_frame (PPN (USTACKTOP - BY2PG)) newenvid k k'.
Proof.
  revert i k. induction fuel as [|fuel IH]; intros i k Hi H; [discriminate|].
  simpl in H. destruct (i <? PPN (USTACKTOP - BY2PG)) eqn:Eb.
  2:{ inversion H; subst. apply fork_frame_refl. }
  apply Z.ltb_lt in Eb.
  assert (Hw : forall d, 0 <= wrap32 (i + d)) by (intros d; apply wrap32_range).
  unfold kbind at 1 in H.
  destruct (vpd_valid (PDX i) k) as [v k0| |] eqn:Ev; try discriminate.
  assert (k0 = k) as ->.
  { unfold vpd_valid in Ev. destruct (envs k !! curenv k); [|discriminate].
    injection Ev as _ <-. reflexivity. }
  destruct (negb v); [apply (IH _ _ (Hw 1024) H)|].
  unfold kbind at 1 in H.
  destruct (vpt i k) as [pte k0| |] eqn:Ep; try discriminate.
  assert (k0 = k) as ->.
  { unfold vpt in Ep. destruct (envs k !! curenv k); [|discriminate].
    destruct (pte_of _ _); [|discriminate]. injection Ep as _ <-. reflexivity. }
  unfold kbind at 1 in H.
  destruct (negb (Z.land pte PTE_V =? 0)).
  - destruct (duppage newenvid i k) as [u1 k1| |] eqn:Ed; try discriminate.
    apply (fork_frame_trans _ _ k k1 k').
    + apply (duppage_frame newenvid i u1 k k1 (conj Hi Eb) Ed).
    + apply (IH _ _ (Hw 1) H).
  - apply (IH _ _ (Hw 1) H).
Qed.

(** What [fork] never does while it duplicates the address space: whenever
    its loop returns, the running environment is the same, no environment
    other than the parent and the child has changed, no environment has
    changed its id, parent id or status, and no page-table entry for the
    page just below [USTACKTOP] or for any page above it -- the top stack
    page, the exception stack, the kernel's part -- differs from what it
    was (a missing entry reads as 0). *)
Theorem fork_leaves_the_rest (newenvid : Z) (k k' : kernel) :
  fork_pages newenvid k = KRet tt k' ->
  curenv k' = curenv k /\
  (forall j, j <> curenv k -> j <> ENVX newenvid -> envs k' !! j = envs k !! j) /\
  forall j e, envs k !! j = Some e ->
    exists e', envs k' !! j = Some e' /\
      env_id e' = env_id e /\ env_parent_id e' = env_parent_id e /\
      env_status e' = env_status e /\
      forall pn, pn < 0 \/ PPN (USTACKTOP - BY2PG) <= pn ->
        default 0 (pte_of (env_pgdir e') pn) = default 0 (pte_of (env_pgdir e) pn).
Proof.
  intros H. unfold fork_pages in H.
  eapply (fork_loop_frame _ 0 newenvid tt k k'); [lia | exact H].
Qed.

(** ** [user_bzero] and [user_bcopy] *)

(** Stores change neither which pages are mapped nor their permission. *)
Lemma poke_perm (s s' : state) (a v vp : Z) :
  poke s a v = Some s' -> fst <$> pages s' !! vp = fst <$> pages s !! vp.
Proof.
  unfold poke. destruct (pages s !! VPN a) as [[perm ws]|] eqn:E; [|discriminate].
  case_decide; [|discriminate]. intros [= <-]. simpl.
  destruct (decide (vp = VPN a)) as [->|Hne].
  - rewrite lookup_insert_eq, E. reflexivity.
  - rewrite lookup_insert_ne by congruence. reflexivity.
Qed.

Lemma writable_fst (s s' : state) (a : Z) :
  fst <$> pages s' !! VPN a = fst <$> pages s !! VPN a ->
  writable s' a = writable s a.
Proof.
  unfold writable. destruct (pages s' !! VPN a) as [[p1 w1]|],
    (pages s !! VPN a) as [[p2 w2]|]; simpl; intros H; try discriminate;
    [injection H as ->|]; reflexivity.
Qed.

Lemma writable_poke (s s' : state) (a v va : Z) :
  poke s a v = Some s' -> writable s' va = writable s va.
Proof. intros H. apply writable_fst, (poke_perm _ _ _ _ _ H). Qed.

Lemma writable_store8 (va b a : Z) (u : unit) (s s' : state) :
  store8 va b s = Ret u s' -> writable s' a = writable s a.
Proof.
  intros H. apply store8_Ret in H as (w & _ & Hp). apply (writable_poke _ _ _ _ _ Hp).
Qed.

Lemma ustore8_run (va b : Z) (u : unit) (s s' : state) :
  writable s va = true -> store8 va b s = Ret u s' -> ustore8 va b s = Ret u s'.
Proof. unfold ustore8. intros -> H. exact H. Qed.

Lemma ustore32_run (va v : Z) (u : unit) (s s' : state) :
  writable s va = true -> store32 va v s = Ret u s' -> ustore32 va v s = Ret u s'.
Proof. unfold ustore32. intros -> H. exact H. Qed.

Lemma ustore8_Ret (va b : Z) (u : unit) (s s' : state) :
  ustore8 va b s = Ret u s' -> writable s va = true /\ store8 va b s = Ret u s'.
Proof. unfold ustore8. destruct (writable s va); [auto|discriminate]. Qed.

Lemma ustore32_Ret (va v : Z) (u : unit) (s s' : state) :
  ustore32 va v s = Ret u s' -> writable s va = true /\ store32 va v s = Ret u s'.
Proof. unfold ustore32. destruct (writable s va); [auto|discriminate]. Qed.

Lemma peek8_store8_is_Some (va b va' : Z) (u : unit) (s s' : state) :
  store8 va b s = Ret u s' -> is_Some (peek8 s va') -> is_Some (peek8 s' va').
Proof.
  intros H Hs. rewrite (peek8_store8 _ _ _ _ _ _ H).
  destruct (decide (va' = va)); [eauto | exact Hs].
Qed.

Lemma bzero_loop_run (n : nat) (fuel : nat) (p : Z) (s : state) :
  (n < fuel)%nat -> 0 <= p -> p + Z.of_nat n <= 2 ^ 32 -> Z.of_nat n < 2 ^ 31 ->
  (forall i, 0 <= i < Z.of_nat n -> is_Some (peek8 s (p + i))) ->
  (forall i, 0 <= i < Z.of_nat n -> writable s (p + i) = true) ->
  exists s', bzero_loop fuel p (Z.of_nat n) s = Ret tt s' /\
    (forall i, 0 <= i < Z.of_nat n -> peek8 s' (p + i) = Some 0) /\
    (forall a, a < p \/ p + Z.of_nat n <= a -> peek8 s' a = peek8 s a) /\
    (forall va, aligned va -> va + 3 < p \/ p + Z.of_nat n <= va ->
       peek s' va = peek s va).
Proof.
  revert fuel p s.
  induction n as [|n IH]; intros fuel p s Hfuel Hp Hend Hint Hmap Hwr.
  - destruct fuel as [|fuel]; [lia|]. simpl. exists s.
    split; [reflexivity|]. split; [intros i Hi; lia|]. auto.
  - destruct fuel as [|fuel]; [lia|]. cbn [bzero_loop].
    destruct (Z.of_nat (S n) - 1 <? - 2 ^ 31) eqn:E1; [apply Z.ltb_lt in E1; lia|].
    destruct (0 <=? Z.of_nat (S n) - 1) eqn:E2; [|apply Z.leb_gt in E2; lia].
    destruct (store8_run p 0 s) as [s1 Hst].
    { replace p with (p + 0) by lia. apply Hmap. lia. }
    assert (Hust : ustore8 p 0 s = Ret tt s1).
    { apply ustore8_run; [|exact Hst]. replace p with (p + 0) by lia.
      apply Hwr. lia. }
    replace (Z.of_nat (S n) - 1) with (Z.of_nat n) by lia.
    destruct (Z.eq_dec (Z.of_nat n) 0) as [En|En].
    + (* the last byte *)
      assert (n = 0)%nat as -> by lia. exists s1. split.
      { step_with Hust. destruct fuel as [|fuel]; [lia|]. reflexivity. }
      split; [|split].
      * intros i Hi. assert (i = 0) as -> by lia. rewrite Z.add_0_r.
        rewrite (peek8_store8 _ _ _ _ _ _ Hst). rewrite decide_True by reflexivity.
        reflexivity.
      * intros a Ha. rewrite (peek8_store8 _ _ _ _ _ _ Hst).
        rewrite decide_False by lia. reflexivity.
      * intros va Hva Hr. apply (peek_store8 _ _ _ _ _ _ Hst Hva).
        destruct (byte_addr p) as [_ Hk]. lia.
    + assert (Ew : wrap32 (p + 1) = p + 1) by (apply wrap32_small; lia).
      destruct (IH fuel (p + 1) s1) as (s' & Hrun & Hz & Hout & Hw); try lia.
      { intros i Hi. apply (peek8_store8_is_Some _ _ _ _ _ _ Hst).
        replace (p + 1 + i) with (p + (1 + i)) by lia. apply Hmap. lia. }
      { intros i Hi. rewrite (writable_store8 _ _ _ _ _ _ Hst).
        replace (p + 1 + i) with (p + (1 + i)) by lia. apply Hwr. lia. }
      exists s'. split; [step_with Hust; rewrite Ew; exact Hrun|].
      split; [|split].
      * intros i Hi. destruct (Z.eq_dec i 0) as [->|Hi0].
        -- rewrite Z.add_0_r, Hout by lia.
           rewrite (peek8_store8 _ _ _ _ _ _ Hst).
           rewrite decide_True by reflexivity. reflexivity.
        -- replace (p + i) with (p + 1 + (i - 1)) by lia. apply Hz. lia.
      * intros a Ha. rewrite Hout by lia.
        rewrite (peek8_store8 _ _ _ _ _ _ Hst). rewrite decide_False by lia.
        reflexivity.
      * intros va Hva Hr. rewrite Hw by (try exact Hva; lia).
        apply (peek_store8 _ _ _ _ _ _ Hst Hva).
        destruct (byte_addr p) as [_ Hk]. lia.
Qed.

(** [user_bzero] clears [n] bytes from [v] on when [n] is below 2^31 and
    the bytes lie in pages that are mapped valid and write-enabled, and it
    leaves every other byte as it is.  From 2^31 + 1 on, the count is
    negative as an [int] and nothing at all is cleared. *)
Theorem user_bzero_clears (s : state) (v n : Z) :
  0 <= v -> 0 <= n < 2 ^ 32 ->
  (n < 2 ^ 31 -> v + n <= 2 ^ 32 ->
   (forall i, 0 <= i < n -> is_Some (peek8 s (v + i))) ->
   (forall i, 0 <= i < n -> writable s (v + i) = true) ->
   exists s', user_bzero v n s = Ret tt s' /\
     (forall i, 0 <= i < n -> peek8 s' (v + i) = Some 0) /\
     (forall a, a < v \/ v + n <= a -> peek8 s' a = peek8 s a)) /\
  (2 ^ 31 < n -> user_bzero v n s = Ret tt s).
Proof.
  intros Hv Hn. split.
  - intros Hint Hend Hmap Hwr. unfold user_bzero.
    destruct (n <? 2 ^ 31) eqn:E; [|apply Z.ltb_ge in E; lia].
    destruct (bzero_loop_run (Z.to_nat n) (S (Z.to_nat n)) v s)
      as (s' & Hrun & Hz & Hout & _); try lia.
    { intros i Hi. apply Hmap. lia. }
    { intros i Hi. apply Hwr. lia. }
    rewrite Z2Nat.id in * by lia. eauto.
  - intros Hbig. unfold user_bzero.
    destruct (n <? 2 ^ 31) eqn:E; [apply Z.ltb_lt in E; lia|].
    cbn [bzero_loop].
    destruct (n - 2 ^ 32 - 1 <? - 2 ^ 31) eqn:E1; [apply Z.ltb_lt in E1; lia|].
    destruct (0 <=? n - 2 ^ 32 - 1) eqn:E2; [apply Z.leb_le in E2; lia|].
    reflexivity.
Qed.

Lemma peek_poke_is_Some (s s' : state) (a v va : Z) :
  poke s a v = Some s' -> is_Some (peek s va) -> is_Some (peek s' va).
Proof.
  unfold poke, peek. destruct (pages s !! VPN a) as [[perm ws]|] eqn:E; [|discriminate].
  case_decide; [|discriminate]. intros [= <-]. simpl.
  destruct (decide (VPN va = VPN a)) as [Ev|Ev].
  - rewrite Ev, lookup_insert_eq, E. intros [x Hx].
    destruct (ws !! word_ix va) as [y|] eqn:Ey; [|discriminate].
    apply lookup_lt_Some in Ey.
    destruct (<[word_ix a := wrap32 v]> ws !! word_ix va) as [z|] eqn:Ez; [eauto|].
    apply lookup_ge_None in Ez. rewrite length_insert in Ez. lia.
  - rewrite lookup_insert_ne by congruence. auto.
Qed.

Lemma load8_run (s : state) (va c : Z) : peek8 s va = Some c -> load8 va s = Ret c s.
Proof.
  unfold peek8, load8. intros H.
  destruct (peek s (va - va mod 4)) as [w|] eqn:Hw; [|discriminate].
  injection H as <-. step_with (load32_run _ _ _ Hw). reflexivity.
Qed.

Lemma byte_of_byte (w k : Z) : Z.land (byte_of w k) 255 = byte_of w k.
Proof. unfold byte_of. rewrite <- Z.land_assoc. reflexivity. Qed.

Lemma peek8_byte (s : state) (va c : Z) : peek8 s va = Some c -> Z.land c 255 = c.
Proof.
  unfold peek8. destruct (peek s (va - va mod 4)); [|discriminate].
  intros [= <-]. apply byte_of_byte.
Qed.

(** The bytes of a word, and the bytes of two words that are equal. *)
Lemma peek8_same_word (s s' : state) (a a' j : Z) :
  aligned a -> aligned a' -> 0 <= j < 4 ->
  peek s' a' = peek s a -> peek8 s' (a' + j) = peek8 s (a + j).
Proof.
  unfold aligned, peek8. intros Ha Ha' Hj E.
  replace ((a' + j) mod 4) with j by lia_div.
  replace ((a + j) mod 4) with j by lia_div.
  replace (a' + j - j) with a' by lia. replace (a + j - j) with a by lia.
  rewrite E. reflexivity.
Qed.

(** The word loop of [user_bcopy] over [k] words. *)
Lemma bcopy_words_run (k : nat) (fuel : nat) (src dst max : Z) (s : state) :
  (k < fuel)%nat -> aligned src -> aligned dst ->
  0 <= src < 2 ^ 32 -> 0 <= dst ->
  src + 4 * Z.of_nat k <= 2 ^ 32 ->
  dst + 4 * Z.of_nat k <= max -> max < dst + 4 * Z.of_nat k + 4 -> max < 2 ^ 32 ->
  (src + 4 * Z.of_nat k <= dst \/ dst + 4 * Z.of_nat k <= src) ->
  (forall i, 0 <= i < Z.of_nat k ->
     is_Some (peek s (src + 4 * i)) /\ is_Some (peek s (dst + 4 * i))) ->
  (forall i, 0 <= i < Z.of_nat k -> writable s (dst + 4 * i) = true) ->
  exists s',
    bcopy_words fuel src dst max s
      = Ret (wrap32 (src + 4 * Z.of_nat k), dst + 4 * Z.of_nat k) s' /\
    (forall i, 0 <= i < Z.of_nat k -> peek s' (dst + 4 * i) = peek s (src + 4 * i)) /\
    (forall va, aligned va -> va < dst \/ dst + 4 * Z.of_nat k <= va ->
       peek s' va = peek s va) /\
    (forall va, is_Some (peek s va) -> is_Some (peek s' va)).
Proof.
  revert fuel src dst s.
  induction k as [|k IH]; intros fuel src dst s Hfuel Hsa Hda Hs Hd Hsend Hdend
    Hmax Hm32 Hdisj Hmap Hwr.
  - destruct fuel as [|fuel]; [lia|]. cbn [bcopy_words].
    assert (Ew : wrap32 (dst + 3) = dst + 3).
    { apply wrap32_small. unfold aligned in Hda. lia_div. }
    rewrite Ew. destruct (dst + 3 <? max) eqn:E; [apply Z.ltb_lt in E; lia|].
    exists s. rewrite !Z.mul_0_r, !Z.add_0_r, (wrap32_small src) by lia.
    split; [reflexivity|]. split; [intros i Hi; lia|]. auto.
  - destruct fuel as [|fuel]; [lia|]. cbn [bcopy_words].
    assert (Ew : wrap32 (dst + 3) = dst + 3) by (apply wrap32_small; lia).
    rewrite Ew. destruct (dst + 3 <? max) eqn:E; [|apply Z.ltb_ge in E; lia].
    destruct (Hmap 0) as [[w Hw] [w' Hw']]; [lia|].
    rewrite Z.mul_0_r, Z.add_0_r in Hw, Hw'.
    destruct (poke_is_Some s dst w w' Hw') as [s1 Hp].
    assert (Hne : src <> dst) by lia.
    assert (Ewd : wrap32 (dst + 4) = dst + 4) by (apply wrap32_small; lia).
    assert (Hsa' : aligned (wrap32 (src + 4))).
    { unfold aligned, wrap32 in *. lia_div. }
    assert (Hda' : aligned (dst + 4)) by (unfold aligned in *; lia_div).
    assert (Hrest : Z.of_nat k = 0 \/ wrap32 (src + 4) = src + 4).
    { destruct (Z.eq_dec (Z.of_nat k) 0); [auto|right].
      apply wrap32_small. lia. }
    pose proof (wrap32_range (src + 4)) as Hwr32.
    assert (G1 : wrap32 (src + 4) + 4 * Z.of_nat k <= 2 ^ 32)
      by (destruct Hrest as [E0 | E0]; rewrite E0; lia).
    assert (G2 : wrap32 (src + 4) + 4 * Z.of_nat k <= dst + 4 \/
                 dst + 4 + 4 * Z.of_nat k <= wrap32 (src + 4))
      by (destruct Hrest as [E0 | E0]; rewrite E0; lia).
    assert (G3 : forall i, 0 <= i < Z.of_nat k ->
              is_Some (peek s1 (wrap32 (src + 4) + 4 * i)) /\
              is_Some (peek s1 (dst + 4 + 4 * i))).
    { intros i Hi. destruct Hrest as [E0 | ->]; [lia|].
      destruct (Hmap (i + 1)) as [H1 H2]; [lia|].
      replace (src + 4 * (i + 1)) with (src + 4 + 4 * i) in H1 by lia.
      replace (dst + 4 * (i + 1)) with (dst + 4 + 4 * i) in H2 by lia.
      split; apply (peek_poke_is_Some _ _ _ _ _ Hp); assumption. }
    assert (G4 : forall i, 0 <= i < Z.of_nat k -> writable s1 (dst + 4 + 4 * i) = true).
    { intros i Hi. rewrite (writable_poke _ _ _ _ _ Hp).
      replace (dst + 4 + 4 * i) with (dst + 4 * (i + 1)) by lia. apply Hwr. lia. }
    assert (Hust : ustore32 dst w s = Ret tt s1).
    { apply ustore32_run; [|apply store32_Ret; exact Hp].
      replace dst with (dst + 4 * 0) by lia. apply Hwr. lia. }
    destruct (IH fuel (wrap32 (src + 4)) (dst + 4) s1 ltac:(lia) Hsa' Hda' Hwr32
                ltac:(lia) G1 ltac:(lia) ltac:(lia) Hm32 G2 G3 G4)
      as (s' & Hrun & Hcopy & Hframe & Hsome).
    exists s'. split; [|split; [|split]].
    + step_with (load32_run _ _ _ Hw).
      step_with Hust. rewrite Ewd, Hrun.
      f_equal. f_equal.
      * destruct Hrest as [E0 | ->].
        -- rewrite E0, Z.mul_0_r, Z.add_0_r, wrap32_idem. f_equal. lia.
        -- f_equal. lia.
      * lia.
    + intros i Hi. destruct (Z.eq_dec i 0) as [->|Hi0].
      * rewrite !Z.mul_0_r, !Z.add_0_r. rewrite Hframe by (try assumption; lia).
        rewrite (peek_poke_same _ _ _ _ Hp), Hw. f_equal.
        apply wrap32_small. apply (peek_range _ _ _ Hw).
      * destruct Hrest as [E0 | Es]; [lia|]. rewrite Es in Hcopy.
        replace (dst + 4 * i) with (dst + 4 + 4 * (i - 1)) by lia.
        rewrite Hcopy by lia.
        replace (src + 4 + 4 * (i - 1)) with (src + 4 * i) by lia.
        apply (peek_poke_ne _ _ _ _ _ Hp); try assumption; [|lia].
        unfold aligned in *. lia_div.
    + intros va Hva Hout. rewrite Hframe by (try assumption; lia).
      apply (peek_poke_ne _ _ _ _ _ Hp); try assumption. lia.
    + intros va Hva. apply Hsome. apply (peek_poke_is_Some _ _ _ _ _ Hp). exact Hva.
Qed.

(** The byte loop of [user_bcopy] over [m] bytes. *)
Lemma bcopy_bytes_run (m : nat) (fuel : nat) (src dst max : Z) (s : state) :
  (m < fuel)%nat -> 0 <= src < 2 ^ 32 -> 0 <= dst ->
  dst + Z.of_nat m = max -> max < 2 ^ 32 ->
  (Z.of_nat m = 0 \/ src + Z.of_nat m <= 2 ^ 32) ->
  (src + Z.of_nat m <= dst \/ dst + Z.of_nat m <= src) ->
  (forall i, 0 <= i < Z.of_nat m ->
     is_Some (peek8 s (src + i)) /\ is_Some (peek8 s (dst + i))) ->
  (forall i, 0 <= i < Z.of_nat m -> writable s (dst + i) = true) ->
  exists s', bcopy_bytes fuel src dst max s = Ret tt s' /\
    (forall i, 0 <= i < Z.of_nat m -> peek8 s' (dst + i) = peek8 s (src + i)) /\
    (forall a, a < dst \/ dst + Z.of_nat m <= a -> peek8 s' a = peek8 s a).
Proof.
  revert fuel src dst s.
  induction m as [|m IH];
    intros fuel src dst s Hfuel Hs Hd Hmax Hm32 Hsend Hdisj Hmap Hwr.
  - destruct fuel as [|fuel]; [lia|]. cbn [bcopy_bytes].
    destruct (dst <? max) eqn:E; [apply Z.ltb_lt in E; lia|].
    exists s. split; [reflexivity|]. split; [intros i Hi; lia|]. auto.
  - destruct fuel as [|fuel]; [lia|]. cbn [bcopy_bytes].
    destruct (dst <? max) eqn:E; [|apply Z.ltb_ge in E; lia].
    destruct (Hmap 0) as [[c Hc] Hd0]; [lia|]. rewrite Z.add_0_r in Hc, Hd0.
    destruct (store8_run dst c s Hd0) as [s1 Hst].
    assert (Ewd : wrap32 (dst + 1) = dst + 1) by (apply wrap32_small; lia).
    assert (Hrest : Z.of_nat m = 0 \/ wrap32 (src + 1) = src + 1).
    { destruct (Z.eq_dec (Z.of_nat m) 0); [auto|right].
      apply wrap32_small. lia. }
    pose proof (wrap32_range (src + 1)) as Hwr32.
    assert (G1 : Z.of_nat m = 0 \/ wrap32 (src + 1) + Z.of_nat m <= 2 ^ 32)
      by (destruct Hrest as [E0 | E0]; [auto | right; rewrite E0; lia]).
    assert (G2 : wrap32 (src + 1) + Z.of_nat m <= dst + 1 \/
                 dst + 1 + Z.of_nat m <= wrap32 (src + 1))
      by (destruct Hrest as [E0 | E0]; rewrite E0; lia).
    assert (G3 : forall i, 0 <= i < Z.of_nat m ->
              is_Some (peek8 s1 (wrap32 (src + 1) + i)) /\
              is_Some (peek8 s1 (dst + 1 + i))).
    { intros i Hi. destruct Hrest as [E0 | ->]; [lia|].
      destruct (Hmap (i + 1)) as [H1 H2]; [lia|].
      replace (src + (i + 1)) with (src + 1 + i) in H1 by lia.
      replace (dst + (i + 1)) with (dst + 1 + i) in H2 by lia.
      split; apply (peek8_store8_is_Some _ _ _ _ _ _ Hst); assumption. }
    assert (G4 : forall i, 0 <= i < Z.of_nat m -> writable s1 (dst + 1 + i) = true).
    { intros i Hi. rewrite (writable_store8 _ _ _ _ _ _ Hst).
      replace (dst + 1 + i) with (dst + (i + 1)) by lia. apply Hwr. lia. }
    assert (Hust : ustore8 dst c s = Ret tt s1).
    { apply ustore8_run; [|exact Hst]. replace dst with (dst + 0) by lia.
      apply Hwr. lia. }
    destruct (IH fuel (wrap32 (src + 1)) (dst + 1) s1 ltac:(lia) Hwr32 ltac:(lia)
                ltac:(lia) Hm32 G1 G2 G3 G4)
      as (s' & Hrun & Hcopy & Hframe).
    exists s'. split; [|split].
    + step_with (load8_run _ _ _ Hc). step_with Hust. rewrite Ewd. exact Hrun.
    + intros i Hi. destruct (Z.eq_dec i 0) as [->|Hi0].
      * rewrite !Z.add_0_r. rewrite Hframe by lia.
        rewrite (peek8_store8 _ _ _ _ _ _ Hst), decide_True by reflexivity.
        rewrite (peek8_byte _ _ _ Hc). symmetry. exact Hc.
      * destruct Hrest as [E0 | Es]; [lia|]. rewrite Es in Hcopy.
        replace (dst + i) with (dst + 1 + (i - 1)) by lia.
        rewrite Hcopy by lia.
        replace (src + 1 + (i - 1)) with (src + i) by lia.
        rewrite (peek8_store8 _ _ _ _ _ _ Hst), decide_False by lia. reflexivity.
    + intros a Ha. rewrite Hframe by lia.
      rewrite (peek8_store8 _ _ _ _ _ _ Hst), decide_False by lia. reflexivity.
Qed.

Lemma peek8_is_Some (s : state) (a : Z) :
  is_Some (peek8 s a) <-> is_Some (peek s (a - a mod 4)).
Proof.
  unfold peek8. destruct (peek s (a - a mod 4)); simpl; split; intros [x Hx];
    try discriminate; eauto.
Qed.

(** Bytes whose word a run of word stores did not touch. *)
Lemma peek8_frame (s s' : state) (lo hi a : Z) :
  aligned lo -> aligned hi ->
  (forall va, aligned va -> va < lo \/ hi <= va -> peek s' va = peek s va) ->
  a < lo \/ hi <= a -> peek8 s' a = peek8 s a.
Proof.
  intros Hlo Hhi Hframe Ha. unfold peek8. rewrite Hframe; [reflexivity| |].
  - apply byte_addr.
  - unfold aligned in *. lia_div.
Qed.

Lemma bcopy_words_perm (fuel : nat) (src dst max : Z) (x : Z * Z) (s s' : state) :
  bcopy_words fuel src dst max s = Ret x s' ->
  (forall vp, fst <$> pages s' !! vp = fst <$> pages s !! vp) /\ kfree s' = kfree s.
Proof.
  revert src dst s. induction fuel as [|fuel IH]; intros src dst s H; [discriminate|].
  cbn [bcopy_words] in H.
  destruct (wrap32 (dst + 3) <? max); [|apply ret_Ret in H as [_ ->]; auto].
  mbind H as w s1 Hw. apply load32_Ret in Hw as [_ ->].
  mbind H as u s1 Hst. apply ustore32_Ret in Hst as [_ Hst]. apply store32_Ret in Hst.
  apply IH in H as [H1 H2].
  pose proof (poke_fields _ _ _ _ Hst) as (_ & _ & _ & _ & _ & Hk).
  split; [|congruence].
  intros vp. rewrite H1. apply (poke_perm _ _ _ _ _ Hst).
Qed.

Lemma bcopy_bytes_perm (fuel : nat) (src dst max : Z) (u : unit) (s s' : state) :
  bcopy_bytes fuel src dst max s = Ret u s' ->
  (forall vp, fst <$> pages s' !! vp = fst <$> pages s !! vp) /\ kfree s' = kfree s.
Proof.
  revert src dst s. induction fuel as [|fuel IH]; intros src dst s H; [discriminate|].
  cbn [bcopy_bytes] in H.
  destruct (dst <? max); [|apply ret_Ret in H as [_ ->]; auto].
  mbind H as c s1 Hc. unfold load8 in Hc. mbind Hc as w s2 Hw.
  apply load32_Ret in Hw as [_ ->]. apply ret_Ret in Hc as [_ ->].
  mbind H as u1 s1 Hst. apply ustore8_Ret in Hst as [_ Hst].
  apply store8_Ret in Hst as (w1 & _ & Hp).
  apply IH in H as [H1 H2].
  pose proof (poke_fields _ _ _ _ Hp) as (_ & _ & _ & _ & _ & Hk).
  split; [|congruence].
  intros vp. rewrite H1. apply (poke_perm _ _ _ _ _ Hp).
Qed.

(** [user_bcopy] between two ranges that do not overlap and do not reach
    the top of the address space. *)
Lemma user_bcopy_run (s : state) (src dst len : Z) :
  0 <= src < 2 ^ 32 -> 0 <= dst -> 0 <= len ->
  src + len <= 2 ^ 32 -> dst + len < 2 ^ 32 ->
  (src + len <= dst \/ dst + len <= src) ->
  (forall i, 0 <= i < len ->
     is_Some (peek8 s (src + i)) /\ is_Some (peek8 s (dst + i))) ->
  (forall i, 0 <= i < len -> writable s (dst + i) = true) ->
  exists s', user_bcopy src dst len s = Ret tt s' /\
    (forall i, 0 <= i < len -> peek8 s' (dst + i) = peek8 s (src + i)) /\
    (forall a, a < dst \/ dst + len <= a -> peek8 s' a = peek8 s a) /\
    (aligned src -> aligned dst -> len mod 4 = 0 ->
     (forall i, 0 <= i < len / 4 -> peek s' (dst + 4 * i) = peek s (src + 4 * i)) /\
     (forall va, aligned va -> va < dst \/ dst + len <= va ->
        peek s' va = peek s va)).
Proof.
  intros Hs Hd Hlen Hsend Hdend Hdisj Hmap Hwr.
  assert (Emax : wrap32 (dst + len) = dst + len) by (apply wrap32_small; lia).
  unfold user_bcopy. rewrite Emax.
  destruct ((src mod 4 =? 0) && (dst mod 4 =? 0)) eqn:Eal.
  - (* both aligned: words, then at most three bytes *)
    apply andb_true_iff in Eal as [Es Ed].
    apply Z.eqb_eq in Es, Ed. fold (aligned src) in Es. fold (aligned dst) in Ed.
    set (k := len / 4). set (m := len mod 4).
    assert (Hk : 0 <= k /\ 0 <= m < 4 /\ len = 4 * k + m) by (unfold k, m; lia_div).
    destruct Hk as (Hk0 & Hm & Elen).
    assert (Hwords : forall i, 0 <= i < Z.of_nat (Z.to_nat k) ->
              is_Some (peek s (src + 4 * i)) /\ is_Some (peek s (dst + 4 * i))).
    { intros i Hi. destruct (Hmap (4 * i)) as [H1 H2]; [lia|].
      apply peek8_is_Some in H1, H2. unfold aligned in *.
      replace (src + 4 * i - (src + 4 * i) mod 4) with (src + 4 * i) in H1 by lia_div.
      replace (dst + 4 * i - (dst + 4 * i) mod 4) with (dst + 4 * i) in H2 by lia_div.
      auto. }
    destruct (bcopy_words_run (Z.to_nat k) (S (Z.to_nat len)) src dst (dst + len) s)
      as (s1 & Hrun1 & Hcopy1 & Hframe1 & Hsome1); try assumption; try lia.
    { intros i Hi. apply Hwr. lia. }
    assert (Hwr1 : forall a, writable s1 a = writable s a).
    { intros a. apply writable_fst, (bcopy_words_perm _ _ _ _ _ _ _ Hrun1). }
    rewrite Z2Nat.id in * by lia.
    assert (Hal : aligned (dst + 4 * k)) by (unfold aligned in *; lia_div).
    assert (Hb1 : forall a, a < dst \/ dst + 4 * k <= a -> peek8 s1 a = peek8 s a).
    { intros a. apply (peek8_frame s s1 dst (dst + 4 * k)); assumption. }
    assert (Hw1 : forall i, 0 <= i < 4 * k -> peek8 s1 (dst + i) = peek8 s (src + i)).
    { intros i Hi.
      replace (dst + i) with (dst + 4 * (i / 4) + i mod 4) by lia_div.
      replace (src + i) with (src + 4 * (i / 4) + i mod 4) by lia_div.
      apply peek8_same_word; [unfold aligned in *; lia_div
                             | unfold aligned in *; lia_div | lia_div |].
      apply Hcopy1. lia_div. }
    step_with Hrun1.
    destruct (Z.eq_dec m 0) as [Em0|Em0].
    + (* no byte is left *)
      exists s1. split.
      { cbn [bcopy_bytes].
        destruct (dst + 4 * k <? dst + len) eqn:E; [apply Z.ltb_lt in E; lia|].
        reflexivity. }
      split; [intros i Hi; apply Hw1; lia|].
      split; [intros a Ha; apply Hb1; lia|].
      intros _ _ _. split.
      * intros i Hi. apply Hcopy1. exact Hi.
      * intros va Hva Hout. apply Hframe1; [exact Hva | lia].
    + assert (Esrc : wrap32 (src + 4 * k) = src + 4 * k) by (apply wrap32_small; lia).
      rewrite Esrc.
      destruct (bcopy_bytes_run (Z.to_nat m) (S (Z.to_nat len)) (src + 4 * k)
                  (dst + 4 * k) (dst + len) s1)
        as (s' & Hrun2 & Hcopy2 & Hframe2); try lia.
      { intros i Hi. destruct (Hmap (4 * k + i)) as [H1 H2]; [lia|].
        rewrite !Z.add_assoc in H1, H2.
        split; apply peek8_is_Some, Hsome1, peek8_is_Some; assumption. }
      { intros i Hi. rewrite Hwr1, <- Z.add_assoc. apply Hwr. lia. }
      rewrite Z2Nat.id in * by lia.
      exists s'. split; [exact Hrun2|]. split; [|split].
      * intros i Hi. destruct (Z_lt_le_dec i (4 * k)) as [Hlt|Hge].
        -- rewrite Hframe2 by lia. apply Hw1. lia.
        -- replace (dst + i) with (dst + 4 * k + (i - 4 * k)) by lia.
           rewrite Hcopy2 by lia.
           replace (src + 4 * k + (i - 4 * k)) with (src + i) by lia.
           apply Hb1. lia.
      * intros a Ha. rewrite Hframe2 by lia. apply Hb1. lia.
      * intros _ _ Hm0. unfold m in Em0. contradiction.
  - (* not both aligned: bytes only *)
    destruct (bcopy_bytes_run (Z.to_nat len) (S (Z.to_nat len)) src dst (dst + len) s)
      as (s' & Hrun & Hcopy & Hframe); try lia.
    { intros i Hi. apply Hmap. lia. }
    { intros i Hi. apply Hwr. lia. }
    rewrite Z2Nat.id in * by lia.
    exists s'. split; [step; exact Hrun|]. split; [exact Hcopy|].
    split; [exact Hframe|].
    intros Hsa Hda _. unfold aligned in *.
    apply Z.eqb_eq in Hsa, Hda. rewrite Hsa, Hda in Eal. discriminate.
Qed.

(** [user_bcopy] copies [len] bytes between two mapped ranges that do not
    overlap, whatever their alignment, when the pages of the destination are
    valid and write-enabled, and it changes no byte outside the destination.
    A destination range that ends on or wraps around the top of the address
    space is not copied at all: [dst + len] then compares below [dst]. *)
Theorem user_bcopy_copies (s : state) (src dst len : Z) :
  0 <= src < 2 ^ 32 -> 0 <= dst < 2 ^ 32 -> 0 <= len < 2 ^ 32 ->
  (dst + len < 2 ^ 32 -> src + len <= 2 ^ 32 ->
   src + len <= dst \/ dst + len <= src ->
   (forall i, 0 <= i < len ->
      is_Some (peek8 s (src + i)) /\ is_Some (peek8 s (dst + i))) ->
   (forall i, 0 <= i < len -> writable s (dst + i) = true) ->
   exists s', user_bcopy src dst len s = Ret tt s' /\
     (forall i, 0 <= i < len -> peek8 s' (dst + i) = peek8 s (src + i)) /\
     (forall a, a < dst \/ dst + len <= a -> peek8 s' a = peek8 s a)) /\
  (2 ^ 32 <= dst + len -> user_bcopy src dst len s = Ret tt s).
Proof.
  intros Hs Hd Hlen. split.
  - intros Hdend Hsend Hdisj Hmap Hwr.
    destruct (user_bcopy_run s src dst len Hs (proj1 Hd) (proj1 Hlen) Hsend Hdend
                Hdisj Hmap Hwr) as (s' & Hrun & Hcopy & Hframe & _).
    eauto.
  - intros Hwrap. unfold user_bcopy.
    assert (Emax : wrap32 (dst + len) = dst + len - 2 ^ 32).
    { unfold wrap32. lia_div. }
    rewrite Emax.
    assert (Hbytes : forall a, bcopy_bytes (S (Z.to_nat len)) a dst
                                 (dst + len - 2 ^ 32) s = Ret tt s).
    { intros a. cbn [bcopy_bytes].
      destruct (dst <? dst + len - 2 ^ 32) eqn:E; [apply Z.ltb_lt in E; lia|].
      reflexivity. }
    destruct ((src mod 4 =? 0) && (dst mod 4 =? 0)) eqn:Eal.
    + apply andb_true_iff in Eal as [_ Ed]. apply Z.eqb_eq in Ed.
      cbn [bcopy_words].
      assert (Ew : wrap32 (dst + 3) = dst + 3) by (apply wrap32_small; lia_div).
      rewrite Ew.
      destruct (dst + 3 <? dst + len - 2 ^ 32) eqn:E; [apply Z.ltb_lt in E; lia|].
      step. apply Hbytes.
    + step. apply Hbytes.
Qed.

(** ** The page-fault handler *)

Lemma user_bcopy_perm (src dst len : Z) (u : unit) (s s' : state) :
  user_bcopy src dst len s = Ret u s' ->
  (forall vp, fst <$> pages s' !! vp = fst <$> pages s !! vp) /\ kfree s' = kfree s.
Proof.
  unfold user_bcopy. intros H. mbind H as sd s1 Hsd. destruct sd as [src' dst'].
  assert ((forall vp, fst <$> pages s1 !! vp = fst <$> pages s !! vp) /\
          kfree s1 = kfree s) as [A1 A2].
  { destruct (_ && _); [apply (bcopy_words_perm _ _ _ _ _ _ _ Hsd)|].
    apply ret_Ret in Hsd as [_ ->]. auto. }
  apply bcopy_bytes_perm in H as [B1 B2]. split; [|congruence].
  intros vp. rewrite B1. apply A1.
Qed.

Lemma lxor_pow2_bits (perm k j : Z) :
  0 <= k -> 0 <= j ->
  Z.testbit (Z.lxor perm (2 ^ k)) j
  = if Z.eq_dec j k then negb (Z.testbit perm k) else Z.testbit perm j.
Proof.
  intros Hk Hj. rewrite Z.lxor_spec. destruct (Z.eq_dec j k) as [->|Hne].
  - rewrite Z.pow2_bits_true by lia. apply xorb_true_r.
  - rewrite Z.pow2_bits_false by lia. apply xorb_false_r.
Qed.

Lemma land_pow2_testbit (x k : Z) :
  0 <= k -> (Z.land x (2 ^ k) =? 0) = negb (Z.testbit x k).
Proof.
  intros Hk. destruct (Z.testbit x k) eqn:E; simpl.
  - apply Z.eqb_neq. intros H0.
    assert (Z.testbit (Z.land x (2 ^ k)) k = false) by (rewrite H0; apply Z.bits_0).
    rewrite Z.land_spec, E, Z.pow2_bits_true in H by lia. discriminate.
  - apply Z.eqb_eq. apply Z.bits_inj'. intros n Hn.
    rewrite Z.land_spec, Z.bits_0. destruct (Z.eq_dec n k) as [->|Hne].
    + rewrite E. reflexivity.
    + rewrite Z.pow2_bits_false by lia. apply andb_false_r.
Qed.

(** The permission that the handler asks for: the bits of the faulting
    page without the copy-on-write bit. *)
Lemma pgfault_perm (perm0 : Z) :
  Z.land perm0 PTE_V <> 0 -> Z.land perm0 PTE_COW <> 0 ->
  (Z.land (Z.land perm0 4095) PTE_COW =? 0) = false /\
  (Z.land (Z.lxor (Z.land perm0 4095) PTE_COW) PTE_V =? 0) = false /\
  (Z.land (Z.lxor (Z.land perm0 4095) PTE_COW) PTE_COW =? 0) = true.
Proof.
  intros HV HC.
  pose proof pte_distinct as N. rewrite !NoDup_cons, !not_elem_of_cons in N.
  destruct N as ((_ & Hvc & _) & _).
  destruct pte_v_bit as (kv & Hkv & Ev). destruct pte_cow_bit as (kc & Hkc & Ec).
  rewrite Ev, Ec in *.
  assert (Hne : kv <> kc) by (intros ->; apply Hvc; reflexivity).
  apply Z.eqb_neq in HV, HC.
  rewrite land_pow2_testbit in HV, HC by lia.
  apply negb_false_iff in HV, HC.
  assert (H4 : forall j, 0 <= j < 12 -> Z.testbit (Z.land perm0 4095) j = Z.testbit perm0 j).
  { intros j Hj. rewrite Z.land_spec. change 4095 with (Z.ones 12).
    rewrite Z.testbit_ones_nonneg by lia.
    destruct (j <? 12) eqn:E; [apply andb_true_r | apply Z.ltb_ge in E; lia]. }
  rewrite !land_pow2_testbit, !lxor_pow2_bits by lia.
  rewrite !H4 by lia.
  destruct (Z.eq_dec kv kc); [contradiction|].
  destruct (Z.eq_dec kc kc); [|contradiction].
  rewrite HV, HC. auto.
Qed.

Lemma pgfault_perm_r (perm0 : Z) :
  (Z.land (Z.lxor (Z.land perm0 4095) PTE_COW) PTE_R =? 0) = (Z.land perm0 PTE_R =? 0).
Proof.
  pose proof pte_distinct as N. rewrite !NoDup_cons, !not_elem_of_cons in N.
  destruct N as (_ & (Hrc & _) & _).
  destruct pte_r_bit as (kr & Hkr & Er). destruct pte_cow_bit as (kc & Hkc & Ec).
  rewrite Er, Ec in *.
  assert (Hne : kr <> kc) by (intros ->; apply Hrc; reflexivity).
  assert (H4 : Z.testbit (Z.land perm0 4095) kr = Z.testbit perm0 kr).
  { rewrite Z.land_spec. change 4095 with (Z.ones 12).
    rewrite Z.testbit_ones_nonneg by lia.
    destruct (kr <? 12) eqn:E; [apply andb_true_r | apply Z.ltb_ge in E; lia]. }
  rewrite !land_pow2_testbit, !lxor_pow2_bits by lia.
  destruct (Z.eq_dec kr kc); [contradiction|]. rewrite H4. reflexivity.
Qed.

(** A copy of at least one byte stores to its first destination byte. *)
Lemma user_bcopy_stores (src dst len : Z) (u : unit) (s s' : state) :
  0 <= dst -> 0 < len -> dst + len < 2 ^ 32 ->
  user_bcopy src dst len s = Ret u s' -> writable s dst = true.
Proof.
  intros Hd Hlen Hend H. unfold user_bcopy in H.
  assert (Emax : wrap32 (dst + len) = dst + len) by (apply wrap32_small; lia).
  rewrite Emax in H.
  assert (Hbytes : forall a u1 s1, bcopy_bytes (S (Z.to_nat len)) a dst (dst + len) s
                                   = Ret u1 s1 -> writable s dst = true).
  { intros a u1 s1 Hb. cbn [bcopy_bytes] in Hb.
    destruct (dst <? dst + len) eqn:E; [|apply Z.ltb_ge in E; lia].
    mbind Hb as c s2 Hc. unfold load8 in Hc. mbind Hc as w s3 Hw.
    apply load32_Ret in Hw as [_ ->]. apply ret_Ret in Hc as [_ ->].
    mbind Hb as u2 s2 Hst. apply ustore8_Ret in Hst as [Hst _]. exact Hst. }
  mbind H as sd s1 Hsd. destruct sd as [src' dst'].
  destruct (_ && _).
  - cbn [bcopy_words] in Hsd.
    destruct (wrap32 (dst + 3) <? dst + len).
    + mbind Hsd as w s2 Hw. apply load32_Ret in Hw as [_ ->].
      mbind Hsd as u2 s2 Hst. apply ustore32_Ret in Hst as [Hst _]. exact Hst.
    + apply ret_Ret in Hsd as [[= <- <-] ->]. apply (Hbytes _ _ _ H).
  - apply ret_Ret in Hsd as [[= <- <-] ->]. apply (Hbytes _ _ _ H).
Qed.

Lemma page_base (va : Z) :
  0 <= va -> Z.land va (Z.lnot 4095) = 4096 * (va / 4096).
Proof.
  intros Hva. change (Z.land va (Z.lnot 4095)) with (Z.ldiff va (Z.ones 12)).
  rewrite Z.ldiff_ones_r, Z.shiftl_mul_pow2, Z.shiftr_div_pow2 by lia.
  change (2 ^ 12) with 4096. lia.
Qed.

Lemma word_ix_Z (a : Z) :
  Z.of_nat (word_ix a) = a mod 4096 / 4 /\ 0 <= a mod 4096 / 4 < 1024.
Proof.
  assert (H : 0 <= a mod 4096 / 4 < 1024) by lia_div.
  split; [|exact H]. unfold word_ix, BY2PG. lia.
Qed.

Lemma peek_page_is_Some (s : state) (a perm : Z) (ws : list Z) :
  pages s !! VPN a = Some (perm, ws) -> length ws = Z.to_nat (BY2PG / 4) ->
  is_Some (peek s a).
Proof.
  intros Hpg Hlen. unfold peek. rewrite Hpg.
  destruct (ws !! word_ix a) as [w|] eqn:E; [simpl; eauto|].
  apply lookup_ge_None in E. rewrite Hlen in E.
  destruct (word_ix_Z a) as [E1 E2]. unfold BY2PG in E.
  change (4096 / 4) with 1024 in E. lia.
Qed.

Lemma mapped_fst (s s' : state) (a : Z) :
  fst <$> pages s' !! VPN a = fst <$> pages s !! VPN a -> mapped s' a = mapped s a.
Proof.
  unfold mapped. destruct (pages s' !! VPN a) as [[p1 w1]|],
    (pages s !! VPN a) as [[p2 w2]|]; simpl; intros H; try discriminate;
    [injection H as ->|]; reflexivity.
Qed.

(** [pgfault] on a copy-on-write page: the page at [va] is replaced by a
    copy of its own, which holds the same words and has the permission of
    the old page without the copy-on-write bit; the scratch page at
    [USTACKTOP] is unmapped again, and no other page changes.  This needs
    the page at [va] to be write-enabled besides copy-on-write, as [duppage]
    leaves it: the scratch page carries the permission of the old page
    without the copy-on-write bit, and the handler copies into it.  When the
    old page is not write-enabled, neither is the scratch page, and the
    handler does not get past its first store to it.  On a page that is
    mapped without the copy-on-write bit the handler panics. *)
Theorem pgfault_copies_page (s : state) (va perm0 : Z) (ws pg : list Z)
    (k : list (list Z)) :
  0 <= va < UTOP -> USTACKTOP < UTOP -> USTACKTOP mod BY2PG = 0 ->
  USTACKTOP + BY2PG < 2 ^ 32 -> VPN va <> VPN USTACKTOP ->
  pages s !! VPN va = Some (perm0, ws) -> length ws = Z.to_nat (BY2PG / 4) ->
  kfree s = pg :: k -> length pg = Z.to_nat (BY2PG / 4) ->
  (Z.land perm0 PTE_COW = 0 -> pgfault va s = Panic) /\
  (Z.land perm0 PTE_V <> 0 -> Z.land perm0 PTE_COW <> 0 -> Z.land perm0 PTE_R = 0 ->
   forall u s', pgfault va s <> Ret u s') /\
  (Z.land perm0 PTE_V <> 0 -> Z.land perm0 PTE_COW <> 0 -> Z.land perm0 PTE_R <> 0 ->
   exists s', pgfault va s = Ret tt s' /\
     fst <$> pages s' !! VPN va = Some (Z.lxor (Z.land perm0 4095) PTE_COW) /\
     Z.land (Z.lxor (Z.land perm0 4095) PTE_COW) PTE_COW = 0 /\
     (forall a, VPN a = VPN va -> peek s' a = peek s a) /\
     pages s' !! VPN USTACKTOP = None /\
     (forall a, VPN a <> VPN va -> VPN a <> VPN USTACKTOP ->
        peek s' a = peek s a /\ mapped s' a = mapped s a) /\
     kfree s' = k).
Proof.
  intros Hva Hut Hual Hu32 Hvpn Hpg Hlen Hk Hlpg.
  pose proof ustacktop_utop as [Hu0 _]. pose proof utop_32 as H32.
  split; [|split].
  - intros HC. unfold pgfault. step. rewrite Hpg. simpl.
    destruct pte_cow_bit as (kc & Hkc & Ec).
    rewrite Ec in *. rewrite land_4095_bit by lia. rewrite HC. reflexivity.
  - intros HV HC HR u s' H.
    destruct (pgfault_perm perm0 HV HC) as (Hc0 & Hv1 & Hc1).
    pose proof (pgfault_perm_r perm0) as Hr1. rewrite HR in Hr1.
    set (perm := Z.lxor (Z.land perm0 4095) PTE_COW) in *.
    unfold pgfault in H. mbind H as pgs s0 Hget. apply get_Ret in Hget as [-> ->].
    rewrite Hpg in H. simpl in H. fold perm in H. rewrite Hc0 in H.
    mbind H as r s1 Halloc. unfold syscall_mem_alloc in Halloc.
    rewrite Hv1, Hc1 in Halloc.
    destruct (UTOP <=? USTACKTOP) eqn:E; [apply Z.leb_le in E; lia|]. simpl in Halloc.
    mbind Halloc as kf s0 Hget. apply get_Ret in Hget as [-> ->]. rewrite Hk in Halloc.
    mbind Halloc as u0 s0 Hmod. apply modify_Ret in Hmod as ->.
    apply ret_Ret in Halloc as [_ ->].
    mbind H as u1 s2 Hcopy.
    apply user_bcopy_stores in Hcopy;
      [|unfold BY2PG in *; lia|unfold BY2PG; lia|exact Hu32].
    unfold writable in Hcopy. simpl in Hcopy. rewrite lookup_insert_eq in Hcopy.
    change (Z.eqb (Z.land perm PTE_R) 0) with (Z.land perm PTE_R =? 0) in Hcopy.
    rewrite Hr1, andb_false_r in Hcopy. discriminate.
  - intros HV HC HR.
    destruct (pgfault_perm perm0 HV HC) as (Hc0 & Hv1 & Hc1).
    pose proof (pgfault_perm_r perm0) as Hr1. apply Z.eqb_neq in HR. rewrite HR in Hr1.
    set (perm := Z.lxor (Z.land perm0 4095) PTE_COW) in *.
    set (src := Z.land va (Z.lnot 4095)).
    assert (Esrc : src = 4096 * (va / 4096)) by (apply page_base; lia).
    set (s1 := set_kfree k (set_pages <[VPN USTACKTOP := (perm, pg)]> s)).
    assert (Halloc : syscall_mem_alloc USTACKTOP perm s = Ret 0 s1).
    { unfold syscall_mem_alloc. rewrite Hv1, Hc1.
      destruct (UTOP <=? USTACKTOP) eqn:E; [apply Z.leb_le in E; lia|]. simpl.
      step. rewrite Hk. step. reflexivity. }
    assert (Hp1 : forall a, VPN a <> VPN USTACKTOP -> peek s1 a = peek s a).
    { intros a Ha. unfold s1, peek. simpl. rewrite lookup_insert_ne by congruence.
      reflexivity. }
    assert (Hvs : forall i, 0 <= i < BY2PG -> VPN (src + i) = VPN va).
    { intros i Hi. unfold VPN, BY2PG in *. rewrite Esrc. lia_div. }
    assert (Hvd : forall i, 0 <= i < BY2PG -> VPN (USTACKTOP + i) = VPN USTACKTOP).
    { intros i Hi. unfold VPN, BY2PG in *. lia_div. }
    assert (Hmapped : forall i, 0 <= i < BY2PG ->
              is_Some (peek8 s1 (src + i)) /\ is_Some (peek8 s1 (USTACKTOP + i))).
    { intros i Hi. split; apply peek8_is_Some.
      - rewrite Hp1.
        + apply (peek_page_is_Some s _ perm0 ws); [|exact Hlen].
          replace (VPN (src + i - (src + i) mod 4)) with (VPN va); [exact Hpg|].
          rewrite <- (Hvs i Hi). unfold VPN, BY2PG in *. lia_div.
        + replace (VPN (src + i - (src + i) mod 4)) with (VPN va); [exact Hvpn|].
          rewrite <- (Hvs i Hi). unfold VPN, BY2PG in *. lia_div.
      - apply (peek_page_is_Some s1 _ perm pg); [|exact Hlpg].
        replace (VPN (USTACKTOP + i - (USTACKTOP + i) mod 4)) with (VPN USTACKTOP).
        + unfold s1. simpl. apply lookup_insert_eq.
        + rewrite <- (Hvd i Hi). unfold VPN, BY2PG in *. lia_div. }
    assert (Hsa : aligned src) by (unfold aligned; rewrite Esrc; lia_div).
    assert (Hda : aligned USTACKTOP) by (unfold aligned, BY2PG in *; lia_div).
    assert (Hwritable : forall i, 0 <= i < BY2PG -> writable s1 (USTACKTOP + i) = true).
    { intros i Hi. unfold writable. rewrite (Hvd i Hi). unfold s1. simpl.
      rewrite lookup_insert_eq, Hv1, Hr1. reflexivity. }
    destruct (user_bcopy_run s1 src USTACKTOP BY2PG)
      as (s2 & Hcopy & _ & _ & Hwords); try assumption.
    { rewrite Esrc. clear - Hva H32. lia_div. }
    { unfold BY2PG in *. lia. }
    { unfold BY2PG. lia. }
    { rewrite Esrc. unfold BY2PG. clear - Hva H32. lia_div. }
    { rewrite Esrc. unfold VPN, BY2PG in *. clear - Hvpn Hual Hva. lia_div. }
    destruct (Hwords Hsa Hda eq_refl) as [Hw Hframe].
    destruct (user_bcopy_perm _ _ _ _ _ _ Hcopy) as [Hperm2 Hk2].
    assert (Hpg2 : exists ws2, pages s2 !! VPN USTACKTOP = Some (perm, ws2)).
    { specialize (Hperm2 (VPN USTACKTOP)). unfold s1 in Hperm2. simpl in Hperm2.
      rewrite lookup_insert_eq in Hperm2.
      destruct (pages s2 !! VPN USTACKTOP) as [[p2 ws2]|]; [|discriminate].
      injection Hperm2 as ->. eauto. }
    destruct Hpg2 as [ws2 Hpg2].
    set (s3 := set_pages <[VPN va := (perm, ws2)]> s2).
    assert (Hmap : syscall_mem_map USTACKTOP va perm s2 = Ret 0 s3).
    { unfold syscall_mem_map. rewrite Hv1.
      destruct (UTOP <=? USTACKTOP) eqn:E1; [apply Z.leb_le in E1; lia|].
      destruct (UTOP <=? va) eqn:E2; [apply Z.leb_le in E2; lia|]. simpl.
      step. rewrite Hpg2. step. reflexivity. }
    set (s4 := set_pages (delete (VPN USTACKTOP)) s3).
    exists s4. split; [|split; [|split; [|split; [|split; [|split]]]]].
    + unfold pgfault. step. rewrite Hpg. simpl. fold perm. rewrite Hc0.
      step_with Halloc. step_with Hcopy. step_with Hmap.
      unfold syscall_mem_unmap. step. reflexivity.
    + unfold s4, s3. simpl. rewrite lookup_delete_ne by congruence.
      rewrite lookup_insert_eq. reflexivity.
    + apply Z.eqb_eq. exact Hc1.
    + intros a Ha.
      set (i := Z.of_nat (word_ix a)).
      assert (Hi : 0 <= i < BY2PG / 4).
      { unfold i, BY2PG. destruct (word_ix_Z a) as [E1 E2].
        change (4096 / 4) with 1024. lia. }
      destruct (word_ix_Z a) as [Ei Hi'']. fold i in Ei.
      assert (E4 : peek s4 a = peek s2 (USTACKTOP + 4 * i)).
      { unfold peek at 1. unfold s4, s3. simpl.
        rewrite lookup_delete_ne by congruence. rewrite Ha, lookup_insert_eq.
        unfold peek. rewrite (Hvd (4 * i)) by (unfold BY2PG in *; lia). rewrite Hpg2.
        f_equal. f_equal. apply Nat2Z.inj.
        destruct (word_ix_Z (USTACKTOP + 4 * i)) as [-> _].
        change (Z.of_nat (word_ix a)) with i. rewrite Ei.
        unfold BY2PG in *. revert Hi''. generalize (a mod 4096 / 4).
        clear - Hual. intros q Hq. lia_div. }
      rewrite E4, Hw by exact Hi.
      rewrite Hp1 by (rewrite (Hvs (4 * i)) by (unfold BY2PG in *; lia); exact Hvpn).
      apply peek_same_word.
      * rewrite (Hvs (4 * i)) by (unfold BY2PG in *; lia). symmetry. exact Ha.
      * apply Nat2Z.inj.
        destruct (word_ix_Z (src + 4 * i)) as [-> _].
        change (Z.of_nat (word_ix a)) with i. rewrite Ei, Esrc.
        revert Hi''. generalize (a mod 4096 / 4) (va / 4096).
        clear. intros q Hq v. lia_div.
    + unfold s4. simpl. apply lookup_delete_eq.
    + intros a Ha1 Ha2. split.
      * transitivity (peek s2 a).
        { unfold s4, s3, peek. simpl.
          rewrite lookup_delete_ne, lookup_insert_ne by congruence. reflexivity. }
        destruct (byte_addr a) as [Haa _].
        assert (Hv0 : VPN (a - a mod 4) = VPN a) by (unfold VPN, BY2PG; lia_div).
        assert (Hw0 : word_ix (a - a mod 4) = word_ix a)
          by (unfold word_ix, BY2PG; f_equal; lia_div).
        rewrite <- (peek_same_word s2 _ _ Hv0 Hw0), <- (peek_same_word s _ _ Hv0 Hw0).
        rewrite Hframe; [apply Hp1; congruence | exact Haa |].
        unfold VPN, BY2PG in *. lia_div.
      * transitivity (mapped s2 a).
        { unfold s4, s3, mapped. simpl.
          rewrite lookup_delete_ne, lookup_insert_ne by congruence. reflexivity. }
        apply mapped_fst. rewrite Hperm2. unfold s1. simpl.
        rewrite lookup_insert_ne by congruence. reflexivity.
    + simpl. rewrite Hk2. reflexivity.
Qed.

(** * The scheduler, environment ids and status *)

Context {X : PlatformExt}.

Lemma sched_norm (p : Z) : 1 <= p <= 6 -> (if p =? 6 then 0 else p) = p mod 6.
Proof.
  intros Hp. destruct (p =? 6) eqn:E.
  - apply Z.eqb_eq in E. subst p. reflexivity.
  - apply Z.eqb_neq in E. rewrite Z.mod_small; lia.
Qed.

Lemma sched_loop_hit (fuel : nat) (p : Z) (k : kernel) :
  1 <= p <= 6 -> runnable k (p mod 6) = true ->
  sched_loop (S fuel) p k = KRet (p mod 6) k.
Proof.
  intros Hp Hr. cbn [sched_loop]. rewrite (sched_norm p Hp).
  unfold runnable in Hr. destruct (envs k !! (p mod 6)) as [e|]; [|discriminate].
  rewrite Hr. reflexivity.
Qed.

Lemma sched_loop_miss (fuel : nat) (p : Z) (k : kernel) :
  1 <= p <= 6 -> is_Some (envs k !! (p mod 6)) -> runnable k (p mod 6) = false ->
  sched_loop (S fuel) p k = sched_loop fuel (p mod 6 + 1) k.
Proof.
  intros Hp [e He] Hr. cbn [sched_loop]. rewrite (sched_norm p Hp).
  unfold runnable in Hr. rewrite He in *. rewrite Hr.
  destruct (2 ^ 31 - 1 <=? p mod 6) eqn:E; [|reflexivity].
  apply Z.leb_le in E. exfalso. clear - E. lia_div.
Qed.

Lemma sched_loop_skip (k : kernel) (n : nat) :
  forall (p : Z) (fuel : nat), 1 <= p <= 6 ->
  (forall t, 0 <= t < Z.of_nat n ->
     is_Some (envs k !! ((p + t) mod 6)) /\ runnable k ((p + t) mod 6) = false) ->
  sched_loop (n + fuel) p k
  = sched_loop fuel ((p - 1 + Z.of_nat n) mod 6 + 1) k.
Proof.
  induction n as [|n IH]; intros p fuel Hp Hskip.
  - simpl. f_equal. lia_div.
  - destruct (Hskip 0 ltac:(lia)) as [Hs Hr]. rewrite Z.add_0_r in Hs, Hr.
    change (S n + fuel)%nat with (S (n + fuel)).
    rewrite (sched_loop_miss _ _ _ Hp Hs Hr).
    rewrite IH.
    + f_equal. clear - Hp. lia_div.
    + clear - Hp. lia_div.
    + intros t Ht.
      replace ((p mod 6 + 1 + t) mod 6) with ((p + (t + 1)) mod 6)
        by (clear; lia_div).
      apply Hskip. lia.
Qed.

Lemma sched_loop_never (k : kernel) (fuel : nat) :
  forall p, 1 <= p <= 6 ->
  (forall j, 0 <= j < 6 -> is_Some (envs k !! j) /\ runnable k j = false) ->
  sched_loop fuel p k = KFault.
Proof.
  induction fuel as [|fuel IH]; intros p Hp Hno; [reflexivity|].
  assert (Hj : 0 <= p mod 6 < 6) by (clear; lia_div).
  destruct (Hno _ Hj) as [Hs Hr].
  rewrite (sched_loop_miss _ _ _ Hp Hs Hr). apply IH; [lia|exact Hno].
Qed.

(** [sched_yield] is round-robin over the first six environments only: from
    the static position [pos] it runs the first runnable environment among
    [pos+1], [pos+2], ... taken modulo 6, which may be [pos] itself, and
    leaves its index in [pos].  When none of the six is runnable the loop
    does not end, whatever the other environments are. *)
Theorem sched_yield_round_robin (k : kernel) (pos : Z) :
  0 <= pos < 6 -> (forall i, 0 <= i < 6 -> is_Some (envs k !! i)) ->
  (forall (d : Z) (fuel : nat), 1 <= d <= 6 ->
     runnable k ((pos + d) mod 6) = true ->
     (forall t, 1 <= t < d -> runnable k ((pos + t) mod 6) = false) ->
     (Z.to_nat d <= fuel)%nat ->
     sched_yield fuel pos k
     = KRet ((pos + d) mod 6)
         (mkKernel (envs k) ((pos + d) mod 6) (nfree k))) /\
  ((forall j, 0 <= j < 6 -> runnable k j = false) ->
   forall fuel, sched_yield fuel pos k = KFault).
Proof.
  intros Hpos Henv.
  assert (Eint : (2 ^ 31 - 1 <=? pos) = false) by (apply Z.leb_gt; lia).
  split.
  - intros d fuel Hd Hrun Hskip Hfuel.
    set (n := Z.to_nat (d - 1)).
    assert (Ef : fuel = (n + S (fuel - S n))%nat) by lia.
    unfold sched_yield, kbind. rewrite Eint, Ef.
    rewrite sched_loop_skip.
    + assert (E : (pos + 1 - 1 + Z.of_nat n) mod 6 + 1 = (pos + d - 1) mod 6 + 1)
        by (f_equal; f_equal; lia).
      rewrite E.
      assert (E2 : ((pos + d - 1) mod 6 + 1) mod 6 = (pos + d) mod 6)
        by (clear; lia_div).
      rewrite sched_loop_hit.
      * rewrite E2. reflexivity.
      * clear. lia_div.
      * rewrite E2. exact Hrun.
    + lia.
    + intros t Ht. replace (pos + 1 + t) with (pos + (t + 1)) by lia. split.
      * apply Henv. clear. lia_div.
      * apply Hskip. lia.
  - intros Hno fuel. unfold sched_yield, kbind. rewrite Eint.
    rewrite sched_loop_never; [reflexivity|lia|].
    intros j Hj. split; [apply Henv, Hj|apply Hno, Hj].
Qed.

(** [sys_set_env_status] never returns an error: a status that is none of
    the three states and an environment that the caller may not change are
    kernel panics.  When it returns, it returns 0 and the environment, which
    is the caller or a child of the caller, is runnable, whichever of the
    three states was asked for; nothing else changes. *)
Theorem sys_set_env_status_always_runnable (envid status : Z) (k : kernel) :
  (status <> ENV_RUNNABLE -> status <> ENV_NOT_RUNNABLE -> status <> ENV_FREE ->
   sys_set_env_status envid status k = KPanic) /\
  (forall r k', sys_set_env_status envid status k = KRet r k' ->
     r = 0 /\
     (status = ENV_RUNNABLE \/ status = ENV_NOT_RUNNABLE \/ status = ENV_FREE) /\
     exists i e cur,
       envs k !! i = Some e /\ envs k !! curenv k = Some cur /\
       (envid = 0 /\ i = curenv k \/
        envid <> 0 /\ i = ENVX envid /\ env_id e = envid /\
        env_status e <> ENV_FREE /\
        (i = curenv k \/ env_parent_id e = env_id cur)) /\
       k' = mkKernel (<[i := set_status e ENV_RUNNABLE]> (envs k)) (curenv k)
              (nfree k)) /\
  (forall e cur, envid <> 0 -> envs k !! ENVX envid = Some e ->
     envs k !! curenv k = Some cur ->
     env_status e = ENV_FREE \/ env_id e <> envid \/
     (ENVX envid <> curenv k /\ env_parent_id e <> env_id cur) ->
     status = ENV_RUNNABLE \/ status = ENV_NOT_RUNNABLE \/ status = ENV_FREE ->
     sys_set_env_status envid status k = KPanic).
Proof.
  pose proof errno_bad_env_pos as Hbad.
  assert (Hneg : (- E_BAD_ENV <? 0) = true) by (apply Z.ltb_lt; lia).
  split; [|split].
  - intros H1 H2 H3. unfold sys_set_env_status.
    apply Z.eqb_neq in H1, H2, H3. rewrite H1, H2, H3. reflexivity.
  - intros r k' H. unfold sys_set_env_status in H.
    destruct (negb (status =? ENV_RUNNABLE) && negb (status =? ENV_NOT_RUNNABLE)
              && negb (status =? ENV_FREE)) eqn:Est; [discriminate|].
    assert (Hst : status = ENV_RUNNABLE \/ status = ENV_NOT_RUNNABLE \/
                  status = ENV_FREE).
    { destruct (status =? ENV_RUNNABLE) eqn:E1; [apply Z.eqb_eq in E1; auto|].
      destruct (status =? ENV_NOT_RUNNABLE) eqn:E2; [apply Z.eqb_eq in E2; auto|].
      destruct (status =? ENV_FREE) eqn:E3; [apply Z.eqb_eq in E3; auto|].
      discriminate. }
    unfold kbind, envid2env in H.
    destruct (envid =? 0) eqn:E0.
    + apply Z.eqb_eq in E0. simpl in H.
      destruct (envs k !! curenv k) as [e|] eqn:Ee; [|discriminate].
      injection H as <- <-. split; [reflexivity|]. split; [exact Hst|].
      exists (curenv k), e, e. repeat split; auto.
    + apply Z.eqb_neq in E0.
      destruct (envs k !! ENVX envid) as [e|] eqn:Ee; [|discriminate].
      destruct (envs k !! curenv k) as [cur|] eqn:Ec; [|discriminate].
      destruct ((env_status e =? ENV_FREE) || negb (env_id e =? envid)) eqn:E1.
      { simpl in H. rewrite Hneg in H. discriminate. }
      apply orb_false_iff in E1 as [E1 E2].
      apply Z.eqb_neq in E1. apply negb_false_iff, Z.eqb_eq in E2.
      destruct (true && negb (ENVX envid =? curenv k)
                && negb (env_parent_id e =? env_id cur)) eqn:E3.
      { simpl in H. rewrite Hneg in H. discriminate. }
      simpl in H. rewrite Ee in H. injection H as <- <-.
      split; [reflexivity|]. split; [exact Hst|].
      exists (ENVX envid), e, cur. repeat split; try assumption.
      right. repeat split; try assumption.
      simpl in E3. apply andb_false_iff in E3 as [E3|E3];
        apply negb_false_iff, Z.eqb_eq in E3; auto.
  - intros e cur H0 He Hc Hwhy Hst. unfold sys_set_env_status.
    assert (Est : negb (status =? ENV_RUNNABLE) && negb (status =? ENV_NOT_RUNNABLE)
                  && negb (status =? ENV_FREE) = false).
    { destruct Hst as [-> | [-> | ->]]; rewrite Z.eqb_refl; simpl;
        rewrite ?andb_false_r; reflexivity. }
    rewrite Est. unfold kbind, envid2env.
    apply Z.eqb_neq in H0. rewrite H0, He, Hc.
    destruct ((env_status e =? ENV_FREE) || negb (env_id e =? envid)) eqn:E1.
    { simpl. rewrite Hneg. reflexivity. }
    apply orb_false_iff in E1 as [E1 E2].
    apply Z.eqb_neq in E1. apply negb_false_iff, Z.eqb_eq in E2.
    destruct Hwhy as [Hw|[Hw|[Hw1 Hw2]]]; [contradiction|contradiction|].
    apply Z.eqb_neq in Hw1, Hw2. rewrite Hw1, Hw2. simpl. rewrite Hneg. reflexivity.
Qed.

Lemma mkenvid_value (next idx : Z) :
  0 <= idx < 2 ^ LOG2NENV -> 0 <= next -> next + 1 < 2 ^ (31 - LOG2NENV) ->
  mkenvid next idx = ((next + 1) * (2 * 2 ^ LOG2NENV) + idx, next + 1) /\
  (next + 1) * (2 * 2 ^ LOG2NENV) + idx < 2 ^ 32.
Proof.
  intros Hidx Hn Hnext. pose proof log2nenv_range as HL.
  assert (HT : 0 < 2 ^ LOG2NENV) by (apply Z.pow_pos_nonneg; lia).
  assert (E32 : 2 ^ (31 - LOG2NENV) * (2 * 2 ^ LOG2NENV) = 2 ^ 32).
  { replace (2 * 2 ^ LOG2NENV) with (2 ^ (1 + LOG2NENV))
      by (rewrite Z.pow_add_r by lia; reflexivity).
    rewrite <- Z.pow_add_r by lia. f_equal. lia. }
  assert (HU : 0 < 2 ^ (31 - LOG2NENV)) by (apply Z.pow_pos_nonneg; lia).
  assert (Hlt : (next + 1) * (2 * 2 ^ LOG2NENV) + idx < 2 ^ 32) by nia.
  split; [|exact Hlt].
  unfold mkenvid.
  assert (E1 : wrap32 (next + 1) = next + 1) by (apply wrap32_small; nia).
  rewrite E1, Z.shiftl_mul_pow2 by lia.
  replace (2 ^ (1 + LOG2NENV)) with (2 * 2 ^ LOG2NENV)
    by (rewrite Z.pow_add_r by lia; reflexivity).
  rewrite wrap32_small by nia.
  f_equal. symmetry. apply Z.add_nocarry_lor.
  apply Z.bits_inj'. intros n Hn0. rewrite Z.land_spec, Z.bits_0.
  destruct (Z.lt_ge_cases n LOG2NENV) as [Hlow|Hhigh].
  - replace ((next + 1) * (2 * 2 ^ LOG2NENV))
      with ((next + 1) * 2 ^ (1 + LOG2NENV))
      by (rewrite Z.pow_add_r by lia; lia).
    rewrite Z.mul_pow2_bits_low by lia. reflexivity.
  - replace idx with (idx mod 2 ^ LOG2NENV) by (apply Z.mod_small; lia).
    rewrite Z.mod_pow2_bits_high by lia. apply andb_false_r.
Qed.

(** The ids that [mkenvid] makes while its counter stays below
    [2^(31 - LOG2NENV) - 1] are not 0, carry the index of the environment in
    their low bits, differ from each other, and [envid2env] finds the
    environment that carries such an id.  One increment later the id of the
    environment at index 0 is 0, which [envid2env] reads as the running
    environment. *)
Theorem mkenvid_unique (next idx : Z) :
  0 <= idx < 2 ^ LOG2NENV -> 0 <= next -> next + 1 < 2 ^ (31 - LOG2NENV) ->
  snd (mkenvid next idx) = next + 1 /\
  0 < fst (mkenvid next idx) < 2 ^ 32 /\
  ENVX (fst (mkenvid next idx)) = idx /\
  (forall next2 idx2,
     0 <= idx2 < 2 ^ LOG2NENV -> 0 <= next2 -> next2 + 1 < 2 ^ (31 - LOG2NENV) ->
     fst (mkenvid next2 idx2) = fst (mkenvid next idx) ->
     next2 = next /\ idx2 = idx) /\
  (forall k e cur chk,
     envs k !! idx = Some e -> env_id e = fst (mkenvid next idx) ->
     env_status e <> ENV_FREE -> envs k !! curenv k = Some cur ->
     (chk = true -> idx = curenv k \/ env_parent_id e = env_id cur) ->
     envid2env (fst (mkenvid next idx)) chk k = KRet (0, Some idx) k) /\
  fst (mkenvid (2 ^ (31 - LOG2NENV) - 1) 0) = 0.
Proof.
  intros Hidx Hn Hnext. pose proof log2nenv_range as HL.
  assert (HT : 0 < 2 ^ LOG2NENV) by (apply Z.pow_pos_nonneg; lia).
  destruct (mkenvid_value next idx Hidx Hn Hnext) as [E Hlt]. rewrite E. cbn [fst snd].
  assert (Hx : ENVX ((next + 1) * (2 * 2 ^ LOG2NENV) + idx) = idx).
  { rewrite envx_mask.
    replace (2 ^ LOG2NENV - 1) with (Z.ones LOG2NENV)
      by (rewrite Z.ones_equiv; lia).
    rewrite Z.land_ones by lia.
    replace ((next + 1) * (2 * 2 ^ LOG2NENV) + idx)
      with (idx + ((next + 1) * 2) * 2 ^ LOG2NENV) by lia.
    rewrite Z_mod_plus_full. apply Z.mod_small. lia. }
  split; [reflexivity|]. split; [nia|]. split; [exact Hx|]. split; [|split].
  - intros next2 idx2 Hidx2 Hn2 Hnext2.
    destruct (mkenvid_value next2 idx2 Hidx2 Hn2 Hnext2) as [E2 _]. rewrite E2.
    cbn [fst snd]. intros Heq.
    destruct (Z.lt_trichotomy next2 next) as [Hlt2|[Heq2|Hgt2]]; [nia| |nia].
    subst next2. lia.
  - intros k e cur chk He Hid Hst Hc Hperm. unfold envid2env.
    destruct (_ =? 0) eqn:E0; [apply Z.eqb_eq in E0; nia|].
    rewrite Hx, He, Hc, Hid, Z.eqb_refl.
    apply Z.eqb_neq in Hst. rewrite Hst. simpl.
    destruct chk; [|reflexivity]. simpl.
    destruct (Hperm eq_refl) as [-> | ->]; rewrite Z.eqb_refl; simpl;
      rewrite ?andb_false_r; reflexivity.
  - unfold mkenvid.
    replace (2 ^ (31 - LOG2NENV) - 1 + 1) with (2 ^ (31 - LOG2NENV)) by lia.
    assert (HU : 0 < 2 ^ (31 - LOG2NENV) < 2 ^ 32).
    { split; [apply Z.pow_pos_nonneg; lia|apply Z.pow_lt_mono_r; lia]. }
    rewrite (wrap32_small (2 ^ (31 - LOG2NENV))) by lia.
    rewrite Z.shiftl_mul_pow2, <- Z.pow_add_r by lia.
    replace (31 - LOG2NENV + (1 + LOG2NENV)) with 32 by lia.
    reflexivity.
Qed.

(** * File descriptors of the user library *)

Lemma index2fd_small (i : Z) : 0 <= i <= MAXFD -> INDEX2FD i = FDTABLE + i * BY2PG.
Proof.
  intros Hi. unfold INDEX2FD. apply wrap32_small.
  unfold FDTABLE, FILEBASE, PDMAP, MAXFD, BY2PG in *. lia.
Qed.

Lemma fd_alloc_loop_run (s : state) (n : nat) :
  forall fdno, 0 <= fdno -> fdno + Z.of_nat n <= MAXFD ->
  exists r fd, fd_alloc_loop n fdno s = Ret (r, fd) s /\
    ((r = 0 /\ exists i, fdno <= i < fdno + Z.of_nat n /\
        fd = Some (FDTABLE + i * BY2PG) /\
        mapped s (FDTABLE + i * BY2PG) = false /\
        forall j, fdno <= j < i -> mapped s (FDTABLE + j * BY2PG) = true) \/
     (r = - E_MAX_OPEN /\ fd = None /\
      forall j, fdno <= j < fdno + Z.of_nat n ->
        mapped s (FDTABLE + j * BY2PG) = true)).
Proof.
  induction n as [|n IH]; intros fdno H0 Hn.
  - exists (- E_MAX_OPEN), None. split; [reflexivity|]. right.
    repeat split. intros j Hj. lia.
  - cbn [fd_alloc_loop]. rewrite index2fd_small by lia.
    unfold va_is_mapped. step.
    destruct (mapped s (FDTABLE + fdno * BY2PG)) eqn:Em; cbn [negb].
    + destruct (IH (fdno + 1) ltac:(lia) ltac:(lia)) as (r & fd & Hrun & Hres).
      exists r, fd. split; [exact Hrun|].
      destruct Hres as [(-> & i & Hi & -> & Hf & Hlow)|(-> & -> & Hall)].
      * left. split; [reflexivity|]. exists i. repeat split; try lia; try assumption.
        intros j Hj. destruct (Z.eq_dec j fdno) as [->|Hne]; [exact Em|].
        apply Hlow. lia.
      * right. repeat split. intros j Hj.
        destruct (Z.eq_dec j fdno) as [->|Hne]; [exact Em|]. apply Hall. lia.
    + exists 0, (Some (FDTABLE + fdno * BY2PG)). split; [reflexivity|]. left.
      split; [reflexivity|]. exists fdno. repeat split; try lia; try assumption.
Qed.

Lemma fd_alloc_run (s : state) :
  exists r fd, fd_alloc s = Ret (r, fd) s /\
    ((r = 0 /\ exists i, 0 <= i < MAXFD /\
        fd = Some (FDTABLE + i * BY2PG) /\
        mapped s (FDTABLE + i * BY2PG) = false /\
        forall j, 0 <= j < i -> mapped s (FDTABLE + j * BY2PG) = true) \/
     (r = - E_MAX_OPEN /\ fd = None /\
      forall j, 0 <= j < MAXFD -> mapped s (FDTABLE + j * BY2PG) = true)).
Proof.
  destruct (fd_alloc_loop_run s (Z.to_nat MAXFD) 0) as (r & fd & Hrun & Hres);
    [lia|unfold MAXFD; lia|].
  exists r, fd. split; [exact Hrun|].
  rewrite Z2Nat.id in Hres by (unfold MAXFD; lia). exact Hres.
Qed.

(** [fd_alloc] always returns and changes nothing.  It yields the page of
    the descriptor with the smallest number among the 32 whose page is not
    mapped, and [-E_MAX_OPEN] with [*fd] untouched exactly when all 32 pages
    are mapped. *)
Theorem fd_alloc_smallest_free (s : state) :
  exists r fd, fd_alloc s = Ret (r, fd) s /\
    ((r = 0 /\ exists i, 0 <= i < MAXFD /\
        fd = Some (FDTABLE + i * BY2PG) /\
        mapped s (FDTABLE + i * BY2PG) = false /\
        forall j, 0 <= j < i -> mapped s (FDTABLE + j * BY2PG) = true) \/
     (r = - E_MAX_OPEN /\ r < 0 /\ fd = None /\
      forall j, 0 <= j < MAXFD -> mapped s (FDTABLE + j * BY2PG) = true)).
Proof.
  destruct (fd_alloc_run s) as (r & fd & Hrun & [Hok|(Hr & Hfd & Hall)]).
  - exists r, fd. auto.
  - exists r, fd. split; [exact Hrun|]. right.
    pose proof e_max_open_range. repeat split; try assumption. lia.
Qed.

Lemma fd2num_index (i off : Z) :
  0 <= i < MAXFD -> 0 <= off < BY2PG -> fd2num (FDTABLE + i * BY2PG + off) = i.
Proof.
  intros Hi Hoff. unfold fd2num.
  replace (FDTABLE + i * BY2PG + off - FDTABLE) with (i * BY2PG + off) by lia.
  rewrite wrap32_small by (unfold MAXFD, BY2PG in *; lia).
  unfold BY2PG in *. lia_div.
Qed.

(** The descriptor table and the data regions: the number of a descriptor
    is recovered from any address inside its page, [num2fd] and [fd2num]
    are inverse to each other, and the data region of a descriptor is the
    [PDMAP]-sized slice of the area from [FILEBASE] on with its number,
    which lies above the table and apart from the slice of every other
    descriptor. *)
Theorem fd_table_round_trip (i off : Z) :
  0 <= i < MAXFD -> 0 <= off < BY2PG ->
  fd2num (INDEX2FD i + off) = i /\
  num2fd (fd2num (INDEX2FD i + off)) = INDEX2FD i /\
  fd2data (INDEX2FD i + off) = FILEBASE + i * PDMAP /\
  INDEX2FD i + BY2PG <= FILEBASE /\
  FILEBASE + i * PDMAP + PDMAP < 2 ^ 32 /\
  forall j, 0 <= j < MAXFD -> j <> i ->
    VPN (INDEX2FD j) <> VPN (INDEX2FD i) /\
    (fd2data (INDEX2FD j) + PDMAP <= fd2data (INDEX2FD i) \/
     fd2data (INDEX2FD i) + PDMAP <= fd2data (INDEX2FD j)).
Proof.
  intros Hi Hoff.
  assert (Hdata : forall j o, 0 <= j < MAXFD -> 0 <= o < BY2PG ->
            fd2data (INDEX2FD j + o) = FILEBASE + j * PDMAP).
  { intros j o Hj Ho. unfold fd2data. rewrite index2fd_small by lia.
    rewrite (fd2num_index j o Hj Ho). unfold INDEX2DATA. apply wrap32_small.
    unfold FILEBASE, PDMAP, MAXFD, BY2PG in *. lia. }
  rewrite (index2fd_small i) by lia.
  rewrite (fd2num_index i off Hi Hoff).
  split; [reflexivity|]. split; [unfold num2fd; lia|].
  split; [rewrite <- (index2fd_small i) by lia; apply Hdata; assumption|].
  split; [unfold FDTABLE, FILEBASE, PDMAP, MAXFD, BY2PG in *; lia|].
  split; [unfold FDTABLE, FILEBASE, PDMAP, MAXFD, BY2PG in *; lia|].
  intros j Hj Hne. split.
  - rewrite (index2fd_small j) by lia.
    unfold VPN, FDTABLE, FILEBASE, PDMAP, MAXFD, BY2PG in *. lia_div.
  - pose proof (Hdata j 0 Hj ltac:(unfold BY2PG; lia)) as Ej.
    pose proof (Hdata i 0 Hi ltac:(unfold BY2PG; lia)) as Ei.
    rewrite Z.add_0_r in Ej, Ei. rewrite <- (index2fd_small i) by lia.
    rewrite Ej, Ei. unfold PDMAP, BY2PG. lia.
Qed.

Lemma mapped_same_page (s : state) (a b : Z) :
  VPN a = VPN b -> mapped s a = mapped s b.
Proof. unfold mapped. intros ->. reflexivity. Qed.

Lemma fd_lookup_run (s : state) (i : Z) :
  0 <= i < MAXFD ->
  fd_lookup i s
  = Ret (if mapped s (FDTABLE + i * BY2PG)
         then (0, Some (FDTABLE + i * BY2PG)) else (- E_INVAL, None)) s.
Proof.
  intros Hi. unfold fd_lookup.
  destruct (MAXFD <=? i) eqn:E; [apply Z.leb_le in E; lia|].
  rewrite index2fd_small by lia. unfold va_is_mapped. step.
  destruct (mapped s _); reflexivity.
Qed.

(** Opening and closing a descriptor.  When [fd_alloc] has handed out [fd],
    its number is not yet found by [fd_lookup].  Once the caller maps a page
    at [fd], [fd_lookup] of the number of [fd] yields [fd] and [fd_alloc]
    hands out another descriptor or none; after [fd_close] the descriptor
    is again the one that [fd_alloc] hands out, and is not found. *)
Theorem fd_alloc_map_lookup (s : state) (fd perm : Z) (pg : list Z)
    (k : list (list Z)) :
  fd_alloc s = Ret (0, Some fd) s ->
  Z.land perm PTE_V <> 0 -> Z.land perm PTE_COW = 0 -> FILEBASE <= UTOP ->
  kfree s = pg :: k ->
  0 <= fd2num fd < MAXFD /\ num2fd (fd2num fd) = fd /\
  fd_lookup (fd2num fd) s = Ret (- E_INVAL, None) s /\
  exists s1, syscall_mem_alloc fd perm s = Ret 0 s1 /\
    fd_lookup (fd2num fd) s1 = Ret (0, Some fd) s1 /\
    (forall r s1', fd_alloc s1 <> Ret (r, Some fd) s1') /\
    exists s2, fd_close fd s1 = Ret tt s2 /\
      fd_alloc s2 = Ret (0, Some fd) s2 /\
      fd_lookup (fd2num fd) s2 = Ret (- E_INVAL, None) s2.
Proof.
  intros Hal HV HC Hut Hk.
  destruct (fd_alloc_run s) as (r & fd0 & Hrun & Hres).
  rewrite Hal in Hrun. injection Hrun as <- <-.
  destruct Hres as [(_ & i & Hi & Hfd & Hfree & Hlow)|(Hr & _)].
  2:{ pose proof e_max_open_range. lia. }
  injection Hfd as ->.
  pose proof (fd2num_index i 0 Hi ltac:(unfold BY2PG; lia)) as Enum.
  rewrite Z.add_0_r in Enum. rewrite Enum.
  split; [exact Hi|]. split; [unfold num2fd; lia|].
  split; [rewrite (fd_lookup_run s i Hi), Hfree; reflexivity|].
  set (fd := FDTABLE + i * BY2PG) in *.
  set (s1 := set_kfree k (set_pages <[VPN fd := (perm, pg)]> s)).
  assert (Halloc : syscall_mem_alloc fd perm s = Ret 0 s1).
  { unfold syscall_mem_alloc. apply Z.eqb_neq in HV. apply Z.eqb_eq in HC.
    rewrite HV, HC.
    destruct (UTOP <=? fd) eqn:E.
    { apply Z.leb_le in E. unfold fd, FDTABLE, FILEBASE, PDMAP, MAXFD, BY2PG in *.
      lia. }
    simpl. step. rewrite Hk. step. reflexivity. }
  assert (Hm1 : mapped s1 fd = true).
  { unfold mapped, s1. simpl. rewrite lookup_insert_eq.
    apply negb_true_iff, Z.eqb_neq. exact HV. }
  assert (Hother : forall j, 0 <= j < MAXFD -> j <> i ->
            VPN (FDTABLE + j * BY2PG) <> VPN fd).
  { intros j Hj Hne. unfold fd, VPN, FDTABLE, FILEBASE, PDMAP, MAXFD, BY2PG in *.
    lia_div. }
  exists s1. split; [exact Halloc|].
  split; [rewrite (fd_lookup_run s1 i Hi); fold fd; rewrite Hm1; reflexivity|].
  split.
  { intros r s1' Hr.
    destruct (fd_alloc_run s1) as (r1 & fd1 & Hrun1 & Hres1).
    rewrite Hr in Hrun1. injection Hrun1 as <- <- <-.
    destruct Hres1 as [(_ & j & Hj & Hfd & Hfree1 & _)|(_ & Hnone & _)];
      [|discriminate].
    injection Hfd as Hfd.
    assert (j = i) by (unfold fd, BY2PG in Hfd; lia). subst j.
    fold fd in Hfree1. congruence. }
  set (s2 := set_pages (delete (VPN fd)) s1).
  assert (Hm2 : forall va, mapped s2 va = mapped s va).
  { intros va. unfold mapped, s2, s1. simpl.
    destruct (Z.eq_dec (VPN va) (VPN fd)) as [E|E].
    - rewrite E, lookup_delete_eq.
      pose proof (mapped_same_page s va fd E) as Hsame. unfold mapped in Hsame.
      rewrite E in Hsame. fold (mapped s fd) in Hsame.
      unfold mapped in Hfree. rewrite Hfree. reflexivity.
    - rewrite lookup_delete_ne, lookup_insert_ne by congruence. reflexivity. }
  exists s2. split; [reflexivity|].
  split.
  - destruct (fd_alloc_run s2) as (r2 & fd2 & Hrun2 & Hres2).
    rewrite Hrun2. f_equal.
    destruct Hres2 as [(-> & j & Hj & -> & Hfree2 & Hlow2)|(_ & _ & Hall)].
    + rewrite Hm2 in Hfree2.
      assert (j = i).
      { destruct (Z.lt_trichotomy j i) as [Hlt|[Heq|Hgt]]; [|exact Heq|].
        - rewrite (Hlow j) in Hfree2 by lia. discriminate.
        - specialize (Hlow2 i ltac:(lia)). rewrite Hm2 in Hlow2. fold fd in Hlow2.
          congruence. }
      subst j. reflexivity.
    + specialize (Hall i Hi). rewrite Hm2 in Hall. fold fd in Hall. congruence.
  - rewrite (fd_lookup_run s2 i Hi). fold fd. rewrite Hm2, Hfree. reflexivity.
Qed.

(** * Reading the superblock *)

Lemma read_block_boot (s : state) (b : Z) (pg : list Z) (k : list (list Z)) :
  super s = 0 -> bitmap s = 0 -> 0 <= b < DISKMAX / BY2BLK ->
  mapped s (block_va b) = false -> kfree s = pg :: k ->
  read_block b s = Ret (0, block_va b, 1)
    (set_pages <[VPN (block_va b) :=
                   (Z.lor PTE_V PTE_R,
                    default zero_page (disk s !! wrap32 (b * SECT2BLK)))]>
       (set_kfree k (set_pages <[VPN (block_va b) := (Z.lor PTE_V PTE_R, pg)]> s))).
Proof.
  intros Hs Hbm Hb Hm Hk.
  destruct (block_va_in_window b (DISKMAX / BY2BLK) (Z.le_refl _) Hb)
    as (_ & Hu & _).
  assert (Hda : diskaddr b s = Ret (block_va b) s).
  { unfold diskaddr. step. rewrite Hs. step. reflexivity. }
  unfold read_block. step. rewrite Hs. step. cbv iota. step. rewrite Hbm.
  step. change (negb (0 =? 0)) with false. cbv iota.
  step_with Hda.
  assert (Hbim : block_is_mapped b s = Ret 0 s).
  { unfold block_is_mapped. step_with Hda. unfold va_is_mapped. step.
    rewrite Hm. reflexivity. }
  step_with Hbim. change (negb (0 =? 0)) with false. cbv iota.
  unfold syscall_mem_alloc. rewrite perm_V_R, perm_V_R_COW.
  apply Z.leb_gt in Hu. rewrite Hu. simpl.
  unfold bind, get, modify, ret, ide_read. rewrite Hk. simpl.
  rewrite lookup_insert_eq. reflexivity.
Qed.

(** [read_super] on a server that has loaded nothing yet: block 1 is read
    from the disk into its page of the cache.  A first word other than
    [FS_MAGIC] and a block count above [DISKMAX/BY2BLK] are panics;
    otherwise [super] is the address of block 1 in the cache, the block
    count is one the cache has room for, and nothing else has changed but
    the free page the kernel handed out. *)
Theorem read_super_validates (s : state) (magic nb : Z) (ws pg : list Z)
    (k : list (list Z)) :
  super s = 0 -> bitmap s = 0 -> 1 < DISKMAX / BY2BLK ->
  mapped s (block_va 1) = false -> kfree s = pg :: k ->
  default zero_page (disk s !! wrap32 (1 * SECT2BLK)) = ws ->
  ws !! 0%nat = Some magic -> ws !! 1%nat = Some nb ->
  0 <= magic < 2 ^ 32 -> 0 <= nb < 2 ^ 32 ->
  (magic <> FS_MAGIC -> read_super s = Panic) /\
  (magic = FS_MAGIC -> DISKMAX / BY2BLK < nb -> read_super s = Panic) /\
  (magic = FS_MAGIC -> nb <= DISKMAX / BY2BLK ->
   exists s', read_super s = Ret tt s' /\
     super s' = block_va 1 /\ fs_loaded s' nb /\
     peek s' (super s' + S_MAGIC) = Some FS_MAGIC /\
     pages s' !! VPN (block_va 1) = Some (Z.lor PTE_V PTE_R, ws) /\
     (forall vp, vp <> VPN (block_va 1) -> pages s' !! vp = pages s !! vp) /\
     disk s' = disk s /\ ide_log s' = ide_log s /\ kfree s' = k /\
     bitmap s' = 0).
Proof.
  intros Hs Hbm Hmax Hm Hk Hws Hmagic Hnb Hmr Hnr.
  destruct (block_va_in_window 1 (DISKMAX / BY2BLK) (Z.le_refl _) (conj Z.le_0_1 Hmax))
    as (Eva & Hu & Hnz & Hal & Hvpn).
  pose proof diskmap_aligned as Hdal. pose proof diskmap_pos as Hdpos.
  set (s1 := set_pages <[VPN (block_va 1) := (Z.lor PTE_V PTE_R, ws)]>
               (set_kfree k
                  (set_pages <[VPN (block_va 1) := (Z.lor PTE_V PTE_R, pg)]> s))).
  assert (Hrb : read_block 1 s = Ret (0, block_va 1, 1) s1).
  { rewrite (read_block_boot s 1 pg k Hs Hbm (conj Z.le_0_1 Hmax) Hm Hk), Hws. reflexivity. }
  set (s2 := set_super (block_va 1) s1).
  assert (Hpg2 : pages s2 !! VPN (block_va 1) = Some (Z.lor PTE_V PTE_R, ws)).
  { unfold s2, s1. simpl. apply lookup_insert_eq. }
  assert (Hp0 : peek s2 (block_va 1 + S_MAGIC) = Some magic).
  { unfold peek. replace (VPN (block_va 1 + S_MAGIC)) with (VPN (block_va 1))
      by (unfold S_MAGIC; f_equal; lia).
    rewrite Hpg2.
    replace (word_ix (block_va 1 + S_MAGIC)) with 0%nat.
    - rewrite Hmagic. simpl. f_equal. apply wrap32_small. lia.
    - rewrite Eva. unfold word_ix, S_MAGIC, BY2BLK, BY2PG in *.
      clear - Hdal. apply Nat2Z.inj. rewrite Z2Nat.id by lia_div. lia_div. }
  assert (Hp1 : peek s2 (block_va 1 + S_NBLOCKS) = Some nb).
  { unfold peek. replace (VPN (block_va 1 + S_NBLOCKS)) with (VPN (block_va 1)).
    - rewrite Hpg2.
      replace (word_ix (block_va 1 + S_NBLOCKS)) with 1%nat.
      + rewrite Hnb. simpl. f_equal. apply wrap32_small. lia.
      + rewrite Eva. unfold word_ix, S_NBLOCKS, BY2BLK, BY2PG in *.
        clear - Hdal. apply Nat2Z.inj. rewrite Z2Nat.id by lia_div. lia_div.
    - rewrite Eva. unfold VPN, S_NBLOCKS, BY2BLK, BY2PG in *.
      clear - Hdal. lia_div. }
  assert (Hhead :
            read_super s
            = (m ← load32 (block_va 1 + S_MAGIC);
               if negb (m =? FS_MAGIC) then user_panic
               else
                 nb ← load32 (block_va 1 + S_NBLOCKS);
                 if DISKMAX / BY2BLK <? nb then user_panic else ret tt) s2).
  { unfold read_super. step_with Hrb. change (0 <? 0) with false.
    cbv iota. step. reflexivity. }
  rewrite Hhead.
  split; [|split].
  - intros Hne. step_with (load32_run _ _ _ Hp0).
    apply Z.eqb_neq in Hne. rewrite Hne. reflexivity.
  - intros -> Hbig. step_with (load32_run _ _ _ Hp0).
    rewrite Z.eqb_refl. cbn [negb]. step_with (load32_run _ _ _ Hp1).
    apply Z.ltb_lt in Hbig. rewrite Hbig. reflexivity.
  - intros -> Hfit. exists s2. split.
    { step_with (load32_run _ _ _ Hp0).
      rewrite Z.eqb_refl. cbn [negb]. step_with (load32_run _ _ _ Hp1).
      apply Z.ltb_ge in Hfit. rewrite Hfit. reflexivity. }
    split; [reflexivity|].
    split; [repeat split; [exact Hnz|exact Hp1|exact Hfit]|].
    split; [exact Hp0|]. split; [exact Hpg2|].
    split.
    { intros vp Hvp. unfold s2, s1. simpl.
      rewrite !lookup_insert_ne by congruence. reflexivity. }
    repeat split. exact Hbm.
Qed.

(** * Looking a name up in a directory *)

Lemma strcmp_mem_spec (s : state) (name : list Z) :
  forall (l : list Z) (p : Z),
  string_at s p l -> Forall (fun c => c <> 0) l -> Forall (fun c => c <> 0) name ->
  0 <= p -> p + Z.of_nat (length l) < 2 ^ 32 ->
  strcmp_mem p name s = Ret (bool_decide (l = name)) s.
Proof.
  induction name as [|x name IH]; intros l p [Hstr Hnul] Hl Hname Hp Hend.
  - cbn [strcmp_mem]. destruct l as [|c l].
    + simpl in Hnul. rewrite Z.add_0_r in Hnul.
      step_with (load8_run _ _ _ Hnul). reflexivity.
    + pose proof (Hstr 0%nat c eq_refl) as Hc. simpl in Hc.
      rewrite Z.add_0_r in Hc. step_with (load8_run _ _ _ Hc).
      apply Forall_cons in Hl as [Hc0 _]. apply Z.eqb_neq in Hc0. rewrite Hc0.
      rewrite bool_decide_eq_false_2 by discriminate. reflexivity.
  - cbn [strcmp_mem]. apply Forall_cons in Hname as [Hx Hname].
    pose proof Hx as Hx0. apply Z.eqb_neq in Hx0.
    destruct l as [|c l].
    + simpl in Hnul. rewrite Z.add_0_r in Hnul.
      step_with (load8_run _ _ _ Hnul). rewrite Hx0.
      assert (E : (0 =? x) = false) by (apply Z.eqb_neq; lia). rewrite E.
      rewrite bool_decide_eq_false_2 by discriminate. reflexivity.
    + pose proof (Hstr 0%nat c eq_refl) as Hc. simpl in Hc.
      rewrite Z.add_0_r in Hc. step_with (load8_run _ _ _ Hc). rewrite Hx0.
      apply Forall_cons in Hl as [Hc0 Hl]. simpl length in *.
      destruct (c =? x) eqn:E.
      * apply Z.eqb_eq in E. subst c.
        rewrite wrap32_small by lia.
        rewrite (IH l (p + 1)); try assumption; try lia.
        { f_equal. apply bool_decide_ext. split; congruence. }
        split.
        { intros i y Hy. replace (p + 1 + Z.of_nat i) with (p + Z.of_nat (S i)) by lia.
          apply Hstr. exact Hy. }
        replace (p + 1 + Z.of_nat (length l)) with (p + Z.of_nat (S (length l)))
          by lia.
        exact Hnul.
      * apply Z.eqb_neq in E.
        rewrite bool_decide_eq_false_2 by congruence. reflexivity.
Qed.

Lemma dir_lookup_scan_miss (s : state) (B dir : Z) (name : list Z) (n : nat) :
  forall j,
  (forall t, j <= t < j + Z.of_nat n ->
     strcmp_mem (f_name (wrap32 (B + t * BY2FILE))) name s = Ret false s) ->
  dir_lookup_scan n B j dir name s = Ret None s.
Proof.
  induction n as [|n IH]; intros j Hmiss; [reflexivity|].
  cbn [dir_lookup_scan]. step_with (Hmiss j ltac:(lia)).
  apply IH. intros t Ht. apply Hmiss. lia.
Qed.

Lemma dir_lookup_scan_hit (s : state) (B dir : Z) (name : list Z) (t0 : Z)
    (n : nat) :
  forall j, j <= t0 < j + Z.of_nat n ->
  (forall t, j <= t < t0 ->
     strcmp_mem (f_name (wrap32 (B + t * BY2FILE))) name s = Ret false s) ->
  strcmp_mem (f_name (wrap32 (B + t0 * BY2FILE))) name s = Ret true s ->
  dir_lookup_scan n B j dir name s
  = (store32 (f_dir (wrap32 (B + t0 * BY2FILE))) dir;;
     ret (Some (wrap32 (B + t0 * BY2FILE)))) s.
Proof.
  induction n as [|n IH]; intros j Hj Hmiss Hhit; [lia|].
  cbn [dir_lookup_scan]. destruct (Z.eq_dec j t0) as [->|Hne].
  - step_with Hhit. reflexivity.
  - step_with (Hmiss j ltac:(lia)). apply IH; [lia| |exact Hhit].
    intros t Ht. apply Hmiss. lia.
Qed.

Lemma dir_lookup_loop_miss (s : state) (dir file0 : Z) (name : list Z)
    (Bv : Z -> Z) (n : nat) :
  forall i,
  (forall u, i <= u < i + Z.of_nat n ->
     file_get_block dir u 0 s = Ret (0, Bv u) s /\
     dir_lookup_scan (Z.to_nat FILE2BLK) (Bv u) 0 dir name s = Ret None s) ->
  dir_lookup_loop n i dir name file0 s = Ret (- E_NOT_FOUND, file0) s.
Proof.
  induction n as [|n IH]; intros i Hmiss; [reflexivity|].
  cbn [dir_lookup_loop]. destruct (Hmiss i ltac:(lia)) as [Hget Hscan].
  step_with Hget. change (0 <? 0) with false. cbv iota.
  step_with Hscan. apply IH. intros u Hu. apply Hmiss. lia.
Qed.

Lemma dir_lookup_loop_hit (s s' : state) (dir file0 fj u0 : Z) (name : list Z)
    (Bv : Z -> Z) (n : nat) :
  forall i, i <= u0 < i + Z.of_nat n ->
  (forall u, i <= u < u0 ->
     file_get_block dir u 0 s = Ret (0, Bv u) s /\
     dir_lookup_scan (Z.to_nat FILE2BLK) (Bv u) 0 dir name s = Ret None s) ->
  file_get_block dir u0 0 s = Ret (0, Bv u0) s ->
  dir_lookup_scan (Z.to_nat FILE2BLK) (Bv u0) 0 dir name s = Ret (Some fj) s' ->
  dir_lookup_loop n i dir name file0 s = Ret (0, fj) s'.
Proof.
  induction n as [|n IH]; intros i Hi Hmiss Hget Hscan; [lia|].
  cbn [dir_lookup_loop]. destruct (Z.eq_dec i u0) as [->|Hne].
  - step_with Hget. change (0 <? 0) with false. cbv iota.
    step_with Hscan. reflexivity.
  - destruct (Hmiss i ltac:(lia)) as [Hg Hs].
    step_with Hg. change (0 <? 0) with false. cbv iota.
    step_with Hs. apply IH; [lia| |exact Hget|exact Hscan].
    intros u Hu. apply Hmiss. lia.
Qed.

Lemma record_va_addrs (nb b j : Z) :
  nb <= DISKMAX / BY2BLK -> 0 <= b < nb -> 0 <= j < FILE2BLK ->
  wrap32 (block_va b + j * BY2FILE) = record_va b j /\
  f_name (record_va b j) = record_va b j /\
  f_dir (record_va b j) = record_va b j + F_DIR /\
  aligned (record_va b j + F_DIR) /\
  0 <= record_va b j /\ record_va b j + BY2FILE <= 2 ^ 32.
Proof.
  intros Hnb Hb Hj.
  destruct (block_va_in_window b nb Hnb Hb) as (E & Hu & _ & Ha & _).
  pose proof diskmap_pos. pose proof diskmap_aligned.
  pose proof diskmap_window. pose proof utop_32. pose proof diskmax_pos.
  assert (Hin : b * 4096 + 4096 <= DISKMAX)
    by (unfold BY2BLK, BY2PG in *; lia_div).
  unfold f_name, f_dir, record_va, aligned, F_NAME, F_DIR, MAXNAMELEN, NDIRECT,
    FILE2BLK, BY2FILE, BY2BLK, BY2PG in *.
  rewrite E. change (4096 / 256) with 16 in Hj.
  rewrite !wrap32_small by lia.
  repeat split; try lia. lia_div.
Qed.

Lemma dir_lookup_run (s : state) (nb dir bf off sz ind : Z)
    (blks : Z -> Z) (names : Z -> Z -> list Z) (name : list Z) (file0 : Z) :
  fs_ready s nb -> file_at nb dir bf off ->
  peek s (f_size dir) = Some sz -> peek s (f_indirect dir) = Some ind ->
  nblocks_of sz <= NINDIRECT ->
  dir_listing s nb dir bf ind (nblocks_of sz) blks names ->
  Forall (fun c => c <> 0) name ->
  (forall i j, 0 <= i < nblocks_of sz -> 0 <= j < FILE2BLK ->
     names i j = name ->
     (forall i' j', 0 <= i' -> 0 <= j' < FILE2BLK ->
        i' * FILE2BLK + j' < i * FILE2BLK + j -> names i' j' <> name) ->
     exists s',
       dir_lookup dir name file0 s = Ret (0, record_va (blks i) j) s' /\
       peek s' (f_dir (record_va (blks i) j)) = Some dir /\
       (forall va, aligned va -> va <> f_dir (record_va (blks i) j) ->
          peek s' va = peek s va) /\
       (forall va, mapped s' va = mapped s va) /\
       disk s' = disk s /\ ide_log s' = ide_log s /\ kfree s' = kfree s) /\
  ((forall i j, 0 <= i < nblocks_of sz -> 0 <= j < FILE2BLK ->
      names i j <> name) ->
   dir_lookup dir name file0 s = Ret (- E_NOT_FOUND, file0) s).
Proof.
  intros Hready Hfile Hsz Hind Hmax Hlist Hname.
  pose proof Hready as ((Hs & Hnb) & _).
  assert (Hn0 : 0 <= nblocks_of sz).
  { unfold nblocks_of. apply Z.div_pos; [apply wrap32_range|reflexivity]. }
  assert (Hget : forall u, 0 <= u < nblocks_of sz ->
            file_get_block dir u 0 s = Ret (0, block_va (blks u)) s).
  { intros u Hu. destruct (Hlist u Hu) as (Hok & Hslot & Hdb & Hbit & Hm & _).
    assert (Hvb : 0 <= blks u < nb) by (unfold data_block in Hdb; fs_arith).
    destruct (block_va_in_window (blks u) nb Hnb Hvb) as (E & _).
    rewrite E.
    apply (proj2 (file_map_block_lookup_run s nb dir bf off ind u 0 0 Hready Hfile
                    ltac:(lia) Hind) (blks u) Hok Hslot);
      [unfold data_block in Hdb; fs_arith|lia|exact Hbit|exact Hm]. }
  assert (Hcmp : forall u t, 0 <= u < nblocks_of sz -> 0 <= t < FILE2BLK ->
            strcmp_mem (f_name (wrap32 (block_va (blks u) + t * BY2FILE))) name s
            = Ret (bool_decide (names u t = name)) s).
  { intros u t Hu Ht. destruct (Hlist u Hu) as (_ & _ & Hdb & _ & _ & Hrec).
    assert (Hvb : 0 <= blks u < nb) by (unfold data_block in Hdb; fs_arith).
    destruct (record_va_addrs nb (blks u) t Hnb Hvb Ht) as (E1 & E2 & _ & _ & H0 & Hend).
    destruct (Hrec t Ht) as (Hstr & Hnz & Hlen & _).
    rewrite E1. apply strcmp_mem_spec; try assumption.
    - rewrite E2. exact H0.
    - rewrite E2. unfold MAXNAMELEN, BY2FILE in *. lia. }
  assert (E16 : Z.of_nat (Z.to_nat FILE2BLK) = FILE2BLK) by reflexivity.
  assert (Hnone : forall u, 0 <= u < nblocks_of sz ->
            (forall t, 0 <= t < FILE2BLK -> names u t <> name) ->
            dir_lookup_scan (Z.to_nat FILE2BLK) (block_va (blks u)) 0 dir name s
            = Ret None s).
  { intros u Hu Hno. apply dir_lookup_scan_miss. intros t Ht.
    rewrite E16 in Ht. rewrite (Hcmp u t Hu ltac:(lia)).
    rewrite bool_decide_eq_false_2; [reflexivity|]. apply Hno. lia. }
  split.
  - intros i j Hi Hj Hhere Hbefore.
    destruct (Hlist i Hi) as (_ & _ & Hdb & _ & _ & Hrec).
    assert (Hvb : 0 <= blks i < nb) by (unfold data_block in Hdb; fs_arith).
    destruct (record_va_addrs nb (blks i) j Hnb Hvb Hj)
      as (E1 & E2 & E3 & Hal & H0 & Hend).
    destruct (Hrec j Hj) as (_ & _ & _ & Hsome).
    destruct Hsome as [w Hw].
    destruct (poke_is_Some s _ dir w Hw) as [s' Hpoke].
    assert (Hscan : dir_lookup_scan (Z.to_nat FILE2BLK) (block_va (blks i)) 0 dir
                      name s = Ret (Some (record_va (blks i) j)) s').
    { rewrite (dir_lookup_scan_hit s (block_va (blks i)) dir name j).
      - rewrite E1. unfold store32, bind. rewrite Hpoke. reflexivity.
      - rewrite E16. lia.
      - intros t Ht. rewrite (Hcmp i t Hi ltac:(lia)).
        rewrite bool_decide_eq_false_2; [reflexivity|].
        apply Hbefore; lia.
      - rewrite (Hcmp i j Hi Hj).
        rewrite bool_decide_eq_true_2 by exact Hhere. reflexivity. }
    exists s'. split.
    { unfold dir_lookup. step_with (load32_run _ _ _ Hsz).
      apply (dir_lookup_loop_hit s s' dir file0 _ i name
               (fun u => block_va (blks u))).
      - rewrite Z2Nat.id by lia. lia.
      - intros u Hu. split; [apply Hget; lia|]. apply Hnone; [lia|].
        intros t Ht. apply Hbefore; try lia.
        change FILE2BLK with 16 in *. lia.
      - apply Hget, Hi.
      - exact Hscan. }
    assert (Hdir : wrap32 dir = dir).
    { destruct (file_at_field s nb dir bf off 0 0 Hready Hfile) as (E & _);
        try (unfold BY2FILE; lia).
      { unfold data_block in Hdb; fs_arith. }
      rewrite Z.add_0_r in E. exact E. }
    split; [rewrite (peek_poke_same _ _ _ _ Hpoke), Hdir; reflexivity|].
    split.
    { intros va Hva Hne. apply (peek_poke_ne _ _ _ _ _ Hpoke); try assumption.
      rewrite E3. exact Hal. }
    split; [intros va; apply (mapped_poke _ _ _ _ _ Hpoke)|].
    destruct (poke_fields _ _ _ _ Hpoke) as (_ & _ & _ & Hd & Hl & Hk). auto.
  - intros Hno. unfold dir_lookup. step_with (load32_run _ _ _ Hsz).
    apply (dir_lookup_loop_miss s dir file0 name (fun u => block_va (blks u))).
    intros u Hu. rewrite Z2Nat.id in Hu by lia.
    split; [apply Hget; lia|]. apply Hnone; [lia|].
    intros t Ht. apply Hno; lia.
Qed.

(** [dir_lookup] in a directory whose blocks are resident.  The record
    found is the first one, in the order of the blocks and of the records
    inside a block, that holds the name; its field [f_dir] is set to the
    directory and nothing else changes.  When no record holds the name, as
    in an empty directory, the answer is [-E_NOT_FOUND] with [*file] and the
    state untouched. *)
Theorem dir_lookup_finds (s : state) (nb dir bf off sz ind : Z)
    (blks : Z -> Z) (names : Z -> Z -> list Z) (name : list Z) (file0 : Z) :
  fs_ready s nb -> file_at nb dir bf off ->
  peek s (f_size dir) = Some sz -> peek s (f_indirect dir) = Some ind ->
  nblocks_of sz <= NINDIRECT ->
  dir_listing s nb dir bf ind (nblocks_of sz) blks names ->
  Forall (fun c => c <> 0) name ->
  (forall i j, 0 <= i < nblocks_of sz -> 0 <= j < FILE2BLK ->
     names i j = name ->
     (forall i' j', 0 <= i' -> 0 <= j' < FILE2BLK ->
        i' * FILE2BLK + j' < i * FILE2BLK + j -> names i' j' <> name) ->
     exists s',
       dir_lookup dir name file0 s = Ret (0, record_va (blks i) j) s' /\
       peek s' (f_dir (record_va (blks i) j)) = Some dir /\
       (forall va, aligned va -> va <> f_dir (record_va (blks i) j) ->
          peek s' va = peek s va) /\
       (forall va, mapped s' va = mapped s va) /\
       disk s' = disk s /\ ide_log s' = ide_log s /\ kfree s' = kfree s) /\
  ((forall i j, 0 <= i < nblocks_of sz -> 0 <= j < FILE2BLK ->
      names i j <> name) ->
   dir_lookup dir name file0 s = Ret (- E_NOT_FOUND, file0) s).
Proof.
  exact (dir_lookup_run s nb dir bf off sz ind blks names name file0).
Qed.

Lemma skip_name_plain (name : list Z) :
  Forall (fun c => c <> 0 /\ c <> SLASH) name -> skip_name name = [].
Proof.
  induction 1 as [|c name [Hc0 Hcs] _ IH]; [reflexivity|].
  cbn [skip_name]. apply Z.eqb_neq in Hc0, Hcs. rewrite Hc0, Hcs. exact IH.
Qed.

(** [file_open] of a path with one component, after any number of slashes:
    the file is the first record of the root directory that holds the
    component, and its field [f_dir] is set to the root record; when no
    record of the root directory holds the component, the answer is
    [-E_NOT_FOUND] with [*file] and the state untouched. *)
Theorem file_open_finds (s : state) (nb root sz ind : Z)
    (blks : Z -> Z) (names : Z -> Z -> list Z) (path name : list Z) (file0 : Z) :
  fs_ready s nb -> file_at nb root 1 S_ROOT ->
  peek s (f_type root) = Some FTYPE_DIR ->
  peek s (f_size root) = Some sz -> peek s (f_indirect root) = Some ind ->
  nblocks_of sz <= NINDIRECT ->
  dir_listing s nb root 1 ind (nblocks_of sz) blks names ->
  skip_slash path = name -> name <> [] ->
  Forall (fun c => c <> 0 /\ c <> SLASH) name ->
  Z.of_nat (length name) < MAXNAMELEN ->
  (forall i j, 0 <= i < nblocks_of sz -> 0 <= j < FILE2BLK ->
     names i j = name ->
     (forall i' j', 0 <= i' -> 0 <= j' < FILE2BLK ->
        i' * FILE2BLK + j' < i * FILE2BLK + j -> names i' j' <> name) ->
     exists s',
       file_open path file0 s = Ret (0, record_va (blks i) j) s' /\
       peek s' (f_dir (record_va (blks i) j)) = Some root /\
       (forall va, aligned va -> va <> f_dir (record_va (blks i) j) ->
          peek s' va = peek s va) /\
       (forall va, mapped s' va = mapped s va) /\
       disk s' = disk s /\ ide_log s' = ide_log s /\ kfree s' = kfree s) /\
  ((forall i j, 0 <= i < nblocks_of sz -> 0 <= j < FILE2BLK ->
      names i j <> name) ->
   file_open path file0 s = Ret (- E_NOT_FOUND, file0) s).
Proof.
  intros Hready Hfile Hty Hsz Hind Hmax Hlist Hskip Hne Hname Hlen.
  pose proof errno_pos as (_ & _ & _ & Hnf & _).
  assert (Hneg : (- E_NOT_FOUND <? 0) = true) by (apply Z.ltb_lt; lia).
  assert (Hnz : Forall (fun c => c <> 0) name).
  { eapply Forall_impl; [exact Hname|]. simpl. tauto. }
  assert (Eroot : wrap32 (super s + S_ROOT) = root).
  { pose proof Hready as (_ & Es & _ & Hnb1).
    destruct (file_at_field s nb root 1 S_ROOT 0 0 Hready Hfile) as (E & _);
      [unfold BY2FILE; lia|reflexivity|fs_arith|].
    rewrite Z.add_0_r in E. destruct Hfile as (_ & _ & _ & Ef).
    rewrite Es, <- Ef. exact E. }
  destruct (dir_lookup_run s nb root 1 S_ROOT sz ind blks names name root
              Hready Hfile Hsz Hind Hmax Hlist Hnz) as [Hfound Habsent].
  assert (Hwalk : forall lk s',
            dir_lookup root name root s = Ret lk s' ->
            walk_path path [] s
            = (let '(r, file') := lk in
               if r <? 0 then
                 if (r =? - E_NOT_FOUND) && true
                 then ret (r, root, 0, name)
                 else ret (r, 0, 0, [])
               else ret (0, root, file', [])) s').
  { intros lk s' Hlk.
    assert (Hcur : (cur name =? 0) = false).
    { destruct name as [|c name']; [contradiction|].
      apply Forall_cons in Hname as [[Hc0 _] _]. apply Z.eqb_neq. exact Hc0. }
    assert (Hfuel : exists f, length name = S f)
      by (destruct name; [contradiction|eauto]).
    unfold walk_path. rewrite Hskip. step. rewrite Eroot.
    cbn [walk_loop]. rewrite Hcur, (skip_name_plain _ Hname).
    change (Z.of_nat (length [])) with 0. rewrite Z.sub_0_r.
    destruct (MAXNAMELEN <=? _) eqn:El; [apply Z.leb_le in El; lia|].
    rewrite Nat2Z.id, firstn_all. cbn [skip_slash].
    step_with (load32_run _ _ _ Hty). rewrite Z.eqb_refl. cbn [negb].
    step_with Hlk. destruct lk as [r file'].
    destruct Hfuel as [f ->]. cbn [walk_loop].
    change (cur [] =? 0) with true. cbv iota.
    destruct (r <? 0); reflexivity. }
  split.
  - intros i j Hi Hj Hhere Hbefore.
    destruct (Hfound i j Hi Hj Hhere Hbefore) as (s' & Hrun & Hrest).
    exists s'. split; [|exact Hrest].
    unfold file_open. step_with (Hwalk _ _ Hrun).
    change (0 <? 0) with false. cbv iota. reflexivity.
  - intros Hno. pose proof (Hwalk _ _ (Habsent Hno)) as Hw.
    cbv beta iota in Hw. rewrite Hneg, Z.eqb_refl in Hw. cbn [andb] in Hw.
    unfold file_open. step_with Hw. rewrite Hneg. reflexivity.
Qed.

(** ** Handing out a record of a directory *)

Lemma dir_alloc_scan_miss (s : state) (B : Z) (n : nat) :
  forall j,
  (forall t, j <= t < j + Z.of_nat n ->
     exists c, load8 (f_name (wrap32 (B + t * BY2FILE))) s = Ret c s /\ c <> 0) ->
  dir_alloc_scan n B j s = Ret None s.
Proof.
  induction n as [|n IH]; intros j Hmiss; [reflexivity|].
  cbn [dir_alloc_scan]. destruct (Hmiss j ltac:(lia)) as (c & Hc & Hc0).
  step_with Hc. apply Z.eqb_neq in Hc0. rewrite Hc0.
  apply IH. intros t Ht. apply Hmiss. lia.
Qed.

Lemma dir_alloc_scan_hit (s : state) (B t0 : Z) (n : nat) :
  forall j, j <= t0 < j + Z.of_nat n ->
  (forall t, j <= t < t0 ->
     exists c, load8 (f_name (wrap32 (B + t * BY2FILE))) s = Ret c s /\ c <> 0) ->
  load8 (f_name (wrap32 (B + t0 * BY2FILE))) s = Ret 0 s ->
  dir_alloc_scan n B j s = Ret (Some (wrap32 (B + t0 * BY2FILE))) s.
Proof.
  induction n as [|n IH]; intros j Hj Hmiss Hhit; [lia|].
  cbn [dir_alloc_scan]. destruct (Z.eq_dec j t0) as [->|Hne].
  - step_with Hhit. reflexivity.
  - destruct (Hmiss j ltac:(lia)) as (c & Hc & Hc0).
    step_with Hc. apply Z.eqb_neq in Hc0. rewrite Hc0.
    apply IH; [lia| |exact Hhit]. intros t Ht. apply Hmiss. lia.
Qed.

Lemma dir_alloc_loop_hit (s : state) (dir file0 fj u0 : Z) (Bv : Z -> Z)
    (n : nat) :
  forall i, i <= u0 < i + Z.of_nat n ->
  (forall u, i <= u < u0 ->
     file_get_block dir u 0 s = Ret (0, Bv u) s /\
     dir_alloc_scan (Z.to_nat FILE2BLK) (Bv u) 0 s = Ret None s) ->
  file_get_block dir u0 0 s = Ret (0, Bv u0) s ->
  dir_alloc_scan (Z.to_nat FILE2BLK) (Bv u0) 0 s = Ret (Some fj) s ->
  dir_alloc_loop n i dir file0 s = Ret (Some (0, fj)) s.
Proof.
  induction n as [|n IH]; intros i Hi Hmiss Hget Hscan; [lia|].
  cbn [dir_alloc_loop]. destruct (Z.eq_dec i u0) as [->|Hne].
  - step_with Hget. change (0 <? 0) with false. cbv iota.
    step_with Hscan. reflexivity.
  - destruct (Hmiss i ltac:(lia)) as [Hg Hs].
    step_with Hg. change (0 <? 0) with false. cbv iota.
    step_with Hs. apply IH; [lia| |exact Hget|exact Hscan].
    intros u Hu. apply Hmiss. lia.
Qed.

(** [dir_alloc_file] in a directory whose blocks are resident and that has
    an unused record: it hands out the first record, in the order of the
    blocks and of the records inside a block, whose name is empty, and
    changes nothing, neither the size of the directory nor the record. *)
Theorem dir_alloc_file_first_free (s : state) (nb dir bf off sz ind : Z)
    (blks : Z -> Z) (names : Z -> Z -> list Z) (file0 i j : Z) :
  fs_ready s nb -> file_at nb dir bf off ->
  peek s (f_size dir) = Some sz -> peek s (f_indirect dir) = Some ind ->
  nblocks_of sz <= NINDIRECT ->
  dir_listing s nb dir bf ind (nblocks_of sz) blks names ->
  0 <= i < nblocks_of sz -> 0 <= j < FILE2BLK ->
  names i j = [] ->
  (forall i' j', 0 <= i' -> 0 <= j' < FILE2BLK ->
     i' * FILE2BLK + j' < i * FILE2BLK + j -> names i' j' <> []) ->
  dir_alloc_file dir file0 s = Ret (0, record_va (blks i) j) s.
Proof.
  intros Hready Hfile Hsz Hind Hmax Hlist Hi Hj Hhere Hbefore.
  pose proof Hready as ((Hs & Hnb) & _).
  assert (Hn0 : 0 <= nblocks_of sz).
  { unfold nblocks_of. apply Z.div_pos; [apply wrap32_range|reflexivity]. }
  assert (Hget : forall u, 0 <= u < nblocks_of sz ->
            file_get_block dir u 0 s = Ret (0, block_va (blks u)) s).
  { intros u Hu. destruct (Hlist u Hu) as (Hok & Hslot & Hdb & Hbit & Hm & _).
    assert (Hvb : 0 <= blks u < nb) by (unfold data_block in Hdb; fs_arith).
    destruct (block_va_in_window (blks u) nb Hnb Hvb) as (E & _).
    rewrite E.
    apply (proj2 (file_map_block_lookup_run s nb dir bf off ind u 0 0 Hready Hfile
                    ltac:(lia) Hind) (blks u) Hok Hslot);
      [unfold data_block in Hdb; fs_arith|lia|exact Hbit|exact Hm]. }
  assert (Hfirst : forall u t, 0 <= u < nblocks_of sz -> 0 <= t < FILE2BLK ->
            load8 (f_name (wrap32 (block_va (blks u) + t * BY2FILE))) s
            = Ret (hd 0 (names u t)) s /\
            (names u t <> [] -> hd 0 (names u t) <> 0)).
  { intros u t Hu Ht. destruct (Hlist u Hu) as (_ & _ & Hdb & _ & _ & Hrec).
    assert (Hvb : 0 <= blks u < nb) by (unfold data_block in Hdb; fs_arith).
    destruct (record_va_addrs nb (blks u) t Hnb Hvb Ht) as (E1 & _).
    destruct (Hrec t Ht) as ([Hstr Hnul] & Hnz & _).
    rewrite E1. destruct (names u t) as [|c l].
    - simpl in Hnul. rewrite Z.add_0_r in Hnul.
      split; [apply load8_run; exact Hnul|]. intros H. contradiction.
    - pose proof (Hstr 0%nat c eq_refl) as Hc. simpl in Hc.
      rewrite Z.add_0_r in Hc. split; [apply load8_run; exact Hc|].
      intros _. apply Forall_cons in Hnz as [Hc0 _]. exact Hc0. }
  assert (E16 : Z.of_nat (Z.to_nat FILE2BLK) = FILE2BLK) by reflexivity.
  destruct (Hlist i Hi) as (_ & _ & Hdb & _).
  assert (Hvb : 0 <= blks i < nb) by (unfold data_block in Hdb; fs_arith).
  destruct (record_va_addrs nb (blks i) j Hnb Hvb Hj) as (E1 & _).
  assert (Hloop : dir_alloc_loop (Z.to_nat (nblocks_of sz)) 0 dir file0 s
                  = Ret (Some (0, record_va (blks i) j)) s).
  { apply (dir_alloc_loop_hit s dir file0 _ i (fun u => block_va (blks u))).
    - rewrite Z2Nat.id by lia. lia.
    - intros u Hu. split; [apply Hget; lia|].
      apply dir_alloc_scan_miss. intros t Ht. rewrite E16 in Ht.
      destruct (Hfirst u t ltac:(lia) ltac:(lia)) as [Hld Hc].
      eexists. split; [exact Hld|]. apply Hc. apply Hbefore; try lia.
      change FILE2BLK with 16 in *. lia.
    - apply Hget, Hi.
    - rewrite <- E1. apply dir_alloc_scan_hit.
      + rewrite E16. lia.
      + intros t Ht. destruct (Hfirst i t Hi ltac:(lia)) as [Hld Hc].
        eexists. split; [exact Hld|]. apply Hc. apply Hbefore; lia.
      + destruct (Hfirst i j Hi Hj) as [Hld _]. rewrite Hhere in Hld. exact Hld. }
  unfold dir_alloc_file. step_with (load32_run _ _ _ Hsz).
  step_with Hloop. reflexivity.
Qed.
End Properties.

(** * Runs on the small file system *)

Lemma alloc_block_atomic_witness :
  exists r s',
    alloc_block (P := mos) fs_no_memory = Ret r s' /\ r < 0 /\
    same_mem fs_no_memory s' /\
    forall b, bitmap_bit s' b = bitmap_bit fs_no_memory b.
Proof.
  eexists _, _.
  split; [vm_compute; reflexivity|].
  split; [vm_compute; reflexivity|].
  refine (let H := alloc_block_atomic (P := mos) fs_no_memory _ _ _ _ in
          conj (proj1 H) (proj2 (proj2 H))).
  - vm_compute. reflexivity.
  - vm_compute. reflexivity.
Defined.

(** C2: with block 5 the first free block, [alloc_block_num] returns 5 and
    clears its bit, but the block it writes to disk is block [5 / BIT2BLK = 0],
    the boot block (first sector 0); the bitmap block, block 2 (first sector
    [2 * SECT2BLK = 16]), is not written. *)
Theorem alloc_block_num_flushes_boot_block :
  exists s',
    alloc_block_num (P := mos) fs_no_memory = Ret 5 s' /\
    bitmap_bit fs_no_memory 5 = Some true /\ bitmap_bit s' 5 = Some false /\
    ide_log s' = [0] /\ disk s' !! (2 * @SECT2BLK mos) = None.
Proof.
  eexists. split; [vm_compute; reflexivity|].
  repeat split; vm_compute; reflexivity.
Qed.

(** C1: block 3 is resident and differs from the disk, yet [fs_sync] and
    [file_flush] of the file that owns it return without any disk write: the
    state, and with it the disk and its log, is unchanged. *)
Theorem fs_sync_writes_nothing :
  mapped (P := mos) fs_resident (block_va (P := mos) 3) = true /\
  peek fs_resident (block_va (P := mos) 3) = Some 42 /\
  disk fs_resident = ∅ /\
  fs_sync (P := mos) fs_resident = Ret tt fs_resident /\
  file_flush (P := mos) small_root fs_resident = Ret tt fs_resident.
Proof. repeat split; vm_compute; reflexivity. Qed.

(** C3: the root of [fs_sparse] has no indirect block; clearing its block 10
    reads through the null slot pointer and faults instead of returning 0. *)
Theorem file_clear_block_null_deref :
  peek fs_sparse (f_indirect small_root) = Some 0 /\
  file_block_walk (P := mos) small_root 10 0 0 fs_sparse
    = Ret (- @E_NOT_FOUND mos, 0) fs_sparse /\
  file_clear_block (P := mos) small_root 10 fs_sparse = Fault.
Proof. repeat split; vm_compute; reflexivity. Qed.

(** C6: a path whose only component has exactly [MAXNAMELEN] bytes is
    rejected with [-E_BAD_PATH], while one byte less passes the length check
    (and is then simply not found in the root directory). *)
Lemma walk_path_rejects_maxnamelen :
  components (replicate 128 97) = [replicate (Z.to_nat MAXNAMELEN) 97] /\
  walk_path (P := mos) (replicate 128 97) [] fs_resident
    = Ret (- @E_BAD_PATH mos, 0, 0, []) fs_resident /\
  exists s', walk_path (P := mos) (replicate 127 97) [] fs_resident
    = Ret (- @E_NOT_FOUND mos, small_root, 0, replicate 127 97) s'.
Proof.
  split; [vm_compute; reflexivity|].
  split; [vm_compute; reflexivity|].
  eexists. vm_compute. reflexivity.
Qed.

(** In [fs_two] the walk finds [a] in the root directory and so reaches the
    second component of the path [a/bbb...], which has [MAXNAMELEN] bytes. *)
Lemma walk_path_bad_path_witness :
  exists s',
    walk_path (P := mos) ([97; 47] ++ replicate 128 98) [] fs_two
      = Ret (- @E_BAD_PATH mos, 0, 0, []) s' /\
    exists pre,
      components ([97; 47] ++ replicate 128 98) = pre ++ [replicate 128 98] /\
      Forall (fun c => Z.of_nat (length c) < MAXNAMELEN) pre.
Proof.
  eexists.
  eapply (proj1 (proj2 (walk_path_bad_path (P := mos)
                          ([97; 47] ++ replicate 128 98) [] fs_two))
            (replicate 128 98) _ _ (replicate 128 98) []).
  - eapply walk_round; [| | | | |apply walk_here].
    + vm_compute. congruence.
    + vm_compute. reflexivity.
    + vm_compute. reflexivity.
    + vm_compute. reflexivity.
    + vm_compute. congruence.
  - vm_compute. reflexivity.
  - vm_compute. congruence.
Defined.



(** The run of the loop on [fork_kernel]: the writable page becomes
    copy-on-write in both environments, the library page and the read-only
    page keep their bits. *)
Example fork_pages_run :
  exists k', fork_pages (P := mos) 2050 fork_kernel = KRet tt k' /\
    env_pte k' 2 1024 = Some (20480 + 1537) /\
    env_pte k' 1 1024 = Some (20480 + 1537) /\
    env_pte k' 2 1025 = Some (24576 + 1540) /\
    env_pte k' 1 1025 = Some (24576 + 1540) /\
    env_pte k' 2 1026 = Some (28672 + 512) /\
    env_pte k' 2 1027 = Some (32768 + 513).
Proof.
  eexists. split; [vm_compute; reflexivity|].
  repeat split; vm_compute; reflexivity.
Qed.

(** C4: the root of [fs_stale] has no indirect block and block 5, the first
    free block, is resident with 99 in word 10.  The walk for block 10 with
    [alloc] set makes 5 the indirect block and returns its slot 10, which
    still holds 99: the new indirect block is not zeroed.  As 0 is the null
    block number, [file_map_block] takes the 99 for the number of block 10
    of the file, and [file_get_block] panics on it in [read_block], the
    disk having 64 blocks. *)
Theorem file_block_walk_keeps_stale_block :
  exists s',
    file_block_walk (P := mos) small_root 10 0 1 fs_stale
      = Ret (0, block_va (P := mos) 5 + 4 * 10) s' /\
    peek s' (f_indirect small_root) = Some 5 /\
    peek s' (block_va (P := mos) 5 + 4 * 10) = Some 99 /\
    file_map_block (P := mos) small_root 10 0 1 fs_stale = Ret (0, 99) s' /\
    file_get_block (P := mos) small_root 10 0 fs_stale = Panic.
Proof.
  eexists. split; [vm_compute; reflexivity|].
  repeat split; vm_compute; reflexivity.
Qed.

(** The run of the allocating walk on [fs_stale]. *)
Lemma file_block_walk_allocates_indirect_witness :
  exists s',
    file_block_walk (P := mos) small_root 10 0 1 fs_stale
      = Ret (0, block_va (P := mos) 5 + 4 * 10) s' /\
    peek s' (f_indirect small_root) = Some 5 /\
    bitmap_bit s' 5 = Some false /\
    forall i, 0 <= i < NINDIRECT ->
      peek s' (block_va (P := mos) 5 + 4 * i)
      = if mapped (P := mos) fs_stale (block_va (P := mos) 5)
        then peek fs_stale (block_va (P := mos) 5 + 4 * i)
        else fresh_word fs_stale (block_va (P := mos) 5 + 4 * i).
Proof.
  apply (file_block_walk_allocates_indirect (P := mos) fs_stale 64 small_root 1 8).
  - repeat split; try (vm_compute; congruence).
  - repeat split; try (vm_compute; congruence). left. split; vm_compute; congruence.
  - vm_compute. split; congruence.
  - discriminate.
  - vm_compute. reflexivity.
  - split; [lia|]. split; [vm_compute; reflexivity|].
    intros b' Hb'. assert (b' = 3 \/ b' = 4) as [-> | ->] by lia;
      vm_compute; reflexivity.
  - split; vm_compute; congruence.
  - discriminate.
  - vm_compute. reflexivity.
  - left. vm_compute. reflexivity.
Defined.

(** Creating [/a] in [fs_dir] takes the second record of block 3. *)
Lemma file_create_writes_name_only_witness :
  exists s2 s3,
    dir_alloc_file (P := mos) small_root 0 fs_dir
      = Ret (0, block_va (P := mos) 3 + 256) s2 /\
    file_create (P := mos) [47; 97] 0 fs_dir
      = Ret (0, block_va (P := mos) 3 + 256) s3 /\
    string_at s3 (block_va (P := mos) 3 + 256) [97] /\
    peek s3 (f_size (block_va (P := mos) 3 + 256)) = Some 777 /\
    peek s3 (f_type (block_va (P := mos) 3 + 256)) = Some FTYPE_DIR /\
    peek s3 (f_direct (block_va (P := mos) 3 + 256) 0) = Some 9 /\
    peek s3 (f_indirect (block_va (P := mos) 3 + 256)) = Some 8.
Proof.
  assert (Hwalk : exists s1, walk_path (P := mos) [47; 97] [] fs_dir
            = Ret (- @E_NOT_FOUND mos, small_root, 0, [97]) s1)
    by (eexists; vm_compute; reflexivity).
  destruct Hwalk as [s1 Hwalk].
  assert (Hs1 : s1 = fs_dir).
  { assert (E : walk_path (P := mos) [47; 97] [] fs_dir
              = Ret (- @E_NOT_FOUND mos, small_root, 0, [97]) fs_dir)
      by (vm_compute; reflexivity).
    rewrite E in Hwalk. congruence. }
  subst s1.
  assert (Halloc : exists s2, dir_alloc_file (P := mos) small_root 0 fs_dir
            = Ret (0, block_va (P := mos) 3 + 256) s2)
    by (eexists; vm_compute; reflexivity).
  destruct Halloc as [s2 Halloc].
  assert (Hs2 : s2 = fs_dir).
  { assert (E : dir_alloc_file (P := mos) small_root 0 fs_dir
              = Ret (0, block_va (P := mos) 3 + 256) fs_dir)
      by (vm_compute; reflexivity).
    rewrite E in Halloc. congruence. }
  subst s2.
  destruct (file_create_writes_name_only (P := mos) [47; 97] [97] 0 small_root 0 0
              (block_va (P := mos) 3 + 256) fs_dir fs_dir fs_dir)
    as (s3 & Hrun & Hstr & _ & Hsize & Htype & Hdirect & Hind).
  - repeat constructor; lia.
  - exact Hwalk.
  - discriminate.
  - exact Halloc.
  - lia.
  - reflexivity.
  - vm_compute. discriminate.
  - vm_compute. discriminate.
  - intros a Ha. unfold peek8.
    assert (Hw : exists i, 0 <= i < 32 /\
              a - a mod 4 = block_va (P := mos) 3 + 256 + 4 * i).
    { exists ((a - (block_va (P := mos) 3 + 256)) / 4).
      change (block_va (P := mos) 3 + 256) with 268448000 in *.
      unfold MAXNAMELEN in Ha. split; Z.to_euclidean_division_equations; lia. }
    destruct Hw as (i & Hi & ->).
    assert (i = 0 \/ i = 1 \/ i = 2 \/ i = 3 \/ i = 4 \/ i = 5 \/ i = 6 \/ i = 7 \/
            i = 8 \/ i = 9 \/ i = 10 \/ i = 11 \/ i = 12 \/ i = 13 \/ i = 14 \/
            i = 15 \/ i = 16 \/ i = 17 \/ i = 18 \/ i = 19 \/ i = 20 \/ i = 21 \/
            i = 22 \/ i = 23 \/ i = 24 \/ i = 25 \/ i = 26 \/ i = 27 \/ i = 28 \/
            i = 29 \/ i = 30 \/ i = 31) as Hcases by lia.
    repeat (destruct Hcases as [->|Hcases]; [vm_compute; eauto|]).
    subst i. vm_compute. eauto.
  - exists fs_dir, s3. split; [exact Halloc|]. split; [exact Hrun|].
    split; [exact Hstr|].
    rewrite Hsize, Htype, (Hdirect 0), Hind by (unfold NDIRECT; lia).
    repeat split; vm_compute; reflexivity.
Defined.

(** C5: the root of [fs_sparse] spans eleven blocks and has no indirect
    block; truncating it to 0 clears the direct slots and then faults in
    [file_clear_block] on block 10, so the size is never set. *)
Theorem file_truncate_sparse_faults :
  peek fs_sparse (f_size small_root) = Some (11 * 4096) /\
  peek fs_sparse (f_indirect small_root) = Some 0 /\
  file_truncate (P := mos) small_root 0 fs_sparse = Fault.
Proof. repeat split; vm_compute; reflexivity. Qed.

(** Truncating the twelve-block root of [fs_big] to eleven blocks: slot 11
    is cleared and its block 22 freed, the indirect block 20 is freed and
    the indirect pointer zeroed although slot 10 is still in use; block 21
    stays marked in use and slot 10 of the old indirect block keeps it. *)
Example file_truncate_run :
  exists s',
    file_truncate (P := mos) small_root (11 * 4096) fs_big = Ret tt s' /\
    peek s' (f_size small_root) = Some (11 * 4096) /\
    peek s' (f_indirect small_root) = Some 0 /\
    peek s' (block_va (P := mos) 20 + 4 * 11) = Some 0 /\
    peek s' (block_va (P := mos) 20 + 4 * 10) = Some 21 /\
    bitmap_bit s' 22 = Some true /\ bitmap_bit s' 20 = Some true /\
    bitmap_bit s' 21 = Some false /\ bitmap_bit s' 19 = Some false.
Proof.
  eexists. split; [vm_compute; reflexivity|].
  repeat split; vm_compute; reflexivity.
Qed.

(** [file_truncate_spec] on the twelve-block root of [fs_big], cut to eleven
    blocks. *)
Lemma file_truncate_spec_witness :
  exists s',
    file_truncate (P := mos) small_root (11 * 4096) fs_big = Ret tt s' /\
    peek s' (f_size small_root) = Some (11 * 4096) /\
    peek s' (f_indirect small_root) = Some 0 /\
    (forall bno, 0 <= bno < NINDIRECT -> (NDIRECT <= bno -> 20 <> 0) ->
       peek s' (slot_va (P := mos) small_root 20 bno)
       = if (nblocks_of (11 * 4096) <=? bno) && (bno <? nblocks_of (12 * 4096))
         then Some 0 else peek fs_big (slot_va (P := mos) small_root 20 bno)) /\
    (forall b, 0 <= b < 64 ->
       (bitmap_bit s' b = Some true <->
        bitmap_bit fs_big b = Some true \/ (20 <> 0 /\ b = 20) \/
        exists bno, nblocks_of (11 * 4096) <= bno < nblocks_of (12 * 4096) /\
                    peek fs_big (slot_va (P := mos) small_root 20 bno) = Some b /\
                    b <> 0)).
Proof.
  apply (file_truncate_spec (P := mos) fs_big 64 small_root 1 8 (12 * 4096) 20).
  - repeat split; try (vm_compute; congruence).
  - repeat split; try (vm_compute; congruence). left. split; vm_compute; congruence.
  - vm_compute. reflexivity.
  - vm_compute. reflexivity.
  - vm_compute. congruence.
  - lia.
  - discriminate.
  - intros _. repeat split; try (vm_compute; congruence).
  - intros b Hb. unfold bitmap_bit.
    assert (b / 32 = 0 \/ b / 32 = 1) as [-> | ->]
      by (Z.to_euclidean_division_equations; lia).
    + destruct (peek fs_big (wrap32 (bitmap fs_big + 4 * 0))) eqn:E;
        [simpl; eauto | vm_compute in E; discriminate].
    + destruct (peek fs_big (wrap32 (bitmap fs_big + 4 * 1))) eqn:E;
        [simpl; eauto | vm_compute in E; discriminate].
  - intros bno Hbno.
    change (nblocks_of (11 * 4096)) with 11 in Hbno.
    change (nblocks_of (12 * 4096)) with 12 in Hbno.
    assert (bno = 11) as -> by lia.
    exists 22. split; [vm_compute; reflexivity|]. intros _. lia.
Defined.

(** * Instances on the small file system *)

Ltac small_fs_ready := repeat split; try (vm_compute; congruence).
Ltac small_root_at :=
  repeat split; try (vm_compute; congruence); left; split; vm_compute; congruence.

Lemma diskaddr_layout_witness :
  (3 < 64 ->
     diskaddr (P := mos) 3 fs_resident
       = Ret (@DISKMAP mos + 3 * BY2BLK) fs_resident /\
     (@DISKMAP mos + 3 * BY2BLK) mod BY2PG = 0 /\
     @DISKMAP mos + 3 * BY2BLK + BY2BLK <= @DISKMAP mos + @DISKMAX mos /\
     forall b', 0 <= b' < 64 -> b' <> 3 ->
       VPN (@DISKMAP mos + b' * BY2BLK) <> VPN (@DISKMAP mos + 3 * BY2BLK)) /\
  (64 <= 3 -> diskaddr (P := mos) 3 fs_resident = Panic).
Proof.
  apply (diskaddr_layout (P := mos) fs_resident 64 3).
  - small_fs_ready.
  - lia.
Defined.

Lemma free_block_marks_free_witness :
  free_block 0 fs_resident = Panic /\
  exists s', free_block 5 fs_resident = Ret tt s' /\
    block_is_free 5 s' = Ret 1 s' /\
    (forall b', 0 <= b' < 64 -> b' <> 5 ->
       bitmap_bit s' b' = bitmap_bit fs_resident b') /\
    (forall va, aligned va -> va <> bitmap_va fs_resident 5 ->
       peek s' va = peek fs_resident va).
Proof.
  apply (free_block_marks_free (P := mos) fs_resident 64 5).
  - small_fs_ready.
  - lia.
  - vm_compute. eauto.
Defined.

Lemma alloc_block_sound_witness :
  exists s', alloc_block (P := mos) fs_stale = Ret 5 s' /\
    3 <= 5 < 64 /\ bitmap_bit fs_stale 5 = Some true /\
    (forall b', 3 <= b' < 5 -> bitmap_bit fs_stale b' = Some false) /\
    bitmap_bit s' 5 = Some false /\
    (forall b', 0 <= b' < 64 -> b' <> 5 ->
       bitmap_bit s' b' = bitmap_bit fs_stale b') /\
    mapped (P := mos) s' (block_va (P := mos) 5) = true.
Proof.
  eexists. split; [vm_compute; reflexivity|].
  apply (alloc_block_sound (P := mos) fs_stale _ 64 5).
  - small_fs_ready.
  - intros i Hi. change (2 + (64 + BIT2BLK - 1) / BIT2BLK) with 3 in Hi.
    assert (i = 2) as -> by lia. vm_compute. reflexivity.
  - vm_compute. reflexivity.
  - lia.
Defined.

Lemma write_block_stores_page_witness :
  (mapped (P := mos) fs_resident (block_va (P := mos) 3) = false ->
   write_block (P := mos) 3 fs_resident = Panic) /\
  (forall perm ws,
     pages fs_resident !! VPN (block_va (P := mos) 3) = Some (perm, ws) ->
     Z.land perm (@PTE_V mos) <> 0 ->
     exists s', write_block (P := mos) 3 fs_resident = Ret tt s' /\
       disk s' !! wrap32 (3 * @SECT2BLK mos) = Some ws /\
       (forall sec, sec <> wrap32 (3 * @SECT2BLK mos) ->
          disk s' !! sec = disk fs_resident !! sec) /\
       same_mem fs_resident s' /\
       (forall va, mapped (P := mos) s' va = mapped (P := mos) fs_resident va) /\
       pages s' !! VPN (block_va (P := mos) 3)
       = Some (Z.lor (Z.lor (@PTE_V mos) (@PTE_R mos)) (@PTE_LIBRARY mos), ws) /\
       (forall vp, vp <> VPN (block_va (P := mos) 3) ->
          pages s' !! vp = pages fs_resident !! vp)).
Proof.
  apply (write_block_stores_page (P := mos) fs_resident 64 3).
  - small_fs_ready.
  - lia.
Defined.

Lemma unmap_block_drops_page_witness :
  (mapped (P := mos) fs_resident (block_va (P := mos) 3) = false ->
   unmap_block (P := mos) 3 fs_resident = Ret tt fs_resident) /\
  (mapped (P := mos) fs_resident (block_va (P := mos) 3) = true ->
   exists s', unmap_block (P := mos) 3 fs_resident = Ret tt s' /\
     mapped (P := mos) s' (block_va (P := mos) 3) = false /\
     (forall va, VPN va <> VPN (block_va (P := mos) 3) ->
        peek s' va = peek fs_resident va /\
        mapped (P := mos) s' va = mapped (P := mos) fs_resident va) /\
     disk s' = disk fs_resident /\ ide_log s' = ide_log fs_resident).
Proof.
  apply (unmap_block_drops_page (P := mos) fs_resident 64 3).
  - small_fs_ready.
  - lia.
  - lia.
  - vm_compute. eauto.
Defined.

Lemma read_block_guards_witness :
  (64 <= 3 -> read_block (P := mos) 3 fs_resident = Panic) /\
  (3 < 64 -> bitmap fs_resident <> 0 -> bitmap_bit fs_resident 3 = Some true ->
   read_block (P := mos) 3 fs_resident = Panic) /\
  (3 < 64 -> bitmap fs_resident = 0 \/ bitmap_bit fs_resident 3 = Some false ->
   mapped (P := mos) fs_resident (block_va (P := mos) 3) = true ->
   read_block (P := mos) 3 fs_resident
     = Ret (0, @DISKMAP mos + 3 * BY2BLK, 0) fs_resident).
Proof.
  apply (read_block_guards (P := mos) fs_resident 64 3).
  - small_fs_ready.
  - lia.
Defined.

Lemma read_block_loads_witness :
  exists s', read_block (P := mos) 3 fs_cold
               = Ret (0, @DISKMAP mos + 3 * BY2BLK, 1) s' /\
    mapped (P := mos) s' (block_va (P := mos) 3) = true /\
    (forall va, VPN va = VPN (block_va (P := mos) 3) ->
       peek s' va
       = wrap32 <$> default zero_page
                      (disk fs_cold !! wrap32 (3 * @SECT2BLK mos)) !! word_ix va) /\
    (forall va, VPN va <> VPN (block_va (P := mos) 3) ->
       peek s' va = peek fs_cold va /\
       mapped (P := mos) s' va = mapped (P := mos) fs_cold va) /\
    kfree s' = [] /\ disk s' = disk fs_cold /\ ide_log s' = ide_log fs_cold.
Proof.
  apply (read_block_loads (P := mos) fs_cold 64 3 zero_page []).
  - small_fs_ready.
  - lia.
  - right. vm_compute. reflexivity.
  - vm_compute. reflexivity.
  - reflexivity.
Defined.

Lemma write_unmap_read_round_trip_witness :
  exists s',
    (write_block (P := mos) 3;; unmap_block (P := mos) 3;;
     read_block (P := mos) 3)%fs fs_warm
      = Ret (0, block_va (P := mos) 3, 1) s' /\
    pages s' !! VPN (block_va (P := mos) 3)
      = Some (Z.lor (@PTE_V mos) (@PTE_R mos), page_of [(0%nat, 42)]) /\
    disk s' !! wrap32 (3 * @SECT2BLK mos) = Some (page_of [(0%nat, 42)]) /\
    (forall va, VPN va <> VPN (block_va (P := mos) 3) ->
       peek s' va = peek fs_warm va).
Proof.
  apply (write_unmap_read_round_trip (P := mos) fs_warm 64 3 1536
           (page_of [(0%nat, 42)]) zero_page []).
  - small_fs_ready.
  - split; vm_compute; congruence.
  - vm_compute. reflexivity.
  - vm_compute. reflexivity.
  - vm_compute. discriminate.
  - reflexivity.
Defined.

Lemma file_layer_rejects_large_filebno_witness :
  file_block_walk (P := mos) small_root 1024 0 1 fs_resident
    = Ret (- @E_INVAL mos, 0) fs_resident /\
  file_map_block (P := mos) small_root 1024 0 1 fs_resident
    = Ret (- @E_INVAL mos, 0) fs_resident /\
  file_get_block (P := mos) small_root 1024 0 fs_resident
    = Ret (- @E_INVAL mos, 0) fs_resident /\
  file_clear_block (P := mos) small_root 1024 fs_resident
    = Ret (- @E_INVAL mos) fs_resident /\
  file_dirty (P := mos) small_root MAXFILESIZE fs_resident
    = Ret (- @E_INVAL mos) fs_resident.
Proof.
  apply (file_layer_rejects_large_filebno (P := mos) fs_resident small_root 1024
           0 0 0 1 MAXFILESIZE).
  - vm_compute. discriminate.
  - lia.
Defined.

Lemma file_map_block_lookup_witness :
  (NDIRECT <= 11 -> 20 = 0 ->
   file_map_block (P := mos) small_root 11 0 0 fs_big
     = Ret (- @E_NOT_FOUND mos, 0) fs_big) /\
  (forall v,
     (NDIRECT <= 11 -> 20 <> 0 /\ indirect_ok (P := mos) fs_big 64 1 20) ->
     peek fs_big (slot_va (P := mos) small_root 20 11) = Some v ->
     file_map_block (P := mos) small_root 11 0 0 fs_big
       = Ret (if v =? 0 then (- @E_NOT_FOUND mos, 0) else (0, v)) fs_big /\
     (v <> 0 -> v < 64 -> bitmap_bit fs_big v = Some false ->
      mapped (P := mos) fs_big (block_va (P := mos) v) = true ->
      file_get_block (P := mos) small_root 11 0 fs_big
        = Ret (0, @DISKMAP mos + v * BY2BLK) fs_big)).
Proof.
  apply (file_map_block_lookup (P := mos) fs_big 64 small_root 1 8 20 11 0 0).
  - small_fs_ready.
  - small_root_at.
  - vm_compute. split; congruence.
  - vm_compute. reflexivity.
Defined.

Lemma file_get_block_allocates_witness :
  exists s',
    file_get_block (P := mos) small_root 0 0 fs_stale
      = Ret (0, block_va (P := mos) 5) s' /\
    peek s' (slot_va (P := mos) small_root 0 0) = Some 5 /\
    bitmap_bit s' 5 = Some false /\
    mapped (P := mos) s' (block_va (P := mos) 5) = true /\
    (forall i, 0 <= i < NINDIRECT ->
       peek s' (block_va (P := mos) 5 + 4 * i)
       = if mapped (P := mos) fs_stale (block_va (P := mos) 5)
         then peek fs_stale (block_va (P := mos) 5 + 4 * i)
         else fresh_word fs_stale (block_va (P := mos) 5 + 4 * i)) /\
    (forall bno', 0 <= bno' < NINDIRECT -> bno' <> 0 ->
       (NDIRECT <= bno' -> 0 <> 0 /\ indirect_ok (P := mos) fs_stale 64 1 0) ->
       peek s' (slot_va (P := mos) small_root 0 bno')
       = peek fs_stale (slot_va (P := mos) small_root 0 bno')).
Proof.
  apply (file_get_block_allocates (P := mos) fs_stale 64 small_root 1 8 0 0 0 5).
  - small_fs_ready.
  - small_root_at.
  - vm_compute. split; congruence.
  - vm_compute. reflexivity.
  - intros H. vm_compute in H. contradiction H. reflexivity.
  - vm_compute. reflexivity.
  - split; [lia|]. split; [vm_compute; reflexivity|].
    intros b' Hb'. assert (b' = 3 \/ b' = 4) as [-> | ->] by lia;
      vm_compute; reflexivity.
  - split; vm_compute; congruence.
  - vm_compute. reflexivity.
  - vm_compute. reflexivity.
  - left. vm_compute. reflexivity.
Defined.

Lemma file_set_size_grows_witness :
  exists s', file_set_size (P := mos) small_root (2000 * 4096) fs_resident = Ret 0 s' /\
    peek s' (f_size small_root) = Some (2000 * 4096) /\
    (forall va, aligned va -> va <> f_size small_root ->
       peek s' va = peek fs_resident va) /\
    (forall va, mapped (P := mos) s' va = mapped (P := mos) fs_resident va) /\
    disk s' = disk fs_resident /\ kfree s' = kfree fs_resident.
Proof.
  apply (file_set_size_grows (P := mos) fs_resident small_root 4096 (2000 * 4096)).
  - vm_compute. discriminate.
  - reflexivity.
  - vm_compute. discriminate.
  - vm_compute. reflexivity.
  - lia.
  - vm_compute. reflexivity.
Defined.

Lemma root_path_resolves_witness :
  walk_path (P := mos) [47; 47] [] fs_resident
    = Ret (0, 0, wrap32 (super fs_resident + S_ROOT), []) fs_resident /\
  file_open (P := mos) [47; 47] 0 fs_resident
    = Ret (0, wrap32 (super fs_resident + S_ROOT)) fs_resident /\
  file_create (P := mos) [47; 47] 0 fs_resident
    = Ret (- @E_FILE_EXISTS mos, 0) fs_resident.
Proof.
  apply (root_path_resolves (P := mos) fs_resident [47; 47] [] 0).
  reflexivity.
Defined.

(** * Instances on the small kernel *)


(** The same call when no page is free: the child lacks the page table, the
    call returns [-E_NO_MEM] and changes nothing. *)
Example sys_mem_map_no_memory :
  sys_mem_map (P := mos) 0 (1024 * 4096) 2050 (1024 * 4096) 1537 fork_kernel_full
    = KRet (- @E_NO_MEM mos) fork_kernel_full.
Proof. vm_compute. reflexivity. Qed.

(** An id whose index holds an environment with another id: the call
    returns 1, not [-E_BAD_ENV], and changes nothing. *)
Example sys_mem_map_bad_envid :
  envid2env (P := mos) 3074 false fork_kernel
    = KRet (- @E_BAD_ENV mos, None) fork_kernel /\
  sys_mem_map (P := mos) 0 (1024 * 4096) 3074 (1024 * 4096) 1537 fork_kernel
    = KRet 1 fork_kernel.
Proof. split; vm_compute; reflexivity. Qed.

Lemma fork_leaves_the_rest_witness :
  exists k', fork_pages (P := mos) 2050 fork_kernel = KRet tt k' /\
    curenv k' = curenv fork_kernel /\
    (forall j, j <> curenv fork_kernel -> j <> @ENVX mos 2050 ->
       envs k' !! j = envs fork_kernel !! j) /\
    forall j e, envs fork_kernel !! j = Some e ->
      exists e', envs k' !! j = Some e' /\
        env_id e' = env_id e /\ env_parent_id e' = env_parent_id e /\
        env_status e' = env_status e /\
        forall pn, pn < 0 \/ PPN (@USTACKTOP mos - BY2PG) <= pn ->
          default 0 (pte_of (env_pgdir e') pn) = default 0 (pte_of (env_pgdir e) pn).
Proof.
  eexists. split; [vm_compute; reflexivity|].
  apply (fork_leaves_the_rest (P := mos) 2050 fork_kernel).
  vm_compute. reflexivity.
Defined.

Ltac below n i H :=
  let rec go k :=
    lazymatch k with
    | O => exfalso; lia
    | S ?k' =>
        let E := fresh in
        destruct (Z.eq_dec i (Z.of_nat k')) as [E|E];
        [subst i; vm_compute; eauto | go k']
    end in
  go n.

Lemma user_bzero_clears_witness :
  exists s', user_bzero (P := mos) 4198404 6 user_mem = Ret tt s' /\
    (forall i, 0 <= i < 6 -> peek8 s' (4198404 + i) = Some 0) /\
    (forall a, a < 4198404 \/ 4198404 + 6 <= a -> peek8 s' a = peek8 user_mem a).
Proof.
  apply (user_bzero_clears (P := mos) user_mem 4198404 6); try lia.
  - intros i Hi. below 6%nat i Hi.
  - intros i Hi. below 6%nat i Hi.
Defined.

Lemma user_bcopy_copies_witness :
  exists s', user_bcopy (P := mos) 4194304 4198416 6 user_mem = Ret tt s' /\
    (forall i, 0 <= i < 6 -> peek8 s' (4198416 + i) = peek8 user_mem (4194304 + i)) /\
    (forall a, a < 4198416 \/ 4198416 + 6 <= a -> peek8 s' a = peek8 user_mem a).
Proof.
  apply (user_bcopy_copies (P := mos) user_mem 4194304 4198416 6); try lia.
  - intros i Hi. split; below 6%nat i Hi.
  - intros i Hi. below 6%nat i Hi.
Defined.

Lemma pgfault_copies_page_witness :
  exists s', pgfault (P := mos) 4194324 user_mem = Ret tt s' /\
    fst <$> pages s' !! VPN 4194324 = Some (Z.lxor (Z.land 1537 4095) (@PTE_COW mos)) /\
    Z.land (Z.lxor (Z.land 1537 4095) (@PTE_COW mos)) (@PTE_COW mos) = 0 /\
    (forall a, VPN a = VPN 4194324 -> peek s' a = peek user_mem a) /\
    pages s' !! VPN (@USTACKTOP mos) = None /\
    (forall a, VPN a <> VPN 4194324 -> VPN a <> VPN (@USTACKTOP mos) ->
       peek s' a = peek user_mem a /\
       mapped (P := mos) s' a = mapped (P := mos) user_mem a) /\
    kfree s' = [].
Proof.
  apply (pgfault_copies_page (P := mos) user_mem 4194324 1537
           (page_of [(0%nat, 7); (1%nat, 16909060); (5%nat, 9)]) zero_page []);
    try (vm_compute; congruence); try reflexivity.
  split; vm_compute; congruence.
Defined.

(** On [user_mem_ro] the page at 0x400000 is copy-on-write but not
    write-enabled, and so is the scratch page that the handler maps: the
    handler stops at its first store to it. *)
Example pgfault_without_write_enable :
  pgfault (P := mos) 4194324 user_mem_ro = Fault.
Proof. vm_compute. reflexivity. Qed.

Lemma sched_yield_round_robin_witness :
  sched_yield (X := mos_ext) 6 4 sched_kernel
  = KRet 2 (mkKernel (envs sched_kernel) 2 (nfree sched_kernel)).
Proof.
  apply (proj1 (sched_yield_round_robin (X := mos_ext) sched_kernel 4
                  ltac:(lia)
                  ltac:(intros i Hi; below 6%nat i Hi)) 4 6%nat).
  - lia.
  - reflexivity.
  - intros t Ht. below 4%nat t Ht.
  - vm_compute. lia.
Defined.

Lemma mkenvid_unique_witness :
  snd (mkenvid (X := mos_ext) 0 2) = 0 + 1 /\
  0 < fst (mkenvid (X := mos_ext) 0 2) < 2 ^ 32 /\
  @ENVX mos (fst (mkenvid (X := mos_ext) 0 2)) = 2 /\
  (forall next2 idx2,
     0 <= idx2 < 2 ^ 10 -> 0 <= next2 -> next2 + 1 < 2 ^ (31 - 10) ->
     fst (mkenvid (X := mos_ext) next2 idx2) = fst (mkenvid (X := mos_ext) 0 2) ->
     next2 = 0 /\ idx2 = 2) /\
  (forall k e cur chk,
     envs k !! 2 = Some e -> env_id e = fst (mkenvid (X := mos_ext) 0 2) ->
     env_status e <> @ENV_FREE mos -> envs k !! curenv k = Some cur ->
     (chk = true -> 2 = curenv k \/ env_parent_id e = env_id cur) ->
     envid2env (P := mos) (fst (mkenvid (X := mos_ext) 0 2)) chk k
     = KRet (0, Some 2) k) /\
  fst (mkenvid (X := mos_ext) (2 ^ (31 - 10) - 1) 0) = 0.
Proof.
  apply (mkenvid_unique (X := mos_ext) 0 2); vm_compute; try split; congruence.
Defined.

Lemma fd_table_round_trip_witness :
  fd2num (INDEX2FD 3 + 12) = 3 /\
  num2fd (fd2num (INDEX2FD 3 + 12)) = INDEX2FD 3 /\
  fd2data (INDEX2FD 3 + 12) = FILEBASE + 3 * PDMAP /\
  INDEX2FD 3 + BY2PG <= FILEBASE /\
  FILEBASE + 3 * PDMAP + PDMAP < 2 ^ 32 /\
  forall j, 0 <= j < MAXFD -> j <> 3 ->
    VPN (INDEX2FD j) <> VPN (INDEX2FD 3) /\
    (fd2data (INDEX2FD j) + PDMAP <= fd2data (INDEX2FD 3) \/
     fd2data (INDEX2FD 3) + PDMAP <= fd2data (INDEX2FD j)).
Proof.
  apply (fd_table_round_trip 3 12); vm_compute; try split; congruence.
Defined.

Lemma fd_alloc_map_lookup_witness :
  0 <= fd2num (FDTABLE + 2 * BY2PG) < MAXFD /\
  num2fd (fd2num (FDTABLE + 2 * BY2PG)) = FDTABLE + 2 * BY2PG /\
  fd_lookup (P := mos) (fd2num (FDTABLE + 2 * BY2PG)) fd_mem
    = Ret (- @E_INVAL mos, None) fd_mem /\
  exists s1,
    syscall_mem_alloc (P := mos) (FDTABLE + 2 * BY2PG) 1540 fd_mem = Ret 0 s1 /\
    fd_lookup (P := mos) (fd2num (FDTABLE + 2 * BY2PG)) s1
      = Ret (0, Some (FDTABLE + 2 * BY2PG)) s1 /\
    (forall r s1', fd_alloc (X := mos_ext) s1
                   <> Ret (r, Some (FDTABLE + 2 * BY2PG)) s1') /\
    exists s2, fd_close (FDTABLE + 2 * BY2PG) s1 = Ret tt s2 /\
      fd_alloc (X := mos_ext) s2 = Ret (0, Some (FDTABLE + 2 * BY2PG)) s2 /\
      fd_lookup (P := mos) (fd2num (FDTABLE + 2 * BY2PG)) s2
        = Ret (- @E_INVAL mos, None) s2.
Proof.
  apply (fd_alloc_map_lookup (X := mos_ext) fd_mem (FDTABLE + 2 * BY2PG) 1540
           zero_page []).
  - vm_compute. reflexivity.
  - vm_compute. congruence.
  - reflexivity.
  - vm_compute. congruence.
  - reflexivity.
Defined.

Lemma read_super_validates_witness :
  exists s', read_super (P := mos) fs_boot = Ret tt s' /\
    super s' = block_va (P := mos) 1 /\ fs_loaded (P := mos) s' 64 /\
    peek s' (super s' + S_MAGIC) = Some FS_MAGIC /\
    pages s' !! VPN (block_va (P := mos) 1)
      = Some (Z.lor (@PTE_V mos) (@PTE_R mos),
              page_of [(0%nat, 1747476631); (1%nat, 64)]) /\
    (forall vp, vp <> VPN (block_va (P := mos) 1) ->
       pages s' !! vp = pages fs_boot !! vp) /\
    disk s' = disk fs_boot /\ ide_log s' = ide_log fs_boot /\ kfree s' = [] /\
    bitmap s' = 0.
Proof.
  apply (proj2 (proj2 (read_super_validates (P := mos) fs_boot FS_MAGIC 64
                         (page_of [(0%nat, 1747476631); (1%nat, 64)]) zero_page []
                         eq_refl eq_refl
                         ltac:(vm_compute; reflexivity)
                         ltac:(vm_compute; reflexivity) eq_refl
                         ltac:(vm_compute; reflexivity)
                         ltac:(vm_compute; reflexivity)
                         ltac:(vm_compute; reflexivity)
                         ltac:(vm_compute; split; congruence)
                         ltac:(lia)))).
  - reflexivity.
  - vm_compute. congruence.
Defined.

Ltac record_below n j :=
  let rec go k :=
    lazymatch k with
    | O => exfalso; lia
    | S ?k' =>
        let E := fresh in
        destruct (Z.eq_dec j (Z.of_nat k')) as [E|E];
        [subst j; split;
         [split;
          [intros [|[|i]] c Hc; try discriminate Hc; injection Hc as <-;
           vm_compute; reflexivity
          |vm_compute; reflexivity]
         |split; [repeat constructor; discriminate
                 |split; [vm_compute; lia|vm_compute; eauto]]]
        | go k']
    end in
  go n.

Lemma fs_two_listing :
  dir_listing (P := mos) fs_two 64 small_root 1 0 (nblocks_of 4096)
    (fun _ => 3) fs_two_names.
Proof.
  intros i Hi. change (nblocks_of 4096) with 1 in Hi.
  assert (i = 0) as -> by lia.
  split; [intros H; exfalso; unfold NDIRECT in H; lia|].
  split; [vm_compute; reflexivity|].
  split; [vm_compute; split; congruence|].
  split; [vm_compute; reflexivity|].
  split; [vm_compute; reflexivity|].
  intros j Hj. change FILE2BLK with 16 in Hj. record_below 16%nat j.
Qed.

Lemma dir_lookup_finds_witness :
  exists s',
    dir_lookup (P := mos) small_root [98] 0 fs_two
      = Ret (0, record_va (P := mos) 3 1) s' /\
    peek s' (f_dir (record_va (P := mos) 3 1)) = Some small_root /\
    (forall va, aligned va -> va <> f_dir (record_va (P := mos) 3 1) ->
       peek s' va = peek fs_two va) /\
    (forall va, mapped (P := mos) s' va = mapped (P := mos) fs_two va) /\
    disk s' = disk fs_two /\ ide_log s' = ide_log fs_two /\
    kfree s' = kfree fs_two.
Proof.
  apply (proj1 (dir_lookup_finds (P := mos) fs_two 64 small_root 1 8 4096 0
                  (fun _ => 3) fs_two_names [98] 0
                  ltac:(small_fs_ready) ltac:(small_root_at)
                  ltac:(vm_compute; reflexivity) ltac:(vm_compute; reflexivity)
                  ltac:(vm_compute; congruence) fs_two_listing
                  ltac:(repeat constructor; discriminate)) 0 1).
  - vm_compute. split; congruence.
  - vm_compute. split; congruence.
  - reflexivity.
  - intros i' j' Hi' Hj' Hlt. change FILE2BLK with 16 in *.
    assert (j' = 0) as -> by lia. discriminate.
Defined.

Lemma file_open_finds_witness :
  exists s',
    file_open (P := mos) [47; 47; 98] 0 fs_two
      = Ret (0, record_va (P := mos) 3 1) s' /\
    peek s' (f_dir (record_va (P := mos) 3 1)) = Some small_root /\
    (forall va, aligned va -> va <> f_dir (record_va (P := mos) 3 1) ->
       peek s' va = peek fs_two va) /\
    (forall va, mapped (P := mos) s' va = mapped (P := mos) fs_two va) /\
    disk s' = disk fs_two /\ ide_log s' = ide_log fs_two /\
    kfree s' = kfree fs_two.
Proof.
  apply (proj1 (file_open_finds (P := mos) fs_two 64 small_root 4096 0
                  (fun _ => 3) fs_two_names [47; 47; 98] [98] 0
                  ltac:(small_fs_ready) ltac:(small_root_at)
                  ltac:(vm_compute; reflexivity)
                  ltac:(vm_compute; reflexivity) ltac:(vm_compute; reflexivity)
                  ltac:(vm_compute; congruence) fs_two_listing
                  eq_refl ltac:(discriminate)
                  ltac:(repeat constructor; discriminate)
                  ltac:(vm_compute; reflexivity)) 0 1).
  - vm_compute. split; congruence.
  - vm_compute. split; congruence.
  - reflexivity.
  - intros i' j' Hi' Hj' Hlt. change FILE2BLK with 16 in *.
    assert (j' = 0) as -> by lia. discriminate.
Defined.

Lemma dir_alloc_file_first_free_witness :
  dir_alloc_file (P := mos) small_root 0 fs_two
  = Ret (0, record_va (P := mos) 3 2) fs_two.
Proof.
  apply (dir_alloc_file_first_free (P := mos) fs_two 64 small_root 1 8 4096 0
           (fun _ => 3) fs_two_names 0 0 2
           ltac:(small_fs_ready) ltac:(small_root_at)
           ltac:(vm_compute; reflexivity) ltac:(vm_compute; reflexivity)
           ltac:(vm_compute; congruence) fs_two_listing).
  - vm_compute. split; congruence.
  - vm_compute. split; congruence.
  - reflexivity.
  - intros i' j' Hi' Hj' Hlt. change FILE2BLK with 16 in *.
    assert (j' = 0 \/ j' = 1) as [-> | ->] by lia; discriminate.
Defined.
